(** * Meme-Stock-Tracker: a shallow embedding of [meme_stock_tracker.py]

    The program is glue code around four library facilities: [configparser]
    (the INI file [config.ini]), [datetime.strptime] (validation of the
    schedule time), [str.format] (the prompt template) and [tenacity.retry]
    (the bounded retry of the backend call).  The embedding models the text
    that is written to and parsed from the file, so that a value is observed
    exactly as a later [get_config_value] observes it.

    Text is a list of 8-bit code points; Python's character predicates are
    given on that range. *)

From Stdlib Require Import List Ascii String Bool Arith ZArith Lia.
Import ListNotations.

Set Implicit Arguments.

(** ** Text *)

Definition str := list ascii.

Definition py (s : string) : str := list_ascii_of_string s.
Arguments py : simpl never.

Definition LF : ascii := ascii_of_nat 10.
Definition CR : ascii := ascii_of_nat 13.
Definition TAB : ascii := ascii_of_nat 9.

Definition str_eqb (a b : str) : bool :=
  if list_eq_dec ascii_dec a b then true else false.

(** [str.isspace] on one character (code points below 256). *)
Definition isspace (c : ascii) : bool :=
  let n := nat_of_ascii c in
  ((9 <=? n) && (n <=? 13)) || ((28 <=? n) && (n <=? 32))
  || (n =? 133) || (n =? 160).

(** [str.lower] on one character (code points below 256). *)
Definition lower_char (c : ascii) : ascii :=
  let n := nat_of_ascii c in
  if ((65 <=? n) && (n <=? 90))
     || ((192 <=? n) && (n <=? 222) && negb (n =? 215))
  then ascii_of_nat (n + 32) else c.

Definition lower (s : str) : str := map lower_char s.

Fixpoint lstrip (s : str) : str :=
  match s with
  | c :: s' => if isspace c then lstrip s' else s
  | [] => []
  end.

Definition rstrip (s : str) : str := rev (lstrip (rev s)).

Definition strip (s : str) : str := rstrip (lstrip s).

Fixpoint startswith (p s : str) : bool :=
  match p, s with
  | [], _ => true
  | a :: p', b :: s' => Ascii.eqb a b && startswith p' s'
  | _ :: _, [] => false
  end.

(** [str.replace('\n', '\n\t')] *)
Definition replace_nl (s : str) : str :=
  flat_map (fun c => if Ascii.eqb c LF then [LF; TAB] else [c]) s.

(** ['\n'.join(lines)] *)
Fixpoint join_nl (ls : list str) : str :=
  match ls with
  | [] => []
  | [l] => l
  | l :: ls' => l ++ LF :: join_nl ls'
  end.

(** Text-mode reading translates every line ending to ['\n']. *)
Fixpoint universal_newlines (s : str) : str :=
  match s with
  | [] => []
  | c :: s' =>
      if Ascii.eqb c CR then
        match s' with
        | d :: s'' =>
            if Ascii.eqb d LF then LF :: universal_newlines s''
            else LF :: universal_newlines s'
        | [] => [LF]
        end
      else c :: universal_newlines s'
  end.

(** Iterating over a text file yields its lines, terminator included. *)
Fixpoint readlines (s : str) : list str :=
  match s with
  | [] => []
  | c :: s' =>
      if Ascii.eqb c LF then [c] :: readlines s'
      else match readlines s' with
           | [] => [[c]]
           | l :: ls => (c :: l) :: ls
           end
  end.

(** ** Regular expressions (the fragment the libraries use)

    A backtracking matcher in continuation-passing style: alternatives are
    tried left to right, a greedy repetition tries the longest run first and
    a lazy one the shortest, as Python's [re] does. *)

Inductive regex : Type :=
| Chr (c : ascii)
| Cls (p : ascii -> bool)
| Cat (r1 r2 : regex)
| Alt (r1 r2 : regex)
| Rep (greedy : bool) (p : ascii -> bool)
| Grp (name : string) (r : regex)
| Eol.

Definition captures := list (string * str).

Section Repetition.
Variable A : Type.
Variable p : ascii -> bool.

Fixpoint rep_greedy (s : str) (k : str -> option A) : option A :=
  match s with
  | c :: s' =>
      if p c then
        match rep_greedy s' k with
        | Some r => Some r
        | None => k s
        end
      else k s
  | [] => k []
  end.

Fixpoint rep_lazy (s : str) (k : str -> option A) : option A :=
  match k s with
  | Some r => Some r
  | None =>
      match s with
      | c :: s' => if p c then rep_lazy s' k else None
      | [] => None
      end
  end.
End Repetition.

Fixpoint exec (r : regex) (s : str) (caps : captures)
         (k : str -> captures -> option (str * captures))
  : option (str * captures) :=
  match r with
  | Chr c =>
      match s with
      | x :: s' => if Ascii.eqb x c then k s' caps else None
      | [] => None
      end
  | Cls p =>
      match s with
      | x :: s' => if p x then k s' caps else None
      | [] => None
      end
  | Cat r1 r2 => exec r1 s caps (fun s' caps' => exec r2 s' caps' k)
  | Alt r1 r2 =>
      match exec r1 s caps k with
      | Some m => Some m
      | None => exec r2 s caps k
      end
  | Rep true p => rep_greedy p s (fun s' => k s' caps)
  | Rep false p => rep_lazy p s (fun s' => k s' caps)
  | Grp name r1 =>
      exec r1 s caps
           (fun s' caps' =>
              k s' ((name, firstn (List.length s - List.length s') s) :: caps'))
  | Eol =>
      match s with
      | [] => k s caps
      | [c] => if Ascii.eqb c LF then k s caps else None
      | _ => None
      end
  end.

(** [pattern.match(s)]: anchored at the start; the result is the unmatched
    rest and the groups. *)
Definition re_match (r : regex) (s : str) : option (str * captures) :=
  exec r s [] (fun s' caps => Some (s', caps)).

Fixpoint group (name : string) (caps : captures) : str :=
  match caps with
  | [] => []
  | (n, v) :: caps' => if String.eqb n name then v else group name caps'
  end.

Definition dot (c : ascii) : bool := negb (Ascii.eqb c LF).
Definition in_range (lo hi : nat) (c : ascii) : bool :=
  (lo <=? nat_of_ascii c) && (nat_of_ascii c <=? hi).
Definition digit : ascii -> bool := in_range 48 57.

(** [pattern.search(s).start()] for the one-character class pattern. *)
Fixpoint search_start (p : ascii -> bool) (s : str) : option nat :=
  match s with
  | [] => None
  | c :: s' => if p c then Some 0 else option_map S (search_start p s')
  end.

(** ** [configparser.ConfigParser(interpolation=None)]

    Python 3.11's [RawConfigParser] with its default settings: delimiters
    [=] and [:], full-line comment prefixes [#] and [;], no inline comments,
    [strict=True], [empty_lines_in_values=True], [allow_no_value=False],
    [default_section='DEFAULT'], [optionxform = str.lower]. *)

Module ConfigParser.

Inductive Error : Type :=
| DuplicateSectionError
| DuplicateOptionError
| MissingSectionHeaderError
| ParsingError.

(** Insertion-ordered dictionaries keyed by text. *)
Section Dict.
Variable V : Type.

Definition dict := list (str * V).

Fixpoint dict_get (k : str) (d : dict) : option V :=
  match d with
  | [] => None
  | (k', v) :: d' => if str_eqb k' k then Some v else dict_get k d'
  end.

Definition dict_mem (k : str) (d : dict) : bool :=
  match dict_get k d with Some _ => true | None => false end.

(** [d[k] = v]: an existing key keeps its position. *)
Fixpoint dict_set (k : str) (v : V) (d : dict) : dict :=
  match d with
  | [] => [(k, v)]
  | (k', v') :: d' =>
      if str_eqb k' k then (k', v) :: d' else (k', v') :: dict_set k v d'
  end.
End Dict.

Definition default_section : str := py "DEFAULT".
Definition comment_prefixes : list str := [py "#"; py ";"].
Definition optionxform (optionstr : str) : str := lower optionstr.

(** [_SECT_TMPL]: an opening bracket, a greedy non-empty run of any
    characters (group [header]), a closing bracket. *)
Definition SECTCRE : regex :=
  Cat (Chr "["%char)
    (Cat (Grp "header" (Cat (Cls dot) (Rep true dot))) (Chr "]"%char)).

(** [_OPT_TMPL] with the delimiters [=] and [:]: a lazy run of any
    characters (group [option]), white space, one delimiter (group [vi]),
    white space, a greedy run of any characters (group [value]), end of
    line. *)
Definition OPTCRE : regex :=
  Cat (Grp "option" (Rep false dot))
    (Cat (Rep true isspace)
       (Cat (Grp "vi" (Alt (Chr "="%char) (Chr ":"%char)))
          (Cat (Rep true isspace)
             (Cat (Grp "value" (Rep true dot)) Eol)))).

(** [NONSPACECRE]: [\S] *)
Definition nonspace (c : ascii) : bool := negb (isspace c).

(** The parser object: [_sections] and [_defaults]. *)
Record parser (V : Type) : Type := mkParser {
  _sections : dict (dict V);
  _defaults : dict V
}.

Definition empty (V : Type) : parser V := mkParser [] [].

(** *** Reading *)

Inductive cursor : Type :=
| NoSection
| InDefaults
| InSection (name : str).

Inductive element : Type :=
| ElSection (sectname : str)
| ElOption (sectname : option str) (optname : str).

Definition element_eqb (a b : element) : bool :=
  match a, b with
  | ElSection x, ElSection y => str_eqb x y
  | ElOption (Some s) x, ElOption (Some t) y => str_eqb s t && str_eqb x y
  | ElOption None x, ElOption None y => str_eqb x y
  | _, _ => false
  end.

(** The local variables of [_read], with the parser under construction;
    values are lists of lines until [_join_multiline_values]. *)
Record rstate : Type := mkRstate {
  self : parser (list str);
  elements_added : list element;
  cursect : cursor;
  sectname : option str;
  optname : option str;
  indent_level : nat;
  e : bool
}.

Definition initial : rstate :=
  mkRstate (empty (list str)) [] NoSection None None 0 false.

(** [cursect[key]] and [cursect[key] = v] through the cursor. *)
Definition cursect_get (st : rstate) (key : str) : option (list str) :=
  match cursect st with
  | NoSection => None
  | InDefaults => dict_get key (_defaults (self st))
  | InSection name =>
      match dict_get name (_sections (self st)) with
      | Some d => dict_get key d
      | None => None
      end
  end.

Definition cursect_set (st : rstate) (key : str) (v : list str) : parser (list str) :=
  match cursect st with
  | NoSection => self st
  | InDefaults =>
      mkParser (_sections (self st)) (dict_set key v (_defaults (self st)))
  | InSection name =>
      match dict_get name (_sections (self st)) with
      | Some d =>
          mkParser (dict_set name (dict_set key v d) (_sections (self st)))
                   (_defaults (self st))
      | None => self st
      end
  end.

(** [cursect[optname].append(line)] *)
Definition cursect_append (st : rstate) (key : str) (line : str) : rstate :=
  match cursect_get st key with
  | Some lines =>
      mkRstate (cursect_set st key (lines ++ [line])) (elements_added st)
               (cursect st) (sectname st) (optname st) (indent_level st) (e st)
  | None => st
  end.

(** Truth value of [optname]: neither [None] nor empty. *)
Definition optname_true (st : rstate) : option str :=
  match cursect st, optname st with
  | NoSection, _ => None
  | _, Some (c :: o) => Some (c :: o)
  | _, _ => None
  end.

(** The branch of [_read] for a line that continues no value: a section
    header, an option line or a line that is neither. *)
Definition read_header_or_option (st : rstate) (cur_indent_level : nat)
           (value : str) : Error + rstate :=
  match re_match SECTCRE value with
  | Some (_, mo) =>
      let name := group "header" mo in
      if dict_mem name (_sections (self st)) then
        if existsb (element_eqb (ElSection name)) (elements_added st)
        then inl DuplicateSectionError
        else inr (mkRstate (self st)
                    (ElSection name :: elements_added st)
                    (InSection name) (Some name) None
                    cur_indent_level (e st))
      else if str_eqb name default_section then
        inr (mkRstate (self st) (elements_added st)
               InDefaults (Some name) None cur_indent_level (e st))
      else
        inr (mkRstate
               (mkParser (_sections (self st) ++ [(name, [])])
                         (_defaults (self st)))
               (ElSection name :: elements_added st)
               (InSection name) (Some name) None
               cur_indent_level (e st))
  | None =>
      match cursect st with
      | NoSection => inl MissingSectionHeaderError
      | _ =>
          match re_match OPTCRE value with
          | Some (_, mo) =>
              let e' :=
                match group "option" mo with
                | [] => true
                | _ :: _ => e st
                end in
              let o := optionxform (rstrip (group "option" mo)) in
              if existsb (element_eqb (ElOption (sectname st) o))
                         (elements_added st)
              then inl DuplicateOptionError
              else
                let optval := strip (group "value" mo) in
                inr (mkRstate (cursect_set st o [optval])
                       (ElOption (sectname st) o :: elements_added st)
                       (cursect st) (sectname st) (Some o)
                       cur_indent_level e')
          | None =>
              inr (mkRstate (self st) (elements_added st)
                     (cursect st) (sectname st) (optname st)
                     cur_indent_level true)
          end
      end
  end.

(** One iteration of the loop over the lines of the file. *)
Definition read_line (st : rstate) (line : str) : Error + rstate :=
  let is_comment :=
    existsb (fun prefix => startswith prefix (strip line)) comment_prefixes in
  let value := if is_comment then [] else strip line in
  match value with
  | [] =>
      match optname_true st with
      | Some o => if is_comment then inr st else inr (cursect_append st o [])
      | None => inr st
      end
  | _ :: _ =>
      let cur_indent_level :=
        match search_start nonspace line with Some i => i | None => 0 end in
      match optname_true st with
      | Some o =>
          if indent_level st <? cur_indent_level
          then inr (cursect_append st o value)
          else read_header_or_option st cur_indent_level value
      | None => read_header_or_option st cur_indent_level value
      end
  end.

Fixpoint read_lines (st : rstate) (lines : list str) : Error + rstate :=
  match lines with
  | [] => inr st
  | line :: rest =>
      match read_line st line with
      | inl err => inl err
      | inr st' => read_lines st' rest
      end
  end.

(** [_join_multiline_values] *)
Definition join_value (val : list str) : str := rstrip (join_nl val).

Definition join_options (d : dict (list str)) : dict str :=
  map (fun kv => (fst kv, join_value (snd kv))) d.

Definition _join_multiline_values (p : parser (list str)) : parser str :=
  mkParser (map (fun sd => (fst sd, join_options (snd sd))) (_sections p))
           (join_options (_defaults p)).

(** [_read] on the text of the file. *)
Definition _read (text : str) : Error + parser str :=
  match read_lines initial (readlines text) with
  | inl err => inl err
  | inr st =>
      if e st then inl ParsingError
      else inr (_join_multiline_values (self st))
  end.

(** *** The object's methods *)

Definition has_section (p : parser str) (section : str) : bool :=
  dict_mem section (_sections p).

Inductive add_result : Type :=
| Added (p : parser str)
| AddValueError
| AddDuplicateSectionError.

Definition add_section (p : parser str) (section : str) : add_result :=
  if str_eqb section default_section then AddValueError
  else if dict_mem section (_sections p) then AddDuplicateSectionError
  else Added (mkParser (_sections p ++ [(section, [])]) (_defaults p)).

(** [set]: [None] stands for [NoSectionError]. *)
Definition set (p : parser str) (section opt value : str)
  : option (parser str) :=
  match section with
  | [] => Some (mkParser (_sections p)
                         (dict_set (optionxform opt) value (_defaults p)))
  | _ :: _ =>
      if str_eqb section default_section then
        Some (mkParser (_sections p)
                       (dict_set (optionxform opt) value (_defaults p)))
      else
        match dict_get section (_sections p) with
        | Some d =>
            Some (mkParser
                    (dict_set section (dict_set (optionxform opt) value d)
                              (_sections p))
                    (_defaults p))
        | None => None
        end
  end.

(** [get(section, opt, fallback=fallback)] *)
Definition get (p : parser str) (section opt : str)
           (fallback : option str) : option str :=
  let sectiondict :=
    match dict_get section (_sections p) with
    | Some d => Some d
    | None => if str_eqb section default_section then Some [] else None
    end in
  match sectiondict with
  | None => fallback
  | Some d =>
      match dict_get (optionxform opt) d with
      | Some v => Some v
      | None =>
          match dict_get (optionxform opt) (_defaults p) with
          | Some v => Some v
          | None => fallback
          end
      end
  end.

(** *** Writing *)

Definition _write_section (section_name : str) (section_items : dict str)
  : str :=
  py "[" ++ section_name ++ py "]" ++ [LF]
  ++ List.concat (map (fun kv => fst kv ++ py " = " ++ replace_nl (snd kv) ++ [LF])
                 section_items)
  ++ [LF].

Definition write (p : parser str) : str :=
  (match _defaults p with
   | [] => []
   | _ :: _ => _write_section default_section (_defaults p)
   end)
  ++ List.concat (map (fun sd => _write_section (fst sd) (snd sd)) (_sections p)).

End ConfigParser.

(** ** [datetime.datetime.strptime(s, '%H:%M')] *)

(** The regular expression [_strptime] builds for the format [%H:%M]:
    group [H] is [2[0-3]], or [[0-1]] and a digit, or one digit; then a
    colon; group [M] is [[0-5]] and a digit, or one digit. *)
Definition TIME_RE : regex :=
  Cat (Grp "H" (Alt (Cat (Chr "2"%char) (Cls (in_range 48 51)))
                  (Alt (Cat (Cls (in_range 48 49)) (Cls digit)) (Cls digit))))
    (Cat (Chr ":"%char)
       (Grp "M" (Alt (Cat (Cls (in_range 48 53)) (Cls digit)) (Cls digit)))).

(** [int(s)] on a run of ASCII digits. *)
Definition int_of_digits (s : str) : nat :=
  fold_left (fun acc c => 10 * acc + (nat_of_ascii c - 48)) s 0.

(** [None] stands for [ValueError]: no match at the start of the text, or
    unconverted data after the match. *)
Definition strptime_HM (data_string : str) : option (nat * nat) :=
  match re_match TIME_RE data_string with
  | None => None
  | Some (rest, found) =>
      match rest with
      | [] => Some (int_of_digits (group "H" found),
                    int_of_digits (group "M" found))
      | _ :: _ => None
      end
  end.

(** ** [str.format(today_date=...)]

    The scanner of [str.format] ([MarkupIterator_next] and [parse_field]):
    doubled braces are escapes, a single closing brace is an error, an
    opening brace starts a replacement field whose name runs to the closing
    brace.  The only keyword argument is [today_date].  A field with a
    conversion ([!]) or a format specification ([:]), or one that takes an
    attribute or an item of the date, is reported as [NotElaborated]: the
    model does not say what Python produces there. *)

Inductive format_result : Type :=
| Formatted (text : str)
| FormatValueError
| FormatKeyError
| FormatIndexError
| NotElaborated.

Definition all_digits (s : str) : bool := forallb digit s.

(** The part of a field name before the first [.] or [[]. *)
Fixpoint first_part (name : str) : str :=
  match name with
  | [] => []
  | c :: name' =>
      if Ascii.eqb c "."%char || Ascii.eqb c "["%char then []
      else c :: first_part name'
  end.

Definition PY_SSIZE_T_MAX : N := 9223372036854775807%N.

(** [get_integer]: [None] when the digits overflow [Py_ssize_t]. *)
Definition get_integer (s : str) : option N :=
  fold_left
    (fun acc c =>
       match acc with
       | None => None
       | Some a =>
           let a' := (10 * a + N.of_nat (nat_of_ascii c - 48))%N in
           if (PY_SSIZE_T_MAX <? a')%N then None else Some a'
       end) s (Some 0%N).

(** The value of a replacement field, with no positional arguments and the
    single keyword argument [today_date]. *)
Definition get_field (field_name : str) (today_date : str) : format_result :=
  let first := first_part field_name in
  if str_eqb field_name (py "today_date") then Formatted today_date
  else if str_eqb first (py "today_date") then NotElaborated
  else match first with
       | [] => match field_name with
               | [] => FormatIndexError
               | _ :: _ => NotElaborated
               end
       | _ :: _ =>
           if all_digits first then
             match get_integer first with
             | Some _ => FormatIndexError
             | None => FormatValueError
             end
           else FormatKeyError
       end.

Inductive scan_mode : Type :=
| Literal
| Field (name : str) (in_bracket : bool).

Fixpoint format_scan (mode : scan_mode) (s : str) (today_date : str)
         (out : str) : format_result :=
  match mode with
  | Literal =>
      match s with
      | [] => Formatted out
      | c :: s' =>
          if Ascii.eqb c "{"%char then
            match s' with
            | [] => FormatValueError
            | d :: s'' =>
                if Ascii.eqb d "{"%char
                then format_scan Literal s'' today_date (out ++ [c])
                else format_scan (Field [] false) s' today_date out
            end
          else if Ascii.eqb c "}"%char then
            match s' with
            | [] => FormatValueError
            | d :: s'' =>
                if Ascii.eqb d "}"%char
                then format_scan Literal s'' today_date (out ++ [c])
                else FormatValueError
            end
          else format_scan Literal s' today_date (out ++ [c])
      end
  | Field name true =>
      match s with
      | [] => FormatValueError
      | c :: s' =>
          format_scan (Field (name ++ [c]) (negb (Ascii.eqb c "]"%char)))
                      s' today_date out
      end
  | Field name false =>
      match s with
      | [] => FormatValueError
      | c :: s' =>
          if Ascii.eqb c "{"%char then FormatValueError
          else if Ascii.eqb c "}"%char then
            match get_field name today_date with
            | Formatted v => format_scan Literal s' today_date (out ++ v)
            | other => other
            end
          else if Ascii.eqb c ":"%char || Ascii.eqb c "!"%char
          then NotElaborated
          else format_scan (Field (name ++ [c]) (Ascii.eqb c "["%char))
                           s' today_date out
      end
  end.

(** [template.format(today_date=today_date)] *)
Definition format (template today_date : str) : format_result :=
  format_scan Literal template today_date [].

(** ** [tenacity]: [stop_after_attempt] and [wait_exponential] *)

Definition stop_after_attempt (max_attempt_number attempt_number : nat) : bool :=
  max_attempt_number <=? attempt_number.

(** [max(max(0, min), min(multiplier * 2 ** (attempt_number - 1), max))] *)
Definition wait_exponential (multiplier min max : Z) (attempt_number : nat) : Z :=
  Z.max (Z.max 0 min)
        (Z.min (multiplier * 2 ^ Z.of_nat (attempt_number - 1)) max).

(** ** The program *)

Definition DEFAULT_PROMPT_TEMPLATE : str :=
  py "Pre-open {today_date}, list 10 likely meme stocks today. Browse, cite, and rank by buzz + "
  ++ py "squeeze risk + fresh catalyst. Give a compact table: Ticker, pre-mkt move/vol, short interest %, "
  ++ py "days-to-cover, borrow fee/utilization, options vol & put/call, retail-mention trend, catalyst note, "
  ++ py "risk flags. Then 3 runners-up and 3 bullet ‘watch items’ (levels/halts).".
Definition DEFAULT_MODEL : str := py "gemini-2.5-pro".
Definition DEFAULT_SCHEDULE_TIME_UTC : str := py "13:25".

(** The outcome of one call of [client.models.generate_content]: the
    [text] of the response (which the library may leave [None]), or an
    exception. *)
Inductive backend_outcome : Type :=
| Response (text : option str)
| BackendError.

(** What the process does to the outside, in order; a backend call is
    recorded with what it came back with. *)
Inductive event : Type :=
| Print (text : str)
| Input (prompt : str)
| Sleep (seconds : Z)
| GenerateContent (model contents : str) (outcome : backend_outcome)
| ReportWindow (report_text date_str : str)
| Schtasks (utc_time_str : str).

Inductive exn : Type :=
| EOFError
| ValueError
| TypeError
| KeyError
| IndexError
| AttributeError
| OSError
| RetryError
| APIError.

(** What the process finds around it and does not change. *)
Record environment : Type := mkEnvironment {
  argv : list str;                (* sys.argv *)
  platform : str;                 (* sys.platform *)
  genai_installed : bool;         (* whether [from google import genai] succeeds *)
  today : str;                    (* date.today().strftime("%Y-%m-%d") *)
  now : str;                      (* datetime.now().strftime('%Y-%m-%d %H:%M:%S') *)
  config_writable : bool;         (* whether open(config_path, 'w') succeeds *)
  report_writable : bool;         (* whether the report file can be opened for writing *)
  backend : nat -> str -> str -> backend_outcome;
                                  (* the n-th backend call, by model and prompt *)
  other_fields : str -> str -> str + exn;
                                  (* str.format on a template with a field the
                                     model does not elaborate *)
  genai_exceptions : bool         (* whether [genai.exceptions.APIError] can be
                                     evaluated, that is whether the package
                                     bound to [genai] has an attribute
                                     [exceptions]; the google-genai package
                                     keeps its errors in [google.genai.errors]
                                     and has none *)
}.

(** What the process changes: the text of [config.ini] ([None]: no such
    file), the report files of the base directory by name, the lines still
    to be typed at the console, the events so far and the number of backend
    calls made. *)
Record state : Type := mkState {
  config_ini : option str;
  reports : ConfigParser.dict str;
  stdin : list str;
  trace : list event;
  calls : nat
}.

(** A call returns, raises, or (in the model only) exhausts the bound put
    on a library loop; [OutOfFuel] is no Python exception and no handler
    catches it. *)
Inductive result (A : Type) : Type :=
| Ok (a : A)
| Raise (x : exn)
| OutOfFuel.
Arguments Ok {A} a.
Arguments Raise {A} x.
Arguments OutOfFuel {A}.

Definition M (A : Type) : Type := state -> result A * state.

Definition ret {A : Type} (a : A) : M A := fun st => (Ok a, st).
Definition raise {A : Type} (x : exn) : M A := fun st => (Raise x, st).
Definition bind {A B : Type} (m : M A) (f : A -> M B) : M B :=
  fun st =>
    match m st with
    | (Ok a, st') => f a st'
    | (Raise x, st') => (Raise x, st')
    | (OutOfFuel, st') => (OutOfFuel, st')
    end.

Declare Scope prog_scope.
Delimit Scope prog_scope with prog.
Notation "x <- m ;; k" := (bind m (fun x => k))
  (at level 61, m at next level, right associativity) : prog_scope.
Notation "m ;;; k" := (bind m (fun _ => k))
  (at level 61, right associativity) : prog_scope.
Open Scope prog_scope.

(** [try: body except <classes>: handler] *)
Definition try_except {A : Type} (body : M A) (catches : exn -> bool)
           (handler : exn -> M A) : M A :=
  fun st =>
    match body st with
    | (Ok a, st') => (Ok a, st')
    | (Raise x, st') => if catches x then handler x st' else (Raise x, st')
    | (OutOfFuel, st') => (OutOfFuel, st')
    end.

Definition emit (ev : event) : M unit :=
  fun st => (Ok tt, mkState (config_ini st) (reports st) (stdin st)
                            (trace st ++ [ev]) (calls st)).

(** [print]; the blank line that starts some messages and the text of an
    exception that an f-string shows are left out of [text]. *)
Definition print (text : str) : M unit := emit (Print text).

(** [input(prompt)]: the next console line, [EOFError] when there is none. *)
Definition input (prompt : str) : M str :=
  fun st =>
    match stdin st with
    | [] => (Raise EOFError, mkState (config_ini st) (reports st) []
                                     (trace st ++ [Input prompt]) (calls st))
    | line :: rest =>
        (Ok line, mkState (config_ini st) (reports st) rest
                          (trace st ++ [Input prompt]) (calls st))
    end.

(** [config.read(config_path)] on a fresh parser: a file that does not
    exist is skipped. *)
Definition read_config (st : state)
  : ConfigParser.Error + ConfigParser.parser str :=
  match config_ini st with
  | None => inr (ConfigParser.empty str)
  | Some text => ConfigParser._read (universal_newlines text)
  end.

Definition get_config_value (section key : str) (fallback : option str)
  : M (option str) :=
  fun st =>
    match config_ini st with
    | None => ret fallback st
    | Some _ =>
        match read_config st with
        | inr config => ret (ConfigParser.get config section key fallback) st
        | inl _ =>
            (print (py "Error reading config") ;;; ret fallback) st
        end
    end.

Section Program.
Variable env : environment.

Definition set_config_value (section key value : str) : M bool :=
  fun st =>
    match read_config st with
    | inl _ => (print (py "Error writing to config") ;;; ret false) st
    | inr config =>
        let added :=
          if ConfigParser.has_section config section
          then ConfigParser.Added config
          else ConfigParser.add_section config section in
        match added with
        | ConfigParser.AddValueError => raise ValueError st
        | ConfigParser.AddDuplicateSectionError =>
            (print (py "Error writing to config") ;;; ret false) st
        | ConfigParser.Added config1 =>
            match ConfigParser.set config1 section key value with
            | None => (print (py "Error writing to config") ;;; ret false) st
            | Some config2 =>
                if config_writable env then
                  (Ok true,
                   mkState (Some (ConfigParser.write config2)) (reports st)
                           (stdin st) (trace st) (calls st))
                else (print (py "Error writing to config") ;;; ret false) st
            end
        end
    end.

(** [len(sys.argv) > 1 and sys.argv[1] == 'run'] *)
Definition run_argument : bool :=
  match argv env with
  | _ :: a :: _ => str_eqb a (py "run")
  | _ => false
  end.

(** Truth value of an [Optional[str]]. *)
Definition truthy (s : option str) : bool :=
  match s with
  | Some (_ :: _) => true
  | _ => false
  end.

(** How an f-string shows an [Optional[str]]. *)
Definition show (s : option str) : str :=
  match s with
  | Some t => t
  | None => py "None"
  end.

Definition press_enter : M unit :=
  input (py "Press Enter to return to the menu...") ;;; ret tt.

(** [schedule_task]: the body of its [try] block (the conversion to local
    time and the call of [schtasks]) is the one event [Schtasks]; every
    exception of that block is caught there, and nothing in it touches
    the files. *)
Definition schedule_task (pause_on_completion : bool) : M unit :=
  let pause := if pause_on_completion then press_enter else ret tt in
  if negb (str_eqb (platform env) (py "win32")) then
    print (py "Task scheduling is only supported on Windows.") ;;; pause
  else
    utc_time_str <- get_config_value (py "Scheduler") (py "TIME_UTC")
                      (Some DEFAULT_SCHEDULE_TIME_UTC) ;;
    match utc_time_str with
    | Some (c :: t) => emit (Schtasks (c :: t)) ;;; pause
    | _ =>
        print (py "No schedule time is set. Please use the menu to set a time first.") ;;;
        pause
    end.

Definition update_schedule_time : M unit :=
  current_time <- get_config_value (py "Scheduler") (py "TIME_UTC")
                    (Some DEFAULT_SCHEDULE_TIME_UTC) ;;
  print (py "The current scheduled time is " ++ show current_time ++ py " UTC.") ;;;
  line <- input (py "Enter the new time to run daily (24-hour UTC format, e.g., 13:30): ") ;;
  let time_str := strip line in
  try_except
    (match strptime_HM time_str with
     | None => raise ValueError
     | Some _ =>
         saved <- set_config_value (py "Scheduler") (py "TIME_UTC") time_str ;;
         if saved then
           print (py "SUCCESS: Schedule time updated to " ++ time_str ++ py " UTC.") ;;;
           print (py "Applying new schedule now...") ;;;
           schedule_task false
         else print (py "ERROR: Failed to save the new time.")
     end)
    (fun x => match x with ValueError => true | _ => false end)
    (fun _ => print (py "Invalid format or time. Please use HH:MM format (e.g., 09:25 or 14:00).")) ;;;
  press_enter.

(** [Retrying.__call__] for
    [@retry(stop=stop_after_attempt(5), wait=wait_exponential(multiplier=1, min=4, max=10))]:
    call, and on an exception either give up with [RetryError] or sleep
    and call again with the next attempt number.  [fuel] bounds the
    iterations of the library's [while True]. *)
Fixpoint retrying (fuel attempt_number : nat) (gemini_model prompt : str)
  : M (option str) :=
  match fuel with
  | O => fun st => (OutOfFuel, st)
  | S fuel' =>
      fun st =>
        let outcome := backend env (calls st) gemini_model prompt in
        let st1 := mkState (config_ini st) (reports st) (stdin st)
                           (trace st ++ [GenerateContent gemini_model prompt outcome])
                           (S (calls st)) in
        match outcome with
        | Response text => (Ok text, st1)
        | BackendError =>
            if stop_after_attempt 5 attempt_number then (Raise RetryError, st1)
            else
              (emit (Sleep (wait_exponential 1 4 10 attempt_number)) ;;;
               retrying fuel' (S attempt_number) gemini_model prompt) st1
        end
  end.

(** The decorated function; the result is [response.text]. *)
Definition _call_gemini_api (gemini_model prompt : str) : M (option str) :=
  retrying 5 1 gemini_model prompt.

(** [with open(output_file_path, "w") as file: file.write(output_text)]:
    opening truncates the file before the write is attempted. *)
Definition write_report (name : str) (output_text : option str) : M unit :=
  fun st =>
    if report_writable env then
      match output_text with
      | Some text =>
          (Ok tt, mkState (config_ini st)
                          (ConfigParser.dict_set name text (reports st))
                          (stdin st) (trace st) (calls st))
      | None =>
          (Raise TypeError, mkState (config_ini st)
                          (ConfigParser.dict_set name [] (reports st))
                          (stdin st) (trace st) (calls st))
      end
    else (Raise OSError, st).

Definition report_name (today_date : str) : str :=
  today_date ++ py "_MemeStock.txt".

(** [_display_report_gui]: the window, whose own errors are caught
    inside the function. *)
Definition _display_report_gui (report_text date_str : str) : M unit :=
  print (py "Displaying report in GUI window...") ;;;
  emit (ReportWindow report_text date_str).

Definition str_format (template : option str) (today_date : str) : M str :=
  match template with
  | None => raise AttributeError
  | Some t =>
      match format t today_date with
      | Formatted text => ret text
      | FormatValueError => raise ValueError
      | FormatKeyError => raise KeyError
      | FormatIndexError => raise IndexError
      | NotElaborated =>
          match other_fields env t today_date with
          | inl text => ret text
          | inr x => raise x
          end
      end
  end.

(** The bodies of the handlers of [get_meme_stocks], by the class of the
    exception: [genai.exceptions.APIError], [KeyError], then [Exception]. *)
Definition report_failure (x : exn) : M unit :=
  match x with
  | APIError => print (py "ERROR: API call failed.")
  | KeyError => print (py "ERROR: Missing key in configuration.")
  | _ => print (py "An unexpected error occurred")
  end.

(** The [except] clauses of [get_meme_stocks].  For every exception that
    leaves the [try] block Python first evaluates the expression of the
    first clause, [genai.exceptions.APIError].  When the package has no
    attribute [exceptions] that evaluation raises [AttributeError]: the
    statement is left with it, no handler body runs and nothing is
    printed.  When it has, the exception is matched against the three
    clauses in turn. *)
Definition except_clauses (x : exn) : M unit :=
  if genai_exceptions env then report_failure x else raise AttributeError.

(** Which exceptions a [try] statement with an [except Exception] clause
    takes to its clauses: every exception of the model is an
    [Exception]. *)
Definition is_exception (x : exn) : bool := true.

Definition get_meme_stocks : M unit :=
  if negb (genai_installed env) then
    print (py "ERROR: 'google-generativeai' not installed. Run: pip install google-generativeai")
  else
    api_key <- get_config_value (py "API") (py "KEY") None ;;
    if negb (truthy api_key)
       || str_eqb (show api_key) (py "YOUR_API_KEY_HERE")
    then
      print (py "ERROR: API key not set. Please go to Settings to add your key.") ;;;
      (if run_argument then ret tt else press_enter)
    else
      try_except
        (prompt_template <- get_config_value (py "Prompt") (py "TEMPLATE")
                              (Some DEFAULT_PROMPT_TEMPLATE) ;;
         gemini_model <- get_config_value (py "API") (py "MODEL")
                           (Some DEFAULT_MODEL) ;;
         let today_date := today env in
         prompt <- str_format prompt_template today_date ;;
         print (py "Generating meme stock report for " ++ today_date
                ++ py " using model '" ++ show gemini_model ++ py "'...") ;;;
         output_text <- _call_gemini_api (show gemini_model) prompt ;;
         write_report (report_name today_date) output_text ;;;
         print (py "SUCCESS: Report saved to '" ++ report_name today_date ++ py "'") ;;;
         setting <- get_config_value (py "Settings") (py "SHOW_GUI")
                      (Some (py "true")) ;;
         match setting with
         | None => raise AttributeError
         | Some text =>
             if str_eqb (lower text) (py "true")
             then _display_report_gui (show output_text) today_date
             else print (py "GUI pop-up is disabled in settings. The report is in the text file.")
         end)
        is_exception
        except_clauses.

Definition toggle_gui : M unit :=
  current_setting_str <- get_config_value (py "Settings") (py "SHOW_GUI")
                           (Some (py "true")) ;;
  match current_setting_str with
  | None => raise AttributeError
  | Some text =>
      let is_enabled := str_eqb (lower text) (py "true") in
      let new_setting := if is_enabled then py "false" else py "true" in
      saved <- set_config_value (py "Settings") (py "SHOW_GUI") new_setting ;;
      (if saved then
         print (py "SUCCESS: GUI pop-up has been "
                ++ (if is_enabled then py "DISABLED" else py "ENABLED") ++ py ".")
       else print (py "ERROR: Failed to update the GUI setting.")) ;;;
      press_enter
  end.

(** How the [__main__] block ends: [sys.exit(0)], an exception nobody
    caught, or the call of [main_menu()]; [Unbounded] passes [OutOfFuel]
    on. *)
Inductive termination : Type :=
| SysExit (status : Z)
| Uncaught (x : exn)
| MainMenu
| Unbounded.

Definition main (st : state) : termination * state :=
  if run_argument then
    match (print (py "Automated run initiated at " ++ now env) ;;;
           get_meme_stocks ;;;
           print (py "Automated run complete.")) st with
    | (Ok _, st') => (SysExit 0, st')
    | (Raise x, st') => (Uncaught x, st')
    | (OutOfFuel, st') => (Unbounded, st')
    end
  else (MainMenu, st).
End Program.

(** ** Observations and sample inputs *)

Definition sleeps (tr : list event) : list Z :=
  flat_map (fun ev => match ev with Sleep w => [w] | _ => [] end) tr.

Definition backend_events (tr : list event) : nat :=
  List.length (filter (fun ev => match ev with GenerateContent _ _ _ => true | _ => false end) tr).

(** An environment whose backend fails on its first [failures] calls and
    then answers [answer]; the package has no attribute [exceptions]. *)
Definition sample_env (args : list str) (installed : bool) (failures : nat)
           (answer : option str) : environment :=
  mkEnvironment args (py "linux") installed (py "2025-01-02")
                (py "2025-01-02 09:25:00") true true
                (fun n _ _ => if n <? failures then BackendError
                              else Response answer)
                (fun _ _ => inr ValueError) false.

Definition sample_state (config : option str) (typed : list str) : state :=
  mkState config [] typed [] 0.

(** A state with more events in its trace. *)
Definition with_events (st : state) (new : list event) : state :=
  mkState (config_ini st) (reports st) (stdin st) (trace st ++ new) (calls st).

(** A computation that always returns, and one that never exhausts the bound
    of a library loop. *)
Definition returns {A : Type} (m : M A) : Prop :=
  forall st, exists a st', m st = (Ok a, st').

Definition bounded {A : Type} (m : M A) : Prop :=
  forall st, fst (m st) <> OutOfFuel.

(** C7 as the specification words it: the single argument [run] gives exit
    status 0, every other argument list gives the menu. *)
Definition C7_as_stated : Prop :=
  forall env st,
    ((exists prog, argv env = [prog; py "run"]) ->
     fst (main env st) = SysExit 0)
    /\ ((~ exists prog, argv env = [prog; py "run"]) ->
        fst (main env st) = MainMenu).

(** The key values that count as "not configured". *)
Definition unset_key (key : option str) : Prop :=
  key = None \/ key = Some [] \/ key = Some (py "YOUR_API_KEY_HERE").

(** C3 as the specification words it: with such a key the generator always
    prints the "not configured" message and makes no backend call. *)
Definition C3_as_stated : Prop :=
  forall env st key,
    fst (get_config_value (py "API") (py "KEY") None st) = Ok key ->
    unset_key key ->
    In (Print (py "ERROR: API key not set. Please go to Settings to add your key."))
       (trace (snd (get_meme_stocks env st)))
    /\ calls (snd (get_meme_stocks env st)) = calls st.

(** ** Templates *)

Definition placeholder : str := py "{today_date}".

Definition is_brace (c : ascii) : bool :=
  Ascii.eqb c "{"%char || Ascii.eqb c "}"%char.

Definition brace_free (s : str) : bool := forallb (fun c => negb (is_brace c)) s.

(** A template cut into brace-free texts and placeholders. *)
Inductive segment : Type :=
| Text (s : str)
| Placeholder.

Fixpoint template_of (segs : list segment) : str :=
  match segs with
  | [] => []
  | Text s :: segs' => s ++ template_of segs'
  | Placeholder :: segs' => placeholder ++ template_of segs'
  end.

Fixpoint rendering_of (segs : list segment) (today_date : str) : str :=
  match segs with
  | [] => []
  | Text s :: segs' => s ++ rendering_of segs' today_date
  | Placeholder :: segs' => today_date ++ rendering_of segs' today_date
  end.

Definition texts_brace_free (segs : list segment) : bool :=
  forallb (fun seg => match seg with Text s => brace_free s | Placeholder => true end)
          segs.

(** [template.replace("{today_date}", today_date)]: every occurrence of the
    placeholder replaced, left to right, every other character kept. *)
Fixpoint substitute (skip : nat) (template today_date : str) : str :=
  match template with
  | [] => []
  | c :: template' =>
      match skip with
      | S skip' => substitute skip' template' today_date
      | O =>
          if startswith placeholder template
          then today_date ++ substitute 11 template' today_date
          else c :: substitute 0 template' today_date
      end
  end.

(** C6 as the specification words it: rendering is the replacement of the
    placeholder and nothing else, for every template. *)
Definition C6_as_stated : Prop :=
  forall template today_date,
    format template today_date = Formatted (substitute 0 template today_date).

(** ** Reports *)

(** The text of the last backend response among some events. *)
Fixpoint last_response (tr : list event) : option (option str) :=
  match tr with
  | [] => None
  | ev :: tr' =>
      match last_response tr' with
      | Some text => Some text
      | None =>
          match ev with
          | GenerateContent _ _ (Response text) => Some text
          | _ => None
          end
      end
  end.

Definition success_message (today_date : str) : str :=
  py "SUCCESS: Report saved to '" ++ report_name today_date ++ py "'".

(** Events without the success message, and events without a response. *)
Definition no_success (today_date : str) (evs : list event) : Prop :=
  ~ In (Print (success_message today_date)) evs.

Definition no_response (evs : list event) : Prop := last_response evs = None.

(** An environment whose backend answers at once, first with one text and
    from then on with another, and a configured state. *)
Definition two_answers_env (first second : str) : environment :=
  mkEnvironment [py "meme_stock_tracker.py"; py "run"] (py "linux") true
                (py "2025-01-02") (py "2025-01-02 09:25:00") true true
                (fun n _ _ => Response (Some (if n =? 0 then first else second)))
                (fun _ _ => inr ValueError) false.

Definition configured_state : state :=
  sample_state (Some (py "[API]" ++ [LF] ++ py "key = abc" ++ [LF]
                      ++ py "[Settings]" ++ [LF] ++ py "show_gui = false" ++ [LF]))
               [].

(** ** Shapes of text *)

(** Text without white space at either end ([s.strip() == s]). *)
Definition tight (s : str) : bool :=
  match s with
  | [] => true
  | c :: _ => negb (isspace c) && negb (isspace (last s c))
  end.

Definition no_char (c : ascii) (s : str) : bool :=
  forallb (fun x => negb (Ascii.eqb x c)) s.

(** One line of text: no line break in it. *)
Definition one_line (s : str) : bool := no_char LF s && no_char CR s.

Definition is_delimiter (c : ascii) : bool :=
  Ascii.eqb c "="%char || Ascii.eqb c ":"%char.

Definition is_comment (s : str) : bool :=
  existsb (fun prefix => startswith prefix s) ConfigParser.comment_prefixes.

(** A line that [SECTCRE] matches: an opening bracket, at least one
    character, and a closing bracket somewhere after it. *)
Definition header_like (s : str) : bool :=
  match s with
  | c :: _ :: t => Ascii.eqb c "["%char && existsb (Ascii.eqb "]"%char) t
  | _ => false
  end.

(** ** What the two patterns of [configparser] match

    [OPTCRE] on a line: the option is the text before the first run of
    white space that ends in a delimiter, the value is what follows that
    delimiter without its leading white space. *)
Definition after_delimiter (s : str) : option str :=
  match lstrip s with
  | d :: rest => if is_delimiter d then Some (lstrip rest) else None
  | [] => None
  end.

Fixpoint option_split (v : str) : option (str * str) :=
  match after_delimiter v with
  | Some value => Some ([], value)
  | None =>
      match v with
      | [] => None
      | c :: v' =>
          if dot c then
            match option_split v' with
            | Some (o, value) => Some (c :: o, value)
            | None => None
            end
          else None
      end
  end.

(** [SECTCRE] on a line without line feed: the header runs from the second
    character to the last closing bracket. *)
Fixpoint before_last_bracket (s : str) : option str :=
  match s with
  | [] => None
  | c :: s' =>
      match before_last_bracket s' with
      | Some h => Some (c :: h)
      | None => if Ascii.eqb c "]"%char then Some [] else None
      end
  end.

Definition header_of (v : str) : option str :=
  match v with
  | b :: c :: t =>
      if Ascii.eqb b "["%char then
        match before_last_bracket t with
        | Some h => Some (c :: h)
        | None => None
        end
      else None
  | _ => None
  end.

(** The parts of [OPTCRE] after the option and after the white space that
    follows it. *)
Definition OPT_VALUE : regex :=
  Cat (Rep true isspace) (Cat (Grp "value" (Rep true dot)) Eol).

Definition OPT_DELIM : regex :=
  Cat (Grp "vi" (Alt (Chr "="%char) (Chr ":"%char))) OPT_VALUE.

(** Text that is empty or ends with a character that is not white space. *)
Definition ends_nonspace (k : str) : bool :=
  match k with
  | [] => true
  | c :: _ => negb (isspace (last k c))
  end.

Definition no_delimiter (k : str) : bool :=
  forallb (fun c => negb (is_delimiter c)) k.

(** ** Stores that the file format keeps

    A value is kept as its lines: the first line and the continuation
    lines.  A line has no line break and no white space at its ends; a
    continuation line does not look like a comment; the first line, after
    its key, does not look like a section header. *)
Definition line_ok (l : str) : bool := one_line l && tight l.

Definition continuation_ok (l : str) : bool := line_ok l && negb (is_comment l).

Definition name_ok (name : str) : bool :=
  match name with
  | [] => false
  | _ :: _ => one_line name
  end.

Definition key_ok (k : str) : bool :=
  match k with
  | [] => false
  | _ :: _ =>
      no_delimiter k && one_line k && tight k && negb (is_comment k)
      && str_eqb (lower k) k
  end.

Definition lines_ok (k : str) (ls : list str) : bool :=
  line_ok (hd [] ls) && forallb continuation_ok (tl ls)
  && negb (header_like (k ++ py " = " ++ hd [] ls)).

(** Lines without empty lines at the end. *)
Definition trimmed (ls : list str) : bool :=
  match rev ls with
  | [] => true
  | l :: _ => match l with [] => false | _ :: _ => true end
  end.

Definition options_ok (d : ConfigParser.dict (list str)) : Prop :=
  NoDup (map fst d)
  /\ Forall (fun kv => key_ok (fst kv) = true /\ lines_ok (fst kv) (snd kv) = true) d.

Definition raw_ok (p : ConfigParser.parser (list str)) : Prop :=
  NoDup (map fst (ConfigParser._sections p))
  /\ Forall (fun sd => name_ok (fst sd) = true
                       /\ fst sd <> ConfigParser.default_section
                       /\ options_ok (snd sd))
            (ConfigParser._sections p)
  /\ options_ok (ConfigParser._defaults p).

Definition raw_trimmed (p : ConfigParser.parser (list str)) : Prop :=
  Forall (fun sd => Forall (fun kv => trimmed (snd kv) = true) (snd sd))
         (ConfigParser._sections p)
  /\ Forall (fun kv => trimmed (snd kv) = true) (ConfigParser._defaults p).

(** A store is well formed when it is the joined form of such lines. *)
Definition well_formed (p : ConfigParser.parser str) : Prop :=
  exists raw,
    raw_ok raw /\ raw_trimmed raw
    /\ p = ConfigParser._join_multiline_values raw.

(** The lines [write] produces for a store given by its lines. *)
Definition item_lines (kv : str * list str) : list str :=
  (fst kv ++ py " = " ++ hd [] (snd kv))
    :: map (fun l => TAB :: l) (tl (snd kv)).

Definition section_lines (name : str) (items : ConfigParser.dict (list str))
  : list str :=
  (py "[" ++ name ++ py "]") :: flat_map item_lines items ++ [[]].

Definition file_lines (raw : ConfigParser.parser (list str)) : list str :=
  (match ConfigParser._defaults raw with
   | [] => []
   | _ :: _ => section_lines ConfigParser.default_section (ConfigParser._defaults raw)
   end)
  ++ flat_map (fun sd => section_lines (fst sd) (snd sd))
              (ConfigParser._sections raw).

(** The parser object with the dictionary [d] at the cursor. *)
Definition place (c : ConfigParser.cursor)
           (secs : ConfigParser.dict (ConfigParser.dict (list str)))
           (dflt d : ConfigParser.dict (list str))
  : ConfigParser.parser (list str) :=
  match c with
  | ConfigParser.InDefaults => ConfigParser.mkParser secs d
  | ConfigParser.InSection name => ConfigParser.mkParser (secs ++ [(name, d)]) dflt
  | ConfigParser.NoSection => ConfigParser.mkParser secs dflt
  end.

Definition cursor_fits (c : ConfigParser.cursor)
           (secs : ConfigParser.dict (ConfigParser.dict (list str))) : Prop :=
  match c with
  | ConfigParser.InDefaults => True
  | ConfigParser.InSection name => ConfigParser.dict_mem name secs = false
  | ConfigParser.NoSection => False
  end.

(** What [_read] holds for the lines of a section: every value has at
    least its first line, and the blank line that ends the section is
    taken as one more line of the last value. *)
Definition first_tail (ls : list str) : list str := hd [] ls :: tl ls.

Definition as_read (items : ConfigParser.dict (list str))
  : ConfigParser.dict (list str) :=
  map (fun kv => (fst kv, first_tail (snd kv))) items.

Definition closed (items : ConfigParser.dict (list str))
  : ConfigParser.dict (list str) :=
  match rev items with
  | [] => []
  | (k, ls) :: r => rev r ++ [(k, ls ++ [[]])]
  end.

Definition option_elements (sn : option str) (items : ConfigParser.dict (list str))
  : list ConfigParser.element :=
  rev (map (fun kv => ConfigParser.ElOption sn (fst kv)) items).

Definition last_key (items : ConfigParser.dict (list str)) (o : option str)
  : option str :=
  last (map (fun kv => Some (fst kv)) items) o.

Definition with_newline (l : str) : str := l ++ [LF].

(** The options recorded so far belong to the default section or to the
    sections [names]. *)
Definition options_known (els : list ConfigParser.element) (names : list str) : Prop :=
  forall n o,
    existsb (ConfigParser.element_eqb (ConfigParser.ElOption (Some n) o)) els = true ->
    n = ConfigParser.default_section \/ In n names.

Definition section_ok (sd : str * ConfigParser.dict (list str)) : Prop :=
  name_ok (fst sd) = true /\ fst sd <> ConfigParser.default_section
  /\ options_ok (snd sd).

(** Lines without the empty lines at their end: [_join_multiline_values]
    joins the lines and strips the white space at the end. *)
Fixpoint trim (ls : list str) : list str :=
  match ls with
  | [] => []
  | l :: ls' =>
      match trim ls' with
      | [] => match l with [] => [] | _ :: _ => [l] end
      | t :: ts => l :: t :: ts
      end
  end.

Definition trim_options (d : ConfigParser.dict (list str))
  : ConfigParser.dict (list str) :=
  map (fun kv => (fst kv, trim (snd kv))) d.

Definition trim_parser (p : ConfigParser.parser (list str))
  : ConfigParser.parser (list str) :=
  ConfigParser.mkParser
    (map (fun sd => (fst sd, trim_options (snd sd))) (ConfigParser._sections p))
    (trim_options (ConfigParser._defaults p)).

(** While [_read] runs, every value has at least its first line. *)
Definition values_nonempty (d : ConfigParser.dict (list str)) : Prop :=
  Forall (fun kv => snd kv <> []) d.

Definition parser_nonempty (p : ConfigParser.parser (list str)) : Prop :=
  Forall (fun sd => values_nonempty (snd sd)) (ConfigParser._sections p)
  /\ values_nonempty (ConfigParser._defaults p).

(** The invariant of the loop of [_read]: unless a parsing error has been
    noted, the store built so far is one the file format keeps. *)
Definition read_ok (st : ConfigParser.rstate) : Prop :=
  ConfigParser.e st = true
  \/ (raw_ok (ConfigParser.self st) /\ parser_nonempty (ConfigParser.self st)).

(** A line of a text file read with universal newlines. *)
Definition file_line (line : str) : Prop :=
  exists body, (line = body ++ [LF] \/ line = body) /\ one_line body = true.

(** ** Arguments that the file format keeps

    A key that [config.ini] gives back: not empty, no delimiter and no line
    break in it, no white space at its ends, and a first character that
    starts neither a comment nor a section header.  A value: one line
    without white space at its ends. *)
Definition plain_key (k : str) : bool :=
  match k with
  | [] => false
  | c :: _ =>
      negb (Ascii.eqb c "["%char) && no_delimiter k && one_line k && tight k
      && negb (is_comment k)
  end.

Definition plain_value (v : str) : bool := line_ok v.

(** The lines of a one-line value. *)
Definition lines_of (v : str) : list str :=
  match v with
  | [] => []
  | _ :: _ => [v]
  end.

(** What [set_config_value] does to the parsed store: the section is added
    when it is missing, then the option is set. *)
Definition updated (config : ConfigParser.parser str) (section key value : str)
  : option (ConfigParser.parser str) :=
  match (if ConfigParser.has_section config section
         then ConfigParser.Added config
         else ConfigParser.add_section config section) with
  | ConfigParser.Added config1 => ConfigParser.set config1 section key value
  | _ => None
  end.

Definition section_items {V : Type} (p : ConfigParser.parser V) (section : str)
  : ConfigParser.dict V :=
  match ConfigParser.dict_get section (ConfigParser._sections p) with
  | Some d => d
  | None => []
  end.

(** ** The claims about the config store, as the specification words them *)

(** [str.isprintable] (code points below 256). *)
Definition isprintable_char (c : ascii) : bool :=
  let n := nat_of_ascii c in
  ((32 <=? n) && (n <=? 126)) || ((161 <=? n) && negb (n =? 173)).

Definition isprintable (s : str) : bool := forallb isprintable_char s.

(** C4 as the specification words it: any printable value comes back. *)
Definition C4_as_stated : Prop :=
  forall env section key v st st' (fb : option str),
    isprintable v = true ->
    set_config_value env section key v st = (Ok true, st') ->
    fst (get_config_value section key fb st') = Ok (Some v).

(** Whether the file has the section, and the value its [DEFAULT] section
    gives to a key. *)
Definition stored_section (st : state) (section : str) : bool :=
  match read_config st with
  | inr p => ConfigParser.has_section p section
  | inl _ => false
  end.

Definition default_value (st : state) (key : str) : option str :=
  match read_config st with
  | inr p => ConfigParser.dict_get (ConfigParser.optionxform key)
                                   (ConfigParser._defaults p)
  | inl _ => None
  end.

(** C9 as the specification words it: every other pair reads as before. *)
Definition C9_as_stated : Prop :=
  forall env section key v st st' section' key' (fb : option str),
    set_config_value env section key v st = (Ok true, st') ->
    (section', key') <> (section, key) ->
    fst (get_config_value section' key' fb st')
    = fst (get_config_value section' key' fb st).

(** A run of successful [set_config_value] calls. *)
Fixpoint run_sets (env : environment) (writes : list (str * str * str))
         (st : state) : option state :=
  match writes with
  | [] => Some st
  | (section, key, value) :: rest =>
      match set_config_value env section key value st with
      | (Ok true, st') => run_sets env rest st'
      | _ => None
      end
  end.

Definition plain_write (w : str * str * str) : Prop :=
  name_ok (fst (fst w)) = true /\ plain_key (snd (fst w)) = true
  /\ plain_value (snd w) = true.

(** C5 as the specification words it: a pair that is not among the pairs
    written since the file was missing reads as the fallback. *)
Definition C5_as_stated : Prop :=
  forall env writes st0 st section key (fb : option str),
    config_ini st0 = None ->
    run_sets env writes st0 = Some st ->
    ~ In (section, key) (map fst writes) ->
    fst (get_config_value section key fb st) = Ok fb.

(** ** The GUI flag *)

(** The flag as [toggle_gui] and [get_meme_stocks] read it: the stored text
    (["true"] when there is none) in lower case is ["true"]. *)
Definition show_gui_enabled (st : state) : bool :=
  match fst (get_config_value (py "Settings") (py "SHOW_GUI") (Some (py "true")) st) with
  | Ok (Some text) => str_eqb (lower text) (py "true")
  | _ => false
  end.

Definition gui_success (status : str) : event :=
  Print (py "SUCCESS: GUI pop-up has been " ++ status ++ py ".").

(** An invocation of [toggle_gui] from [st] to [st'] was successful: it
    has printed its success message. *)
Definition toggle_succeeded (st st' : state) : Prop :=
  exists new status, trace st' = trace st ++ new /\ In (gui_success status) new.

Definition flag_text (enabled : bool) : str :=
  if enabled then py "true" else py "false".

(** ** The schedule time *)

(** The characters a pattern can consume. *)
Fixpoint chars_of (r : regex) (c : ascii) : bool :=
  match r with
  | Chr x => Ascii.eqb c x
  | Cls p => p c
  | Cat r1 r2 => chars_of r1 c || chars_of r2 c
  | Alt r1 r2 => chars_of r1 c || chars_of r2 c
  | Rep _ p => p c
  | Grp _ r1 => chars_of r1 c
  | Eol => false
  end.

(** A computation that leaves [config.ini] as it is. *)
Definition keeps_config {A : Type} (m : M A) : Prop :=
  forall st, config_ini (snd (m st)) = config_ini st.

Definition invalid_time : event :=
  Print (py "Invalid format or time. Please use HH:MM format (e.g., 09:25 or 14:00).").

(** The part of C1 about malformed input, as the specification words it:
    the inputs ["9:25"] and ["25:70"] leave the file as it is. *)
Definition C1_as_stated : Prop :=
  forall env st line rest,
    stdin st = line :: rest ->
    In line [py "9:25"; py "25:70"] ->
    config_ini (snd (update_schedule_time env st)) = config_ini st.

(** ** The settings and the menus

    What the desktop does around [edit_prompt] and the easter egg: the
    temporary file, the editor and the image window are outside the
    program, and each of them either works or makes the call raise. *)
Inductive egg_outcome : Type :=
| EggClosed        (* the window was shown and closed *)
| EggNotFound      (* FileNotFoundError *)
| EggFailed.       (* any other exception *)

Record desktop : Type := mkDesktop {
  tempfile : option exn;        (* what NamedTemporaryFile(...) and its write raise, if anything *)
  launch : str -> option exn;   (* what opening the editor raises, by sys.platform *)
  read_back : str -> str + exn; (* the temporary file read back, by the text written to it *)
  remove : option exn;          (* what os.remove raises in the finally clause *)
  easter_egg : egg_outcome
}.

Section Interactive.
Variable env : environment.
Variable desk : desktop.

Definition update_api_key : M unit :=
  line <- input (py "Please enter your new Google GenAI API key: ") ;;
  let new_key := strip line in
  match new_key with
  | [] => print (py "API key cannot be empty. No changes made.")
  | _ :: _ =>
      saved <- set_config_value env (py "API") (py "KEY") new_key ;;
      if saved then print (py "SUCCESS: API key has been updated successfully!")
      else print (py "ERROR: Failed to update API key.")
  end ;;;
  press_enter.

Definition update_model : M unit :=
  current_model <- get_config_value (py "API") (py "MODEL") (Some DEFAULT_MODEL) ;;
  print (py "The current GenAI model is: " ++ show current_model) ;;;
  line <- input (py "Enter the new model name (e.g., gemini-2.5-pro): ") ;;
  let new_model := strip line in
  match new_model with
  | [] => print (py "Model name cannot be empty. No changes made.")
  | _ :: _ =>
      saved <- set_config_value env (py "API") (py "MODEL") new_model ;;
      if saved then print (py "SUCCESS: GenAI model has been updated successfully!")
      else print (py "ERROR: Failed to update the model name.")
  end ;;;
  press_enter.

(** ["-" * 40] *)
Definition dashes : str := repeat "-"%char 40.

(** The branch of [edit_prompt] on the prompt read back. *)
Definition save_prompt (current_prompt new_prompt : str) : M unit :=
  match new_prompt with
  | [] => print (py "Prompt is empty. No changes made.")
  | _ :: _ =>
      if str_eqb new_prompt current_prompt
      then print (py "No changes detected in the prompt.")
      else
        saved <- set_config_value env (py "Prompt") (py "TEMPLATE") new_prompt ;;
        if saved then
          print (py "SUCCESS: Prompt template has been updated successfully!") ;;;
          print (py "Here is the new prompt:" ++ [LF]) ;;;
          print dashes ;;;
          print new_prompt ;;;
          print dashes
        else print (py "ERROR: Failed to update the prompt in the configuration file.")
  end.

(** [edit_prompt]: the [try] block, its [except Exception] handler, the
    [finally] clause (which removes the temporary file when its name has
    been assigned) and the last [input]. *)
Definition edit_prompt : M unit :=
  current_prompt <- get_config_value (py "Prompt") (py "TEMPLATE")
                      (Some DEFAULT_PROMPT_TEMPLATE) ;;
  try_except
    (match current_prompt with
     | None => raise TypeError
     | Some current =>
         match tempfile desk with
         | Some x => raise x
         | None =>
             print (py " Here is the current prompt:" ++ [LF]) ;;;
             print dashes ;;;
             print current ;;;
             print dashes ;;;
             print (py "Opening prompt in your default text editor...") ;;;
             print (py "Use {today_date} in your prompt to insert today's date automatically.") ;;;
             print (py "Please save your changes and close the editor to continue.") ;;;
             match launch desk (platform env) with
             | Some x => raise x
             | None =>
                 input (py "Press Enter here after you have saved and closed the text editor...") ;;;
                 match read_back desk current with
                 | inr x => raise x
                 | inl text => save_prompt current (strip text)
                 end
             end
         end
     end)
    is_exception
    (fun _ => print (py "An error occurred while trying to edit the prompt")) ;;;
  match current_prompt, tempfile desk with
  | Some _, None =>
      match remove desk with
      | Some x => raise x
      | None => ret tt
      end
  | _, _ => ret tt
  end ;;;
  press_enter.

(** [show_cookie_easter_egg]: the window itself leaves no trace in the
    model; a failure is reported and waits for a line. *)
Definition show_cookie_easter_egg : M unit :=
  match easter_egg desk with
  | EggClosed => ret tt
  | EggNotFound =>
      print (py "Oops! The easter egg image ('dog.jpg') was not found.") ;;;
      input (py "Press Enter to continue...") ;;;
      ret tt
  | EggFailed =>
      print (py "An error occurred with the easter egg") ;;;
      input (py "Press Enter to continue...") ;;;
      ret tt
  end.

(** ["=" * 46] *)
Definition rule : str := repeat "="%char 46.

Definition settings_banner : M unit :=
  print rule ;;;
  print (py "                 Settings Menu") ;;;
  print (rule ++ [LF]) ;;;
  print (py "  1) Set/Update Schedule Time (UTC)") ;;;
  print (py "  2) Update API Key") ;;;
  print (py "  3) Update GenAI Model") ;;;
  print (py "  4) View/Edit API Prompt") ;;;
  print (py "  5) Toggle GUI Pop-up") ;;;
  print (py "  6) Back to Main Menu" ++ [LF]).

(** [settings_menu]: [fuel] bounds the iterations of its [while True]. *)
Fixpoint settings_menu (fuel : nat) : M unit :=
  match fuel with
  | O => fun st => (OutOfFuel, st)
  | S fuel' =>
      settings_banner ;;;
      line <- input (py "Please enter your choice (1-6): ") ;;
      let choice := strip line in
      if str_eqb choice (py "1") then update_schedule_time env ;;; settings_menu fuel'
      else if str_eqb choice (py "2") then update_api_key ;;; settings_menu fuel'
      else if str_eqb choice (py "3") then update_model ;;; settings_menu fuel'
      else if str_eqb choice (py "4") then edit_prompt ;;; settings_menu fuel'
      else if str_eqb choice (py "5") then toggle_gui env ;;; settings_menu fuel'
      else if str_eqb choice (py "6") then ret tt
      else print (py "Invalid selection. Please try again.") ;;; settings_menu fuel'
  end.

Definition main_banner : M unit :=
  print rule ;;;
  print (py "      Meme Stock Tracker Management      ") ;;;
  print (rule ++ [LF]) ;;;
  print (py "  1) Schedule Daily Task") ;;;
  print (py "  2) Run Script Now") ;;;
  print (py "  3) Settings") ;;;
  print (py "  4) Exit" ++ [LF]).

(** [main_menu]: [fuel] bounds the iterations of its [while True] and of
    the settings menu it opens. *)
Fixpoint main_menu (fuel : nat) : M unit :=
  match fuel with
  | O => fun st => (OutOfFuel, st)
  | S fuel' =>
      main_banner ;;;
      line <- input (py "Please enter your choice (1-4): ") ;;
      let choice := strip line in
      if str_eqb choice (py "1") then schedule_task env true ;;; main_menu fuel'
      else if str_eqb choice (py "2") then get_meme_stocks env ;;; main_menu fuel'
      else if str_eqb choice (py "3") then settings_menu fuel' ;;; main_menu fuel'
      else if str_eqb choice (py "4") then print (py "Exiting.")
      else if str_eqb (lower choice) (py "cookie")
           then show_cookie_easter_egg ;;; main_menu fuel'
      else print (py "Invalid selection. Please try again.") ;;; main_menu fuel'
  end.

End Interactive.

(** ** More shapes of text and of stores *)

(** The lines of a value of several lines that the file format keeps: no
    line has white space at its ends or a line break in it, no line after
    the first looks like a comment, and the last line is not empty. *)
Definition value_lines (ls : list str) : bool :=
  forallb line_ok ls && forallb continuation_ok (tl ls) && trimmed ls.

Definition read_error : event := Print (py "Error reading config").
Definition write_error : event := Print (py "Error writing to config").

(** The answers of the settings functions. *)
Definition press_enter_prompt : event :=
  Input (py "Press Enter to return to the menu...").

(** Whether a trace has a scheduling attempt. *)
Definition is_schtasks (ev : event) : bool :=
  match ev with
  | Schtasks _ => true
  | _ => false
  end.

(** ** The generator around the backend call *)

(** The generator gets as far as the backend call: the client library is
    there, the file is read without error, the key is set, and the
    template renders. *)
Definition ready (env : environment) (st : state)
           (gemini_model prompt : str) : Prop :=
  genai_installed env = true
  /\ exists key t,
      get_config_value (py "API") (py "KEY") None st = (Ok (Some key), st)
      /\ key <> [] /\ key <> py "YOUR_API_KEY_HERE"
      /\ get_config_value (py "Prompt") (py "TEMPLATE")
                          (Some DEFAULT_PROMPT_TEMPLATE) st = (Ok (Some t), st)
      /\ get_config_value (py "API") (py "MODEL") (Some DEFAULT_MODEL) st
         = (Ok (Some gemini_model), st)
      /\ format t (today env) = Formatted prompt.

Definition generating (today_date gemini_model : str) : event :=
  Print (py "Generating meme stock report for " ++ today_date
         ++ py " using model '" ++ gemini_model ++ py "'...").

Definition unexpected_error : event := Print (py "An unexpected error occurred").

(** How [get_meme_stocks] ends once an exception that is neither an
    [APIError] nor a [KeyError] has left its [try] block, and what it has
    printed by then: the last handler reports and the function returns
    when the [except] clauses can be evaluated; otherwise
    [AttributeError] leaves the function and nothing is printed. *)
Definition clauses_result (env : environment) : result unit :=
  if genai_exceptions env then Ok tt else Raise AttributeError.

Definition clauses_report (env : environment) : list event :=
  if genai_exceptions env then [unexpected_error] else [].

Definition report_saved (today_date : str) : event :=
  Print (py "SUCCESS: Report saved to '" ++ report_name today_date ++ py "'").

(** The events of [j] failed attempts, the first of them with attempt
    number [a]: each call is followed by its wait. *)
Definition failed_attempts (gemini_model prompt : str) (a j : nat) : list event :=
  flat_map (fun i => [GenerateContent gemini_model prompt BackendError;
                      Sleep (wait_exponential 1 4 10 (a + i))])
           (seq 0 j).

(** What the generator does with the report once it is saved. *)
Definition shown (enabled : bool) (text today_date : str) : list event :=
  if enabled
  then [Print (py "Displaying report in GUI window..."); ReportWindow text today_date]
  else [Print (py "GUI pop-up is disabled in settings. The report is in the text file.")].

(** The rest of the [try] block of [get_meme_stocks] after the call. *)
Definition after_call (env : environment) (output_text : option str) : M unit :=
  write_report env (report_name (today env)) output_text ;;;
  print (py "SUCCESS: Report saved to '" ++ report_name (today env) ++ py "'") ;;;
  setting <- get_config_value (py "Settings") (py "SHOW_GUI") (Some (py "true")) ;;
  match setting with
  | None => raise AttributeError
  | Some text =>
      if str_eqb (lower text) (py "true")
      then _display_report_gui (show output_text) (today env)
      else print (py "GUI pop-up is disabled in settings. The report is in the text file.")
  end.

(** ** What a call leaves alone *)

(** [m] does not exhaust a bound of the model, and [R] relates the state
    it starts in to the state where it ends. *)
Definition steps {A : Type} (R : state -> state -> Prop) (m : M A) : Prop :=
  forall st, fst (m st) <> OutOfFuel /\ R st (snd (m st)).

(** The console input that is left is the end of what there was. *)
Definition console_shrinks (st st' : state) : Prop :=
  exists read, stdin st = read ++ stdin st'.

(** A menu loop with enough fuel for the console input that is left:
    it ends, more fuel changes nothing, and it returns only after reading
    the line of the choice [leave]. *)
Definition loop_ends (loop : nat -> M unit) (leave : str) (fuel : nat)
           (st : state) : Prop :=
  fst (loop fuel st) <> OutOfFuel
  /\ console_shrinks st (snd (loop fuel st))
  /\ (forall fuel', List.length (stdin st) < fuel' -> loop fuel' st = loop fuel st)
  /\ (forall st', loop fuel st = (Ok tt, st') ->
                  exists read line,
                    stdin st = read ++ line :: stdin st' /\ strip line = leave).

(** The config file, the console input and the reports of other days are
    as before. *)
Definition generator_frame (env : environment) (st st' : state) : Prop :=
  config_ini st' = config_ini st
  /\ stdin st' = stdin st
  /\ forall name, name <> report_name (today env) ->
                  ConfigParser.dict_get name (reports st')
                  = ConfigParser.dict_get name (reports st).

(** One round of a menu once the line of the choice is read: as
    [loop_ends], but the round may be the one that leaves. *)
Definition round_ends (round : nat -> M unit) (leave choice : str) (fuel : nat)
           (st : state) : Prop :=
  fst (round fuel st) <> OutOfFuel
  /\ console_shrinks st (snd (round fuel st))
  /\ (forall fuel', List.length (stdin st) < fuel' -> round fuel' st = round fuel st)
  /\ (forall st', round fuel st = (Ok tt, st') ->
                  (exists read line,
                      stdin st = read ++ line :: stdin st' /\ strip line = leave)
                  \/ (choice = leave /\ stdin st' = stdin st)).

(** The rounds of the two menus, as [settings_menu] and [main_menu] make
    them. *)
Definition settings_round (env : environment) (desk : desktop) (fuel' : nat)
           (choice : str) : M unit :=
  if str_eqb choice (py "1") then update_schedule_time env ;;; settings_menu env desk fuel'
  else if str_eqb choice (py "2") then update_api_key env ;;; settings_menu env desk fuel'
  else if str_eqb choice (py "3") then update_model env ;;; settings_menu env desk fuel'
  else if str_eqb choice (py "4") then edit_prompt env desk ;;; settings_menu env desk fuel'
  else if str_eqb choice (py "5") then toggle_gui env ;;; settings_menu env desk fuel'
  else if str_eqb choice (py "6") then ret tt
  else print (py "Invalid selection. Please try again.") ;;; settings_menu env desk fuel'.

Definition main_round (env : environment) (desk : desktop) (fuel' : nat)
           (choice : str) : M unit :=
  if str_eqb choice (py "1") then schedule_task env true ;;; main_menu env desk fuel'
  else if str_eqb choice (py "2") then get_meme_stocks env ;;; main_menu env desk fuel'
  else if str_eqb choice (py "3") then settings_menu env desk fuel' ;;; main_menu env desk fuel'
  else if str_eqb choice (py "4") then print (py "Exiting.")
  else if str_eqb (lower choice) (py "cookie")
       then show_cookie_easter_egg desk ;;; main_menu env desk fuel'
  else print (py "Invalid selection. Please try again.") ;;; main_menu env desk fuel'.

(** A loop that prints its banner, reads the choice and makes a round. *)
Definition menu_loop (banner : M unit) (prompt : str)
           (round : nat -> str -> M unit) (fuel : nat) : M unit :=
  match fuel with
  | O => fun st => (OutOfFuel, st)
  | S fuel' => banner ;;; line <- input prompt ;; round fuel' (strip line)
  end.

(** * Properties *)

(** ** The retried backend call *)

Lemma wait_exponential_bounds (attempt_number : nat) :
  (4 <= wait_exponential 1 4 10 attempt_number <= 10)%Z.
Proof.
  unfold wait_exponential.
  generalize (1 * 2 ^ Z.of_nat (attempt_number - 1))%Z. intro z.
  change (Z.max 0 4) with 4%Z.
  pose proof (Z.min_spec z 10) as Hmin.
  pose proof (Z.max_spec 4 (Z.min z 10)) as Hmax.
  lia.
Qed.

Lemma sleeps_app (a b : list event) : sleeps (a ++ b) = sleeps a ++ sleeps b.
Proof. unfold sleeps. now rewrite flat_map_app. Qed.

Lemma backend_events_app (a b : list event) :
  backend_events (a ++ b) = backend_events a + backend_events b.
Proof. unfold backend_events. now rewrite filter_app, length_app. Qed.

(** What a run of the retry loop adds to the state: nothing but events and
    backend calls, one call per [GenerateContent] event, every sleep within
    the bounds, and never more calls than the attempts left. *)
Lemma retrying_spec (env : environment) (gemini_model prompt : str) :
  forall fuel attempt_number st,
    1 <= attempt_number <= 5 ->
    6 <= fuel + attempt_number ->
    let out := retrying env fuel attempt_number gemini_model prompt st in
    fst out <> OutOfFuel
    /\ config_ini (snd out) = config_ini st
    /\ reports (snd out) = reports st
    /\ stdin (snd out) = stdin st
    /\ exists new,
        trace (snd out) = trace st ++ new
        /\ calls (snd out) = calls st + backend_events new
        /\ 1 <= backend_events new /\ backend_events new + attempt_number <= 6
        /\ Forall (fun w => (4 <= w <= 10)%Z) (sleeps new)
        /\ Forall (fun ev => match ev with
                             | GenerateContent _ _ _ | Sleep _ => True
                             | _ => False
                             end) new.
Proof.
  induction fuel as [|fuel IH]; intros n st Hn Hfuel; [lia|].
  cbn [retrying]. cbv zeta.
  destruct (backend env (calls st) gemini_model prompt) eqn:Hb.
  - cbn. repeat split; try discriminate.
    exists [GenerateContent gemini_model prompt (Response text)]. cbn.
    repeat split; try lia; repeat constructor.
  - unfold stop_after_attempt. destruct (5 <=? n) eqn:Hstop.
    + apply Nat.leb_le in Hstop. cbn. repeat split; try discriminate.
      exists [GenerateContent gemini_model prompt BackendError]. cbn.
      repeat split; try lia; repeat constructor.
    + apply Nat.leb_gt in Hstop.
      unfold bind, emit. cbn [fst snd trace calls config_ini reports stdin].
      match goal with
      | |- context [retrying env fuel (S n) gemini_model prompt ?s] =>
          specialize (IH (S n) s ltac:(lia) ltac:(lia));
          destruct (retrying env fuel (S n) gemini_model prompt s) as [r st'] eqn:Hrec
      end.
      cbn [fst snd trace calls config_ini reports stdin] in IH.
      destruct IH as (Hr & Hc & Hrep & Hin & new & Htr & Hcalls & Hcnt & Hcnt' & Hsl & Hev).
      assert (Hout : fst (match r with
                          | Ok a => (Ok a, st')
                          | Raise x => (Raise x, st')
                          | OutOfFuel => (@OutOfFuel (option str), st')
                          end) = r /\
                     snd (match r with
                          | Ok a => (Ok a, st')
                          | Raise x => (Raise x, st')
                          | OutOfFuel => (@OutOfFuel (option str), st')
                          end) = st') by (destruct r; auto).
      destruct Hout as [Hf Hs].
      cbn. 
      replace (match r with
               | Ok a => (Ok a, st')
               | Raise x => (Raise x, st')
               | OutOfFuel => (OutOfFuel, st')
               end) with (r, st') by (destruct r; reflexivity).
      cbn [fst snd]. repeat split; auto.
      exists ([GenerateContent gemini_model prompt BackendError;
               Sleep (wait_exponential 1 4 10 n)] ++ new).
      rewrite Htr, <- !app_assoc. cbn [app].
      rewrite Hcalls.
      change (GenerateContent gemini_model prompt BackendError
                :: Sleep (wait_exponential 1 4 10 n) :: new)
        with ([GenerateContent gemini_model prompt BackendError;
               Sleep (wait_exponential 1 4 10 n)] ++ new).
      rewrite backend_events_app, sleeps_app. cbn.
      repeat split; try lia.
      * constructor; [apply wait_exponential_bounds | exact Hsl].
      * repeat constructor. exact Hev.
Qed.

Lemma backend_at (env : environment) (gemini_model prompt : str) (st : state)
      (i : nat) (o : backend_outcome) (n : nat) :
  backend env (calls st + i) gemini_model prompt = o ->
  n = calls st + i ->
  backend env n gemini_model prompt = o.
Proof. intros H ->. exact H. Qed.

(** C2: the retried call makes between one and five backend calls, whatever
    the backend does, and always ends; every wait it makes lies in [4, 10].
    When the first four calls fail and the fifth answers, the answer is
    returned after the four waits 4, 4, 4 and 8; when five calls fail there
    is no sixth call and [RetryError] is raised to the caller. *)
Theorem C2_retry_policy (env : environment) (gemini_model prompt : str)
        (st : state) :
  let out := _call_gemini_api env gemini_model prompt st in
  (fst out <> OutOfFuel
   /\ exists new,
       trace (snd out) = trace st ++ new
       /\ calls (snd out) = calls st + backend_events new
       /\ 1 <= backend_events new <= 5
       /\ Forall (fun w => (4 <= w <= 10)%Z) (sleeps new))
  /\ (forall text,
         (forall i, i < 4 ->
                    backend env (calls st + i) gemini_model prompt = BackendError) ->
         backend env (calls st + 4) gemini_model prompt = Response text ->
         fst out = Ok text
         /\ calls (snd out) = calls st + 5
         /\ trace (snd out) =
              trace st
              ++ [GenerateContent gemini_model prompt BackendError; Sleep 4;
                  GenerateContent gemini_model prompt BackendError; Sleep 4;
                  GenerateContent gemini_model prompt BackendError; Sleep 4;
                  GenerateContent gemini_model prompt BackendError; Sleep 8;
                  GenerateContent gemini_model prompt (Response text)])
  /\ ((forall i, i < 5 ->
                 backend env (calls st + i) gemini_model prompt = BackendError) ->
      fst out = Raise RetryError
      /\ calls (snd out) = calls st + 5
      /\ backend_events (skipn (List.length (trace st)) (trace (snd out))) = 5).
Proof.
  intro out. subst out. split; [|split].
  - pose proof (@retrying_spec env gemini_model prompt 5 1 st
                  ltac:(lia) ltac:(lia)) as H.
    cbv zeta in H. unfold _call_gemini_api.
    destruct H as (Hr & _ & _ & _ & new & Htr & Hcalls & Hlo & Hhi & Hsl & _).
    split; [exact Hr|]. exists new. repeat split; auto; lia.
  - intros text Hfail Hok. unfold _call_gemini_api.
    pose proof (@backend_at env gemini_model prompt st _ _ (calls st)
                  (Hfail 0 ltac:(lia)) ltac:(lia)) as H0.
    pose proof (@backend_at env gemini_model prompt st _ _ (S (calls st))
                  (Hfail 1 ltac:(lia)) ltac:(lia)) as H1.
    pose proof (@backend_at env gemini_model prompt st _ _ (S (S (calls st)))
                  (Hfail 2 ltac:(lia)) ltac:(lia)) as H2.
    pose proof (@backend_at env gemini_model prompt st _ _ (S (S (S (calls st))))
                  (Hfail 3 ltac:(lia)) ltac:(lia)) as H3.
    pose proof (@backend_at env gemini_model prompt st _ _ (S (S (S (S (calls st)))))
                  Hok ltac:(lia)) as H4.
    cbn [retrying]. cbv zeta. rewrite H0. cbn. rewrite H1. cbn. rewrite H2. cbn.
    rewrite H3. cbn. rewrite H4. cbn.
    repeat split; try lia.
    rewrite <- !app_assoc. reflexivity.
  - intros Hfail. unfold _call_gemini_api.
    pose proof (@backend_at env gemini_model prompt st _ _ (calls st)
                  (Hfail 0 ltac:(lia)) ltac:(lia)) as H0.
    pose proof (@backend_at env gemini_model prompt st _ _ (S (calls st))
                  (Hfail 1 ltac:(lia)) ltac:(lia)) as H1.
    pose proof (@backend_at env gemini_model prompt st _ _ (S (S (calls st)))
                  (Hfail 2 ltac:(lia)) ltac:(lia)) as H2.
    pose proof (@backend_at env gemini_model prompt st _ _ (S (S (S (calls st))))
                  (Hfail 3 ltac:(lia)) ltac:(lia)) as H3.
    pose proof (@backend_at env gemini_model prompt st _ _ (S (S (S (S (calls st)))))
                  (Hfail 4 ltac:(lia)) ltac:(lia)) as H4.
    cbn [retrying]. cbv zeta. rewrite H0. cbn. rewrite H1. cbn. rewrite H2. cbn.
    rewrite H3. cbn. rewrite H4. cbn.
    repeat split; try lia.
    rewrite <- !app_assoc. rewrite skipn_app, skipn_all, Nat.sub_diag.
    reflexivity.
Qed.

Lemma C2_retry_policy_witness :
  let env := sample_env [] true 4 (Some (py "report")) in
  let out := _call_gemini_api env (py "m") (py "p") (sample_state None []) in
  fst out = Ok (Some (py "report"))
  /\ calls (snd out) = 5
  /\ sleeps (trace (snd out)) = [4; 4; 4; 8]%Z.
Proof.
  intros env out.
  destruct (C2_retry_policy env (py "m") (py "p") (sample_state None []))
    as (_ & Hok & _).
  destruct (Hok (Some (py "report"))) as (H1 & H2 & H3).
  - intros i Hi. destruct i as [|[|[|[|i]]]]; try reflexivity; lia.
  - reflexivity.
  - subst out. rewrite H1, H2, H3. repeat split.
Defined.

(** ** Computations that return *)

Lemma str_eqb_eq (a b : str) : str_eqb a b = true <-> a = b.
Proof.
  unfold str_eqb. destruct (list_eq_dec ascii_dec a b); split; congruence.
Qed.

Lemma str_eqb_refl (a : str) : str_eqb a a = true.
Proof. now apply str_eqb_eq. Qed.

Lemma str_eqb_neq (a b : str) : str_eqb a b = false <-> a <> b.
Proof.
  unfold str_eqb. destruct (list_eq_dec ascii_dec a b); split; congruence.
Qed.

Lemma bind_ok {A B : Type} (m : M A) (f : A -> M B) (st st' : state) (a : A) :
  m st = (Ok a, st') -> bind m f st = f a st'.
Proof. intros H. unfold bind. now rewrite H. Qed.
Arguments bind_ok {A B m} f {st st' a} _.

Lemma bind_raise {A B : Type} (m : M A) (f : A -> M B) (st st' : state)
      (x : exn) :
  m st = (Raise x, st') -> bind m f st = (Raise x, st').
Proof. intros H. unfold bind. now rewrite H. Qed.
Arguments bind_raise {A B m} f {st st' x} _.

Lemma returns_ret {A : Type} (a : A) : returns (ret a).
Proof. intros st. now exists a, st. Qed.

Lemma returns_bind {A B : Type} (m : M A) (f : A -> M B) :
  returns m -> (forall a, returns (f a)) -> returns (bind m f).
Proof.
  intros Hm Hf st. unfold bind. destruct (Hm st) as (a & st' & ->).
  apply Hf.
Qed.

Lemma returns_bounded {A : Type} (m : M A) : returns m -> bounded m.
Proof. intros Hm st. destruct (Hm st) as (a & st' & ->). discriminate. Qed.

Lemma bounded_bind {A B : Type} (m : M A) (f : A -> M B) :
  bounded m -> (forall a, bounded (f a)) -> bounded (bind m f).
Proof.
  intros Hm Hf st. unfold bind. specialize (Hm st).
  destruct (m st) as [[a|x|] st']; cbn in *.
  - apply Hf.
  - discriminate.
  - congruence.
Qed.

Lemma bounded_raise {A : Type} (x : exn) : bounded (@raise A x).
Proof. intros st. discriminate. Qed.

Lemma returns_try_except {A : Type} (body : M A) (catches : exn -> bool)
      (handler : exn -> M A) :
  bounded body -> (forall x, catches x = true) ->
  (forall x, returns (handler x)) -> returns (try_except body catches handler).
Proof.
  intros Hb Hc Hh st. unfold try_except. specialize (Hb st).
  destruct (body st) as [[a|x|] st']; cbn in *.
  - now exists a, st'.
  - rewrite Hc. apply Hh.
  - congruence.
Qed.

Lemma returns_emit (ev : event) : returns (emit ev).
Proof. intros st. eexists _, _. reflexivity. Qed.

Lemma returns_print (text : str) : returns (print text).
Proof. apply returns_emit. Qed.

Lemma emit_eq (ev : event) (st : state) :
  emit ev st = (Ok tt, with_events st [ev]).
Proof. reflexivity. Qed.

Lemma print_eq (text : str) (st : state) :
  print text st = (Ok tt, with_events st [Print text]).
Proof. reflexivity. Qed.

Lemma with_events_app (st : state) (a b : list event) :
  with_events (with_events st a) b = with_events st (a ++ b).
Proof. unfold with_events. cbn. now rewrite app_assoc. Qed.

Lemma with_events_nil (st : state) : with_events st [] = st.
Proof. destruct st. unfold with_events. cbn. now rewrite app_nil_r. Qed.

(** [press_enter] consumes one console line, or raises [EOFError]. *)
Lemma press_enter_spec (st : state) :
  exists r rest,
    press_enter st
    = (r, mkState (config_ini st) (reports st) rest
                  (trace st ++ [Input (py "Press Enter to return to the menu...")])
                  (calls st))
    /\ (r = Ok tt \/ r = Raise EOFError).
Proof.
  unfold press_enter, bind, input, ret.
  destruct (stdin st) as [|line rest].
  - exists (Raise EOFError), []. split; [reflexivity | now right].
  - exists (Ok tt), rest. split; [reflexivity | now left].
Qed.

Lemma get_config_value_spec (section key : str) (fallback : option str)
      (st : state) :
  exists v new,
    get_config_value section key fallback st = (Ok v, with_events st new)
    /\ (new = [] \/ new = [Print (py "Error reading config")]).
Proof.
  unfold get_config_value, with_events.
  destruct st as [c r i t n]; cbn.
  destruct c as [text|]; cbn.
  - unfold read_config; cbn.
    destruct (ConfigParser._read (universal_newlines text)); cbn.
    + eexists _, _. split; [reflexivity | now right].
    + eexists _, []. rewrite app_nil_r. split; [reflexivity | now left].
  - eexists _, []. rewrite app_nil_r. split; [reflexivity | now left].
Qed.

Lemma returns_get_config_value (section key : str) (fallback : option str) :
  returns (get_config_value section key fallback).
Proof.
  intros st. destruct (get_config_value_spec section key fallback st)
    as (v & new & -> & _). now eexists _, _.
Qed.

Lemma bounded_call_gemini_api (env : environment) (gemini_model prompt : str) :
  bounded (_call_gemini_api env gemini_model prompt).
Proof.
  intros st. unfold _call_gemini_api.
  apply (@retrying_spec env gemini_model prompt 5 1 st); lia.
Qed.

Lemma bounded_str_format (env : environment) (template : option str)
      (today_date : str) : bounded (str_format env template today_date).
Proof.
  intros st. unfold str_format. destruct template as [t|]; [|discriminate].
  destruct (format t today_date); try discriminate.
  destruct (other_fields env t today_date); discriminate.
Qed.

Lemma bounded_write_report (env : environment) (name : str)
      (output_text : option str) : bounded (write_report env name output_text).
Proof.
  intros st. unfold write_report.
  destruct (report_writable env); [destruct output_text|]; discriminate.
Qed.

Lemma returns_display_report_gui (report_text date_str : str) :
  returns (_display_report_gui report_text date_str).
Proof.
  unfold _display_report_gui. apply returns_bind.
  - apply returns_print.
  - intros _. apply returns_emit.
Qed.

Ltac bounded_step :=
  first [ apply returns_bounded, returns_display_report_gui
        | apply bounded_bind; [|intro]
        | apply returns_bounded, returns_get_config_value
        | apply returns_bounded, returns_print
        | apply returns_bounded, returns_emit
        | apply bounded_str_format
        | apply bounded_call_gemini_api
        | apply bounded_write_report
        | apply bounded_raise ].

(** The generator, started by the scheduler, returns to its caller
    whenever its [except] clauses can be evaluated. *)
Lemma get_meme_stocks_run_returns (env : environment) :
  run_argument env = true -> genai_exceptions env = true ->
  returns (get_meme_stocks env).
Proof.
  intros Hrun Hclauses. unfold get_meme_stocks.
  destruct (genai_installed env); cbn [negb].
  2: apply returns_print.
  apply returns_bind; [apply returns_get_config_value|]. intros api_key.
  destruct (negb (truthy api_key) || str_eqb (show api_key) (py "YOUR_API_KEY_HERE")).
  - apply returns_bind; [apply returns_print|]. intros _.
    rewrite Hrun. apply returns_ret.
  - apply returns_try_except.
    + repeat bounded_step.
      match goal with
      | |- bounded (match ?x with _ => _ end) => destruct x as [text|]
      end; [|apply bounded_raise].
      destruct (str_eqb (lower text) (py "true")); repeat bounded_step.
    + reflexivity.
    + intros x. unfold except_clauses. rewrite Hclauses.
      destruct x; apply returns_print.
Qed.

Lemma run_argument_true (env : environment) :
  run_argument env = true <->
  exists prog rest, argv env = prog :: py "run" :: rest.
Proof.
  unfold run_argument. destruct (argv env) as [|prog [|a rest]].
  - split; [discriminate|]. intros (p & r & H). discriminate.
  - split; [discriminate|]. intros (p & r & H). discriminate.
  - rewrite str_eqb_eq. split.
    + intros ->. now exists prog, rest.
    + intros (p & r & H). now inversion H.
Qed.

(** What the [__main__] block does with the argument [run], whatever
    follows it: it prints, runs the generator once, and exits with status 0
    after printing again when the generator returns; an exception that
    leaves the generator ends the process before the second message.
    With no argument, or a first argument other than [run], it calls the
    menu and has done nothing before. *)
Lemma main_run_argument (env : environment) (st : state) :
  ((exists prog rest, argv env = prog :: py "run" :: rest) ->
   forall r st1,
     get_meme_stocks env
       (snd (print (py "Automated run initiated at " ++ now env) st))
     = (r, st1) ->
     main env st
     = match r with
       | Ok _ => (SysExit 0, snd (print (py "Automated run complete.") st1))
       | Raise x => (Uncaught x, st1)
       | OutOfFuel => (Unbounded, st1)
       end)
  /\ ((~ exists prog rest, argv env = prog :: py "run" :: rest) ->
      main env st = (MainMenu, st)).
Proof.
  split.
  - intros Hrun r st1 Hst1. apply run_argument_true in Hrun.
    unfold main. rewrite Hrun. unfold bind at 1.
    cbn [print emit]. cbn [print emit snd] in Hst1.
    unfold bind. rewrite Hst1. destruct r; reflexivity.
  - intros Hno. unfold main.
    destruct (run_argument env) eqn:Hrun; [|reflexivity].
    apply run_argument_true in Hrun. contradiction.
Qed.

(** When the [except] clauses of the generator can be evaluated, the
    unattended run exits with status 0 whether or not a report was
    produced. *)
Lemma main_run_exits (env : environment) (st : state) :
  (exists prog rest, argv env = prog :: py "run" :: rest) ->
  genai_exceptions env = true ->
  fst (main env st) = SysExit 0.
Proof.
  intros Hargs Hclauses.
  pose proof (proj2 (run_argument_true env) Hargs) as Hrun.
  destruct (get_meme_stocks_run_returns env Hrun Hclauses
              (snd (print (py "Automated run initiated at " ++ now env) st)))
    as ([] & st1 & Hst1).
  now rewrite (proj1 (main_run_argument env st) Hargs _ _ Hst1).
Qed.

(** C7 on the code: started with the single argument [run], with a key
    configured and a backend whose five attempts all fail, the process
    does not exit with status 0.  The [RetryError] reaches the [except]
    clauses of the generator, the first of them cannot be evaluated, and
    the [AttributeError] ends the process: the five calls were made, and
    the message that the run is complete is never printed. *)
Theorem C7_failed_run :
  let env := sample_env [py "meme_stock_tracker.py"; py "run"] true 5 None in
  exists st',
    main env configured_state = (Uncaught AttributeError, st')
    /\ calls st' = 5
    /\ ~ In (Print (py "Automated run complete.")) (trace st').
Proof.
  intros env. eexists. split; [vm_compute; reflexivity|].
  split; [reflexivity|]. cbn [trace].
  intros Hin. repeat (destruct Hin as [Hin|Hin]; [discriminate Hin|]).
  exact Hin.
Qed.

(** The guard of the [__main__] block looks at the first argument only:
    with the arguments [run --now] the process still takes the unattended
    path, so C7 as the specification words it fails there as well. *)
Lemma run_with_more_arguments : ~ C7_as_stated.
Proof.
  intros H.
  destruct (H (sample_env [py "meme_stock_tracker.py"; py "run"; py "--now"]
                          false 0 None)
              (sample_state None [])) as [_ Hmenu].
  assert (Hno : ~ exists prog,
             argv (sample_env [py "meme_stock_tracker.py"; py "run"; py "--now"]
                              false 0 None) = [prog; py "run"]).
  { intros (prog & Hp). discriminate. }
  specialize (Hmenu Hno). vm_compute in Hmenu. discriminate.
Qed.

(** ** The missing API key *)

(** C3, amended: with an absent, empty or placeholder key the generator
    makes no backend call, writes no report and leaves the configuration
    alone, in every environment; and when the backend library can be
    imported, what it prints is the "API key not set" message. *)
Theorem C3_unset_key_no_call (env : environment) (st : state)
        (key : option str) :
  fst (get_config_value (py "API") (py "KEY") None st) = Ok key ->
  unset_key key ->
  let out := get_meme_stocks env st in
  calls (snd out) = calls st
  /\ reports (snd out) = reports st
  /\ config_ini (snd out) = config_ini st
  /\ exists new,
      trace (snd out) = trace st ++ new
      /\ backend_events new = 0
      /\ (genai_installed env = true ->
          In (Print (py "ERROR: API key not set. Please go to Settings to add your key."))
             new).
Proof.
  intros Hkey Hunset out. subst out. unfold get_meme_stocks.
  destruct (genai_installed env); cbn [negb].
  - destruct (get_config_value_spec (py "API") (py "KEY") None st)
      as (v & new & Hget & Hnew).
    rewrite (bind_ok _ Hget).
    rewrite Hget in Hkey. cbn in Hkey. injection Hkey as ->.
    assert (Hcond : negb (truthy key)
                    || str_eqb (show key) (py "YOUR_API_KEY_HERE") = true).
    { destruct Hunset as [->|[->| ->]]; reflexivity. }
    rewrite Hcond, (bind_ok _ (print_eq _ _)), with_events_app.
    assert (Hev : backend_events
                    (new ++ [Print (py "ERROR: API key not set. Please go to Settings to add your key.")]) = 0).
    { destruct Hnew as [->| ->]; reflexivity. }
    destruct (run_argument env).
    + cbn. repeat split. eexists. split; [reflexivity|].
      split; [exact Hev|]. intros _. apply in_or_app. right. now left.
    + match goal with
      | |- context [press_enter ?s] =>
          destruct (press_enter_spec s) as (r & rest & -> & _)
      end.
      cbn. repeat split. rewrite <- app_assoc. eexists.
      split; [reflexivity|]. rewrite backend_events_app, Hev.
      split; [reflexivity|]. intros _.
      apply in_or_app. left. apply in_or_app. right. now left.
  - unfold print, emit. cbn. repeat split.
    eexists. split; [reflexivity|]. split; [reflexivity|]. discriminate.
Qed.

Lemma C3_unset_key_no_call_witness :
  let env := sample_env [] true 0 (Some (py "report")) in
  let st := sample_state (Some (py "[API]" ++ [LF] ++ py "key = YOUR_API_KEY_HERE" ++ [LF]))
                         [py ""] in
  calls (snd (get_meme_stocks env st)) = 0.
Proof.
  intros env st.
  destruct (@C3_unset_key_no_call env st (Some (py "YOUR_API_KEY_HERE")))
    as (Hcalls & _).
  - reflexivity.
  - right. right. reflexivity.
  - exact Hcalls.
Defined.

(** C3 as stated fails where the backend library is not installed: the
    message is then the one about the missing library. *)
Lemma C3_counterexample : ~ C3_as_stated.
Proof.
  intros H.
  destruct (H (sample_env [] false 0 None) (sample_state None []) None)
    as [Hin _].
  - reflexivity.
  - now left.
  - vm_compute in Hin. destruct Hin as [Heq|[]]. discriminate.
Qed.

(** ** The prompt template *)

Lemma format_scan_text (s rest today_date out : str) :
  brace_free s = true ->
  format_scan Literal (s ++ rest) today_date out
  = format_scan Literal rest today_date (out ++ s).
Proof.
  revert out. induction s as [|c s IH]; intros out Hs.
  - now rewrite app_nil_r.
  - cbn in Hs. apply andb_prop in Hs. destruct Hs as [Hc Hs].
    unfold is_brace in Hc. apply negb_true_iff, orb_false_iff in Hc.
    destruct Hc as [Ho Hcl].
    cbn [app format_scan]. rewrite Ho, Hcl, IH by exact Hs.
    now rewrite <- app_assoc.
Qed.

Lemma format_scan_placeholder (rest today_date out : str) :
  format_scan Literal (placeholder ++ rest) today_date out
  = format_scan Literal rest today_date (out ++ today_date).
Proof. reflexivity. Qed.

Lemma format_scan_segments (today_date : str) :
  forall segs out,
    texts_brace_free segs = true ->
    format_scan Literal (template_of segs) today_date out
    = Formatted (out ++ rendering_of segs today_date).
Proof.
  induction segs as [|[s|] segs IH]; intros out Hok.
  - cbn. now rewrite app_nil_r.
  - cbn in Hok. apply andb_prop in Hok. destruct Hok as [Hs Hok].
    cbn [template_of rendering_of].
    rewrite format_scan_text, IH, <- app_assoc by assumption. reflexivity.
  - cbn in Hok. cbn [template_of rendering_of].
    rewrite format_scan_placeholder, IH, <- app_assoc by assumption.
    reflexivity.
Qed.

(** C6, amended: a template made of brace-free texts and placeholders
    renders as the same texts with the date in place of every placeholder;
    in particular a template without any brace is returned unchanged. *)
Theorem C6_render_template (segs : list segment) (today_date : str) :
  texts_brace_free segs = true ->
  format (template_of segs) today_date
  = Formatted (rendering_of segs today_date)
  /\ (forall template,
         brace_free template = true ->
         format template today_date = Formatted template).
Proof.
  intros Hok. split.
  - unfold format. now rewrite format_scan_segments.
  - intros template Hfree. unfold format.
    rewrite <- (app_nil_r template) at 1.
    now rewrite format_scan_text.
Qed.

Lemma C6_render_template_witness :
  format (py "Pre-open {today_date}, list 10 ({today_date})") (py "2025-01-02")
  = Formatted (py "Pre-open 2025-01-02, list 10 (2025-01-02)").
Proof.
  exact (proj1 (@C6_render_template
                  [Text (py "Pre-open "); Placeholder; Text (py ", list 10 (");
                   Placeholder; Text (py ")")]
                  (py "2025-01-02") eq_refl)).
Defined.

(** C6 as stated fails: a template without any placeholder is changed when
    it holds doubled braces. *)
Lemma C6_counterexample : ~ C6_as_stated.
Proof.
  intros H. specialize (H (py "JSON: {{}}") (py "2025-01-02")).
  vm_compute in H. discriminate.
Qed.

(** ** The report file *)

Lemma last_response_app (a b : list event) :
  last_response (a ++ b)
  = match last_response b with
    | Some text => Some text
    | None => last_response a
    end.
Proof.
  induction a as [|ev a IH]; cbn.
  - now destruct (last_response b).
  - rewrite IH. now destruct (last_response b).
Qed.

Lemma retrying_last_response (env : environment) (gemini_model prompt : str) :
  forall fuel attempt_number st text,
    fst (retrying env fuel attempt_number gemini_model prompt st) = Ok text ->
    exists new,
      trace (snd (retrying env fuel attempt_number gemini_model prompt st))
      = trace st ++ new
      /\ last_response new = Some text.
Proof.
  induction fuel as [|fuel IH]; intros n st text; cbn [retrying]; cbv zeta.
  - discriminate.
  - destruct (backend env (calls st) gemini_model prompt) eqn:Hb.
    + cbn. intros [= ->]. eexists. split; [reflexivity|]. reflexivity.
    + destruct (stop_after_attempt 5 n); [discriminate|].
      rewrite (bind_ok _ (emit_eq _ _)).
      intros Hok. destruct (IH _ _ _ Hok) as (new & Htr & Hlast).
      rewrite Htr. cbn. rewrite <- !app_assoc.
      eexists. split; [reflexivity|].
      rewrite last_response_app, last_response_app, Hlast. reflexivity.
Qed.

Lemma call_gemini_api_spec (env : environment) (gemini_model prompt : str)
      (st : state) :
  exists r new,
    _call_gemini_api env gemini_model prompt st
    = (r, mkState (config_ini st) (reports st) (stdin st) (trace st ++ new)
                  (calls st + backend_events new))
    /\ r <> OutOfFuel
    /\ (forall text, r = Ok text -> last_response new = Some text)
    /\ Forall (fun ev => match ev with
                         | GenerateContent _ _ _ | Sleep _ => True
                         | _ => False
                         end) new.
Proof.
  unfold _call_gemini_api.
  pose proof (@retrying_spec env gemini_model prompt 5 1 st
                ltac:(lia) ltac:(lia)) as H.
  pose proof (@retrying_last_response env gemini_model prompt 5 1 st) as Hl.
  cbv zeta in H.
  destruct (retrying env 5 1 gemini_model prompt st) as [r st'].
  cbn [fst snd] in *.
  destruct H as (Hr & Hc & Hrep & Hin & new & Htr & Hcalls & _ & _ & _ & Hev).
  exists r, new. split.
  - destruct st'. cbn in *. now subst.
  - split; [exact Hr|]. split; [|exact Hev].
    intros text ->. destruct (Hl text eq_refl) as (new' & Htr' & Hlast).
    rewrite Htr in Htr'. apply app_inv_head in Htr'. now subst.
Qed.

Lemma str_format_spec (env : environment) (template : option str)
      (today_date : str) (st : state) :
  exists r, str_format env template today_date st = (r, st) /\ r <> OutOfFuel.
Proof.
  unfold str_format. destruct template as [t|].
  - destruct (format t today_date);
      try (eexists; split; [reflexivity | discriminate]).
    destruct (other_fields env t today_date);
      eexists; (split; [reflexivity | discriminate]).
  - eexists. split; [reflexivity | discriminate].
Qed.

Lemma success_message_head (today_date : str) :
  exists tail, success_message today_date = "S"%char :: tail.
Proof. eexists. reflexivity. Qed.

(** No message of a failing path is the success message. *)
Lemma print_not_success (today_date : str) (c : ascii) (text : str) :
  c <> "S"%char -> Print (c :: text) <> Print (success_message today_date).
Proof.
  intros Hc Heq. destruct (success_message_head today_date) as (tail & Ht).
  rewrite Ht in Heq. congruence.
Qed.

Lemma no_success_app (today_date : str) (a b : list event) :
  no_success today_date a -> no_success today_date b ->
  no_success today_date (a ++ b).
Proof. unfold no_success. intros Ha Hb Hin. apply in_app_or in Hin. tauto. Qed.

Lemma no_success_nil (today_date : str) : no_success today_date [].
Proof. intros []. Qed.

Lemma no_success_print (today_date : str) (c : ascii) (text : str) :
  c <> "S"%char -> no_success today_date [Print (c :: text)].
Proof.
  intros Hc [Heq|[]]. exact (@print_not_success today_date c text Hc Heq).
Qed.

Lemma no_response_app (a b : list event) :
  no_response a -> no_response b -> no_response (a ++ b).
Proof. unfold no_response. intros Ha Hb. now rewrite last_response_app, Hb. Qed.

Lemma get_config_value_events (today_date : str) (section key : str)
      (fallback : option str) (st : state) :
  exists v st' evs,
    get_config_value section key fallback st = (Ok v, st')
    /\ trace st' = trace st ++ evs
    /\ reports st' = reports st
    /\ no_success today_date evs /\ no_response evs.
Proof.
  destruct (get_config_value_spec section key fallback st)
    as (v & new & Hget & Hnew).
  exists v, (with_events st new), new. repeat split; auto.
  - destruct Hnew as [->| ->]; [apply no_success_nil|].
    apply no_success_print. discriminate.
  - destruct Hnew as [->| ->]; reflexivity.
Qed.

Lemma api_events (today_date : str) (evs : list event) :
  Forall (fun ev => match ev with
                    | GenerateContent _ _ _ | Sleep _ => True
                    | _ => False
                    end) evs ->
  no_success today_date evs.
Proof.
  intros H Hin. rewrite Forall_forall in H. apply (H _ Hin).
Qed.

Lemma report_failure_events (today_date : str) (x : exn) (st : state) :
  exists st' evs,
    report_failure x st = (Ok tt, st')
    /\ trace st' = trace st ++ evs
    /\ reports st' = reports st
    /\ no_success today_date evs /\ no_response evs.
Proof.
  unfold report_failure.
  destruct x; rewrite print_eq; eexists _, _;
    (split; [reflexivity|]); (split; [reflexivity|]); (split; [reflexivity|]);
    (split; [apply no_success_print; discriminate | reflexivity]).
Qed.

(** The [except] clauses print no success message and touch no report,
    whether they can be evaluated or not. *)
Lemma except_clauses_events (env : environment) (today_date : str) (x : exn)
      (st : state) :
  exists r st' evs,
    except_clauses env x st = (r, st')
    /\ trace st' = trace st ++ evs
    /\ reports st' = reports st
    /\ no_success today_date evs /\ no_response evs.
Proof.
  unfold except_clauses. destruct (genai_exceptions env).
  - destruct (report_failure_events today_date x st)
      as (st' & evs & H & T & R & N & L).
    now exists (Ok tt), st', evs.
  - exists (Raise AttributeError), st, []. split; [reflexivity|].
    split; [now rewrite app_nil_r|]. split; [reflexivity|].
    split; [apply no_success_nil|reflexivity].
Qed.

Lemma no_success_msg (today_date : str) (msg : str) :
  hd "S"%char msg <> "S"%char -> no_success today_date [Print msg].
Proof.
  destruct msg as [|c text]; cbn; [congruence|]. apply no_success_print.
Qed.

Lemma write_report_some (env : environment) (name text : str) (st : state) :
  report_writable env = true ->
  write_report env name (Some text) st
  = (Ok tt, mkState (config_ini st)
                    (ConfigParser.dict_set name text (reports st))
                    (stdin st) (trace st) (calls st)).
Proof. intros H. unfold write_report. now rewrite H. Qed.

Lemma write_report_fails (env : environment) (name : str)
      (output_text : option str) (st : state) :
  report_writable env = false \/ output_text = None ->
  exists x st',
    write_report env name output_text st = (Raise x, st')
    /\ trace st' = trace st.
Proof.
  intros H. unfold write_report.
  destruct (report_writable env); [destruct output_text|];
    try (eexists _, _; split; reflexivity).
  destruct H; discriminate.
Qed.

Lemma try_except_ok {A : Type} (body : M A) (catches : exn -> bool)
      (handler : exn -> M A) (st st' : state) (a : A) :
  body st = (Ok a, st') -> try_except body catches handler st = (Ok a, st').
Proof. intros H. unfold try_except. now rewrite H. Qed.
Arguments try_except_ok {A body} catches handler {st st' a} _.

Lemma try_except_raise {A : Type} (body : M A) (catches : exn -> bool)
      (handler : exn -> M A) (st st' : state) (x : exn) :
  body st = (Raise x, st') -> catches x = true ->
  try_except body catches handler st = handler x st'.
Proof. intros H Hc. unfold try_except. now rewrite H, Hc. Qed.
Arguments try_except_raise {A body catches} handler {st st' x} _ _.

Lemma dict_get_set_same {V : Type} (k : str) (v : V) (d : ConfigParser.dict V) :
  ConfigParser.dict_get k (ConfigParser.dict_set k v d) = Some v.
Proof.
  induction d as [|[k' v'] d IH]; cbn.
  - now rewrite str_eqb_refl.
  - destruct (str_eqb k' k) eqn:Hk; cbn; now rewrite Hk.
Qed.

(** What one run of the generator leaves behind: either no success message
    and the report files as they were, or the day file holding exactly the
    text of the last response of this run. *)
Lemma get_meme_stocks_outcome (env : environment) (st : state) :
  exists evs,
    trace (snd (get_meme_stocks env st)) = trace st ++ evs
    /\ (no_success (today env) evs
        \/ exists text,
            last_response evs = Some (Some text)
            /\ reports (snd (get_meme_stocks env st))
               = ConfigParser.dict_set (report_name (today env)) text (reports st)).
Proof.
  unfold get_meme_stocks.
  destruct (genai_installed env); cbn [negb].
  2:{ rewrite print_eq. eexists. split; [reflexivity|]. left.
      apply no_success_print; discriminate. }
  destruct (get_config_value_events (today env) (py "API") (py "KEY") None st)
    as (api_key & s0 & e0 & H0 & T0 & R0 & N0 & L0).
  rewrite (bind_ok _ H0).
  destruct (negb (truthy api_key) || str_eqb (show api_key) (py "YOUR_API_KEY_HERE")).
  { rewrite (bind_ok _ (print_eq _ _)).
    assert (Hq : no_success (today env)
                   (e0 ++ [Print (py "ERROR: API key not set. Please go to Settings to add your key.")])).
    { apply no_success_app; [exact N0 | apply no_success_print; discriminate]. }
    destruct (run_argument env).
    - cbn. rewrite T0, <- app_assoc. eexists. split; [reflexivity|].
      left. exact Hq.
    - match goal with
      | |- context [press_enter ?s] =>
          destruct (press_enter_spec s) as (r & rest & -> & _)
      end.
      cbn. rewrite T0, <- !app_assoc. eexists. split; [reflexivity|].
      left. rewrite app_assoc. apply no_success_app; [exact Hq|].
      intros [Heq|[]]. discriminate. }
  match goal with
  | |- context [try_except ?b _ _ s0] => set (body := b)
  end.
  assert (Hbody : exists r s1 e1,
             body s0 = (r, s1) /\ r <> OutOfFuel
             /\ trace s1 = trace s0 ++ e1
             /\ ((no_success (today env) e1 /\ forall a, r <> Ok a)
                 \/ exists text,
                     last_response e1 = Some (Some text)
                     /\ reports s1
                        = ConfigParser.dict_set (report_name (today env)) text
                                                (reports s0))).
  { subst body.
    destruct (get_config_value_events (today env) (py "Prompt") (py "TEMPLATE")
                (Some DEFAULT_PROMPT_TEMPLATE) s0)
      as (prompt_template & s1 & e1 & H1 & T1 & R1 & N1 & L1).
    rewrite (bind_ok _ H1).
    destruct (get_config_value_events (today env) (py "API") (py "MODEL")
                (Some DEFAULT_MODEL) s1)
      as (gemini_model & s2 & e2 & H2 & T2 & R2 & N2 & L2).
    rewrite (bind_ok _ H2).
    destruct (str_format_spec env prompt_template (today env) s2)
      as (rf & Hf & Hfb).
    destruct rf as [prompt|x|]; [|clear Hfb|congruence].
    2:{ rewrite (bind_raise _ Hf). eexists _, _, _.
        split; [reflexivity|]. split; [discriminate|].
        rewrite T2, T1, <- app_assoc. split; [reflexivity|]. left.
        split; [now apply no_success_app | discriminate]. }
    rewrite (bind_ok _ Hf), (bind_ok _ (print_eq _ _)).
    cbv beta.
    match goal with
    | |- context [bind (_call_gemini_api env ?m ?p) _ ?s] =>
        destruct (call_gemini_api_spec env m p s)
          as (ra & e3 & Ha & Hab & Hlast & Hev)
    end.
    match type of Ha with
    | _ = (_, ?s) => set (s3 := s) in *
    end.
    assert (T3 : trace s3
                 = trace s0 ++ e1 ++ e2
                   ++ [Print (py "Generating meme stock report for "
                              ++ today env ++ py " using model '"
                              ++ show gemini_model ++ py "'...")] ++ e3).
    { subst s3. cbn [trace with_events]. rewrite T2, T1, <- !app_assoc.
      reflexivity. }
    assert (R3 : reports s3 = reports s0).
    { subst s3. cbn [reports with_events]. now rewrite R2, R1. }
    assert (N3 : no_success (today env)
                   (e1 ++ e2
                    ++ [Print (py "Generating meme stock report for "
                               ++ today env ++ py " using model '"
                               ++ show gemini_model ++ py "'...")] ++ e3)).
    { repeat apply no_success_app; auto.
      - apply no_success_msg. vm_compute. discriminate.
      - now apply api_events. }
    clearbody s3.
    destruct ra as [output_text|x|]; [| |congruence].
    2:{ rewrite (bind_raise _ Ha). eexists _, _, _.
        split; [reflexivity|]. split; [discriminate|].
        split; [exact T3|]. left. split; [exact N3 | discriminate]. }
    rewrite (bind_ok _ Ha).
    assert (Hfail : forall o,
               report_writable env = false \/ o = None ->
               exists r s1 e1,
                 bind (write_report env (report_name (today env)) o)
                      (fun _ =>
                         print (py "SUCCESS: Report saved to '"
                                ++ report_name (today env) ++ py "'") ;;;
                         setting <- get_config_value (py "Settings")
                                      (py "SHOW_GUI") (Some (py "true")) ;;
                         match setting with
                         | Some text =>
                             if str_eqb (lower text) (py "true")
                             then _display_report_gui (show o) (today env)
                             else print (py "GUI pop-up is disabled in settings. The report is in the text file.")
                         | None => raise AttributeError
                         end) s3 = (r, s1)
                 /\ r <> OutOfFuel
                 /\ trace s1
                    = trace s0 ++ e1
                 /\ ((no_success (today env) e1 /\ forall a, r <> Ok a)
                     \/ exists text,
                         last_response e1 = Some (Some text)
                         /\ reports s1
                            = ConfigParser.dict_set (report_name (today env))
                                                    text (reports s0))).
    { intros o Ho.
      destruct (@write_report_fails env (report_name (today env)) o s3 Ho)
        as (x & s4 & Hwr & T4).
      rewrite (bind_raise _ Hwr). eexists _, _, _.
      split; [reflexivity|]. split; [discriminate|].
      rewrite T4. split; [exact T3|]. left.
      split; [exact N3 | discriminate]. }
    destruct (report_writable env) eqn:Hw; [|apply Hfail; now left].
    destruct output_text as [text|]; [|apply Hfail; now right].
    clear Hfail.
    rewrite (bind_ok _ (@write_report_some env _ _ _ Hw)).
    rewrite (bind_ok _ (print_eq _ _)).
    match goal with
    | |- context [bind (get_config_value ?a ?b ?c) _ ?s] =>
        destruct (get_config_value_events (today env) a b c s)
          as (setting & s5 & e5 & H5 & T5 & R5 & N5 & L5)
    end.
    rewrite (bind_ok _ H5).
    cbn [trace reports with_events] in T5, R5.
    assert (Hlast3 : last_response
                       (e1 ++ e2
                        ++ [Print (py "Generating meme stock report for "
                                   ++ today env ++ py " using model '"
                                   ++ show gemini_model ++ py "'...")] ++ e3)
                     = Some (Some text)).
    { rewrite !last_response_app, (Hlast _ eq_refl). reflexivity. }
    assert (Hend : forall (r : result unit) s6 e6,
               r <> OutOfFuel -> trace s6 = trace s5 ++ e6 ->
               reports s6 = reports s5 -> no_response e6 ->
               exists (r' : result unit) s7 e7,
                 (r, s6) = (r', s7) /\ r' <> OutOfFuel
                 /\ trace s7 = trace s0 ++ e7
                 /\ ((no_success (today env) e7 /\ forall a, r' <> Ok a)
                     \/ exists text',
                         last_response e7 = Some (Some text')
                         /\ reports s7
                            = ConfigParser.dict_set (report_name (today env))
                                                    text' (reports s0))).
    { intros r s6 e6 Hr T6 R6 L6. eexists r, s6, _.
      split; [reflexivity|]. split; [exact Hr|].
      rewrite T6, T5, T3, <- !app_assoc. split; [reflexivity|].
      right. exists text. split.
      - rewrite !app_assoc, last_response_app, L6, last_response_app, L5,
          last_response_app. cbn [last_response].
        rewrite <- !app_assoc. exact Hlast3.
      - now rewrite R6, R5, R3. }
    destruct setting as [shown|].
    - destruct (str_eqb (lower shown) (py "true")).
      + unfold _display_report_gui.
        rewrite (bind_ok _ (print_eq _ _)), emit_eq, with_events_app.
        eapply Hend; [discriminate|reflexivity|reflexivity|reflexivity].
      + rewrite print_eq.
        eapply Hend; [discriminate|reflexivity|reflexivity|reflexivity].
    - unfold raise.
      eapply (Hend (Raise AttributeError) s5 []);
        [discriminate | now rewrite app_nil_r | reflexivity | reflexivity].
  }
  destruct Hbody as (r & s1 & e1 & Hb & Hr & T1 & Hcase).
  destruct r as [[]|x|]; [| |congruence].
  - rewrite (try_except_ok _ _ Hb). cbn [snd].
    rewrite T1, T0, <- app_assoc. eexists. split; [reflexivity|].
    destruct Hcase as [[_ Hno]|(text & Hl & Hrep)].
    + exfalso. now apply (Hno tt).
    + right. exists text. split.
      * now rewrite last_response_app, Hl.
      * now rewrite Hrep, R0.
  - rewrite (try_except_raise _ Hb) by reflexivity.
    destruct (except_clauses_events env (today env) x s1)
      as (r2 & s2 & e2 & H2 & T2 & R2 & N2 & L2).
    rewrite H2. cbn [snd].
    rewrite T2, T1, T0, <- !app_assoc. eexists. split; [reflexivity|].
    destruct Hcase as [[Hn _]|(text & Hl & Hrep)].
    + left. repeat apply no_success_app; auto.
    + right. exists text. split.
      * now rewrite !last_response_app, L2, Hl.
      * now rewrite R2, Hrep, R0.
Qed.

(** C8: run the generator twice on one date; whenever the second run
    reports success, the day file holds exactly the text of the response the
    second run received, whatever the first run had written there. *)
Theorem C8_day_file_overwritten (env : environment) (st : state)
        (new2 : list event) :
  let out1 := get_meme_stocks env st in
  let out2 := get_meme_stocks env (snd out1) in
  trace (snd out2) = trace (snd out1) ++ new2 ->
  In (Print (success_message (today env))) new2 ->
  exists text2,
    last_response new2 = Some (Some text2)
    /\ ConfigParser.dict_get (report_name (today env)) (reports (snd out2))
       = Some text2.
Proof.
  intros out1 out2 Htrace Hsuccess. subst out2.
  destruct (get_meme_stocks_outcome env (snd out1)) as (evs & Hevs & Hcase).
  rewrite Hevs in Htrace. apply app_inv_head in Htrace. subst evs.
  destruct Hcase as [Hno|(text & Hlast & Hrep)].
  - contradiction.
  - exists text. split; [exact Hlast|]. rewrite Hrep. apply dict_get_set_same.
Qed.

Lemma C8_day_file_overwritten_witness :
  let env := two_answers_env (py "first report") (py "second report") in
  let out1 := get_meme_stocks env configured_state in
  let out2 := get_meme_stocks env (snd out1) in
  ConfigParser.dict_get (py "2025-01-02_MemeStock.txt") (reports (snd out1))
  = Some (py "first report")
  /\ ConfigParser.dict_get (py "2025-01-02_MemeStock.txt") (reports (snd out2))
     = Some (py "second report").
Proof.
  intros env out1 out2. split; [vm_compute; reflexivity|].
  destruct (@C8_day_file_overwritten env configured_state
              (skipn (List.length (trace (snd out1))) (trace (snd out2))))
    as (text2 & Hlast & Hfile).
  - vm_compute. reflexivity.
  - vm_compute. auto 10.
  - vm_compute in Hlast. injection Hlast as <-. exact Hfile.
Defined.

(** ** Stripping *)

Lemma lstrip_app_spaces (pre s : str) :
  forallb isspace pre = true -> lstrip (pre ++ s) = lstrip s.
Proof.
  induction pre as [|c pre IH]; cbn; [reflexivity|].
  intros H. apply andb_prop in H. destruct H as [Hc Hpre].
  rewrite Hc. now apply IH.
Qed.

Lemma lstrip_nonspace (c : ascii) (s : str) :
  isspace c = false -> lstrip (c :: s) = c :: s.
Proof. intros H. cbn. now rewrite H. Qed.

Lemma lstrip_spaces (pre : str) : forallb isspace pre = true -> lstrip pre = [].
Proof.
  intros H. rewrite <- (app_nil_r pre). now rewrite lstrip_app_spaces.
Qed.

Lemma rstrip_app_spaces (s post : str) :
  forallb isspace post = true -> rstrip (s ++ post) = rstrip s.
Proof.
  intros H. unfold rstrip. rewrite rev_app_distr, lstrip_app_spaces; auto.
  rewrite forallb_forall in *. intros x Hx. apply H. now apply in_rev.
Qed.

Lemma rstrip_last_nonspace (s : str) (c : ascii) :
  isspace c = false -> rstrip (s ++ [c]) = s ++ [c].
Proof.
  intros H. unfold rstrip. rewrite rev_app_distr. cbn. rewrite H. cbn.
  now rewrite rev_involutive.
Qed.

Lemma rstrip_nil : rstrip [] = [].
Proof. reflexivity. Qed.

(** A text is tight when it is empty or starts and ends with a character
    that is not white space. *)
Lemma tight_spec (s : str) :
  tight s = true <->
  s = [] \/ ((exists c t, s = c :: t /\ isspace c = false)
             /\ (exists t d, s = t ++ [d] /\ isspace d = false)).
Proof.
  destruct s as [|c s].
  - split; auto.
  - destruct (@exists_last _ (c :: s) ltac:(discriminate)) as (body & d & Hs).
    cbn [tight]. rewrite Hs at 1. rewrite last_last.
    split.
    + intros H. apply andb_prop in H. destruct H as [Hc Hd].
      apply negb_true_iff in Hc, Hd. right. split.
      * now exists c, s.
      * now exists body, d.
    + intros [H|[(c' & t & Hc & Hsp) (t' & d' & Hd & Hsp')]]; [discriminate|].
      injection Hc as -> ->. rewrite Hsp. cbn [negb andb].
      rewrite Hs in Hd. apply app_inj_tail in Hd. destruct Hd as [_ ->].
      now rewrite Hsp'.
Qed.

Lemma strip_tight (pre mid post : str) :
  forallb isspace pre = true -> forallb isspace post = true ->
  tight mid = true -> strip (pre ++ mid ++ post) = mid.
Proof.
  intros Hpre Hpost Hmid. unfold strip. rewrite lstrip_app_spaces by exact Hpre.
  apply tight_spec in Hmid.
  destruct Hmid as [->|[(c & t & Hc & Hsp) (t' & d & Hd & Hsp')]].
  - cbn [app]. rewrite lstrip_spaces by exact Hpost. reflexivity.
  - rewrite Hc at 1. cbn [app]. rewrite lstrip_nonspace by exact Hsp.
    change (c :: t ++ post) with ((c :: t) ++ post). rewrite <- Hc.
    rewrite rstrip_app_spaces by exact Hpost.
    rewrite Hd. now apply rstrip_last_nonspace.
Qed.

Lemma strip_id (s : str) : tight s = true -> strip s = s.
Proof.
  intros H. rewrite <- (app_nil_r s) at 1. now apply (strip_tight []).
Qed.

Lemma lstrip_decompose (s : str) :
  exists pre,
    s = pre ++ lstrip s /\ forallb isspace pre = true
    /\ (lstrip s = [] \/ exists c t, lstrip s = c :: t /\ isspace c = false).
Proof.
  induction s as [|c s (pre & Hs & Hpre & Hhead)].
  - exists []. auto.
  - cbn [lstrip]. destruct (isspace c) eqn:Hc.
    + exists (c :: pre). cbn. rewrite Hc, Hpre, <- Hs. auto.
    + exists []. cbn. split; [reflexivity|]. split; [reflexivity|].
      right. now exists c, s.
Qed.

Lemma rstrip_decompose (s : str) :
  exists post,
    s = rstrip s ++ post /\ forallb isspace post = true
    /\ (rstrip s = [] \/ exists t d, rstrip s = t ++ [d] /\ isspace d = false).
Proof.
  unfold rstrip. destruct (lstrip_decompose (rev s)) as (pre & Hs & Hpre & Hhead).
  exists (rev pre). split; [|split].
  - rewrite <- rev_app_distr, <- Hs. now rewrite rev_involutive.
  - rewrite forallb_forall in *. intros x Hx. apply Hpre. now apply in_rev.
  - destruct Hhead as [->|(c & t & -> & Hc)]; [now left|].
    right. exists (rev t), c. cbn. auto.
Qed.

Lemma strip_decompose (s : str) :
  exists pre post,
    s = pre ++ strip s ++ post
    /\ forallb isspace pre = true /\ forallb isspace post = true
    /\ tight (strip s) = true.
Proof.
  unfold strip.
  destruct (lstrip_decompose s) as (pre & Hs & Hpre & Hhead).
  destruct (rstrip_decompose (lstrip s)) as (post & Hl & Hpost & Htail).
  exists pre, post. split; [|split; [|split]]; auto.
  - now rewrite <- Hl.
  - apply tight_spec.
    destruct Htail as [->|(t & d & Hr & Hd)]; [now left|]. right. split.
    + destruct Hhead as [Hnil|(c & t' & Hc & Hsp)].
      * rewrite Hnil in Hr. cbn in Hr. now destruct t.
      * rewrite Hr, Hc in Hl. destruct t as [|x t]; cbn in Hl.
        -- injection Hl as -> _. exists d, []. rewrite Hr. auto.
        -- injection Hl as -> _. exists x, (t ++ [d]). rewrite Hr. auto.
    + now exists t, d.
Qed.

Lemma strip_idempotent (s : str) : strip (strip s) = strip s.
Proof.
  destruct (strip_decompose s) as (_ & _ & _ & _ & _ & H). now apply strip_id.
Qed.

Lemma isspace_LF : isspace LF = true.
Proof. reflexivity. Qed.

Lemma isspace_TAB : isspace TAB = true.
Proof. reflexivity. Qed.

(** ** Lines *)

Lemma no_char_app (c : ascii) (a b : str) :
  no_char c (a ++ b) = no_char c a && no_char c b.
Proof. unfold no_char. apply forallb_app. Qed.

Lemma no_char_cons (c x : ascii) (s : str) :
  no_char c (x :: s) = negb (Ascii.eqb x c) && no_char c s.
Proof. reflexivity. Qed.

Lemma no_char_In (c : ascii) (s : str) :
  no_char c s = true <-> ~ In c s.
Proof.
  unfold no_char. rewrite forallb_forall. split.
  - intros H Hin. specialize (H c Hin). now rewrite Ascii.eqb_refl in H.
  - intros H x Hx. apply negb_true_iff, Ascii.eqb_neq. intros ->. now apply H.
Qed.

Lemma readlines_line (l rest : str) :
  no_char LF l = true ->
  readlines (l ++ LF :: rest) = (l ++ [LF]) :: readlines rest.
Proof.
  induction l as [|c l IH]; intros H.
  - reflexivity.
  - rewrite no_char_cons in H. apply andb_prop in H. destruct H as [Hc Hl].
    apply negb_true_iff in Hc. cbn [app readlines]. rewrite Hc, IH by exact Hl.
    reflexivity.
Qed.

Lemma readlines_concat (bodies : list str) :
  Forall (fun l => no_char LF l = true) bodies ->
  readlines (List.concat (map (fun l => l ++ [LF]) bodies))
  = map (fun l => l ++ [LF]) bodies.
Proof.
  induction 1 as [|l bodies Hl _ IH]; [reflexivity|].
  cbn [map List.concat]. rewrite <- app_assoc. cbn [app].
  now rewrite readlines_line, IH.
Qed.

Lemma universal_newlines_id (s : str) :
  no_char CR s = true -> universal_newlines s = s.
Proof.
  induction s as [|c s IH]; intros H; [reflexivity|].
  rewrite no_char_cons in H. apply andb_prop in H. destruct H as [Hc Hs].
  apply negb_true_iff in Hc. cbn [universal_newlines]. rewrite Hc.
  now rewrite IH.
Qed.

Lemma universal_newlines_no_cr_aux (n : nat) :
  forall s, List.length s <= n -> no_char CR (universal_newlines s) = true.
Proof.
  induction n as [|n IH]; intros s Hn.
  - destruct s; [reflexivity | cbn in Hn; lia].
  - destruct s as [|c s]; [reflexivity|]. cbn in Hn.
    cbn [universal_newlines]. destruct (Ascii.eqb c CR) eqn:Hc.
    + destruct s as [|d s]; [reflexivity|].
      destruct (Ascii.eqb d LF); rewrite no_char_cons; cbn [negb andb];
        apply IH; cbn in *; lia.
    + rewrite no_char_cons, Hc. cbn [negb andb]. apply IH. lia.
Qed.

Lemma universal_newlines_no_cr (s : str) :
  no_char CR (universal_newlines s) = true.
Proof. now apply (@universal_newlines_no_cr_aux (List.length s)). Qed.

(** Every line that the iteration yields is a text without line feed,
    followed by a line feed or (for the last line) by nothing; and it holds
    only characters of the file. *)
Lemma readlines_shape (s : str) :
  Forall (fun line => exists body,
              (line = body ++ [LF] \/ line = body)
              /\ no_char LF body = true
              /\ forall c, In c body -> In c s)
         (readlines s).
Proof.
  induction s as [|c s IH]; [constructor|].
  cbn [readlines]. destruct (Ascii.eqb c LF) eqn:Hc.
  - apply Ascii.eqb_eq in Hc. subst c. constructor.
    + exists []. split; [now left|]. split; [reflexivity|]. intros c [].
    + eapply Forall_impl; [|exact IH].
      intros line (body & Hline & Hlf & Hin). exists body.
      split; [exact Hline|]. split; [exact Hlf|]. intros x Hx. right. auto.
  - destruct (readlines s) as [|l ls].
    + constructor; [|constructor]. exists [c]. split; [now right|].
      split; [now rewrite no_char_cons, Hc|]. intros x [->|[]]. now left.
    + inversion IH as [|? ? (body & Hline & Hlf & Hin) Hrest]; subst.
      constructor.
      * exists (c :: body). split; [|split].
        -- destruct Hline as [->| ->]; [now left | now right].
        -- rewrite no_char_cons, Hc. exact Hlf.
        -- intros x [->|Hx]; [now left | right; auto].
      * eapply Forall_impl; [|exact Hrest].
        intros line (body' & Hline' & Hlf' & Hin'). exists body'.
        split; [exact Hline'|]. split; [exact Hlf'|].
        intros x Hx. right. auto.
Qed.

(** ** Repetitions of the matcher *)

Section RepetitionFacts.
Variable A : Type.
Variable p : ascii -> bool.

Lemma rep_greedy_none (s : str) (k : str -> option A) :
  (forall a b, s = a ++ b -> forallb p a = true -> k b = None) ->
  rep_greedy p s k = None.
Proof.
  induction s as [|c s IH]; intros H; cbn [rep_greedy].
  - now apply (H [] []).
  - destruct (p c) eqn:Hc.
    + rewrite IH.
      * now apply (H [] (c :: s)).
      * intros a b -> Ha. apply (H (c :: a) b); [reflexivity|].
        cbn. now rewrite Hc.
    + now apply (H [] (c :: s)).
Qed.

(** The longest run is tried first. *)
Lemma rep_greedy_longest (run rest : str) (k : str -> option A) (r : A) :
  forallb p run = true ->
  k rest = Some r ->
  rep_greedy p (run ++ rest) k = Some r \/ exists c t, rest = c :: t /\ p c = true.
Proof.
  intros Hrun Hk. induction run as [|x run IH]; cbn [app].
  - destruct rest as [|c t]; cbn [rep_greedy].
    + now left.
    + destruct (p c) eqn:Hc; [right; now exists c, t | now left].
  - cbn in Hrun. apply andb_prop in Hrun. destruct Hrun as [Hx Hrun].
    destruct (IH Hrun) as [Hg|Hmore]; [|now right].
    left. cbn [rep_greedy]. now rewrite Hx, Hg.
Qed.

Lemma rep_greedy_some (a b : str) (k : str -> option A) :
  forallb p a = true -> k b <> None -> rep_greedy p (a ++ b) k <> None.
Proof.
  intros Ha Hk. induction a as [|x a IH]; cbn [app].
  - destruct b as [|c t]; cbn [rep_greedy]; [exact Hk|].
    destruct (p c); [|exact Hk].
    destruct (rep_greedy p t k); [discriminate | exact Hk].
  - cbn in Ha. apply andb_prop in Ha. destruct Ha as [Hx Ha].
    cbn [rep_greedy]. rewrite Hx.
    specialize (IH Ha). destruct (rep_greedy p (a ++ b) k); [discriminate|].
    congruence.
Qed.

Lemma rep_greedy_ext (s : str) (k k' : str -> option A) :
  (forall b, k b = k' b) -> rep_greedy p s k = rep_greedy p s k'.
Proof.
  intros H. induction s as [|c s IH]; cbn [rep_greedy]; [apply H|].
  rewrite IH, H. reflexivity.
Qed.

Lemma rep_lazy_ext (s : str) (k k' : str -> option A) :
  (forall b, k b = k' b) -> rep_lazy p s k = rep_lazy p s k'.
Proof.
  intros H. induction s as [|c s IH]; cbn [rep_lazy]; rewrite H; [reflexivity|].
  now rewrite IH.
Qed.
End RepetitionFacts.

(** ** The section pattern *)

Lemma firstn_length_app (pre t : str) :
  firstn (List.length (pre ++ t) - List.length t) (pre ++ t) = pre.
Proof.
  rewrite length_app, Nat.add_sub. rewrite firstn_app, Nat.sub_diag.
  cbn. rewrite app_nil_r. apply firstn_all.
Qed.

Lemma sectcre_tail (w : str) :
  forall t pre,
    w = pre ++ t -> no_char LF t = true ->
    option_map (fun m => group "header" (snd m))
      (rep_greedy dot t
         (fun s' =>
            match s' with
            | x :: s'' =>
                if Ascii.eqb x "]"%char
                then Some (s'', [("header"%string,
                                  firstn (List.length w - List.length s') w)])
                else None
            | [] => None
            end))
    = option_map (app pre) (before_last_bracket t).
Proof.
  induction t as [|x t IH]; intros pre Hw Hlf; [reflexivity|].
  rewrite no_char_cons in Hlf. apply andb_prop in Hlf.
  destruct Hlf as [Hx Hlf]. cbn [rep_greedy before_last_bracket].
  unfold dot at 1. rewrite Hx.
  specialize (IH (pre ++ [x]) ltac:(now rewrite <- app_assoc) Hlf).
  destruct (before_last_bracket t) as [h|].
  - destruct (rep_greedy dot t _) as [m|]; [|discriminate].
    cbn in IH |- *. injection IH as ->. now rewrite <- app_assoc.
  - destruct (rep_greedy dot t _) as [m|]; [discriminate|].
    destruct (Ascii.eqb x "]"%char); [|reflexivity].
    cbn. rewrite Hw at 1 2.
    change (x :: t) with ([x] ++ t) at 2. 
    rewrite firstn_length_app. now rewrite app_nil_r.
Qed.

Lemma sectcre_spec (v : str) :
  no_char LF v = true ->
  option_map (fun m => group "header" (snd m)) (re_match ConfigParser.SECTCRE v)
  = header_of v.
Proof.
  intros Hlf. unfold re_match, ConfigParser.SECTCRE, header_of.
  destruct v as [|b [|c t]]; cbn [exec].
  - reflexivity.
  - now destruct (Ascii.eqb b "["%char).
  - destruct (Ascii.eqb b "["%char); [|reflexivity].
    rewrite !no_char_cons in Hlf. apply andb_prop in Hlf.
    destruct Hlf as [_ Hlf]. apply andb_prop in Hlf. destruct Hlf as [Hc Hlf].
    unfold dot at 1. rewrite Hc.
    pose proof (@sectcre_tail (c :: t) t [c] eq_refl Hlf) as H.
    transitivity (option_map (app [c]) (before_last_bracket t));
      [exact H | now destruct (before_last_bracket t)].
Qed.

(** ** The option pattern *)

Lemma lstrip_head_nonspace (s : str) (c : ascii) (t : str) :
  lstrip s = c :: t -> isspace c = false.
Proof.
  destruct (lstrip_decompose s) as (_ & _ & _ & [H|(c' & t' & H & Hc)]);
    intros Heq; rewrite Heq in H; [discriminate|]. now injection H as -> ->.
Qed.

Lemma optcre_value (s : str) (c : captures) :
  no_char LF s = true ->
  exec (Cat (Rep true isspace) (Cat (Grp "value" (Rep true dot)) Eol)) s c
       (fun s' caps => Some (s', caps))
  = Some ([], ("value"%string, lstrip s) :: c).
Proof.
  intros Hlf. cbn [exec].
  destruct (lstrip_decompose s) as (pre & Hs & Hpre & Hhead).
  assert (Hl : no_char LF (lstrip s) = true).
  { rewrite Hs, no_char_app in Hlf. now apply andb_prop in Hlf. }
  assert (Hinner :
            rep_greedy dot (lstrip s)
              (fun s'0 : str =>
                 match s'0 with
                 | [] => Some (s'0, ("value"%string,
                                     firstn (List.length (lstrip s) - List.length s'0)
                                            (lstrip s)) :: c)
                 | [c0] => if Ascii.eqb c0 LF
                           then Some (s'0, ("value"%string,
                                     firstn (List.length (lstrip s) - List.length s'0)
                                            (lstrip s)) :: c)
                           else None
                 | _ :: _ :: _ => None
                 end)
            = Some ([], ("value"%string, lstrip s) :: c)).
  { destruct (@rep_greedy_longest _ dot (lstrip s) []
                (fun s'0 : str =>
                   match s'0 with
                   | [] => Some (s'0, ("value"%string,
                                       firstn (List.length (lstrip s) - List.length s'0)
                                              (lstrip s)) :: c)
                   | [c0] => if Ascii.eqb c0 LF
                             then Some (s'0, ("value"%string,
                                       firstn (List.length (lstrip s) - List.length s'0)
                                              (lstrip s)) :: c)
                             else None
                   | _ :: _ :: _ => None
                   end)
                ([], ("value"%string, lstrip s) :: c)) as [H|(x & t & H & _)].
    - exact Hl.
    - cbn. now rewrite Nat.sub_0_r, firstn_all.
    - now rewrite app_nil_r in H.
    - discriminate. }
  rewrite Hs at 1.
  match goal with
  | |- rep_greedy isspace _ ?k = _ =>
      destruct (@rep_greedy_longest _ isspace pre (lstrip s) k
                  ([], ("value"%string, lstrip s) :: c) Hpre Hinner)
        as [H|(x & t & H & Hx)]
  end.
  - exact H.
  - apply lstrip_head_nonspace in H. congruence.
Qed.

Lemma isspace_delimiter (d : ascii) : is_delimiter d = true -> isspace d = false.
Proof.
  unfold is_delimiter. intros H. apply orb_prop in H.
  destruct H as [H|H]; apply Ascii.eqb_eq in H; subst; reflexivity.
Qed.

Lemma optcre_delim_here (s : str) (c : captures) :
  no_char LF s = true ->
  exec OPT_DELIM s c (fun s' caps => Some (s', caps))
  = match s with
    | d :: rest =>
        if is_delimiter d
        then Some ([], ("value"%string, lstrip rest) :: ("vi"%string, [d]) :: c)
        else None
    | [] => None
    end.
Proof.
  intros Hlf. unfold OPT_DELIM. cbn [exec]. destruct s as [|d rest]; [reflexivity|].
  rewrite no_char_cons in Hlf. apply andb_prop in Hlf. destruct Hlf as [_ Hlf].
  pose proof (@optcre_value rest
                (("vi"%string,
                  firstn (List.length (d :: rest) - List.length rest) (d :: rest))
                   :: c) Hlf) as Hv.
  unfold OPT_VALUE. cbn [exec] in Hv |- *.
  assert (Hd : firstn (List.length (d :: rest) - List.length rest) (d :: rest)
               = [d]).
  { change (d :: rest) with ([d] ++ rest). apply firstn_length_app. }
  unfold is_delimiter.
  destruct (Ascii.eqb d "="%char) eqn:He.
  - cbn [orb]. rewrite Hv, Hd. reflexivity.
  - destruct (Ascii.eqb d ":"%char) eqn:Hc; cbn [orb]; [|reflexivity].
    rewrite Hv, Hd. reflexivity.
Qed.

Lemma optcre_delim (s : str) (c : captures) :
  no_char LF s = true ->
  exec (Cat (Rep true isspace) OPT_DELIM) s c (fun s' caps => Some (s', caps))
  = match lstrip s with
    | d :: rest =>
        if is_delimiter d
        then Some ([], ("value"%string, lstrip rest) :: ("vi"%string, [d]) :: c)
        else None
    | [] => None
    end.
Proof.
  intros Hlf.
  change (exec (Cat (Rep true isspace) OPT_DELIM) s c
               (fun s' caps => Some (s', caps)))
    with (rep_greedy isspace s
            (fun s' => exec OPT_DELIM s' c (fun s'0 caps => Some (s'0, caps)))).
  destruct (lstrip_decompose s) as (pre & Hs & Hpre & Hhead).
  assert (Hl : no_char LF (lstrip s) = true).
  { rewrite Hs, no_char_app in Hlf. now apply andb_prop in Hlf. }
  destruct (lstrip s) as [|d rest] eqn:Hls.
  - apply rep_greedy_none. intros a b Hab Ha.
    assert (Hb : lstrip b = []).
    { rewrite <- (lstrip_app_spaces a b Ha), <- Hab. exact Hls. }
    assert (Hlb : no_char LF b = true).
    { rewrite Hab, no_char_app in Hlf. now apply andb_prop in Hlf. }
    rewrite optcre_delim_here by exact Hlb.
    destruct b as [|x b]; [reflexivity|].
    destruct (is_delimiter x) eqn:Hx; [|reflexivity].
    apply isspace_delimiter in Hx. cbn in Hb. rewrite Hx in Hb. discriminate.
  - destruct (is_delimiter d) eqn:Hd.
    + rewrite Hs at 1.
      match goal with
      | |- rep_greedy isspace _ ?k = Some ?r =>
          destruct (@rep_greedy_longest _ isspace pre (d :: rest) k r Hpre)
            as [H|(x & t & H & Hx)]
      end.
      * rewrite optcre_delim_here by exact Hl. now rewrite Hd.
      * exact H.
      * injection H as <- <-. apply isspace_delimiter in Hd. congruence.
    + apply rep_greedy_none. intros a b Hab Ha.
      assert (Hb : lstrip b = d :: rest).
      { rewrite <- (lstrip_app_spaces a b Ha), <- Hab. exact Hls. }
      assert (Hlb : no_char LF b = true).
      { rewrite Hab, no_char_app in Hlf. now apply andb_prop in Hlf. }
      rewrite optcre_delim_here by exact Hlb.
      destruct b as [|x b]; [reflexivity|].
      destruct (is_delimiter x) eqn:Hx; [|reflexivity].
      pose proof (isspace_delimiter _ Hx) as Hsp. cbn in Hb. rewrite Hsp in Hb.
      injection Hb as -> _. congruence.
Qed.

Lemma after_delimiter_spec (s : str) (c : captures) :
  no_char LF s = true ->
  option_map (fun m => (group "option" (snd m), group "value" (snd m)))
    (exec (Cat (Rep true isspace) OPT_DELIM) s c (fun s' caps => Some (s', caps)))
  = option_map (fun value => (group "option" c, value)) (after_delimiter s).
Proof.
  intros Hlf. rewrite optcre_delim by exact Hlf. unfold after_delimiter.
  destruct (lstrip s) as [|d rest]; [reflexivity|].
  destruct (is_delimiter d); reflexivity.
Qed.

Lemma optcre_lazy (w : str) (K : str -> option (str * captures)) :
  (forall s' pre,
      w = pre ++ s' -> no_char LF s' = true ->
      option_map (fun m => (group "option" (snd m), group "value" (snd m))) (K s')
      = option_map (fun value => (pre, value)) (after_delimiter s')) ->
  forall v pre,
    w = pre ++ v -> no_char LF v = true ->
    option_map (fun m => (group "option" (snd m), group "value" (snd m)))
               (rep_lazy dot v K)
    = option_map (fun ov => (pre ++ fst ov, snd ov)) (option_split v).
Proof.
  intros HK. induction v as [|x v IH]; intros pre Hw Hlf.
  - cbn [rep_lazy option_split]. specialize (HK [] pre Hw Hlf).
    destruct (K []) as [m|]; destruct (after_delimiter []) as [value|];
      try discriminate; [|reflexivity].
    cbn in HK |- *. now rewrite app_nil_r.
  - cbn [rep_lazy option_split]. specialize (HK (x :: v) pre Hw Hlf).
    destruct (K (x :: v)) as [m|]; destruct (after_delimiter (x :: v)) as [value|];
      try discriminate.
    + cbn in HK |- *. now rewrite app_nil_r.
    + rewrite no_char_cons in Hlf. apply andb_prop in Hlf.
      destruct Hlf as [Hx Hlf].
      assert (Hdx : dot x = true) by exact Hx. rewrite !Hdx.
      rewrite (IH (pre ++ [x]) ltac:(now rewrite <- app_assoc) Hlf).
      destruct (option_split v) as [[o value]|]; [|reflexivity].
      cbn. now rewrite <- app_assoc.
Qed.

Lemma optcre_spec (v : str) :
  no_char LF v = true ->
  option_map (fun m => (group "option" (snd m), group "value" (snd m)))
    (re_match ConfigParser.OPTCRE v)
  = option_split v.
Proof.
  intros Hlf.
  transitivity (option_map (fun ov : str * str => ([] ++ fst ov, snd ov))
                           (option_split v)).
  - apply (@optcre_lazy v
             (fun s' =>
                exec (Cat (Rep true isspace) OPT_DELIM) s'
                     [("option"%string, firstn (List.length v - List.length s') v)]
                     (fun s'0 caps => Some (s'0, caps)))); auto.
    intros s' pre Hv Hs'. rewrite after_delimiter_spec by exact Hs'.
    cbn [group]. rewrite String.eqb_refl.
    rewrite Hv, firstn_length_app. reflexivity.
  - destruct (option_split v) as [[o value]|]; reflexivity.
Qed.

(** ** Headers *)

Lemma before_last_bracket_none (t : str) :
  before_last_bracket t = None <-> existsb (Ascii.eqb "]"%char) t = false.
Proof.
  induction t as [|c t IH]; cbn [before_last_bracket existsb]; [tauto|].
  destruct (before_last_bracket t) as [h|].
  - destruct (existsb (Ascii.eqb "]"%char) t).
    + rewrite orb_true_r. split; discriminate.
    + destruct IH as [_ IH]. discriminate (IH eq_refl).
  - destruct IH as [IH _]. rewrite (IH eq_refl), orb_false_r.
    rewrite (Ascii.eqb_sym "]"%char c).
    destruct (Ascii.eqb c "]"%char); split; congruence.
Qed.

Lemma header_of_none (v : str) :
  header_of v = None <-> header_like v = false.
Proof.
  unfold header_of, header_like. destruct v as [|b [|c t]]; try tauto.
  destruct (Ascii.eqb b "["%char); cbn [andb]; [|tauto].
  rewrite <- before_last_bracket_none.
  destruct (before_last_bracket t); split; congruence.
Qed.

Lemma before_last_bracket_snoc (t : str) :
  before_last_bracket (t ++ ["]"%char]) = Some t.
Proof.
  induction t as [|c t IH]; [reflexivity|].
  cbn [app before_last_bracket]. now rewrite IH.
Qed.

Lemma header_of_bracketed (name : str) :
  name <> [] -> header_of ("["%char :: name ++ ["]"%char]) = Some name.
Proof.
  destruct name as [|c name]; [congruence|]. intros _.
  cbn [app header_of]. rewrite Ascii.eqb_refl.
  now rewrite before_last_bracket_snoc.
Qed.

Lemma before_last_bracket_In (t h : str) :
  before_last_bracket t = Some h -> forall c, In c h -> In c t.
Proof.
  revert h. induction t as [|x t IH]; intros h; cbn [before_last_bracket];
    [discriminate|].
  destruct (before_last_bracket t) as [h'|].
  - intros [= <-] c [->|Hc]; [now left | right; now apply (IH h')].
  - destruct (Ascii.eqb x "]"%char); [|discriminate].
    intros [= <-] c [].
Qed.

Lemma header_of_In (v h : str) :
  header_of v = Some h -> h <> [] /\ forall c, In c h -> In c v.
Proof.
  unfold header_of. destruct v as [|b [|c t]]; try discriminate.
  destruct (Ascii.eqb b "["%char); [|discriminate].
  destruct (before_last_bracket t) as [h'|] eqn:Hb; [|discriminate].
  intros [= <-]. split; [discriminate|].
  intros x [->|Hx]; [right; now left|].
  right. right. now apply (before_last_bracket_In _ Hb).
Qed.

(** ** Options *)

Lemma after_delimiter_inv (s value : str) :
  after_delimiter s = Some value ->
  exists mid d rest,
    s = mid ++ d :: rest /\ forallb isspace mid = true
    /\ is_delimiter d = true /\ value = lstrip rest.
Proof.
  unfold after_delimiter.
  destruct (lstrip_decompose s) as (pre & Hs & Hpre & _).
  destruct (lstrip s) as [|d rest]; [discriminate|].
  destruct (is_delimiter d) eqn:Hd; [|discriminate].
  intros [= <-]. now exists pre, d, rest.
Qed.

Lemma after_delimiter_here (mid rest : str) (d : ascii) :
  forallb isspace mid = true -> is_delimiter d = true ->
  after_delimiter (mid ++ d :: rest) = Some (lstrip rest).
Proof.
  intros Hmid Hd. unfold after_delimiter.
  rewrite lstrip_app_spaces by exact Hmid.
  rewrite lstrip_nonspace by now apply isspace_delimiter.
  now rewrite Hd.
Qed.

Lemma last_default (l : str) (x y : ascii) :
  l <> [] -> last l x = last l y.
Proof.
  induction l as [|a l IH]; [congruence|]. intros _.
  destruct l as [|b l]; [reflexivity|].
  change (last (a :: b :: l) x) with (last (b :: l) x).
  change (last (a :: b :: l) y) with (last (b :: l) y).
  apply IH. discriminate.
Qed.

Lemma ends_nonspace_tail (c : ascii) (k : str) :
  ends_nonspace (c :: k) = true -> ends_nonspace k = true.
Proof.
  destruct k as [|x k]; [reflexivity|]. cbn [ends_nonspace].
  change (last (c :: x :: k) c) with (last (x :: k) c).
  now rewrite (@last_default (x :: k) c x) by discriminate.
Qed.

(** What [OPTCRE] finds on a line: the option has no delimiter and does not
    end in white space, and the line is the option, white space, a
    delimiter and the rest. *)
Lemma option_split_spec :
  forall v o value,
    option_split v = Some (o, value) ->
    exists mid d rest,
      v = o ++ mid ++ d :: rest /\ forallb isspace mid = true
      /\ is_delimiter d = true /\ value = lstrip rest
      /\ no_delimiter o = true /\ ends_nonspace o = true.
Proof.
  induction v as [|c v IH]; intros o value; cbn [option_split].
  - destruct (after_delimiter []) as [x|] eqn:Ha; [|discriminate].
    intros [= <- <-]. destruct (after_delimiter_inv _ Ha) as (mid & d & rest & H).
    exists mid, d, rest. cbn. tauto.
  - destruct (after_delimiter (c :: v)) as [x|] eqn:Ha.
    + intros [= <- <-]. destruct (after_delimiter_inv _ Ha) as (mid & d & rest & H).
      exists mid, d, rest. cbn. tauto.
    + destruct (dot c); [|discriminate].
      destruct (option_split v) as [[o' value']|] eqn:Hv; [|discriminate].
      intros [= <- <-].
      destruct (IH _ _ eq_refl) as (mid & d & rest & Hvv & Hmid & Hd & Hval & Hno & Hend).
      exists mid, d, rest. split; [now rewrite Hvv|].
      split; [exact Hmid|]. split; [exact Hd|]. split; [exact Hval|].
      assert (Hc : is_delimiter c = false /\ (o' = [] -> isspace c = false)).
      { split.
        - destruct (is_delimiter c) eqn:Hc; [|reflexivity].
          pose proof (@after_delimiter_here [] v c eq_refl Hc) as Hh.
          cbn [app] in Hh. congruence.
        - intros ->. destruct (isspace c) eqn:Hc; [|reflexivity].
          cbn [app] in Hvv. rewrite Hvv in Ha.
          change (c :: mid ++ d :: rest) with ((c :: mid) ++ d :: rest) in Ha.
          rewrite after_delimiter_here in Ha; [discriminate| |exact Hd].
          cbn. now rewrite Hc. }
      destruct Hc as [Hc Hsp]. split.
      * unfold no_delimiter. cbn. rewrite Hc. exact Hno.
      * destruct o' as [|x o'].
        -- cbn. now rewrite Hsp.
        -- cbn [ends_nonspace] in Hend |- *.
           change (last (c :: x :: o') c) with (last (x :: o') c).
           now rewrite (@last_default (x :: o') c x) by discriminate.
Qed.

Lemma after_delimiter_key (k rest : str) :
  k <> [] -> no_delimiter k = true -> ends_nonspace k = true ->
  after_delimiter (k ++ rest) = None.
Proof.
  induction k as [|c k IH]; [congruence|]. intros _ Hno Hend.
  unfold no_delimiter in Hno. cbn in Hno. apply andb_prop in Hno.
  destruct Hno as [Hc Hno]. apply negb_true_iff in Hc.
  unfold after_delimiter. cbn [app lstrip]. destruct (isspace c) eqn:Hsp.
  - destruct k as [|x k].
    + cbn in Hend. now rewrite Hsp in Hend.
    + apply (IH ltac:(discriminate) Hno). now apply (ends_nonspace_tail c).
  - now rewrite Hc.
Qed.

Lemma option_split_key (k mid rest : str) (d : ascii) :
  no_delimiter k = true -> ends_nonspace k = true -> no_char LF k = true ->
  forallb isspace mid = true -> is_delimiter d = true ->
  option_split (k ++ mid ++ d :: rest) = Some (k, lstrip rest).
Proof.
  intros Hno Hend Hlf Hmid Hd. induction k as [|c k IH].
  - cbn [app]. destruct (mid ++ d :: rest) as [|x s] eqn:Hs.
    + now destruct mid.
    + cbn [option_split]. rewrite <- Hs.
      now rewrite after_delimiter_here.
  - cbn [app option_split].
    change (c :: k ++ mid ++ d :: rest) with ((c :: k) ++ mid ++ d :: rest).
    rewrite after_delimiter_key; auto; [|discriminate].
    rewrite no_char_cons in Hlf. apply andb_prop in Hlf. destruct Hlf as [Hc Hlf].
    assert (Hdc : dot c = true) by exact Hc. rewrite Hdc.
    rewrite IH; auto.
    + unfold no_delimiter in *. cbn in Hno. now apply andb_prop in Hno.
    + now apply (ends_nonspace_tail c).
Qed.

(** * The file that [write] produces is read back *)

(** ** Dictionaries *)

Lemma dict_mem_In {V : Type} (k : str) (d : ConfigParser.dict V) :
  ConfigParser.dict_mem k d = true <-> In k (map fst d).
Proof.
  unfold ConfigParser.dict_mem.
  induction d as [|[k' v'] d IH]; cbn.
  - split; [discriminate|tauto].
  - destruct (str_eqb k' k) eqn:Hk.
    + apply str_eqb_eq in Hk. split; auto.
    + apply str_eqb_neq in Hk. rewrite IH. split; [tauto|].
      intros [H|H]; [contradiction|exact H].
Qed.

Lemma dict_mem_false {V : Type} (k : str) (d : ConfigParser.dict V) :
  ConfigParser.dict_mem k d = false <-> ~ In k (map fst d).
Proof.
  rewrite <- dict_mem_In. destruct (ConfigParser.dict_mem k d); split; congruence.
Qed.

Lemma dict_get_app_fresh {V : Type} (k : str) (d d' : ConfigParser.dict V) :
  ConfigParser.dict_mem k d = false ->
  ConfigParser.dict_get k (d ++ d') = ConfigParser.dict_get k d'.
Proof.
  unfold ConfigParser.dict_mem.
  induction d as [|[k' v'] d IH]; cbn; [reflexivity|].
  destruct (str_eqb k' k); [discriminate|exact IH].
Qed.

Lemma dict_set_app_fresh {V : Type} (k : str) (v : V) (d d' : ConfigParser.dict V) :
  ConfigParser.dict_mem k d = false ->
  ConfigParser.dict_set k v (d ++ d') = d ++ ConfigParser.dict_set k v d'.
Proof.
  unfold ConfigParser.dict_mem.
  induction d as [|[k' v'] d IH]; cbn; [reflexivity|].
  destruct (str_eqb k' k); [discriminate|]. intros H. now rewrite IH.
Qed.

Lemma dict_set_fresh {V : Type} (k : str) (v : V) (d : ConfigParser.dict V) :
  ConfigParser.dict_mem k d = false ->
  ConfigParser.dict_set k v d = d ++ [(k, v)].
Proof.
  intros H. rewrite <- (app_nil_r d) at 1. now rewrite dict_set_app_fresh.
Qed.

Lemma dict_get_last {V : Type} (k : str) (v : V) (d : ConfigParser.dict V) :
  ConfigParser.dict_mem k d = false ->
  ConfigParser.dict_get k (d ++ [(k, v)]) = Some v.
Proof.
  intros H. rewrite dict_get_app_fresh by exact H. cbn. now rewrite str_eqb_refl.
Qed.

Lemma dict_set_last {V : Type} (k : str) (v v' : V) (d : ConfigParser.dict V) :
  ConfigParser.dict_mem k d = false ->
  ConfigParser.dict_set k v' (d ++ [(k, v)]) = d ++ [(k, v')].
Proof.
  intros H. rewrite dict_set_app_fresh by exact H. cbn. now rewrite str_eqb_refl.
Qed.

(** ** The parser object at the cursor *)

Lemma cursect_get_place (c : ConfigParser.cursor)
      (secs : ConfigParser.dict (ConfigParser.dict (list str)))
      (dflt d : ConfigParser.dict (list str)) (els : list ConfigParser.element)
      (sn on : option str) (il : nat) (err : bool) (key : str) :
  cursor_fits c secs ->
  ConfigParser.cursect_get
    (ConfigParser.mkRstate (place c secs dflt d) els c sn on il err) key
  = ConfigParser.dict_get key d.
Proof.
  destruct c as [| |name]; cbn; [tauto|reflexivity|].
  intros H. unfold ConfigParser.cursect_get. cbn.
  now rewrite dict_get_last.
Qed.

Lemma cursect_set_place (c : ConfigParser.cursor)
      (secs : ConfigParser.dict (ConfigParser.dict (list str)))
      (dflt d : ConfigParser.dict (list str)) (els : list ConfigParser.element)
      (sn on : option str) (il : nat) (err : bool) (key : str) (v : list str) :
  cursor_fits c secs ->
  ConfigParser.cursect_set
    (ConfigParser.mkRstate (place c secs dflt d) els c sn on il err) key v
  = place c secs dflt (ConfigParser.dict_set key v d).
Proof.
  destruct c as [| |name]; cbn; [tauto|reflexivity|].
  intros H. unfold ConfigParser.cursect_set. cbn.
  now rewrite dict_get_last, dict_set_last.
Qed.

Lemma cursect_append_place (c : ConfigParser.cursor)
      (secs : ConfigParser.dict (ConfigParser.dict (list str)))
      (dflt d : ConfigParser.dict (list str)) (els : list ConfigParser.element)
      (sn on : option str) (il : nat) (err : bool) (key : str)
      (lines : list str) (l : str) :
  cursor_fits c secs ->
  ConfigParser.dict_mem key d = false ->
  ConfigParser.cursect_append
    (ConfigParser.mkRstate (place c secs dflt (d ++ [(key, lines)])) els c sn on il err)
    key l
  = ConfigParser.mkRstate (place c secs dflt (d ++ [(key, lines ++ [l])]))
      els c sn on il err.
Proof.
  intros Hc Hk. unfold ConfigParser.cursect_append.
  rewrite cursect_get_place by exact Hc. rewrite dict_get_last by exact Hk.
  rewrite cursect_set_place by exact Hc. rewrite dict_set_last by exact Hk.
  reflexivity.
Qed.
(** ** One line at a time *)

Lemma tight_ends (c d : ascii) (mid : str) :
  isspace c = false -> isspace d = false -> tight (c :: mid ++ [d]) = true.
Proof.
  intros Hc Hd. cbn [tight]. rewrite Hc.
  change (c :: mid ++ [d]) with ((c :: mid) ++ [d]). rewrite last_last, Hd.
  reflexivity.
Qed.

Lemma tight_join (a mid b : str) :
  a <> [] -> b <> [] -> tight a = true -> tight b = true ->
  tight (a ++ mid ++ b) = true.
Proof.
  intros Ha Hb Hta Htb.
  apply tight_spec in Hta. destruct Hta as [->|[(c & t & -> & Hc) _]]; [congruence|].
  apply tight_spec in Htb. destruct Htb as [->|[_ (t' & d & -> & Hd)]]; [congruence|].
  cbn [app]. rewrite !app_assoc. apply tight_ends; assumption.
Qed.

Lemma tight_head (c : ascii) (s : str) : tight (c :: s) = true -> isspace c = false.
Proof.
  cbn [tight]. intros H. apply andb_prop in H. destruct H as [H _].
  now apply negb_true_iff in H.
Qed.

Lemma is_comment_nil : is_comment [] = false.
Proof. reflexivity. Qed.

Lemma is_comment_head (c : ascii) (s t : str) :
  is_comment (c :: s) = is_comment (c :: t).
Proof.
  unfold is_comment, ConfigParser.comment_prefixes. unfold py. cbn.
  now rewrite !andb_true_r.
Qed.

Lemma read_line_value (st : ConfigParser.rstate) (line : str) (c : ascii) (v : str) :
  strip line = c :: v -> is_comment (c :: v) = false ->
  ConfigParser.read_line st line
  = let cur_indent_level :=
      match search_start ConfigParser.nonspace line with Some i => i | None => 0 end in
    match ConfigParser.optname_true st with
    | Some o =>
        if ConfigParser.indent_level st <? cur_indent_level
        then inr (ConfigParser.cursect_append st o (c :: v))
        else ConfigParser.read_header_or_option st cur_indent_level (c :: v)
    | None => ConfigParser.read_header_or_option st cur_indent_level (c :: v)
    end.
Proof.
  intros Hs Hc. unfold ConfigParser.read_line.
  change (existsb (fun prefix => startswith prefix (strip line))
                  ConfigParser.comment_prefixes) with (is_comment (strip line)).
  rewrite Hs, Hc. reflexivity.
Qed.

Lemma read_line_blank (st : ConfigParser.rstate) (line : str) :
  strip line = [] ->
  ConfigParser.read_line st line
  = match ConfigParser.optname_true st with
    | Some o => inr (ConfigParser.cursect_append st o [])
    | None => inr st
    end.
Proof.
  intros Hs. unfold ConfigParser.read_line.
  change (existsb (fun prefix => startswith prefix (strip line))
                  ConfigParser.comment_prefixes) with (is_comment (strip line)).
  rewrite Hs, is_comment_nil. reflexivity.
Qed.

Lemma search_start_head (c : ascii) (s : str) :
  isspace c = false -> search_start ConfigParser.nonspace (c :: s) = Some 0.
Proof.
  intros H. cbn. unfold ConfigParser.nonspace. now rewrite H.
Qed.

Lemma one_line_LF (s : str) : one_line s = true -> no_char LF s = true.
Proof. unfold one_line. intros H. now apply andb_prop in H. Qed.

Lemma one_line_CR (s : str) : one_line s = true -> no_char CR s = true.
Proof. unfold one_line. intros H. now apply andb_prop in H. Qed.

Lemma one_line_app (a b : str) : one_line (a ++ b) = one_line a && one_line b.
Proof.
  unfold one_line. rewrite !no_char_app.
  destruct (no_char LF a), (no_char LF b), (no_char CR a), (no_char CR b); reflexivity.
Qed.

Lemma strip_LF (s : str) : strip (s ++ [LF]) = strip s.
Proof.
  destruct (strip_decompose s) as (pre & post & Hs & Hpre & Hpost & Ht).
  rewrite Hs at 1. rewrite <- !app_assoc. apply strip_tight; auto.
  rewrite forallb_app, Hpost. reflexivity.
Qed.

(** A section header that opens a new section. *)
Lemma read_header_new (st : ConfigParser.rstate) (name : str) :
  name_ok name = true ->
  ConfigParser.dict_mem name (ConfigParser._sections (ConfigParser.self st)) = false ->
  name <> ConfigParser.default_section ->
  ConfigParser.read_line st (py "[" ++ name ++ py "]" ++ [LF])
  = inr (ConfigParser.mkRstate
           (ConfigParser.mkParser
              (ConfigParser._sections (ConfigParser.self st) ++ [(name, [])])
              (ConfigParser._defaults (ConfigParser.self st)))
           (ConfigParser.ElSection name :: ConfigParser.elements_added st)
           (ConfigParser.InSection name) (Some name) None 0 (ConfigParser.e st)).
Proof.
  intros Hname Hmem Hdef.
  assert (Hne : name <> []) by (destruct name; [discriminate|congruence]).
  assert (Hol : one_line name = true) by (destruct name; [discriminate|exact Hname]).
  set (v := "["%char :: name ++ ["]"%char]).
  assert (Hs : strip (py "[" ++ name ++ py "]" ++ [LF]) = v).
  { replace (py "[" ++ name ++ py "]" ++ [LF]) with ([] ++ v ++ [LF])
      by (unfold v, py; cbn; now rewrite <- app_assoc).
    apply strip_tight; try reflexivity. now apply tight_ends. }
  rewrite (@read_line_value st _ "["%char (name ++ ["]"%char]) Hs) by reflexivity.
  change (py "[" ++ name ++ py "]" ++ [LF]) with ("["%char :: name ++ py "]" ++ [LF]).
  rewrite search_start_head by reflexivity. cbn zeta.
  assert (Hread : ConfigParser.read_header_or_option st 0 v = inr
           (ConfigParser.mkRstate
           (ConfigParser.mkParser
              (ConfigParser._sections (ConfigParser.self st) ++ [(name, [])])
              (ConfigParser._defaults (ConfigParser.self st)))
           (ConfigParser.ElSection name :: ConfigParser.elements_added st)
           (ConfigParser.InSection name) (Some name) None 0 (ConfigParser.e st))).
  { unfold ConfigParser.read_header_or_option.
    assert (Hv : no_char LF v = true).
    { unfold v. rewrite no_char_cons, no_char_app, (one_line_LF _ Hol). reflexivity. }
    pose proof (sectcre_spec v Hv) as Hm.
    unfold v in Hm at 2. rewrite header_of_bracketed in Hm by exact Hne.
    destruct (re_match ConfigParser.SECTCRE v) as [[r mo]|]; [|discriminate].
    cbn in Hm. injection Hm as Hm. cbn zeta. rewrite Hm, Hmem.
    apply str_eqb_neq in Hdef. rewrite Hdef. reflexivity. }
  fold v. rewrite Hread. destruct (ConfigParser.optname_true st); reflexivity.
Qed.

(** The header of the default section. *)
Lemma read_header_default (st : ConfigParser.rstate) :
  ConfigParser.dict_mem ConfigParser.default_section
    (ConfigParser._sections (ConfigParser.self st)) = false ->
  ConfigParser.read_line st (py "[" ++ ConfigParser.default_section ++ py "]" ++ [LF])
  = inr (ConfigParser.mkRstate (ConfigParser.self st)
           (ConfigParser.elements_added st)
           ConfigParser.InDefaults (Some ConfigParser.default_section) None 0
           (ConfigParser.e st)).
Proof.
  intros Hmem.
  set (v := "["%char :: ConfigParser.default_section ++ ["]"%char]).
  assert (Hs : strip (py "[" ++ ConfigParser.default_section ++ py "]" ++ [LF]) = v)
    by reflexivity.
  rewrite (@read_line_value st _ "["%char (ConfigParser.default_section ++ ["]"%char]) Hs)
    by reflexivity.
  change (search_start ConfigParser.nonspace
            (py "[" ++ ConfigParser.default_section ++ py "]" ++ [LF])) with (Some 0).
  cbn zeta.
  assert (Hread : ConfigParser.read_header_or_option st 0 v = inr
           (ConfigParser.mkRstate (ConfigParser.self st)
           (ConfigParser.elements_added st)
           ConfigParser.InDefaults (Some ConfigParser.default_section) None 0
           (ConfigParser.e st))).
  { unfold ConfigParser.read_header_or_option.
    replace (re_match ConfigParser.SECTCRE v)
      with (Some (@nil ascii, [("header"%string, ConfigParser.default_section)]))
      by (vm_compute; reflexivity).
    cbn zeta. cbn [group String.eqb Ascii.eqb Bool.eqb].
    change (group "header" [("header"%string, ConfigParser.default_section)])
      with ConfigParser.default_section.
    rewrite Hmem, str_eqb_refl. reflexivity. }
  cbn match. fold v. rewrite Hread.
  destruct (ConfigParser.optname_true st); reflexivity.
Qed.
Lemma key_ok_inv (k : str) :
  key_ok k = true ->
  k <> [] /\ no_delimiter k = true /\ one_line k = true /\ tight k = true
  /\ is_comment k = false /\ lower k = k.
Proof.
  destruct k as [|c k]; [discriminate|]. unfold key_ok. intros H.
  apply andb_prop in H. destruct H as [H Hlow].
  apply andb_prop in H. destruct H as [H Hcm].
  apply andb_prop in H. destruct H as [H Ht].
  apply andb_prop in H. destruct H as [Hnd Hol].
  apply negb_true_iff in Hcm. apply str_eqb_eq in Hlow.
  repeat split; auto. discriminate.
Qed.

Lemma line_ok_inv (l : str) :
  line_ok l = true -> one_line l = true /\ tight l = true.
Proof. unfold line_ok. intros H. now apply andb_prop in H. Qed.

Lemma tight_ends_nonspace (k : str) : tight k = true -> ends_nonspace k = true.
Proof.
  destruct k as [|c k]; [reflexivity|]. cbn [tight ends_nonspace].
  intros H. now apply andb_prop in H.
Qed.

Lemma rstrip_tight (k : str) : tight k = true -> rstrip k = k.
Proof.
  intros H. apply tight_spec in H.
  destruct H as [->|[_ (t & d & -> & Hd)]]; [reflexivity|].
  now apply rstrip_last_nonspace.
Qed.

Lemma lstrip_tight (k : str) : tight k = true -> lstrip k = k.
Proof.
  destruct k as [|c k]; [reflexivity|]. intros H.
  apply lstrip_nonspace. now apply tight_head in H.
Qed.

(** Whether a line looks like a header is decided by its first character
    and by the closing brackets from its third character on. *)
Lemma header_like_split (k : str) (c2 : ascii) (x : str) :
  k <> [] -> Ascii.eqb "]"%char c2 = false ->
  header_like (k ++ c2 :: x)
  = match k with c :: _ => Ascii.eqb c "["%char | [] => false end
    && (existsb (Ascii.eqb "]"%char) (skipn 2 k) || existsb (Ascii.eqb "]"%char) x).
Proof.
  intros Hk Hc. destruct k as [|c [|c' k]]; [congruence| |].
  - reflexivity.
  - cbn [app header_like skipn]. rewrite existsb_app. cbn [existsb].
    now rewrite Hc.
Qed.

(** An option line that opens a new option. *)
Lemma read_option (st : ConfigParser.rstate) (ci : nat) (k rest : str) :
  key_ok k = true -> no_char LF rest = true ->
  header_like (k ++ py " =" ++ rest) = false ->
  ConfigParser.cursect st <> ConfigParser.NoSection ->
  existsb (ConfigParser.element_eqb (ConfigParser.ElOption (ConfigParser.sectname st) k))
          (ConfigParser.elements_added st) = false ->
  ConfigParser.read_header_or_option st ci (k ++ py " =" ++ rest)
  = inr (ConfigParser.mkRstate
           (ConfigParser.cursect_set st k [strip (lstrip rest)])
           (ConfigParser.ElOption (ConfigParser.sectname st) k
              :: ConfigParser.elements_added st)
           (ConfigParser.cursect st) (ConfigParser.sectname st) (Some k) ci
           (ConfigParser.e st)).
Proof.
  intros Hk Hrest Hh Hc Hfresh.
  destruct (key_ok_inv _ Hk) as (Hne & Hnd & Hol & Ht & Hcm & Hlow).
  set (v := k ++ py " =" ++ rest) in *.
  assert (Hv : no_char LF v = true).
  { unfold v. rewrite !no_char_app, (one_line_LF _ Hol), Hrest. reflexivity. }
  unfold ConfigParser.read_header_or_option.
  pose proof (sectcre_spec v Hv) as Hm.
  apply header_of_none in Hh. rewrite Hh in Hm.
  destruct (re_match ConfigParser.SECTCRE v) as [[r mo]|]; [discriminate|].
  clear Hm.
  pose proof (optcre_spec v Hv) as Hm.
  assert (Hsplit : option_split v = Some (k, lstrip rest)).
  { unfold v. change (py " =" ++ rest) with ([" "%char] ++ "="%char :: rest).
    apply option_split_key; auto.
    - now apply tight_ends_nonspace.
    - now apply one_line_LF. }
  rewrite Hsplit in Hm.
  destruct (re_match ConfigParser.OPTCRE v) as [[r mo]|]; [|discriminate].
  cbn [option_map snd] in Hm. injection Hm as Ho Hval.
  destruct (ConfigParser.cursect st) eqn:Hcur; [congruence| |];
    cbn zeta; rewrite Ho, Hval; unfold ConfigParser.optionxform;
    rewrite (rstrip_tight _ Ht), Hlow, Hfresh;
    destruct k; [congruence|reflexivity|congruence|reflexivity].
Qed.

Lemma read_option_line (st : ConfigParser.rstate) (k l1 : str) :
  key_ok k = true -> line_ok l1 = true ->
  header_like (k ++ py " = " ++ l1) = false ->
  ConfigParser.cursect st <> ConfigParser.NoSection ->
  existsb (ConfigParser.element_eqb (ConfigParser.ElOption (ConfigParser.sectname st) k))
          (ConfigParser.elements_added st) = false ->
  ConfigParser.read_line st (k ++ py " = " ++ l1 ++ [LF])
  = inr (ConfigParser.mkRstate
           (ConfigParser.cursect_set st k [l1])
           (ConfigParser.ElOption (ConfigParser.sectname st) k
              :: ConfigParser.elements_added st)
           (ConfigParser.cursect st) (ConfigParser.sectname st) (Some k) 0
           (ConfigParser.e st)).
Proof.
  intros Hk Hl Hh Hc Hfresh.
  destruct (key_ok_inv _ Hk) as (Hne & Hnd & Hol & Ht & Hcm & Hlow).
  destruct (line_ok_inv _ Hl) as (Hol1 & Ht1).
  destruct k as [|c k]; [congruence|].
  pose proof (tight_head _ _ Ht) as Hsp.
  set (rest := match l1 with [] => [] | _ :: _ => " "%char :: l1 end).
  assert (Hs : strip ((c :: k) ++ py " = " ++ l1 ++ [LF]) = (c :: k) ++ py " =" ++ rest).
  { destruct l1 as [|c1 l1].
    - replace ((c :: k) ++ py " = " ++ [] ++ [LF])
        with ([] ++ ((c :: k) ++ py " =" ++ rest) ++ [" "%char; LF])
        by (unfold py, rest; cbn; rewrite <- !app_assoc; reflexivity).
      apply strip_tight; try reflexivity.
      unfold rest. rewrite app_nil_r.
      change (py " =") with ([" "%char] ++ ["="%char]).
      apply tight_join; auto; discriminate.
    - replace ((c :: k) ++ py " = " ++ (c1 :: l1) ++ [LF])
        with ([] ++ ((c :: k) ++ py " =" ++ rest) ++ [LF])
        by (unfold py, rest; cbn; rewrite <- !app_assoc; reflexivity).
      apply strip_tight; try reflexivity.
      replace ((c :: k) ++ py " =" ++ rest)
        with ((c :: k) ++ py " = " ++ c1 :: l1) by reflexivity.
      apply tight_join; auto; discriminate. }
  assert (Hcm' : is_comment (c :: k ++ py " =" ++ rest) = false)
    by (rewrite (is_comment_head c _ k); exact Hcm).
  rewrite (@read_line_value st _ c (k ++ py " =" ++ rest) Hs Hcm').
  change ((c :: k) ++ py " = " ++ l1 ++ [LF]) with (c :: k ++ py " = " ++ l1 ++ [LF]).
  rewrite search_start_head by exact Hsp. cbn zeta.
  assert (Hrest : no_char LF rest = true).
  { unfold rest. destruct l1; [reflexivity|].
    rewrite no_char_cons. rewrite (one_line_LF _ Hol1). reflexivity. }
  assert (Hh' : header_like ((c :: k) ++ py " =" ++ rest) = false).
  { etransitivity; [|exact Hh].
    change (py " =" ++ rest) with (" "%char :: "="%char :: rest).
    change (py " = " ++ l1) with (" "%char :: "="%char :: " "%char :: l1).
    rewrite !header_like_split by (reflexivity || discriminate).
    unfold rest. destruct l1; reflexivity. }
  assert (Hval : strip (lstrip rest) = l1).
  { unfold rest. destruct l1 as [|c1 l1]; [reflexivity|].
    change (lstrip (" "%char :: c1 :: l1)) with (lstrip (c1 :: l1)).
    rewrite (lstrip_tight _ Ht1). now apply strip_id. }
  pose proof (@read_option st 0 (c :: k) rest Hk Hrest Hh' Hc Hfresh) as Hread.
  rewrite Hval in Hread.
  change (c :: k ++ py " =" ++ rest) with ((c :: k) ++ py " =" ++ rest).
  rewrite Hread. destruct (ConfigParser.optname_true st); reflexivity.
Qed.
(** A continuation line and the blank line. *)
Lemma read_continuation (st : ConfigParser.rstate) (k l : str) :
  ConfigParser.optname_true st = Some k ->
  ConfigParser.indent_level st = 0 ->
  continuation_ok l = true ->
  ConfigParser.read_line st (TAB :: l ++ [LF])
  = inr (ConfigParser.cursect_append st k l).
Proof.
  intros Ho Hi Hl. unfold continuation_ok in Hl.
  apply andb_prop in Hl. destruct Hl as [Hl Hcm]. apply negb_true_iff in Hcm.
  destruct (line_ok_inv _ Hl) as (Hol & Ht).
  assert (Hs : strip (TAB :: l ++ [LF]) = l).
  { change (TAB :: l ++ [LF]) with ([TAB] ++ l ++ [LF]).
    now apply strip_tight. }
  destruct l as [|c l].
  - rewrite read_line_blank by exact Hs. now rewrite Ho.
  - rewrite (@read_line_value st _ c l Hs Hcm).
    change (TAB :: (c :: l) ++ [LF]) with (TAB :: c :: l ++ [LF]).
    replace (search_start ConfigParser.nonspace (TAB :: c :: l ++ [LF]))
      with (Some 1).
    + cbn zeta. rewrite Ho, Hi. reflexivity.
    + change (search_start ConfigParser.nonspace (TAB :: c :: l ++ [LF]))
        with (option_map S (search_start ConfigParser.nonspace (c :: l ++ [LF]))).
      rewrite search_start_head by (eapply tight_head; exact Ht). reflexivity.
Qed.

Lemma read_blank (st : ConfigParser.rstate) :
  ConfigParser.read_line st [LF]
  = match ConfigParser.optname_true st with
    | Some o => inr (ConfigParser.cursect_append st o [])
    | None => inr st
    end.
Proof. now apply read_line_blank. Qed.

Lemma cursor_fits_section (c : ConfigParser.cursor)
      (secs : ConfigParser.dict (ConfigParser.dict (list str))) :
  cursor_fits c secs -> c <> ConfigParser.NoSection.
Proof. destruct c; cbn; [tauto|discriminate|discriminate]. Qed.

Lemma optname_true_place (c : ConfigParser.cursor)
      (p : ConfigParser.parser (list str)) (els : list ConfigParser.element)
      (sn : option str) (k : str) (il : nat) (err : bool) :
  c <> ConfigParser.NoSection -> k <> [] ->
  ConfigParser.optname_true (ConfigParser.mkRstate p els c sn (Some k) il err)
  = Some k.
Proof.
  intros Hc Hk. unfold ConfigParser.optname_true. cbn.
  destruct c; [congruence| |]; destruct k; (congruence || reflexivity).
Qed.

Lemma last_nonempty {A : Type} (l : list A) (x a b : A) :
  last (x :: l) a = last (x :: l) b.
Proof.
  revert x. induction l as [|y l IH]; intros x; [reflexivity|].
  change (last (x :: y :: l) a) with (last (y :: l) a).
  change (last (x :: y :: l) b) with (last (y :: l) b). apply IH.
Qed.

Section Items.
Variable c : ConfigParser.cursor.
Variable secs : ConfigParser.dict (ConfigParser.dict (list str)).
Variable dflt : ConfigParser.dict (list str).
Variable sn : option str.
Variable err : bool.
Hypothesis Hfits : cursor_fits c secs.

Lemma read_continuations (k : str) (d : ConfigParser.dict (list str))
      (els : list ConfigParser.element) (rest : list str) :
  k <> [] -> ConfigParser.dict_mem k d = false ->
  forall (ls acc : list str),
    forallb continuation_ok ls = true ->
    ConfigParser.read_lines
      (ConfigParser.mkRstate (place c secs dflt (d ++ [(k, acc)])) els c sn (Some k) 0 err)
      (map with_newline (map (fun l => TAB :: l) ls) ++ rest)
    = ConfigParser.read_lines
        (ConfigParser.mkRstate (place c secs dflt (d ++ [(k, acc ++ ls)]))
           els c sn (Some k) 0 err)
        rest.
Proof.
  intros Hk Hd. induction ls as [|l ls IH]; intros acc Hls.
  - now rewrite app_nil_r.
  - cbn [forallb] in Hls. apply andb_prop in Hls. destruct Hls as [Hl Hls].
    cbn [map app ConfigParser.read_lines]. unfold with_newline at 1.
    change ((TAB :: l) ++ [LF]) with (TAB :: l ++ [LF]).
    rewrite (@read_continuation _ k l); auto.
    + rewrite cursect_append_place by assumption.
      rewrite IH by exact Hls. now rewrite <- app_assoc.
    + apply optname_true_place; auto. now apply cursor_fits_section with secs.
Qed.

Lemma read_item (k : str) (ls : list str) (d : ConfigParser.dict (list str))
      (els : list ConfigParser.element) (on : option str) (il : nat)
      (rest : list str) :
  key_ok k = true -> lines_ok k ls = true ->
  ConfigParser.dict_mem k d = false ->
  existsb (ConfigParser.element_eqb (ConfigParser.ElOption sn k)) els = false ->
  ConfigParser.read_lines
    (ConfigParser.mkRstate (place c secs dflt d) els c sn on il err)
    (map with_newline (item_lines (k, ls)) ++ rest)
  = ConfigParser.read_lines
      (ConfigParser.mkRstate (place c secs dflt (d ++ [(k, first_tail ls)]))
         (ConfigParser.ElOption sn k :: els) c sn (Some k) 0 err)
      rest.
Proof.
  intros Hk Hls Hd Hfresh. unfold lines_ok in Hls.
  apply andb_prop in Hls. destruct Hls as [Hls Hh].
  apply andb_prop in Hls. destruct Hls as [Hl1 Hls].
  apply negb_true_iff in Hh.
  unfold item_lines. cbn [fst snd map app ConfigParser.read_lines].
  unfold with_newline at 1. rewrite <- !app_assoc.
  rewrite read_option_line; auto.
  - cbn [ConfigParser.cursect ConfigParser.sectname ConfigParser.elements_added
         ConfigParser.e].
    rewrite cursect_set_place by exact Hfits.
    rewrite dict_set_fresh by exact Hd.
    rewrite read_continuations; auto.
    now destruct (key_ok_inv _ Hk).
  - cbn. now apply cursor_fits_section with secs.
Qed.

Lemma element_eqb_option (o k : str) :
  ConfigParser.element_eqb (ConfigParser.ElOption sn o) (ConfigParser.ElOption sn k)
  = str_eqb o k.
Proof. destruct sn; cbn; [now rewrite str_eqb_refl|reflexivity]. Qed.

Lemma read_items (rest : list str) :
  forall (items d : ConfigParser.dict (list str))
         (els : list ConfigParser.element) (on : option str),
    NoDup (map fst items) ->
    Forall (fun kv => key_ok (fst kv) = true /\ lines_ok (fst kv) (snd kv) = true
                      /\ ConfigParser.dict_mem (fst kv) d = false) items ->
    (forall o, existsb (ConfigParser.element_eqb (ConfigParser.ElOption sn o)) els = true ->
               ConfigParser.dict_mem o d = true) ->
    ConfigParser.read_lines
      (ConfigParser.mkRstate (place c secs dflt d) els c sn on 0 err)
      (map with_newline (flat_map item_lines items) ++ rest)
    = ConfigParser.read_lines
        (ConfigParser.mkRstate (place c secs dflt (d ++ as_read items))
           (option_elements sn items ++ els) c sn (last_key items on) 0 err)
        rest.
Proof.
  induction items as [|[k ls] items IH]; intros d els on Hnd Hok Hels.
  - cbn. now rewrite app_nil_r.
  - inversion Hnd as [|? ? Hnotin Hnd']; subst.
    inversion Hok as [|? ? (Hk & Hls & Hd) Hok']; subst. cbn [fst snd] in *.
    cbn [flat_map]. rewrite map_app, <- app_assoc.
    rewrite read_item; auto.
    + rewrite IH; auto.
      * unfold as_read, option_elements, last_key. cbn [map rev fst snd].
        rewrite <- !app_assoc. cbn [app].
        replace (last (Some k :: map (fun kv => Some (fst kv)) items) on)
          with (last (map (fun kv : str * list str => Some (fst kv)) items) (Some k)).
        { reflexivity. }
        { destruct items as [|kv items]; [reflexivity|].
          cbn [map]. etransitivity; [apply last_nonempty with (b := on)|reflexivity]. }
      * apply Forall_forall. intros [k' ls'] Hin.
        rewrite Forall_forall in Hok'. destruct (Hok' _ Hin) as (Hk' & Hls' & Hd').
        cbn [fst snd] in *. repeat split; auto.
        apply dict_mem_false. rewrite map_app. cbn. intros Hin'.
        apply in_app_or in Hin'. destruct Hin' as [Hin'|[Heq|[]]].
        -- apply dict_mem_false in Hd'. contradiction.
        -- subst k'. apply Hnotin. apply in_map_iff. now exists (k, ls').
      * intros o Ho. cbn [existsb] in Ho. apply orb_prop in Ho.
        apply dict_mem_In. rewrite map_app. apply in_or_app.
        destruct Ho as [Ho|Ho].
        -- rewrite element_eqb_option in Ho. apply str_eqb_eq in Ho. subst o.
           right. now left.
        -- left. apply dict_mem_In. now apply Hels.
    + destruct (existsb _ els) eqn:Hex; [|reflexivity].
      apply Hels in Hex. congruence.
Qed.

End Items.
(** ** One section at a time *)

Lemma closed_snoc (items : ConfigParser.dict (list str)) (k : str) (ls : list str) :
  closed (items ++ [(k, ls)]) = items ++ [(k, ls ++ [[]])].
Proof.
  unfold closed. rewrite rev_app_distr. cbn. now rewrite rev_involutive.
Qed.

Lemma read_section_body (c : ConfigParser.cursor)
      (secs : ConfigParser.dict (ConfigParser.dict (list str)))
      (dflt : ConfigParser.dict (list str)) (sn : option str) (err : bool)
      (items : ConfigParser.dict (list str)) (els : list ConfigParser.element)
      (rest : list str) :
  cursor_fits c secs ->
  options_ok items ->
  (forall o, existsb (ConfigParser.element_eqb (ConfigParser.ElOption sn o)) els = false) ->
  ConfigParser.read_lines
    (ConfigParser.mkRstate (place c secs dflt []) els c sn None 0 err)
    (map with_newline (flat_map item_lines items ++ [[]]) ++ rest)
  = ConfigParser.read_lines
      (ConfigParser.mkRstate (place c secs dflt (closed (as_read items)))
         (option_elements sn items ++ els) c sn (last_key items None) 0 err)
      rest.
Proof.
  intros Hfits [Hnd Hok] Hels. rewrite map_app, <- app_assoc.
  rewrite read_items; auto.
  - cbn [map app ConfigParser.read_lines]. change (with_newline []) with [LF].
    rewrite read_blank.
    induction items as [|[k ls] items0 _] using rev_ind.
    + cbn. destruct c; reflexivity.
    + assert (Hk : k <> []).
      { rewrite Forall_forall in Hok.
        destruct (Hok (k, ls)) as [Hk _]; [apply in_or_app; right; now left|].
        now destruct (key_ok_inv _ Hk). }
      assert (Hfresh : ConfigParser.dict_mem k (as_read items0) = false).
      { apply dict_mem_false. unfold as_read. rewrite map_map. cbn [fst].
        rewrite map_app in Hnd. cbn in Hnd.
        apply NoDup_remove_2 in Hnd. now rewrite app_nil_r in Hnd. }
      unfold last_key, as_read, option_elements.
      rewrite !map_app. cbn [map fst snd]. rewrite last_last.
      rewrite optname_true_place
        by (try exact Hk; now apply cursor_fits_section with secs).
      rewrite cursect_append_place by assumption.
      fold (as_read items0). now rewrite closed_snoc.
  - rewrite Forall_forall in *. intros kv Hin. destruct (Hok _ Hin). auto.
  - intros o Ho. rewrite Hels in Ho. discriminate.
Qed.
Lemma option_elements_name (n name o : str) (items : ConfigParser.dict (list str)) :
  existsb (ConfigParser.element_eqb (ConfigParser.ElOption (Some n) o))
          (option_elements (Some name) items) = true ->
  n = name.
Proof.
  intros H. apply existsb_exists in H. destruct H as (x & Hin & Hx).
  unfold option_elements in Hin. apply in_rev in Hin.
  apply in_map_iff in Hin. destruct Hin as (kv & <- & _).
  cbn in Hx. apply andb_prop in Hx. destruct Hx as [Hx _].
  now apply str_eqb_eq in Hx.
Qed.

Lemma read_section_new (secs : ConfigParser.dict (ConfigParser.dict (list str)))
      (dflt : ConfigParser.dict (list str)) (els : list ConfigParser.element)
      (c0 : ConfigParser.cursor) (sn0 on0 : option str) (il0 : nat) (err : bool)
      (name : str) (items : ConfigParser.dict (list str)) (rest : list str) :
  section_ok (name, items) ->
  ConfigParser.dict_mem name secs = false ->
  options_known els (map fst secs) ->
  ConfigParser.read_lines
    (ConfigParser.mkRstate (ConfigParser.mkParser secs dflt) els c0 sn0 on0 il0 err)
    (map with_newline (section_lines name items) ++ rest)
  = ConfigParser.read_lines
      (ConfigParser.mkRstate
         (ConfigParser.mkParser (secs ++ [(name, closed (as_read items))]) dflt)
         (option_elements (Some name) items ++ ConfigParser.ElSection name :: els)
         (ConfigParser.InSection name) (Some name) (last_key items None) 0 err)
      rest.
Proof.
  intros (Hname & Hdef & Hitems) Hmem Hels. cbn [fst snd] in *.
  unfold section_lines. cbn [map app ConfigParser.read_lines].
  unfold with_newline at 1. rewrite <- !app_assoc.
  rewrite read_header_new; auto.
  cbn [ConfigParser.self ConfigParser._sections ConfigParser._defaults
       ConfigParser.elements_added ConfigParser.e].
  change (ConfigParser.mkParser (secs ++ [(name, [])]) dflt)
    with (place (ConfigParser.InSection name) secs dflt []).
  rewrite read_section_body; auto.
  intros o. cbn [existsb ConfigParser.element_eqb orb].
  destruct (existsb _ els) eqn:Hex; [|reflexivity].
  apply Hels in Hex. destruct Hex as [Hex|Hex]; [contradiction|].
  apply dict_mem_false in Hmem. contradiction.
Qed.

Lemma read_section_default (c0 : ConfigParser.cursor) (sn0 on0 : option str)
      (il0 : nat) (err : bool) (items : ConfigParser.dict (list str))
      (rest : list str) :
  options_ok items ->
  ConfigParser.read_lines
    (ConfigParser.mkRstate (ConfigParser.mkParser [] []) [] c0 sn0 on0 il0 err)
    (map with_newline (section_lines ConfigParser.default_section items) ++ rest)
  = ConfigParser.read_lines
      (ConfigParser.mkRstate
         (ConfigParser.mkParser [] (closed (as_read items)))
         (option_elements (Some ConfigParser.default_section) items)
         ConfigParser.InDefaults (Some ConfigParser.default_section)
         (last_key items None) 0 err)
      rest.
Proof.
  intros Hitems.
  unfold section_lines. cbn [map app ConfigParser.read_lines].
  unfold with_newline at 1. rewrite <- !app_assoc.
  rewrite read_header_default by reflexivity.
  cbn [ConfigParser.self ConfigParser._sections ConfigParser._defaults
       ConfigParser.elements_added ConfigParser.e].
  change (ConfigParser.mkParser [] [])
    with (place ConfigParser.InDefaults [] (@nil (str * list str)) []).
  rewrite read_section_body; cbn; auto.
  now rewrite app_nil_r.
Qed.

Lemma options_known_section (els : list ConfigParser.element) (names : list str)
      (name : str) (items : ConfigParser.dict (list str)) :
  options_known els names ->
  options_known (option_elements (Some name) items ++ ConfigParser.ElSection name :: els)
                (names ++ [name]).
Proof.
  intros H n o Hex. rewrite existsb_app in Hex. apply orb_prop in Hex.
  destruct Hex as [Hex|Hex].
  - apply option_elements_name in Hex. subst. right. apply in_or_app. right. now left.
  - cbn [existsb ConfigParser.element_eqb orb] in Hex. apply H in Hex.
    destruct Hex; [now left|right]. apply in_or_app. now left.
Qed.

Lemma read_sections (dflt : ConfigParser.dict (list str)) (err : bool)
      (rest : list str) :
  forall (todo secs : ConfigParser.dict (ConfigParser.dict (list str)))
         (els : list ConfigParser.element)
         (c0 : ConfigParser.cursor) (sn0 on0 : option str) (il0 : nat),
    NoDup (map fst (secs ++ todo)) ->
    Forall section_ok todo ->
    options_known els (map fst secs) ->
    exists st',
      ConfigParser.read_lines
        (ConfigParser.mkRstate (ConfigParser.mkParser secs dflt) els c0 sn0 on0 il0 err)
        (map with_newline (flat_map (fun sd => section_lines (fst sd) (snd sd)) todo)
         ++ rest)
      = ConfigParser.read_lines st' rest
      /\ ConfigParser.self st'
         = ConfigParser.mkParser
             (secs ++ map (fun sd => (fst sd, closed (as_read (snd sd)))) todo) dflt
      /\ ConfigParser.e st' = err.
Proof.
  induction todo as [|[name items] todo IH]; intros secs els c0 sn0 on0 il0 Hnd Hok Hels.
  - eexists. cbn [flat_map map app]. split; [reflexivity|].
    cbn. now rewrite app_nil_r.
  - inversion Hok as [|? ? Hsec Hok']; subst.
    cbn [flat_map fst snd]. rewrite map_app, <- app_assoc.
    assert (Hmem : ConfigParser.dict_mem name secs = false).
    { apply dict_mem_false. rewrite map_app in Hnd. cbn in Hnd.
      apply NoDup_remove_2 in Hnd. intros Hin. apply Hnd.
      apply in_or_app. now left. }
    rewrite read_section_new; auto.
    destruct (IH (secs ++ [(name, closed (as_read items))])
                 (option_elements (Some name) items ++ ConfigParser.ElSection name :: els)
                 (ConfigParser.InSection name) (Some name) (last_key items None) 0)
      as (st' & Hread & Hself & He).
    + rewrite <- app_assoc. cbn [app].
      rewrite !map_app in *. cbn [map fst] in *. exact Hnd.
    + exact Hok'.
    + rewrite map_app. cbn [map fst]. now apply options_known_section.
    + exists st'. split; [exact Hread|]. split; [|exact He].
      rewrite Hself. cbn [map fst snd]. now rewrite <- app_assoc.
Qed.
(** ** The whole file *)

Lemma join_nl_snoc (ls : list str) (l : str) :
  ls <> [] -> join_nl (ls ++ [l]) = join_nl ls ++ LF :: l.
Proof.
  induction ls as [|a ls IH]; [congruence|]. intros _.
  destruct ls as [|b ls]; [reflexivity|].
  change (join_nl ((a :: b :: ls) ++ [l])) with (a ++ LF :: join_nl ((b :: ls) ++ [l])).
  rewrite IH by discriminate.
  change (join_nl (a :: b :: ls)) with (a ++ LF :: join_nl (b :: ls)).
  now rewrite <- app_assoc.
Qed.

Lemma join_value_first_tail (ls : list str) :
  ConfigParser.join_value (first_tail ls) = ConfigParser.join_value ls.
Proof. destruct ls; reflexivity. Qed.

Lemma join_value_blank (ls : list str) :
  ConfigParser.join_value (first_tail ls ++ [[]]) = ConfigParser.join_value ls.
Proof.
  rewrite <- (join_value_first_tail ls). unfold ConfigParser.join_value.
  rewrite join_nl_snoc by discriminate.
  now apply rstrip_app_spaces.
Qed.

Lemma join_options_as_read (items : ConfigParser.dict (list str)) :
  ConfigParser.join_options (as_read items) = ConfigParser.join_options items.
Proof.
  unfold ConfigParser.join_options, as_read. rewrite map_map. cbn [fst snd].
  apply map_ext. intros [k ls]. cbn [fst snd]. now rewrite join_value_first_tail.
Qed.

Lemma join_options_closed (items : ConfigParser.dict (list str)) :
  ConfigParser.join_options (closed (as_read items))
  = ConfigParser.join_options items.
Proof.
  induction items as [|[k ls] items _] using rev_ind; [reflexivity|].
  unfold as_read. rewrite map_app. cbn [map fst snd]. rewrite closed_snoc.
  fold (as_read items). unfold ConfigParser.join_options. rewrite !map_app.
  fold (ConfigParser.join_options (as_read items)).
  fold (ConfigParser.join_options items).
  rewrite join_options_as_read. cbn [map fst snd].
  now rewrite join_value_blank.
Qed.

Lemma read_file (raw : ConfigParser.parser (list str)) :
  raw_ok raw ->
  exists st',
    ConfigParser.read_lines ConfigParser.initial (map with_newline (file_lines raw))
    = inr st'
    /\ ConfigParser.e st' = false
    /\ ConfigParser._join_multiline_values (ConfigParser.self st')
       = ConfigParser._join_multiline_values raw.
Proof.
  destruct raw as [sections defaults]. intros (Hnd & Hsecs & Hdef).
  cbn [ConfigParser._sections ConfigParser._defaults] in *.
  unfold file_lines, ConfigParser.initial, ConfigParser.empty.
  cbn [ConfigParser._sections ConfigParser._defaults].
  assert (Hjoin : forall dflt',
             ConfigParser.join_options dflt' = ConfigParser.join_options defaults ->
             ConfigParser._join_multiline_values
               (ConfigParser.mkParser
                  ([] ++ map (fun sd => (fst sd, closed (as_read (snd sd)))) sections)
                  dflt')
             = ConfigParser._join_multiline_values
                 (ConfigParser.mkParser sections defaults)).
  { intros dflt' Hd. unfold ConfigParser._join_multiline_values.
    cbn [ConfigParser._sections ConfigParser._defaults app].
    rewrite Hd. f_equal. rewrite map_map. cbn [fst snd].
    apply map_ext. intros [name items]. cbn [fst snd].
    now rewrite join_options_closed. }
  destruct defaults as [|kv defaults].
  - cbn [app].
    destruct (@read_sections [] false [] sections [] [] ConfigParser.NoSection None None 0)
      as (st' & Hread & Hself & He); auto.
    + intros n o H. discriminate.
    + rewrite app_nil_r in Hread. exists st'. split; [exact Hread|].
      split; [exact He|]. rewrite Hself. now apply Hjoin.
  - rewrite map_app.
    rewrite read_section_default by exact Hdef.
    destruct (@read_sections (closed (as_read (kv :: defaults))) false [] sections []
                (option_elements (Some ConfigParser.default_section) (kv :: defaults))
                ConfigParser.InDefaults (Some ConfigParser.default_section)
                (last_key (kv :: defaults) None) 0)
      as (st' & Hread & Hself & He); auto.
    + intros n o H. apply option_elements_name in H. now left.
    + rewrite app_nil_r in Hread. exists st'. split; [exact Hread|].
      split; [exact He|]. rewrite Hself. apply Hjoin.
      apply join_options_closed.
Qed.
(** ** What [write] produces *)

Lemma replace_nl_app (a b : str) : replace_nl (a ++ b) = replace_nl a ++ replace_nl b.
Proof. unfold replace_nl. apply flat_map_app. Qed.

Lemma replace_nl_id (l : str) : no_char LF l = true -> replace_nl l = l.
Proof.
  induction l as [|c l IH]; [reflexivity|].
  rewrite no_char_cons. intros H. apply andb_prop in H. destruct H as [Hc Hl].
  apply negb_true_iff in Hc. unfold replace_nl in *. cbn [flat_map].
  rewrite Hc, IH by exact Hl. reflexivity.
Qed.

Lemma replace_nl_lines (l : str) (ls : list str) :
  Forall (fun x => no_char LF x = true) (l :: ls) ->
  replace_nl (join_nl (l :: ls)) ++ [LF]
  = l ++ [LF] ++ List.concat (map with_newline (map (fun x => TAB :: x) ls)).
Proof.
  revert l. induction ls as [|l' ls IH]; intros l H.
  - inversion H; subst. cbn [join_nl map List.concat]. rewrite app_nil_r.
    now rewrite replace_nl_id.
  - inversion H as [|? ? Hl H']; subst.
    change (join_nl (l :: l' :: ls)) with (l ++ LF :: join_nl (l' :: ls)).
    rewrite replace_nl_app, replace_nl_id by exact Hl.
    change (replace_nl (LF :: join_nl (l' :: ls)))
      with (LF :: TAB :: replace_nl (join_nl (l' :: ls))).
    rewrite <- app_assoc. cbn [app]. rewrite IH by exact H'.
    cbn [map List.concat]. unfold with_newline at 2.
    cbn [app]. now rewrite <- !app_assoc.
Qed.

Lemma lines_ok_all (k : str) (ls : list str) :
  lines_ok k ls = true -> Forall (fun l => line_ok l = true) ls.
Proof.
  unfold lines_ok. intros H.
  apply andb_prop in H. destruct H as [H _].
  apply andb_prop in H. destruct H as [H1 H2].
  destruct ls as [|l ls]; constructor; [exact H1|].
  cbn [tl] in H2. rewrite forallb_forall in H2. apply Forall_forall.
  intros x Hx. apply H2 in Hx. unfold continuation_ok in Hx.
  now apply andb_prop in Hx.
Qed.

Lemma join_value_trimmed (ls : list str) :
  Forall (fun l => line_ok l = true) ls -> trimmed ls = true ->
  ConfigParser.join_value ls = join_nl ls.
Proof.
  intros Hok Htr. unfold ConfigParser.join_value.
  induction ls as [|l ls0 _] using rev_ind; [reflexivity|].
  unfold trimmed in Htr. rewrite rev_app_distr in Htr. cbn in Htr.
  apply Forall_app in Hok. destruct Hok as [_ Hl].
  inversion Hl as [|? ? Hl' _]; subst.
  destruct (line_ok_inv _ Hl') as [_ Ht].
  apply tight_spec in Ht. destruct Ht as [->|[_ (t & d & -> & Hd)]]; [discriminate|].
  destruct ls0 as [|a ls0].
  - cbn [app join_nl]. now apply rstrip_last_nonspace.
  - rewrite join_nl_snoc by discriminate.
    replace (join_nl (a :: ls0) ++ LF :: t ++ [d])
      with ((join_nl (a :: ls0) ++ LF :: t) ++ [d])
      by (rewrite <- app_assoc; reflexivity).
    now apply rstrip_last_nonspace.
Qed.

Lemma write_item (k : str) (ls : list str) :
  lines_ok k ls = true -> trimmed ls = true ->
  k ++ py " = " ++ replace_nl (ConfigParser.join_value ls) ++ [LF]
  = List.concat (map with_newline (item_lines (k, ls))).
Proof.
  intros Hok Htr. pose proof (lines_ok_all _ _ Hok) as Hall.
  rewrite join_value_trimmed by assumption.
  unfold item_lines. cbn [fst snd map List.concat].
  unfold with_newline at 1. rewrite <- !app_assoc. f_equal. f_equal.
  destruct ls as [|l ls].
  - reflexivity.
  - cbn [hd tl]. rewrite replace_nl_lines; [reflexivity|].
    eapply Forall_impl; [|exact Hall]. cbn. intros x Hx.
    apply line_ok_inv in Hx. destruct Hx as [Hx _]. now apply one_line_LF.
Qed.

Lemma write_section (name : str) (items : ConfigParser.dict (list str)) :
  options_ok items ->
  Forall (fun kv => trimmed (snd kv) = true) items ->
  ConfigParser._write_section name (ConfigParser.join_options items)
  = List.concat (map with_newline (section_lines name items)).
Proof.
  intros [_ Hok] Htr. unfold ConfigParser._write_section, section_lines.
  cbn [map List.concat]. unfold with_newline at 1.
  rewrite <- !app_assoc. f_equal. f_equal. f_equal. f_equal.
  rewrite map_app, concat_app. cbn [map List.concat].
  change (with_newline [] ++ []) with [LF]. f_equal.
  unfold ConfigParser.join_options. rewrite map_map. cbn [fst snd].
  induction items as [|[k ls] items IH]; [reflexivity|].
  inversion Hok as [|? ? [_ Hls] Hok']; subst.
  inversion Htr as [|? ? Htr1 Htr']; subst. cbn [fst snd] in *.
  cbn [map List.concat flat_map]. rewrite map_app, concat_app.
  rewrite IH by assumption. f_equal. now apply write_item.
Qed.

Lemma write_file (raw : ConfigParser.parser (list str)) :
  raw_ok raw -> raw_trimmed raw ->
  ConfigParser.write (ConfigParser._join_multiline_values raw)
  = List.concat (map with_newline (file_lines raw)).
Proof.
  destruct raw as [sections defaults]. intros (_ & Hsecs & Hdef) (Htrs & Htrd).
  cbn [ConfigParser._sections ConfigParser._defaults] in *.
  unfold ConfigParser.write, file_lines, ConfigParser._join_multiline_values.
  cbn [ConfigParser._sections ConfigParser._defaults].
  rewrite map_app, concat_app. f_equal.
  - destruct defaults as [|kv defaults]; [reflexivity|].
    rewrite <- write_section by assumption. reflexivity.
  - rewrite map_map. cbn [fst snd].
    induction sections as [|[name items] sections IH]; [reflexivity|].
    inversion Hsecs as [|? ? (_ & _ & Hitems) Hsecs']; subst.
    inversion Htrs as [|? ? Htr1 Htrs']; subst. cbn [fst snd] in *.
    cbn [map List.concat flat_map]. rewrite map_app, concat_app.
    rewrite IH by assumption. f_equal. now apply write_section.
Qed.

Lemma options_one_line (items : ConfigParser.dict (list str)) :
  options_ok items ->
  Forall (fun l => one_line l = true) (flat_map item_lines items).
Proof.
  intros [_ Hok]. induction items as [|[k ls] items IH]; [constructor|].
  inversion Hok as [|? ? [Hk Hls] Hok']; subst. cbn [fst snd] in *.
  cbn [flat_map]. apply Forall_app. split; [|now apply IH].
  destruct (key_ok_inv _ Hk) as (_ & _ & Hol & _).
  pose proof (lines_ok_all _ _ Hls) as Hall.
  unfold item_lines. cbn [fst snd]. constructor.
  - rewrite !one_line_app, Hol. cbn [andb].
    destruct ls as [|l ls]; [reflexivity|]. cbn [hd].
    inversion Hall as [|? ? Hl _]; subst.
    apply line_ok_inv in Hl. destruct Hl as [Hl _]. now rewrite Hl.
  - apply Forall_forall. intros x Hx. apply in_map_iff in Hx.
    destruct Hx as (l & <- & Hl). destruct ls as [|l0 ls]; [contradiction|].
    cbn [tl] in Hl. inversion Hall as [|? ? _ Hall']; subst.
    rewrite Forall_forall in Hall'. apply Hall' in Hl.
    apply line_ok_inv in Hl. destruct Hl as [Hl _].
    change (TAB :: l) with ([TAB] ++ l). rewrite one_line_app, Hl. reflexivity.
Qed.

Lemma section_one_line (name : str) (items : ConfigParser.dict (list str)) :
  one_line name = true -> options_ok items ->
  Forall (fun l => one_line l = true) (section_lines name items).
Proof.
  intros Hname Hitems. unfold section_lines. constructor.
  - rewrite !one_line_app, Hname. reflexivity.
  - apply Forall_app. split; [now apply options_one_line|].
    constructor; [reflexivity|constructor].
Qed.

Lemma file_one_line (raw : ConfigParser.parser (list str)) :
  raw_ok raw -> Forall (fun l => one_line l = true) (file_lines raw).
Proof.
  destruct raw as [sections defaults]. intros (_ & Hsecs & Hdef).
  cbn [ConfigParser._sections ConfigParser._defaults] in *.
  unfold file_lines. cbn [ConfigParser._sections ConfigParser._defaults].
  apply Forall_app. split.
  - destruct defaults; [constructor|]. now apply section_one_line.
  - induction sections as [|[name items] sections IH]; [constructor|].
    inversion Hsecs as [|? ? (Hname & _ & Hitems) Hsecs']; subst.
    cbn [fst snd] in *. cbn [flat_map]. apply Forall_app. split; [|now apply IH].
    apply section_one_line; [|exact Hitems].
    destruct name; [discriminate|exact Hname].
Qed.

Lemma no_char_concat (c : ascii) (ls : list str) :
  Forall (fun l => no_char c l = true) ls -> no_char c (List.concat ls) = true.
Proof.
  induction 1 as [|l ls Hl _ IH]; [reflexivity|].
  cbn [List.concat]. now rewrite no_char_app, Hl, IH.
Qed.

(** Reading back what [write] wrote gives the store that was written. *)
Lemma read_write (p : ConfigParser.parser str) :
  well_formed p ->
  ConfigParser._read (universal_newlines (ConfigParser.write p)) = inr p.
Proof.
  intros (raw & Hok & Htr & ->).
  rewrite write_file by assumption.
  pose proof (file_one_line Hok) as Hlines.
  rewrite universal_newlines_id.
  - unfold ConfigParser._read.
    change (map with_newline (file_lines raw))
      with (map (fun l => l ++ [LF]) (file_lines raw)).
    rewrite readlines_concat.
    + destruct (read_file Hok) as (st' & Hread & He & Hjoin).
      change (map (fun l => l ++ [LF]) (file_lines raw))
        with (map with_newline (file_lines raw)).
      rewrite Hread, He. now rewrite Hjoin.
    + eapply Forall_impl; [|exact Hlines]. cbn. intros l. apply one_line_LF.
  - apply no_char_concat. apply Forall_forall. intros x Hx.
    apply in_map_iff in Hx. destruct Hx as (l & <- & Hl).
    rewrite Forall_forall in Hlines. apply Hlines in Hl.
    unfold with_newline. rewrite no_char_app, (one_line_CR _ Hl). reflexivity.
Qed.

(** * Every store that [_read] returns is well formed *)

(** ** Lower case *)

Lemma lower_char_space (c : ascii) : isspace (lower_char c) = isspace c.
Proof. destruct c as [[] [] [] [] [] [] [] []]; reflexivity. Qed.

Lemma lower_char_idem (c : ascii) : lower_char (lower_char c) = lower_char c.
Proof. destruct c as [[] [] [] [] [] [] [] []]; reflexivity. Qed.

Lemma lower_char_delimiter (c : ascii) : is_delimiter (lower_char c) = is_delimiter c.
Proof. destruct c as [[] [] [] [] [] [] [] []]; reflexivity. Qed.

Lemma lower_char_LF (c : ascii) : Ascii.eqb (lower_char c) LF = Ascii.eqb c LF.
Proof. destruct c as [[] [] [] [] [] [] [] []]; reflexivity. Qed.

Lemma lower_char_CR (c : ascii) : Ascii.eqb (lower_char c) CR = Ascii.eqb c CR.
Proof. destruct c as [[] [] [] [] [] [] [] []]; reflexivity. Qed.

Lemma lower_char_open (c : ascii) :
  Ascii.eqb (lower_char c) "["%char = Ascii.eqb c "["%char.
Proof. destruct c as [[] [] [] [] [] [] [] []]; reflexivity. Qed.

Lemma lower_char_close (c : ascii) :
  Ascii.eqb "]"%char (lower_char c) = Ascii.eqb "]"%char c.
Proof. destruct c as [[] [] [] [] [] [] [] []]; reflexivity. Qed.

Lemma lower_char_comment (c : ascii) (s t : str) :
  is_comment (lower_char c :: s) = is_comment (c :: t).
Proof.
  rewrite (is_comment_head (lower_char c) s []), (is_comment_head c t []).
  destruct c as [[] [] [] [] [] [] [] []]; reflexivity.
Qed.

Lemma lower_idem (s : str) : lower (lower s) = lower s.
Proof.
  unfold lower. rewrite map_map. apply map_ext. apply lower_char_idem.
Qed.

Lemma lower_no_delimiter (s : str) : no_delimiter (lower s) = no_delimiter s.
Proof.
  unfold no_delimiter, lower. induction s as [|c s IH]; [reflexivity|].
  cbn [map forallb]. now rewrite lower_char_delimiter, IH.
Qed.

Lemma lower_one_line (s : str) : one_line (lower s) = one_line s.
Proof.
  unfold one_line.
  assert (H : forall x, (forall c, Ascii.eqb (lower_char c) x = Ascii.eqb c x) ->
                        no_char x (lower s) = no_char x s).
  { intros x Hx. unfold no_char, lower. induction s as [|c s IH]; [reflexivity|].
    cbn [map forallb]. now rewrite Hx, IH. }
  now rewrite (H LF lower_char_LF), (H CR lower_char_CR).
Qed.

Lemma lower_last (s : str) (c : ascii) :
  last (lower s) (lower_char c) = lower_char (last s c).
Proof.
  unfold lower. revert c. induction s as [|x s IH]; intros c; [reflexivity|].
  destruct s as [|y s]; [reflexivity|].
  change (last (map lower_char (x :: y :: s)) (lower_char c))
    with (last (map lower_char (y :: s)) (lower_char c)).
  rewrite IH. reflexivity.
Qed.

Lemma lower_tight (s : str) : tight (lower s) = tight s.
Proof.
  destruct s as [|c s]; [reflexivity|].
  change (tight (lower (c :: s)))
    with (negb (isspace (lower_char c))
          && negb (isspace (last (lower (c :: s)) (lower_char c)))).
  rewrite lower_last, !lower_char_space. reflexivity.
Qed.

Lemma lower_close (s : str) :
  existsb (Ascii.eqb "]"%char) (lower s) = existsb (Ascii.eqb "]"%char) s.
Proof.
  unfold lower. induction s as [|c s IH]; [reflexivity|].
  cbn [map existsb]. now rewrite lower_char_close, IH.
Qed.

Lemma lower_skipn (n : nat) (s : str) : skipn n (lower s) = lower (skipn n s).
Proof. unfold lower. apply skipn_map. Qed.

(** ** Lines without the empty lines at their end *)

Lemma rstrip_spaces (s : str) : forallb isspace s = true -> rstrip s = [].
Proof.
  intros H. rewrite <- (app_nil_l s). rewrite rstrip_app_spaces by exact H.
  reflexivity.
Qed.

Lemma rstrip_empty (s : str) : rstrip s = [] -> forallb isspace s = true.
Proof.
  intros H. destruct (rstrip_decompose s) as (post & Hs & Hpost & _).
  rewrite H in Hs. cbn in Hs. now subst.
Qed.

Lemma rstrip_app (x a : str) :
  rstrip (x ++ a) = match rstrip a with [] => rstrip x | _ :: _ => x ++ rstrip a end.
Proof.
  destruct (rstrip_decompose a) as (post & Ha & Hpost & Htail).
  destruct Htail as [Hnil|(t & d & Hr & Hd)].
  - rewrite Hnil. rewrite Hnil in Ha. cbn in Ha. subst a.
    now apply rstrip_app_spaces.
  - rewrite Ha at 1. rewrite Hr. rewrite !app_assoc.
    rewrite rstrip_app_spaces by exact Hpost.
    rewrite rstrip_last_nonspace by exact Hd.
    destruct t; cbn; now rewrite <- ?app_assoc.
Qed.

Lemma rstrip_app_eq (x a b : str) :
  rstrip a = rstrip b -> rstrip (x ++ a) = rstrip (x ++ b).
Proof. intros H. now rewrite !rstrip_app, H. Qed.

Lemma join_nl_cons (l : str) (ls : list str) :
  ls <> [] -> join_nl (l :: ls) = l ++ LF :: join_nl ls.
Proof. destruct ls; [congruence|reflexivity]. Qed.

Lemma trim_nil (ls : list str) :
  trim ls = [] -> ConfigParser.join_value ls = [].
Proof.
  unfold ConfigParser.join_value.
  induction ls as [|l ls IH]; [reflexivity|]. cbn [trim].
  destruct (trim ls) as [|t ts]; [|discriminate].
  destruct l as [|c l]; [|discriminate]. intros _.
  specialize (IH eq_refl). destruct ls as [|l0 ls]; [reflexivity|].
  rewrite join_nl_cons by discriminate. cbn [app].
  apply rstrip_spaces. cbn [forallb]. rewrite isspace_LF.
  now apply rstrip_empty.
Qed.

Lemma join_value_trim (ls : list str) :
  ConfigParser.join_value (trim ls) = ConfigParser.join_value ls.
Proof.
  induction ls as [|l ls IH]; [reflexivity|]. cbn [trim].
  destruct (trim ls) as [|t ts] eqn:Ht.
  - apply trim_nil in Ht. unfold ConfigParser.join_value in *.
    destruct ls as [|l0 ls].
    + destruct l; reflexivity.
    + rewrite join_nl_cons by discriminate.
      rewrite rstrip_app.
      replace (rstrip (LF :: join_nl (l0 :: ls))) with (@nil ascii).
      * destruct l; reflexivity.
      * symmetry. apply rstrip_spaces. cbn [forallb]. rewrite isspace_LF.
        now apply rstrip_empty.
  - assert (Hls : ls <> []) by (destruct ls; [discriminate|discriminate]).
    unfold ConfigParser.join_value in *.
    rewrite (@join_nl_cons l (t :: ts)) by discriminate.
    rewrite (@join_nl_cons l ls) by exact Hls.
    apply rstrip_app_eq.
    change (LF :: join_nl (t :: ts)) with ([LF] ++ join_nl (t :: ts)).
    change (LF :: join_nl ls) with ([LF] ++ join_nl ls).
    now apply rstrip_app_eq.
Qed.

Lemma trimmed_trim (ls : list str) : trimmed (trim ls) = true.
Proof.
  induction ls as [|l ls IH]; [reflexivity|]. cbn [trim].
  destruct (trim ls) as [|t ts].
  - destruct l; reflexivity.
  - unfold trimmed in *. cbn [rev] in *.
    destruct (rev ts ++ [t]) eqn:Hr; [now destruct (rev ts)|].
    cbn [app]. exact IH.
Qed.

Lemma trim_hd (ls : list str) : hd [] (trim ls) = hd [] ls.
Proof.
  destruct ls as [|l ls]; [reflexivity|]. cbn [trim].
  destruct (trim ls); [destruct l|]; reflexivity.
Qed.

Lemma trim_In (ls : list str) (x : str) : In x (trim ls) -> In x ls.
Proof.
  induction ls as [|l ls IH]; [tauto|]. cbn [trim].
  destruct (trim ls) as [|t ts].
  - destruct l; [contradiction|]. intros [<-|[]]. now left.
  - intros [<-|H]; [now left|right; now apply IH].
Qed.

Lemma trim_tl_In (ls : list str) (x : str) : In x (tl (trim ls)) -> In x (tl ls).
Proof.
  destruct ls as [|l ls]; [tauto|]. cbn [trim tl].
  destruct (trim ls) as [|t ts] eqn:Ht.
  - destruct l; contradiction.
  - cbn [tl]. rewrite <- Ht. apply trim_In.
Qed.

Lemma lines_ok_trim (k : str) (ls : list str) :
  lines_ok k ls = true -> lines_ok k (trim ls) = true.
Proof.
  unfold lines_ok. rewrite trim_hd. intros H.
  apply andb_prop in H. destruct H as [H Hh].
  apply andb_prop in H. destruct H as [H1 H2].
  rewrite H1, Hh. cbn [andb]. rewrite andb_true_r.
  rewrite forallb_forall in *. intros x Hx. apply H2. now apply trim_tl_In.
Qed.
(** ** Assignments keep the store in shape *)

Lemma dict_get_In {V : Type} (k : str) (v : V) (d : ConfigParser.dict V) :
  ConfigParser.dict_get k d = Some v -> In (k, v) d.
Proof.
  induction d as [|[k' v'] d IH]; cbn; [discriminate|].
  destruct (str_eqb k' k) eqn:Hk.
  - apply str_eqb_eq in Hk. intros [= ->]. left. now subst.
  - intros H. right. now apply IH.
Qed.

Lemma dict_set_In {V : Type} (k : str) (v : V) (d : ConfigParser.dict V)
      (a : str) (b : V) :
  In (a, b) (ConfigParser.dict_set k v d) -> In (a, b) d \/ (a = k /\ b = v).
Proof.
  induction d as [|[k' v'] d IH]; cbn.
  - intros [[= <- <-]|[]]. now right.
  - destruct (str_eqb k' k) eqn:Hk.
    + apply str_eqb_eq in Hk. subst k'. intros [[= <- <-]|H]; [now right|].
      left. now right.
    + intros [H|H]; [left; now left|].
      destruct (IH H) as [H'|H']; [left; now right|now right].
Qed.

Lemma dict_set_keys {V : Type} (k : str) (v : V) (d : ConfigParser.dict V) :
  map fst (ConfigParser.dict_set k v d)
  = if ConfigParser.dict_mem k d then map fst d else map fst d ++ [k].
Proof.
  unfold ConfigParser.dict_mem. induction d as [|[k' v'] d IH]; cbn; [reflexivity|].
  destruct (str_eqb k' k) eqn:Hk; [reflexivity|].
  cbn. rewrite IH. now destruct (ConfigParser.dict_get k d).
Qed.

Lemma NoDup_dict_set {V : Type} (k : str) (v : V) (d : ConfigParser.dict V) :
  NoDup (map fst d) -> NoDup (map fst (ConfigParser.dict_set k v d)).
Proof.
  intros H. rewrite dict_set_keys.
  destruct (ConfigParser.dict_mem k d) eqn:Hk; [exact H|].
  apply dict_mem_false in Hk.
  apply NoDup_rev in H. rewrite <- (rev_involutive (map fst d ++ [k])).
  apply NoDup_rev. rewrite rev_app_distr. cbn. constructor; [|exact H].
  intros Hin. apply Hk. now apply in_rev.
Qed.

Lemma Forall_dict_set {V : Type} (P : str * V -> Prop) (k : str) (v : V)
      (d : ConfigParser.dict V) :
  Forall P d -> P (k, v) -> Forall P (ConfigParser.dict_set k v d).
Proof.
  intros Hd Hk. apply Forall_forall. intros [a b] Hin.
  apply dict_set_In in Hin. destruct Hin as [Hin|[-> ->]]; [|exact Hk].
  rewrite Forall_forall in Hd. now apply Hd.
Qed.

Lemma options_ok_set (d : ConfigParser.dict (list str)) (k : str) (ls : list str) :
  options_ok d -> key_ok k = true -> lines_ok k ls = true ->
  options_ok (ConfigParser.dict_set k ls d).
Proof.
  intros [Hnd Hok] Hk Hls. split.
  - now apply NoDup_dict_set.
  - apply Forall_dict_set; auto.
Qed.

Lemma values_nonempty_set (d : ConfigParser.dict (list str)) (k : str)
      (ls : list str) :
  values_nonempty d -> ls <> [] -> values_nonempty (ConfigParser.dict_set k ls d).
Proof. intros Hd Hls. now apply Forall_dict_set. Qed.

Lemma cursect_set_ok (st : ConfigParser.rstate) (k : str) (ls : list str) :
  raw_ok (ConfigParser.self st) -> parser_nonempty (ConfigParser.self st) ->
  key_ok k = true -> lines_ok k ls = true -> ls <> [] ->
  raw_ok (ConfigParser.cursect_set st k ls)
  /\ parser_nonempty (ConfigParser.cursect_set st k ls).
Proof.
  intros (Hnd & Hsecs & Hdef) (Hne & Hned) Hk Hls Hnil.
  unfold ConfigParser.cursect_set.
  assert (Hsame : raw_ok (ConfigParser.self st)
                  /\ parser_nonempty (ConfigParser.self st)).
  { split; [split; [|split]|split]; assumption. }
  destruct (ConfigParser.cursect st) as [| |name].
  - exact Hsame.
  - split; [split; [|split]|split]; cbn; auto.
    + now apply options_ok_set.
    + now apply values_nonempty_set.
  - destruct (ConfigParser.dict_get name
                (ConfigParser._sections (ConfigParser.self st))) as [d|] eqn:Hget;
      [|exact Hsame].
    apply dict_get_In in Hget.
    pose proof Hsecs as Hsecs'. rewrite Forall_forall in Hsecs'.
    destruct (Hsecs' _ Hget) as (Hname & Hdflt & Hd). cbn [fst snd] in *.
    pose proof Hne as Hne'. rewrite Forall_forall in Hne'.
    pose proof (Hne' _ Hget) as Hd'. cbn [snd] in Hd'.
    split; [split; [|split]|split]; cbn; auto.
    + now apply NoDup_dict_set.
    + apply Forall_dict_set; auto. cbn. split; [|split]; auto.
      now apply options_ok_set.
    + apply Forall_dict_set; auto. cbn. now apply values_nonempty_set.
Qed.

Lemma cursect_get_ok (st : ConfigParser.rstate) (o : str) (lines : list str) :
  raw_ok (ConfigParser.self st) -> parser_nonempty (ConfigParser.self st) ->
  ConfigParser.cursect_get st o = Some lines ->
  key_ok o = true /\ lines_ok o lines = true /\ lines <> [].
Proof.
  intros (Hnd & Hsecs & Hdef) (Hne & Hned).
  unfold ConfigParser.cursect_get.
  assert (Hdict : forall d, options_ok d -> values_nonempty d ->
                            ConfigParser.dict_get o d = Some lines ->
                            key_ok o = true /\ lines_ok o lines = true /\ lines <> []).
  { intros d [_ Hd] Hv Hget. apply dict_get_In in Hget.
    rewrite Forall_forall in Hd. destruct (Hd _ Hget) as [H1 H2].
    unfold values_nonempty in Hv. rewrite Forall_forall in Hv.
    pose proof (Hv _ Hget) as H3. auto. }
  destruct (ConfigParser.cursect st) as [| |name]; [discriminate|now apply Hdict|].
  destruct (ConfigParser.dict_get name
              (ConfigParser._sections (ConfigParser.self st))) as [d|] eqn:Hget;
    [|discriminate].
  apply dict_get_In in Hget.
  rewrite Forall_forall in Hsecs. destruct (Hsecs _ Hget) as (_ & _ & Hd).
  rewrite Forall_forall in Hne. pose proof (Hne _ Hget) as Hd'.
  now apply Hdict.
Qed.

Lemma lines_ok_snoc (k : str) (lines : list str) (v : str) :
  lines <> [] -> lines_ok k lines = true -> continuation_ok v = true ->
  lines_ok k (lines ++ [v]) = true.
Proof.
  destruct lines as [|l lines]; [congruence|]. intros _.
  unfold lines_ok. cbn [hd tl app]. intros H Hv.
  apply andb_prop in H. destruct H as [H Hh].
  apply andb_prop in H. destruct H as [H1 H2].
  rewrite H1, Hh, forallb_app, H2. cbn. now rewrite Hv.
Qed.

Lemma cursect_append_ok (st : ConfigParser.rstate) (o v : str) :
  read_ok st -> continuation_ok v = true ->
  read_ok (ConfigParser.cursect_append st o v).
Proof.
  intros Hst Hv. unfold ConfigParser.cursect_append.
  destruct (ConfigParser.cursect_get st o) as [lines|] eqn:Hget; [|exact Hst].
  destruct Hst as [He|[Hraw Hne]]; [now left|]. right.
  destruct (cursect_get_ok _ _ Hraw Hne Hget) as (Hk & Hls & Hnil).
  cbn [ConfigParser.self]. apply cursect_set_ok; auto.
  - now apply lines_ok_snoc.
  - now destruct lines.
Qed.
(** ** The parts of an option line *)

Lemma lstrip_incl (s : str) (c : ascii) : In c (lstrip s) -> In c s.
Proof.
  destruct (lstrip_decompose s) as (pre & Hs & _). intros H.
  rewrite Hs. apply in_or_app. now right.
Qed.

Lemma strip_incl (s : str) (c : ascii) : In c (strip s) -> In c s.
Proof.
  destruct (strip_decompose s) as (pre & post & Hs & _). intros H.
  rewrite Hs. apply in_or_app. right. apply in_or_app. now left.
Qed.

Lemma one_line_incl (a b : str) :
  (forall c, In c a -> In c b) -> one_line b = true -> one_line a = true.
Proof.
  unfold one_line. intros Hincl H. apply andb_prop in H. destruct H as [H1 H2].
  apply no_char_In in H1, H2.
  apply andb_true_intro. split; apply no_char_In; auto.
Qed.

Lemma strip_one_line (s : str) : one_line s = true -> one_line (strip s) = true.
Proof. apply one_line_incl. apply strip_incl. Qed.

Lemma lstrip_one_line (s : str) : one_line s = true -> one_line (lstrip s) = true.
Proof. apply one_line_incl. apply lstrip_incl. Qed.

Lemma tight_strip (s : str) : tight (strip s) = true.
Proof. now destruct (strip_decompose s) as (_ & _ & _ & _ & _ & H). Qed.

Lemma rstrip_ends_nonspace (k : str) : ends_nonspace k = true -> rstrip k = k.
Proof.
  destruct k as [|c k]; [reflexivity|].
  destruct (@exists_last _ (c :: k) ltac:(discriminate)) as (body & d & Hk).
  cbn [ends_nonspace]. rewrite Hk at 1. rewrite last_last. intros H.
  apply negb_true_iff in H. rewrite Hk. now apply rstrip_last_nonspace.
Qed.

Lemma existsb_incl (f : ascii -> bool) (a b : str) :
  (forall c, In c a -> In c b) -> existsb f a = true -> existsb f b = true.
Proof.
  intros Hincl H. apply existsb_exists in H. destruct H as (x & Hx & Hf).
  apply existsb_exists. exists x. auto.
Qed.

Lemma close_not_delimiter (d : ascii) :
  is_delimiter d = true -> Ascii.eqb "]"%char d = false.
Proof.
  unfold is_delimiter. intros H. apply orb_prop in H.
  destruct H as [H|H]; apply Ascii.eqb_eq in H; subst; reflexivity.
Qed.

Lemma close_not_space (c : ascii) :
  isspace c = true -> Ascii.eqb "]"%char c = false.
Proof.
  intros H. destruct (Ascii.eqb "]"%char c) eqn:Hc; [|reflexivity].
  apply Ascii.eqb_eq in Hc. subst. discriminate.
Qed.

(** The line that [write] makes of a parsed option is no section header
    when the line it was parsed from was none. *)
Lemma header_like_option (k0 mid rest val : str) (d : ascii) :
  k0 <> [] -> forallb isspace mid = true -> is_delimiter d = true ->
  (forall c, In c val -> In c rest) ->
  header_like (k0 ++ mid ++ d :: rest) = false ->
  header_like (lower k0 ++ py " = " ++ val) = false.
Proof.
  intros Hk Hmid Hd Hincl Hh.
  assert (Hk' : lower k0 <> []) by (destruct k0; [congruence|discriminate]).
  change (py " = " ++ val) with (" "%char :: "="%char :: " "%char :: val).
  rewrite header_like_split by (exact Hk' || reflexivity).
  assert (Hold : exists c2 x, mid ++ d :: rest = c2 :: x
                              /\ Ascii.eqb "]"%char c2 = false
                              /\ forall c, In c rest -> In c x).
  { destruct mid as [|m mid].
    - exists d, rest. repeat split; auto. now apply close_not_delimiter.
    - exists m, (mid ++ d :: rest). cbn [forallb] in Hmid.
      apply andb_prop in Hmid. destruct Hmid as [Hm _].
      repeat split; auto using close_not_space.
      intros c Hc. apply in_or_app. right. now right. }
  destruct Hold as (c2 & x & Hx & Hc2 & Hrest). rewrite Hx in Hh.
  rewrite header_like_split in Hh by assumption.
  rewrite lower_skipn, lower_close.
  replace (match lower k0 with c :: _ => Ascii.eqb c "["%char | [] => false end)
    with (match k0 with c :: _ => Ascii.eqb c "["%char | [] => false end)
    by (destruct k0; [reflexivity|cbn; now rewrite lower_char_open]).
  destruct (match k0 with c :: _ => Ascii.eqb c "["%char | [] => false end);
    [|reflexivity].
  cbn [andb] in *. apply orb_false_iff in Hh. destruct Hh as [Hh1 Hh2].
  rewrite Hh1. cbn [orb existsb].
  change (Ascii.eqb "]"%char "="%char) with false.
  change (Ascii.eqb "]"%char " "%char) with false. cbn [orb].
  destruct (existsb (Ascii.eqb "]"%char) val) eqn:Hval; [|reflexivity].
  assert (Hx' : existsb (Ascii.eqb "]"%char) x = true)
    by (eapply existsb_incl; [|exact Hval]; auto).
  congruence.
Qed.

Lemma option_parts_ok (v k0 val : str) :
  one_line v = true -> tight v = true -> is_comment v = false ->
  header_like v = false ->
  option_split v = Some (k0, val) -> k0 <> [] ->
  key_ok (lower (rstrip k0)) = true
  /\ lines_ok (lower (rstrip k0)) [strip val] = true.
Proof.
  intros Hol Ht Hcm Hh Hsplit Hk.
  apply option_split_spec in Hsplit.
  destruct Hsplit as (mid & d & rest & Hv & Hmid & Hd & Hval & Hnd & Hens).
  rewrite (rstrip_ends_nonspace _ Hens).
  destruct k0 as [|c k0]; [congruence|].
  assert (Hol0 : one_line (c :: k0) = true).
  { rewrite Hv in Hol. rewrite one_line_app in Hol.
    now apply andb_prop in Hol. }
  assert (Holr : one_line rest = true).
  { rewrite Hv in Hol. rewrite !one_line_app in Hol.
    apply andb_prop in Hol. destruct Hol as [_ Hol].
    apply andb_prop in Hol. destruct Hol as [_ Hol].
    change (d :: rest) with ([d] ++ rest) in Hol. rewrite one_line_app in Hol.
    now apply andb_prop in Hol. }
  assert (Ht0 : tight (c :: k0) = true).
  { cbn [tight]. rewrite Hv in Ht. apply tight_head in Ht. rewrite Ht.
    cbn [ends_nonspace] in Hens. now rewrite Hens. }
  split.
  - change (lower (c :: k0)) with (lower_char c :: lower k0).
    unfold key_ok.
    change (lower_char c :: lower k0) with (lower (c :: k0)).
    rewrite lower_no_delimiter, lower_one_line, lower_tight, lower_idem.
    rewrite Hnd, Hol0, Ht0, str_eqb_refl.
    change (lower (c :: k0)) with (lower_char c :: lower k0).
    rewrite (lower_char_comment c (lower k0) (k0 ++ mid ++ d :: rest)).
    change (c :: k0 ++ mid ++ d :: rest) with ((c :: k0) ++ mid ++ d :: rest).
    rewrite <- Hv, Hcm. reflexivity.
  - unfold lines_ok. cbn [hd tl forallb].
    unfold line_ok. rewrite tight_strip.
    rewrite strip_one_line by (rewrite Hval; now apply lstrip_one_line).
    rewrite !andb_true_l. apply negb_true_iff.
    apply header_like_option with (mid := mid) (rest := rest) (d := d).
    + discriminate.
    + exact Hmid.
    + exact Hd.
    + intros x Hx. apply strip_incl in Hx. rewrite Hval in Hx.
      now apply lstrip_incl.
    + now rewrite <- Hv.
Qed.
(** ** The loop of [_read] *)

Lemma NoDup_snoc {A : Type} (l : list A) (x : A) :
  NoDup l -> ~ In x l -> NoDup (l ++ [x]).
Proof.
  intros H Hx. apply NoDup_rev in H. rewrite <- (rev_involutive (l ++ [x])).
  apply NoDup_rev. rewrite rev_app_distr. cbn. constructor; [|exact H].
  intros Hin. apply Hx. now apply in_rev.
Qed.

Lemma name_ok_intro (name : str) :
  name <> [] -> one_line name = true -> name_ok name = true.
Proof. destruct name; [congruence|auto]. Qed.

Lemma read_ok_same (st st' : ConfigParser.rstate) :
  ConfigParser.self st' = ConfigParser.self st ->
  (ConfigParser.e st = true -> ConfigParser.e st' = true) ->
  read_ok st -> read_ok st'.
Proof.
  intros Hself He [H|H]; [left; auto|right]. now rewrite Hself.
Qed.

Lemma read_header_or_option_ok (st st' : ConfigParser.rstate) (ci : nat) (v : str) :
  read_ok st ->
  one_line v = true -> tight v = true -> is_comment v = false ->
  ConfigParser.read_header_or_option st ci v = inr st' ->
  read_ok st'.
Proof.
  intros Hst Hol Ht Hcm. unfold ConfigParser.read_header_or_option.
  pose proof (sectcre_spec v (one_line_LF _ Hol)) as Hsec.
  destruct (re_match ConfigParser.SECTCRE v) as [[r mo]|].
  - cbn [option_map snd] in Hsec. symmetry in Hsec.
    apply header_of_In in Hsec. destruct Hsec as [Hne Hincl].
    cbn zeta. set (name := group "header" mo) in *.
    destruct (ConfigParser.dict_mem name _) eqn:Hmem.
    + destruct (existsb _ _); [discriminate|]. intros [= <-].
      now apply read_ok_same with st.
    + destruct (str_eqb name ConfigParser.default_section) eqn:Hdef.
      * intros [= <-]. now apply read_ok_same with st.
      * intros [= <-]. destruct Hst as [He|[(Hnd & Hsecs & Hdflt) (Hv & Hvd)]];
          [now left|right].
        apply str_eqb_neq in Hdef. apply dict_mem_false in Hmem.
        cbn [ConfigParser.self].
        split; [split; [|split]|split];
          cbn [ConfigParser._sections ConfigParser._defaults]; auto.
        -- rewrite map_app. now apply NoDup_snoc.
        -- apply Forall_app. split; [exact Hsecs|]. constructor; [|constructor].
           cbn [fst snd]. split; [|split]; auto.
           ++ apply name_ok_intro; [exact Hne|].
              now apply one_line_incl with v.
           ++ split; constructor.
        -- apply Forall_app. split; [exact Hv|]. constructor; constructor.
  - cbn [option_map] in Hsec. symmetry in Hsec. apply header_of_none in Hsec.
    pose proof (optcre_spec v (one_line_LF _ Hol)) as Hopt.
    assert (Hbody :
      match re_match ConfigParser.OPTCRE v with
      | Some (_, mo) =>
          let e' := match group "option" mo with
                    | [] => true
                    | _ :: _ => ConfigParser.e st
                    end in
          let o := ConfigParser.optionxform (rstrip (group "option" mo)) in
          if existsb (ConfigParser.element_eqb
                        (ConfigParser.ElOption (ConfigParser.sectname st) o))
                     (ConfigParser.elements_added st)
          then inl ConfigParser.DuplicateOptionError
          else
            let optval := strip (group "value" mo) in
            inr (ConfigParser.mkRstate (ConfigParser.cursect_set st o [optval])
                   (ConfigParser.ElOption (ConfigParser.sectname st) o
                      :: ConfigParser.elements_added st)
                   (ConfigParser.cursect st) (ConfigParser.sectname st) (Some o)
                   ci e')
      | None =>
          inr (ConfigParser.mkRstate (ConfigParser.self st)
                 (ConfigParser.elements_added st)
                 (ConfigParser.cursect st) (ConfigParser.sectname st)
                 (ConfigParser.optname st) ci true)
      end = inr st' -> read_ok st').
    { destruct (re_match ConfigParser.OPTCRE v) as [[r mo]|].
      - cbn [option_map snd] in Hopt. symmetry in Hopt. cbn zeta.
        destruct (existsb _ _); [discriminate|]. intros [= <-].
        destruct (group "option" mo) as [|c k0] eqn:Hk0; [now left|].
        destruct Hst as [He|[Hraw Hne]]; [now left|right].
        cbn [ConfigParser.self].
        destruct (@option_parts_ok v (c :: k0) (group "value" mo))
          as [Hkey Hlines]; auto; try discriminate.
        unfold ConfigParser.optionxform.
        apply cursect_set_ok; auto. discriminate.
      - intros [= <-]. now left. }
    destruct (ConfigParser.cursect st); [discriminate|exact Hbody|exact Hbody].
Qed.

Lemma file_line_strip (line : str) :
  file_line line -> one_line (strip line) = true.
Proof.
  intros (body & [->| ->] & Hb).
  - rewrite strip_LF. now apply strip_one_line.
  - now apply strip_one_line.
Qed.

Lemma read_line_ok (st st' : ConfigParser.rstate) (line : str) :
  read_ok st -> file_line line ->
  ConfigParser.read_line st line = inr st' -> read_ok st'.
Proof.
  intros Hst Hline. apply file_line_strip in Hline.
  pose proof (tight_strip line) as Ht.
  unfold ConfigParser.read_line.
  change (existsb (fun prefix => startswith prefix (strip line))
                  ConfigParser.comment_prefixes) with (is_comment (strip line)).
  destruct (is_comment (strip line)) eqn:Hcm.
  - destruct (ConfigParser.optname_true st); now intros [= <-].
  - destruct (strip line) as [|c v] eqn:Hs.
    + destruct (ConfigParser.optname_true st); intros [= <-]; [|exact Hst].
      now apply cursect_append_ok.
    + assert (Hcont : continuation_ok (c :: v) = true).
      { unfold continuation_ok, line_ok. now rewrite Hline, Ht, Hcm. }
      destruct (ConfigParser.optname_true st).
      * destruct (_ <? _).
        -- intros [= <-]. now apply cursect_append_ok.
        -- now apply read_header_or_option_ok.
      * now apply read_header_or_option_ok.
Qed.

Lemma read_lines_ok (lines : list str) :
  Forall file_line lines ->
  forall st st', read_ok st ->
                 ConfigParser.read_lines st lines = inr st' -> read_ok st'.
Proof.
  induction 1 as [|line lines Hline _ IH]; intros st st' Hst.
  - now intros [= <-].
  - cbn [ConfigParser.read_lines].
    destruct (ConfigParser.read_line st line) as [err|st1] eqn:Hread;
      [discriminate|].
    apply IH. now apply read_line_ok with st line.
Qed.

Lemma readlines_file_lines (s : str) :
  no_char CR s = true -> Forall file_line (readlines s).
Proof.
  intros Hs. eapply Forall_impl; [|apply readlines_shape].
  cbv beta. intros line (body & Hline & Hlf & Hincl).
  exists body. split; [exact Hline|]. unfold one_line. rewrite Hlf.
  apply no_char_In. intros Hin. apply Hincl in Hin.
  apply no_char_In in Hs. contradiction.
Qed.

Lemma trim_options_ok (d : ConfigParser.dict (list str)) :
  options_ok d -> options_ok (trim_options d).
Proof.
  intros [Hnd Hok]. split.
  - unfold trim_options. rewrite map_map. exact Hnd.
  - unfold trim_options. apply Forall_map. eapply Forall_impl; [|exact Hok].
    cbn. intros [k ls] [Hk Hls]. cbn [fst snd] in *. split; [exact Hk|].
    now apply lines_ok_trim.
Qed.

Lemma trim_options_trimmed (d : ConfigParser.dict (list str)) :
  Forall (fun kv => trimmed (snd kv) = true) (trim_options d).
Proof.
  unfold trim_options. apply Forall_map. apply Forall_forall.
  intros kv _. cbn. apply trimmed_trim.
Qed.

Lemma join_options_trim (d : ConfigParser.dict (list str)) :
  ConfigParser.join_options (trim_options d) = ConfigParser.join_options d.
Proof.
  unfold ConfigParser.join_options, trim_options. rewrite map_map.
  apply map_ext. intros [k ls]. cbn [fst snd]. now rewrite join_value_trim.
Qed.

Lemma raw_well_formed (raw : ConfigParser.parser (list str)) :
  raw_ok raw -> well_formed (ConfigParser._join_multiline_values raw).
Proof.
  intros (Hnd & Hsecs & Hdef). exists (trim_parser raw).
  split; [split; [|split]|split; [split|]].
  - cbn. rewrite map_map. exact Hnd.
  - cbn. apply Forall_map. eapply Forall_impl; [|exact Hsecs].
    cbn. intros [name d] (H1 & H2 & H3). cbn [fst snd] in *.
    split; [|split]; auto. now apply trim_options_ok.
  - cbn. now apply trim_options_ok.
  - cbn. apply Forall_map. apply Forall_forall. intros sd _. cbn.
    apply trim_options_trimmed.
  - cbn. apply trim_options_trimmed.
  - unfold ConfigParser._join_multiline_values, trim_parser.
    cbn [ConfigParser._sections ConfigParser._defaults].
    rewrite join_options_trim. f_equal. rewrite map_map. apply map_ext.
    intros [name d]. cbn [fst snd]. now rewrite join_options_trim.
Qed.

(** Every store that [_read] returns is well formed. *)
Lemma read_well_formed (text : str) (p : ConfigParser.parser str) :
  ConfigParser._read (universal_newlines text) = inr p -> well_formed p.
Proof.
  unfold ConfigParser._read.
  destruct (ConfigParser.read_lines ConfigParser.initial
              (readlines (universal_newlines text))) as [err|st] eqn:Hread;
    [discriminate|].
  destruct (ConfigParser.e st) eqn:He; [discriminate|]. intros [= <-].
  assert (Hok : read_ok st).
  { eapply read_lines_ok; [| |exact Hread].
    - apply readlines_file_lines. apply universal_newlines_no_cr.
    - right. repeat split; constructor. }
  destruct Hok as [Hok|[Hok _]]; [congruence|].
  now apply raw_well_formed.
Qed.

(** * Setting a value *)

Lemma dict_get_map {V W : Type} (f : V -> W) (k : str) (d : ConfigParser.dict V) :
  ConfigParser.dict_get k (map (fun kv => (fst kv, f (snd kv))) d)
  = option_map f (ConfigParser.dict_get k d).
Proof.
  induction d as [|[k' v'] d IH]; cbn; [reflexivity|].
  destruct (str_eqb k' k); [reflexivity|exact IH].
Qed.

Lemma dict_set_map {V W : Type} (f : V -> W) (k : str) (v : V)
      (d : ConfigParser.dict V) :
  ConfigParser.dict_set k (f v) (map (fun kv => (fst kv, f (snd kv))) d)
  = map (fun kv => (fst kv, f (snd kv))) (ConfigParser.dict_set k v d).
Proof.
  induction d as [|[k' v'] d IH]; cbn; [reflexivity|].
  destruct (str_eqb k' k); cbn; [reflexivity|now rewrite IH].
Qed.

Lemma dict_get_set_other {V : Type} (k k' : str) (v : V) (d : ConfigParser.dict V) :
  k' <> k ->
  ConfigParser.dict_get k' (ConfigParser.dict_set k v d) = ConfigParser.dict_get k' d.
Proof.
  intros Hneq. induction d as [|[a b] d IH]; cbn.
  - apply str_eqb_neq in Hneq. 
    destruct (str_eqb k k') eqn:H; [|reflexivity].
    apply str_eqb_eq in H. subst. now rewrite str_eqb_refl in Hneq.
  - destruct (str_eqb a k) eqn:Hak; cbn.
    + apply str_eqb_eq in Hak. subst a.
      destruct (str_eqb k k') eqn:H; [|reflexivity].
      apply str_eqb_eq in H. congruence.
    + destruct (str_eqb a k'); [reflexivity|exact IH].
Qed.

Lemma well_formed_empty : well_formed (ConfigParser.empty str).
Proof.
  exists (ConfigParser.empty (list str)). repeat split; constructor.
Qed.

Lemma plain_key_lower (k : str) : plain_key k = true -> key_ok (lower k) = true.
Proof.
  destruct k as [|c k]; [discriminate|]. unfold plain_key. intros H.
  apply andb_prop in H. destruct H as [H Hcm].
  apply andb_prop in H. destruct H as [H Ht].
  apply andb_prop in H. destruct H as [H Hol].
  apply andb_prop in H. destruct H as [_ Hnd].
  change (lower (c :: k)) with (lower_char c :: lower k). unfold key_ok.
  change (lower_char c :: lower k) with (lower (c :: k)).
  rewrite lower_no_delimiter, lower_one_line, lower_tight, lower_idem.
  rewrite Hnd, Hol, Ht, str_eqb_refl.
  change (lower (c :: k)) with (lower_char c :: lower k).
  rewrite (lower_char_comment c (lower k) k), Hcm. reflexivity.
Qed.

Lemma plain_lines_ok (k v : str) :
  plain_key k = true -> plain_value v = true ->
  lines_ok (lower k) (lines_of v) = true.
Proof.
  intros Hk Hv. unfold lines_ok.
  assert (Hhd : hd [] (lines_of v) = v) by (destruct v; reflexivity).
  assert (Htl : tl (lines_of v) = []) by (destruct v; reflexivity).
  rewrite Hhd, Htl. unfold plain_value in Hv. rewrite Hv. cbn [forallb andb].
  apply negb_true_iff.
  destruct k as [|c k]; [discriminate|].
  unfold plain_key in Hk. apply andb_prop in Hk. destruct Hk as [Hk _].
  apply andb_prop in Hk. destruct Hk as [Hk _].
  apply andb_prop in Hk. destruct Hk as [Hk _].
  apply andb_prop in Hk. destruct Hk as [Hk _].
  apply negb_true_iff in Hk.
  change (py " = " ++ v) with (" "%char :: "="%char :: " "%char :: v).
  rewrite header_like_split by (discriminate || reflexivity).
  change (lower (c :: k)) with (lower_char c :: lower k).
  cbv beta iota. now rewrite lower_char_open, Hk.
Qed.

Lemma join_value_lines_of (v : str) :
  plain_value v = true -> ConfigParser.join_value (lines_of v) = v.
Proof.
  intros Hv. apply line_ok_inv in Hv. destruct Hv as [_ Ht].
  destruct v as [|c v]; [reflexivity|].
  unfold lines_of, ConfigParser.join_value. cbn [join_nl]. now apply rstrip_tight.
Qed.

Lemma trimmed_lines_of (v : str) : trimmed (lines_of v) = true.
Proof. destruct v; reflexivity. Qed.

Lemma well_formed_names (p : ConfigParser.parser str) (s : str)
      (d : ConfigParser.dict str) :
  well_formed p -> ConfigParser.dict_get s (ConfigParser._sections p) = Some d ->
  name_ok s = true /\ s <> ConfigParser.default_section.
Proof.
  intros (raw & (_ & Hsecs & _) & _ & ->) Hget. cbn in Hget.
  apply dict_get_In in Hget. apply in_map_iff in Hget.
  destruct Hget as ([name items] & [= <- _] & Hin).
  rewrite Forall_forall in Hsecs. destruct (Hsecs _ Hin) as (H1 & H2 & _). auto.
Qed.

(** Setting a plain key to a plain value keeps the store well formed. *)
Lemma set_well_formed (p : ConfigParser.parser str) (s k v : str) :
  well_formed p -> name_ok s = true -> s <> ConfigParser.default_section ->
  plain_key k = true -> plain_value v = true ->
  well_formed
    (ConfigParser.mkParser
       (ConfigParser.dict_set s
          (ConfigParser.dict_set (lower k) v (section_items p s))
          (ConfigParser._sections p))
       (ConfigParser._defaults p)).
Proof.
  intros (raw & (Hnd & Hsecs & Hdef) & (Htrs & Htrd) & ->) Hs Hdflt Hk Hv.
  pose proof (plain_key_lower _ Hk) as Hkey.
  pose proof (plain_lines_ok _ _ Hk Hv) as Hlines.
  set (items := section_items raw s).
  assert (Hitems : options_ok items
                   /\ Forall (fun kv => trimmed (snd kv) = true) items).
  { unfold items, section_items.
    destruct (ConfigParser.dict_get s (ConfigParser._sections raw)) as [d|] eqn:Hget.
    - apply dict_get_In in Hget. rewrite Forall_forall in Hsecs, Htrs.
      destruct (Hsecs _ Hget) as (_ & _ & Hd). split; [exact Hd|].
      exact (Htrs _ Hget).
    - split; [split|]; constructor. }
  destruct Hitems as [Hitems Htrimmed].
  exists (ConfigParser.mkParser
            (ConfigParser.dict_set s
               (ConfigParser.dict_set (lower k) (lines_of v) items)
               (ConfigParser._sections raw))
            (ConfigParser._defaults raw)).
  split; [split; [|split]|split; [split|]];
    cbn [ConfigParser._sections ConfigParser._defaults]; auto.
  - now apply NoDup_dict_set.
  - apply Forall_dict_set; auto. cbn [fst snd]. split; [|split]; auto.
    now apply options_ok_set.
  - apply Forall_dict_set; auto. cbn [snd].
    apply Forall_dict_set; auto. apply trimmed_lines_of.
  - unfold ConfigParser._join_multiline_values.
    cbn [ConfigParser._sections ConfigParser._defaults]. f_equal.
    assert (Hsi : section_items
                    (ConfigParser.mkParser
                       (map (fun sd => (fst sd, ConfigParser.join_options (snd sd)))
                            (ConfigParser._sections raw))
                       (ConfigParser.join_options (ConfigParser._defaults raw))) s
                  = ConfigParser.join_options items).
    { unfold items, section_items. cbn [ConfigParser._sections].
      rewrite (dict_get_map (@ConfigParser.join_options)).
      now destruct (ConfigParser.dict_get s (ConfigParser._sections raw)). }
    rewrite Hsi.
    rewrite <- (dict_set_map (@ConfigParser.join_options)). f_equal.
    unfold ConfigParser.join_options at 2.
    rewrite <- (dict_set_map ConfigParser.join_value).
    now rewrite join_value_lines_of.
Qed.
Lemma dict_mem_get {V : Type} (k : str) (d : ConfigParser.dict V) :
  ConfigParser.dict_mem k d = true -> exists v, ConfigParser.dict_get k d = Some v.
Proof.
  unfold ConfigParser.dict_mem.
  destruct (ConfigParser.dict_get k d) as [v|]; [now exists v|discriminate].
Qed.

Lemma updated_spec (p p2 : ConfigParser.parser str) (s k v : str) :
  well_formed p -> name_ok s = true ->
  updated p s k v = Some p2 ->
  s <> ConfigParser.default_section
  /\ p2 = ConfigParser.mkParser
            (ConfigParser.dict_set s
               (ConfigParser.dict_set (lower k) v (section_items p s))
               (ConfigParser._sections p))
            (ConfigParser._defaults p).
Proof.
  intros Hp Hs. unfold updated, ConfigParser.has_section, section_items.
  destruct s as [|c s]; [discriminate|].
  destruct (ConfigParser.dict_mem (c :: s) (ConfigParser._sections p)) eqn:Hmem.
  - destruct (dict_mem_get _ _ Hmem) as (d & Hget).
    destruct (well_formed_names _ Hp Hget) as [_ Hdef].
    unfold ConfigParser.set. apply str_eqb_neq in Hdef. rewrite Hdef, Hget.
    intros [= <-]. split; [now apply str_eqb_neq|reflexivity].
  - unfold ConfigParser.add_section.
    destruct (str_eqb (c :: s) ConfigParser.default_section) eqn:Hdef;
      [discriminate|].
    rewrite Hmem. unfold ConfigParser.set. rewrite Hdef.
    cbn [ConfigParser._sections ConfigParser._defaults].
    rewrite dict_get_last by exact Hmem. intros [= <-].
    split; [now apply str_eqb_neq|].
    rewrite dict_set_last by exact Hmem.
    unfold ConfigParser.dict_mem in Hmem.
    destruct (ConfigParser.dict_get (c :: s) (ConfigParser._sections p)) eqn:Hget;
      [discriminate|].
    rewrite dict_set_fresh; [reflexivity|].
    unfold ConfigParser.dict_mem. now rewrite Hget.
Qed.

(** The value just set is the value found, whatever the case of the
    letters of the key. *)
Lemma get_set_same (secs : ConfigParser.dict (ConfigParser.dict str))
      (dflt d : ConfigParser.dict str) (s k k' v : str) (fb : option str) :
  lower k' = lower k ->
  ConfigParser.get
    (ConfigParser.mkParser
       (ConfigParser.dict_set s (ConfigParser.dict_set (lower k) v d) secs) dflt)
    s k' fb
  = Some v.
Proof.
  intros Hk. unfold ConfigParser.get, ConfigParser.optionxform.
  cbn [ConfigParser._sections ConfigParser._defaults].
  rewrite dict_get_set_same, Hk, dict_get_set_same. reflexivity.
Qed.

(** The other values are found as before. *)
Lemma get_set_other (p : ConfigParser.parser str) (s k v s' k' : str)
      (fb : option str) :
  s' <> s
  \/ (lower k' <> lower k
      /\ (ConfigParser.has_section p s = true
          \/ ConfigParser.dict_get (lower k') (ConfigParser._defaults p) = None)) ->
  ConfigParser.get
    (ConfigParser.mkParser
       (ConfigParser.dict_set s
          (ConfigParser.dict_set (lower k) v (section_items p s))
          (ConfigParser._sections p))
       (ConfigParser._defaults p))
    s' k' fb
  = ConfigParser.get p s' k' fb.
Proof.
  intros H. unfold ConfigParser.get, ConfigParser.optionxform.
  cbn [ConfigParser._sections ConfigParser._defaults].
  destruct (list_eq_dec ascii_dec s' s) as [->|Hs].
  - destruct H as [H|[Hk Hcase]]; [congruence|].
    rewrite dict_get_set_same, dict_get_set_other by exact Hk.
    unfold section_items, ConfigParser.has_section, ConfigParser.dict_mem in *.
    destruct (ConfigParser.dict_get s (ConfigParser._sections p)) as [d|];
      [reflexivity|].
    destruct Hcase as [Hcase|Hcase]; [discriminate|].
    cbn [ConfigParser.dict_get]. rewrite Hcase.
    destruct (str_eqb s ConfigParser.default_section); reflexivity.
  - rewrite dict_get_set_other by exact Hs. reflexivity.
Qed.

Lemma get_empty (s k : str) (fb : option str) :
  ConfigParser.get (ConfigParser.empty str) s k fb = fb.
Proof.
  unfold ConfigParser.get. cbn.
  destruct (str_eqb s ConfigParser.default_section); reflexivity.
Qed.

(** ** [get_config_value] and [set_config_value] on the file *)

Lemma read_config_well_formed (st : state) (p : ConfigParser.parser str) :
  read_config st = inr p -> well_formed p.
Proof.
  unfold read_config. destruct (config_ini st) as [text|].
  - apply read_well_formed.
  - intros [= <-]. apply well_formed_empty.
Qed.

Lemma get_config_value_read (st : state) (p : ConfigParser.parser str)
      (s k : str) (fb : option str) :
  read_config st = inr p ->
  get_config_value s k fb st = (Ok (ConfigParser.get p s k fb), st).
Proof.
  intros Hread. unfold get_config_value.
  destruct (config_ini st) as [text|] eqn:Hini.
  - now rewrite Hread.
  - unfold read_config in Hread. rewrite Hini in Hread.
    injection Hread as <-. now rewrite get_empty.
Qed.

Lemma set_config_value_true (env : environment) (s k v : str) (st st' : state) :
  set_config_value env s k v st = (Ok true, st') ->
  exists p p2,
    read_config st = inr p /\ updated p s k v = Some p2
    /\ st' = mkState (Some (ConfigParser.write p2)) (reports st) (stdin st)
                     (trace st) (calls st).
Proof.
  unfold set_config_value, updated.
  destruct (read_config st) as [err|p]; [discriminate|].
  destruct (if ConfigParser.has_section p s then ConfigParser.Added p
            else ConfigParser.add_section p s) as [p1| |] eqn:Hadd;
    [|discriminate|discriminate].
  destruct (ConfigParser.set p1 s k v) as [p2|] eqn:Hset; [|discriminate].
  destruct (config_writable env); [|discriminate].
  intros [= <-]. exists p, p2. rewrite Hadd, Hset. auto.
Qed.

(** After a successful [set_config_value] with plain arguments the file
    holds the updated store. *)
Lemma set_config_value_stored (env : environment) (s k v : str) (st st' : state) :
  name_ok s = true -> plain_key k = true -> plain_value v = true ->
  set_config_value env s k v st = (Ok true, st') ->
  exists p,
    read_config st = inr p
    /\ read_config st'
       = inr (ConfigParser.mkParser
                (ConfigParser.dict_set s
                   (ConfigParser.dict_set (lower k) v (section_items p s))
                   (ConfigParser._sections p))
                (ConfigParser._defaults p))
    /\ st' = mkState (config_ini st') (reports st) (stdin st) (trace st) (calls st).
Proof.
  intros Hs Hk Hv Hset.
  destruct (set_config_value_true _ _ _ _ _ Hset) as (p & p2 & Hread & Hup & ->).
  pose proof (read_config_well_formed _ Hread) as Hp.
  destruct (updated_spec _ _ _ Hp Hs Hup) as [Hdef ->].
  exists p. split; [exact Hread|]. split; [|reflexivity].
  unfold read_config. cbn [config_ini].
  apply read_write. now apply set_well_formed.
Qed.

(** * The config store: C4, C9 and C5 *)

(** C4, amended: for every section name that is not empty and has no line
    break, every plain key (not empty, no [=], [:] or line break, no white
    space at its ends, not starting with [#], [;] or an opening bracket) and
    every one-line value [v] without white space at its ends, if
    [set_config_value section key v] returns [True] then an immediately
    following [get_config_value section key fb] returns exactly [v], for
    every fallback [fb]. *)
Theorem C4_set_then_get (env : environment) (section key v : str)
        (st st' : state) (fb : option str) :
  name_ok section = true -> plain_key key = true -> plain_value v = true ->
  set_config_value env section key v st = (Ok true, st') ->
  get_config_value section key fb st' = (Ok (Some v), st').
Proof.
  intros Hs Hk Hv Hset.
  destruct (@set_config_value_stored env section key v st st' Hs Hk Hv Hset)
    as (p & _ & Hread & _).
  rewrite (@get_config_value_read st' _ section key fb Hread).
  now rewrite get_set_same.
Qed.

Lemma C4_set_then_get_witness :
  let env := sample_env [] true 0 None in
  let st' := snd (set_config_value env (py "Settings") (py "SHOW_GUI")
                                   (py "false") (sample_state None [])) in
  get_config_value (py "Settings") (py "SHOW_GUI") None st'
  = (Ok (Some (py "false")), st').
Proof.
  intros env st'.
  apply (@C4_set_then_get env (py "Settings") (py "SHOW_GUI") (py "false")
                          (sample_state None []) st' None);
    vm_compute; reflexivity.
Defined.

(** C4 as stated fails: the printable value [" x"] comes back as ["x"]. *)
Lemma C4_counterexample : ~ C4_as_stated.
Proof.
  intros H.
  specialize (H (sample_env [] true 0 None) (py "S") (py "k") (py " x")
                (sample_state None [])
                (snd (set_config_value (sample_env [] true 0 None) (py "S") (py "k")
                                       (py " x") (sample_state None [])))
                None eq_refl eq_refl).
  vm_compute in H. discriminate.
Qed.

Lemma get_missing_section (p : ConfigParser.parser str) (s k : str) :
  ConfigParser.has_section p s = false -> s <> ConfigParser.default_section ->
  ConfigParser.get p s k None = None.
Proof.
  unfold ConfigParser.has_section, ConfigParser.dict_mem, ConfigParser.get.
  intros Hmem Hdef. apply str_eqb_neq in Hdef.
  destruct (ConfigParser.dict_get s (ConfigParser._sections p)); [discriminate|].
  now rewrite Hdef.
Qed.

(** C9, amended: for every state of the config file and every successful
    [set_config_value section key v] with a section name that is not empty
    and has no line break, a plain key and a one-line value without white
    space at its ends, [get_config_value section' key' fb] is unchanged for
    every pair whose section differs from [section], and for every pair
    whose key differs from [key] even when the case of the letters is
    ignored, provided the section existed before or the [DEFAULT] section
    gives no value to [key']; and every pair that had a value still has
    one: entries are only overwritten, never deleted. *)
Theorem C9_set_frame (env : environment) (section key v : str) (st st' : state) :
  name_ok section = true -> plain_key key = true -> plain_value v = true ->
  set_config_value env section key v st = (Ok true, st') ->
  (forall section' key' (fb : option str),
      section' <> section
      \/ (lower key' <> lower key
          /\ (stored_section st section = true \/ default_value st key' = None)) ->
      fst (get_config_value section' key' fb st')
      = fst (get_config_value section' key' fb st))
  /\ (forall section' key' x,
         fst (get_config_value section' key' None st) = Ok (Some x) ->
         exists y, fst (get_config_value section' key' None st') = Ok (Some y)).
Proof.
  intros Hs Hk Hv Hset.
  destruct (@set_config_value_stored env section key v st st' Hs Hk Hv Hset)
    as (p & Hread & Hread' & _).
  destruct (@set_config_value_true env section key v st st' Hset)
    as (p0 & p2 & Hread0 & Hup & _).
  rewrite Hread in Hread0. injection Hread0 as <-.
  destruct (updated_spec _ _ _ (read_config_well_formed _ Hread) Hs Hup)
    as [Hdef _].
  assert (Hframe : forall section' key' (fb : option str),
      section' <> section
      \/ (lower key' <> lower key
          /\ (stored_section st section = true \/ default_value st key' = None)) ->
      fst (get_config_value section' key' fb st')
      = fst (get_config_value section' key' fb st)).
  { intros section' key' fb Hother.
    rewrite (@get_config_value_read st' _ section' key' fb Hread').
    rewrite (@get_config_value_read st _ section' key' fb Hread).
    cbn [fst]. f_equal. apply get_set_other.
    unfold stored_section, default_value in Hother. now rewrite Hread in Hother. }
  split; [exact Hframe|].
  intros section' key' x Hx.
  destruct (list_eq_dec ascii_dec section' section) as [->|Hsec].
  - destruct (list_eq_dec ascii_dec (lower key') (lower key)) as [Hkey|Hkey].
    + exists v. rewrite (@get_config_value_read st' _ section key' None Hread').
      cbn [fst]. f_equal. now apply get_set_same.
    + destruct (stored_section st section) eqn:Hstored.
      * exists x. rewrite Hframe; [exact Hx|]. right. split; [exact Hkey|].
        now left.
      * rewrite (@get_config_value_read st _ section key' None Hread) in Hx.
        cbn [fst] in Hx. unfold stored_section in Hstored.
        rewrite Hread in Hstored.
        rewrite get_missing_section in Hx by assumption. discriminate.
  - exists x. rewrite Hframe; [exact Hx|]. now left.
Qed.

Lemma C9_set_frame_witness :
  let env := sample_env [] true 0 None in
  let st := configured_state in
  let st' := snd (set_config_value env (py "Settings") (py "SHOW_GUI")
                                   (py "true") st) in
  fst (get_config_value (py "API") (py "KEY") None st')
  = fst (get_config_value (py "API") (py "KEY") None st).
Proof.
  intros env st st'.
  apply (@C9_set_frame env (py "Settings") (py "SHOW_GUI") (py "true") st st');
    try (vm_compute; reflexivity).
  left. vm_compute. discriminate.
Defined.

(** C9 as stated fails: setting [KEY] changes what [key] reads. *)
Lemma C9_counterexample : ~ C9_as_stated.
Proof.
  intros H.
  specialize (H (sample_env [] true 0 None) (py "S") (py "KEY") (py "v")
                (sample_state None [])
                (snd (set_config_value (sample_env [] true 0 None) (py "S")
                                       (py "KEY") (py "v") (sample_state None [])))
                (py "S") (py "key") None eq_refl).
  assert (Hneq : (py "S", py "key") <> (py "S", py "KEY"))
    by (vm_compute; discriminate).
  specialize (H Hneq). vm_compute in H. discriminate.
Qed.

Lemma run_sets_fallback (env : environment) (section key : str) (fb : option str) :
  forall (writes : list (str * str * str)) (st0 st : state)
         (p : ConfigParser.parser str),
    read_config st0 = inr p ->
    ConfigParser._defaults p = [] ->
    ConfigParser.get p section key fb = fb ->
    Forall plain_write writes ->
    (forall s' k' v', In (s', k', v') writes ->
                      section <> s' \/ lower key <> lower k') ->
    run_sets env writes st0 = Some st ->
    get_config_value section key fb st = (Ok fb, st).
Proof.
  induction writes as [|[[s k] v] writes IH];
    intros st0 st p Hread Hdflt Hget Hplain Hother Hrun.
  - cbn in Hrun. injection Hrun as <-.
    rewrite (@get_config_value_read st0 _ section key fb Hread). now rewrite Hget.
  - cbn [run_sets] in Hrun.
    destruct (set_config_value env s k v st0) as [[[|]|x|] st1] eqn:Hset;
      try discriminate.
    inversion Hplain as [|? ? (Hs & Hk & Hv) Hplain']; subst. cbn [fst snd] in *.
    destruct (@set_config_value_stored env s k v st0 st1 Hs Hk Hv Hset)
      as (p0 & Hread0 & Hread1 & _).
    rewrite Hread in Hread0. injection Hread0 as <-.
    apply (IH st1 st _ Hread1); auto.
    + rewrite get_set_other; [exact Hget|].
      destruct (Hother s k v (or_introl eq_refl)) as [H|H]; [now left|].
      right. split; [exact H|]. right. now rewrite Hdflt.
    + intros s' k' v' Hin. apply (Hother s' k' v'). now right.
Qed.

(** C5, amended: when the config file does not exist,
    [get_config_value section key fallback] returns exactly the supplied
    fallback; and after any run of successful [set_config_value] calls that
    started without a config file and whose arguments were plain (section
    names not empty and without line break, plain keys, one-line values
    without white space at their ends), it returns exactly the fallback for
    every section and key such that no call wrote that section with a key
    that is equal to [key] when the case of the letters is ignored. *)
Theorem C5_never_written (env : environment) (writes : list (str * str * str))
        (st0 st : state) (section key : str) (fb : option str) :
  config_ini st0 = None ->
  get_config_value section key fb st0 = (Ok fb, st0)
  /\ (Forall plain_write writes ->
      (forall s' k' v', In (s', k', v') writes ->
                        section <> s' \/ lower key <> lower k') ->
      run_sets env writes st0 = Some st ->
      get_config_value section key fb st = (Ok fb, st)).
Proof.
  intros Hnone.
  assert (Hread : read_config st0 = inr (ConfigParser.empty str))
    by (unfold read_config; now rewrite Hnone).
  split.
  - rewrite (@get_config_value_read st0 _ section key fb Hread).
    now rewrite get_empty.
  - intros Hplain Hother Hrun.
    eapply run_sets_fallback; eauto. apply get_empty.
Qed.

Lemma C5_never_written_witness :
  let env := sample_env [] true 0 None in
  let st0 := sample_state None [] in
  let st := snd (set_config_value env (py "Settings") (py "SHOW_GUI")
                                  (py "false") st0) in
  get_config_value (py "API") (py "KEY") (Some []) st = (Ok (Some []), st).
Proof.
  intros env st0 st.
  destruct (@C5_never_written env [(py "Settings", py "SHOW_GUI", py "false")]
                              st0 st (py "API") (py "KEY") (Some []) eq_refl)
    as [_ H].
  apply H.
  - constructor; [|constructor]. repeat split; vm_compute; reflexivity.
  - intros s' k' v' [[= <- <- <-]|[]]. left. vm_compute. discriminate.
  - vm_compute. reflexivity.
Defined.

(** C5 as stated fails: after [KEY] has been written, the key [key], which
    was never written, reads as the value of [KEY]. *)
Lemma C5_counterexample : ~ C5_as_stated.
Proof.
  intros H.
  specialize (H (sample_env [] true 0 None) [(py "S", py "KEY", py "v")]
                (sample_state None [])
                (snd (set_config_value (sample_env [] true 0 None) (py "S")
                                       (py "KEY") (py "v") (sample_state None [])))
                (py "S") (py "key") None eq_refl eq_refl).
  assert (Hnotin : ~ In (py "S", py "key")
                        (map fst [(py "S", py "KEY", py "v")])).
  { intros [Heq|[]]. vm_compute in Heq. discriminate. }
  specialize (H Hnotin). vm_compute in H. discriminate.
Qed.

(** * The GUI flag: C10 *)

Lemma read_config_ini (a b : state) :
  config_ini a = config_ini b -> read_config a = read_config b.
Proof. unfold read_config. now intros ->. Qed.

Lemma show_gui_enabled_ini (a b : state) :
  config_ini a = config_ini b -> show_gui_enabled a = show_gui_enabled b.
Proof.
  intros H. unfold show_gui_enabled, get_config_value.
  rewrite (read_config_ini _ _ H), H.
  destruct (config_ini b); [|reflexivity].
  destruct (read_config b); reflexivity.
Qed.

Lemma set_config_value_cases (env : environment) (s k v : str) (st : state) :
  (exists st', set_config_value env s k v st = (Ok true, st')
               /\ trace st' = trace st)
  \/ set_config_value env s k v st
     = (Ok false, with_events st [Print (py "Error writing to config")])
  \/ set_config_value env s k v st = (Raise ValueError, st).
Proof.
  unfold set_config_value.
  destruct (read_config st) as [err|p]; [right; left; reflexivity|].
  destruct (if ConfigParser.has_section p s then ConfigParser.Added p
            else ConfigParser.add_section p s) as [p1| |];
    [|right; right; reflexivity|right; left; reflexivity].
  destruct (ConfigParser.set p1 s k v) as [p2|]; [|right; left; reflexivity].
  destruct (config_writable env); [|right; left; reflexivity].
  left. eexists. split; reflexivity.
Qed.

Lemma gui_success_head (status : str) :
  exists tail, gui_success status = Print ("S"%char :: tail).
Proof. eexists. reflexivity. Qed.

Lemma not_gui_success (status : str) (evs : list event) :
  Forall (fun ev => match ev with
                    | Print ("S"%char :: _) => False
                    | _ => True
                    end) evs ->
  ~ In (gui_success status) evs.
Proof.
  intros Hall Hin. rewrite Forall_forall in Hall. apply Hall in Hin.
  destruct (gui_success_head status) as (tail & Heq). rewrite Heq in Hin.
  exact Hin.
Qed.

(** A successful toggle has stored the opposite of the flag it found. *)
Lemma toggle_gui_stored (env : environment) (st st1 : state) (r : result unit) :
  toggle_gui env st = (r, st1) -> toggle_succeeded st st1 ->
  forall fb,
    get_config_value (py "Settings") (py "SHOW_GUI") fb st1
    = (Ok (Some (flag_text (negb (show_gui_enabled st)))), st1).
Proof.
  intros Hrun (new' & status & Htrace & Hin) fb.
  unfold toggle_gui in Hrun.
  destruct (get_config_value_spec (py "Settings") (py "SHOW_GUI")
                                  (Some (py "true")) st)
    as (cur & new & Hget & Hnew).
  rewrite (bind_ok _ Hget) in Hrun.
  assert (Hquiet : Forall (fun ev => match ev with
                                     | Print ("S"%char :: _) => False
                                     | _ => True
                                     end) new).
  { destruct Hnew as [->| ->]; repeat constructor. }
  destruct cur as [text|].
  - assert (Hflag : show_gui_enabled st = str_eqb (lower text) (py "true")).
    { unfold show_gui_enabled. now rewrite Hget. }
    rewrite <- Hflag in Hrun.
    set (new_setting := if show_gui_enabled st then py "false" else py "true") in *.
    destruct (set_config_value_cases env (py "Settings") (py "SHOW_GUI")
                                     new_setting (with_events st new))
      as [(stb & Hset & Htr)|[Hset|Hset]].
    + rewrite (bind_ok _ Hset) in Hrun.
      cbv beta iota in Hrun.
      rewrite (bind_ok _ (print_eq _ _)) in Hrun.
      destruct (press_enter_spec (with_events stb
                  [Print (py "SUCCESS: GUI pop-up has been "
                          ++ (if show_gui_enabled st then py "DISABLED"
                              else py "ENABLED") ++ py ".")]))
        as (r' & rest & Hpress & _).
      rewrite Hpress in Hrun. injection Hrun as _ <-.
      assert (Hplain : name_ok (py "Settings") = true
                       /\ plain_key (py "SHOW_GUI") = true
                       /\ plain_value new_setting = true).
      { unfold new_setting. destruct (show_gui_enabled st);
          repeat split; vm_compute; reflexivity. }
      destruct Hplain as (Hs & Hk & Hv).
      destruct (@set_config_value_stored env _ _ _ _ _ Hs Hk Hv Hset)
        as (p & _ & Hread & _).
      match goal with
      | |- get_config_value _ _ _ ?s = _ =>
          assert (Hread1 : read_config s = read_config stb)
            by (apply read_config_ini; reflexivity)
      end.
      rewrite Hread in Hread1.
      rewrite (@get_config_value_read _ _ (py "Settings") (py "SHOW_GUI") fb Hread1).
      rewrite get_set_same by reflexivity.
      unfold new_setting, flag_text. now destruct (show_gui_enabled st).
    + exfalso. rewrite (bind_ok _ Hset) in Hrun. cbv beta iota in Hrun.
      rewrite (bind_ok _ (print_eq _ _)) in Hrun.
      rewrite !with_events_app in Hrun.
      match type of Hrun with
      | press_enter ?s = _ => destruct (press_enter_spec s) as (r' & rest & Hpress & _)
      end.
      rewrite Hpress in Hrun. injection Hrun as _ <-.
      cbn [trace with_events] in Htrace. rewrite <- !app_assoc in Htrace.
      apply app_inv_head in Htrace. subst new'.
      revert Hin. apply not_gui_success.
      apply Forall_app. split; [exact Hquiet|]. repeat constructor.
    + exfalso. rewrite (bind_raise _ Hset) in Hrun. injection Hrun as _ <-.
      cbn [trace with_events] in Htrace.
      apply app_inv_head in Htrace. subst new'.
      revert Hin. now apply not_gui_success.
  - exfalso. unfold raise in Hrun. injection Hrun as _ <-.
    cbn [trace with_events] in Htrace.
    apply app_inv_head in Htrace. subst new'.
    revert Hin. now apply not_gui_success.
Qed.

Lemma show_gui_enabled_stored (st : state) (b : bool) :
  (forall fb, get_config_value (py "Settings") (py "SHOW_GUI") fb st
              = (Ok (Some (flag_text b)), st)) ->
  show_gui_enabled st = b.
Proof.
  intros H. unfold show_gui_enabled. rewrite H. cbn [fst].
  destruct b; reflexivity.
Qed.

(** C10: after a successful invocation of [toggle_gui] the stored
    [Settings] [SHOW_GUI] value is exactly ['true'] or ['false'], whatever
    was stored before, and two successive successful invocations restore
    the flag as the program reads it (the stored text, ['true'] when there
    is none, compared in lower case with ['true']). *)
Theorem C10_toggle_gui (env : environment) (st st1 st2 : state)
        (r1 r2 : result unit) :
  toggle_gui env st = (r1, st1) -> toggle_succeeded st st1 ->
  (forall fb,
      get_config_value (py "Settings") (py "SHOW_GUI") fb st1
      = (Ok (Some (py "true")), st1)
      \/ get_config_value (py "Settings") (py "SHOW_GUI") fb st1
         = (Ok (Some (py "false")), st1))
  /\ (toggle_gui env st1 = (r2, st2) -> toggle_succeeded st1 st2 ->
      show_gui_enabled st2 = show_gui_enabled st).
Proof.
  intros Hrun1 Hok1.
  pose proof (@toggle_gui_stored env st st1 r1 Hrun1 Hok1) as Hstored1.
  split.
  - intros fb. rewrite (Hstored1 fb).
    destruct (show_gui_enabled st); [right|left]; reflexivity.
  - intros Hrun2 Hok2.
    pose proof (@toggle_gui_stored env st1 st2 r2 Hrun2 Hok2) as Hstored2.
    rewrite (@show_gui_enabled_stored st2 _ Hstored2).
    rewrite (@show_gui_enabled_stored st1 _ Hstored1).
    apply negb_involutive.
Qed.

Lemma C10_toggle_gui_witness :
  let env := sample_env [] true 0 None in
  let st := sample_state None [py ""; py ""] in
  let st1 := snd (toggle_gui env st) in
  let st2 := snd (toggle_gui env st1) in
  show_gui_enabled st2 = show_gui_enabled st.
Proof.
  intros env st st1 st2.
  destruct (@C10_toggle_gui env st st1 st2 (fst (toggle_gui env st))
                            (fst (toggle_gui env st1))) as [_ H].
  - vm_compute. reflexivity.
  - exists [gui_success (py "DISABLED");
            Input (py "Press Enter to return to the menu...")], (py "DISABLED").
    split; [vm_compute; reflexivity|now left].
  - apply H.
    + vm_compute. reflexivity.
    + exists [gui_success (py "ENABLED");
              Input (py "Press Enter to return to the menu...")], (py "ENABLED").
      split; [vm_compute; reflexivity|now left].
Defined.

(** * The schedule time: C1 *)

(** ** What a match consumes *)

Lemma rep_greedy_consumed {A : Type} (p : ascii -> bool) (k : str -> option A)
      (res : A) :
  forall s, rep_greedy p s k = Some res ->
            exists pre s', s = pre ++ s' /\ forallb p pre = true /\ k s' = Some res.
Proof.
  induction s as [|c s IH]; cbn [rep_greedy]; intros H.
  - now exists [], [].
  - destruct (p c) eqn:Hc.
    + destruct (rep_greedy p s k) as [r|] eqn:Hr.
      * injection H as ->. destruct (IH eq_refl) as (pre & s' & -> & Hpre & Hk).
        exists (c :: pre), s'. cbn. now rewrite Hc, Hpre.
      * now exists [], (c :: s).
    + now exists [], (c :: s).
Qed.

Lemma rep_lazy_consumed {A : Type} (p : ascii -> bool) (k : str -> option A)
      (res : A) :
  forall s, rep_lazy p s k = Some res ->
            exists pre s', s = pre ++ s' /\ forallb p pre = true /\ k s' = Some res.
Proof.
  induction s as [|c s IH]; cbn [rep_lazy]; intros H.
  - destruct (k []) eqn:Hk; [injection H as ->|discriminate]. now exists [], [].
  - destruct (k (c :: s)) as [r|] eqn:Hk.
    + injection H as ->. now exists [], (c :: s).
    + destruct (p c) eqn:Hc; [|discriminate].
      destruct (IH H) as (pre & s' & -> & Hpre & Hk').
      exists (c :: pre), s'. cbn. now rewrite Hc, Hpre.
Qed.

Lemma forallb_weaken (p q : ascii -> bool) (s : str) :
  (forall c, p c = true -> q c = true) -> forallb p s = true -> forallb q s = true.
Proof.
  intros Hpq H. rewrite forallb_forall in *. auto.
Qed.

Lemma exec_consumed (r : regex) :
  forall s caps k res,
    exec r s caps k = Some res ->
    exists pre s' caps',
      s = pre ++ s' /\ forallb (chars_of r) pre = true /\ k s' caps' = Some res.
Proof.
  induction r as [x|p|r1 IH1 r2 IH2|r1 IH1 r2 IH2|greedy p|name r1 IH1|];
    intros s caps k res H; cbn [exec] in H.
  - destruct s as [|c s]; [discriminate|].
    destruct (Ascii.eqb c x) eqn:Hc; [|discriminate].
    exists [c], s, caps. cbn. now rewrite Hc.
  - destruct s as [|c s]; [discriminate|].
    destruct (p c) eqn:Hc; [|discriminate].
    exists [c], s, caps. cbn. now rewrite Hc.
  - apply IH1 in H. destruct H as (pre1 & s1 & caps1 & -> & Hpre1 & H).
    apply IH2 in H. destruct H as (pre2 & s2 & caps2 & -> & Hpre2 & H).
    exists (pre1 ++ pre2), s2, caps2. rewrite <- app_assoc.
    split; [reflexivity|]. split; [|exact H].
    rewrite forallb_app. apply andb_true_intro. split.
    + eapply forallb_weaken; [|exact Hpre1]. cbn. intros c ->. reflexivity.
    + eapply forallb_weaken; [|exact Hpre2]. cbn. intros c ->. apply orb_true_r.
  - destruct (exec r1 s caps k) as [m|] eqn:H1.
    + injection H as ->. apply IH1 in H1.
      destruct H1 as (pre & s' & caps' & -> & Hpre & H1).
      exists pre, s', caps'. split; [reflexivity|]. split; [|exact H1].
      eapply forallb_weaken; [|exact Hpre]. cbn. intros c ->. reflexivity.
    + apply IH2 in H. destruct H as (pre & s' & caps' & -> & Hpre & H).
      exists pre, s', caps'. split; [reflexivity|]. split; [|exact H].
      eapply forallb_weaken; [|exact Hpre]. cbn. intros c ->. apply orb_true_r.
  - destruct greedy.
    + apply rep_greedy_consumed in H. destruct H as (pre & s' & -> & Hpre & H).
      now exists pre, s', caps.
    + apply rep_lazy_consumed in H. destruct H as (pre & s' & -> & Hpre & H).
      now exists pre, s', caps.
  - apply IH1 in H. destruct H as (pre & s' & caps' & -> & Hpre & H).
    eexists pre, s', _. split; [reflexivity|]. split; [exact Hpre|exact H].
  - exists [], s, caps. split; [reflexivity|]. split; [reflexivity|].
    destruct s as [|c [|d s]]; [exact H| |discriminate].
    destruct (Ascii.eqb c LF); [exact H|discriminate].
Qed.

Lemma time_chars (c : ascii) :
  chars_of TIME_RE c = true ->
  negb (Ascii.eqb c LF) && negb (Ascii.eqb c CR) = true.
Proof. destruct c as [[] [] [] [] [] [] [] []]; vm_compute; auto. Qed.

(** A text that [strptime] accepts has no line break. *)
Lemma strptime_one_line (t : str) (hm : nat * nat) :
  strptime_HM t = Some hm -> one_line t = true.
Proof.
  unfold strptime_HM, re_match.
  destruct (exec TIME_RE t [] (fun s' caps => Some (s', caps))) as [[rest found]|] eqn:H;
    [|discriminate].
  destruct rest; [|discriminate]. intros _.
  apply exec_consumed in H. destruct H as (pre & s' & caps' & -> & Hpre & H).
  injection H as -> _. rewrite app_nil_r.
  unfold one_line, no_char.
  rewrite forallb_forall in Hpre.
  apply andb_true_intro. split; apply forallb_forall; intros c Hc;
    apply Hpre, time_chars, andb_prop in Hc; tauto.
Qed.

(** ** What leaves the file as it is *)

Lemma keeps_config_ret {A : Type} (a : A) : keeps_config (ret a).
Proof. intros st. reflexivity. Qed.

Lemma keeps_config_raise {A : Type} (x : exn) : keeps_config (@raise A x).
Proof. intros st. reflexivity. Qed.

Lemma keeps_config_emit (ev : event) : keeps_config (emit ev).
Proof. intros st. reflexivity. Qed.

Lemma keeps_config_print (text : str) : keeps_config (print text).
Proof. intros st. reflexivity. Qed.

Lemma keeps_config_input (prompt : str) : keeps_config (input prompt).
Proof. intros st. unfold input. destruct (stdin st); reflexivity. Qed.

Lemma keeps_config_bind {A B : Type} (m : M A) (f : A -> M B) :
  keeps_config m -> (forall a, keeps_config (f a)) -> keeps_config (bind m f).
Proof.
  intros Hm Hf st. unfold bind. specialize (Hm st).
  destruct (m st) as [[a|x|] st1]; cbn [snd] in *; [|exact Hm|exact Hm].
  now rewrite Hf.
Qed.

Lemma keeps_config_try_except {A : Type} (body : M A) (catches : exn -> bool)
      (handler : exn -> M A) :
  keeps_config body -> (forall x, keeps_config (handler x)) ->
  keeps_config (try_except body catches handler).
Proof.
  intros Hm Hh st. unfold try_except. specialize (Hm st).
  destruct (body st) as [[a|x|] st1]; cbn [snd] in *; [exact Hm| |exact Hm].
  destruct (catches x); [|exact Hm]. now rewrite Hh.
Qed.

Lemma keeps_config_get_config_value (s k : str) (fb : option str) :
  keeps_config (get_config_value s k fb).
Proof.
  intros st. destruct (get_config_value_spec s k fb st) as (v & new & -> & _).
  reflexivity.
Qed.

Lemma keeps_config_press_enter : keeps_config press_enter.
Proof.
  apply keeps_config_bind; [apply keeps_config_input|].
  intros _. apply keeps_config_ret.
Qed.

Lemma keeps_config_schedule_task (env : environment) (pause : bool) :
  keeps_config (schedule_task env pause).
Proof.
  unfold schedule_task.
  assert (Hpause : keeps_config (if pause then press_enter else ret tt))
    by (destruct pause; [apply keeps_config_press_enter|apply keeps_config_ret]).
  destruct (negb _).
  - apply keeps_config_bind; [apply keeps_config_print|auto].
  - apply keeps_config_bind; [apply keeps_config_get_config_value|].
    intros [[|c t]|]; apply keeps_config_bind;
      auto using keeps_config_print, keeps_config_emit.
Qed.

Lemma input_eq (prompt line : str) (rest : list str) (st : state) :
  stdin st = line :: rest ->
  input prompt st
  = (Ok line, mkState (config_ini st) (reports st) rest
                      (trace st ++ [Input prompt]) (calls st)).
Proof. intros H. unfold input. now rewrite H. Qed.

Lemma set_config_value_ok (env : environment) (s k v : str) (st : state)
      (p : ConfigParser.parser str) :
  read_config st = inr p -> name_ok s = true ->
  s <> ConfigParser.default_section -> config_writable env = true ->
  exists st', set_config_value env s k v st = (Ok true, st').
Proof.
  intros Hread Hs Hdef Hw. unfold set_config_value. rewrite Hread, Hw.
  apply str_eqb_neq in Hdef. destruct s as [|c s]; [discriminate|].
  unfold ConfigParser.has_section.
  destruct (ConfigParser.dict_mem (c :: s) (ConfigParser._sections p)) eqn:Hmem.
  - destruct (dict_mem_get _ _ Hmem) as (d & Hget).
    unfold ConfigParser.set. rewrite Hdef, Hget. eexists. reflexivity.
  - unfold ConfigParser.add_section. rewrite Hdef, Hmem.
    unfold ConfigParser.set. rewrite Hdef.
    cbn [ConfigParser._sections]. rewrite dict_get_last by exact Hmem.
    eexists. reflexivity.
Qed.

(** C1, amended: in the settings flow that updates the schedule time, the
    typed line, stripped, is accepted exactly when
    [datetime.strptime(..., '%H:%M')] accepts it.  ["09:25"] is accepted,
    and so is ["9:25"] (one digit is enough for the hour); an accepted time
    is stored under [Scheduler] [TIME_UTC] whenever the config file can be
    read and written.  An input that [strptime] rejects, such as ["25:70"],
    is answered with the message about the format and the config file is
    left unchanged. *)
Theorem C1_schedule_time (env : environment) (st st' : state) (line : str)
        (rest : list str) (r : result unit) :
  stdin st = line :: rest ->
  update_schedule_time env st = (r, st') ->
  (strptime_HM (strip line) = None ->
   config_ini st' = config_ini st
   /\ exists new, trace st' = trace st ++ new /\ In invalid_time new)
  /\ (forall hm p,
         strptime_HM (strip line) = Some hm ->
         read_config st = inr p -> config_writable env = true ->
         forall fb,
           get_config_value (py "Scheduler") (py "TIME_UTC") fb st'
           = (Ok (Some (strip line)), st'))
  /\ strptime_HM (py "09:25") = Some (9, 25)
  /\ strptime_HM (py "9:25") = Some (9, 25)
  /\ strptime_HM (py "25:70") = None.
Proof.
  intros Hstdin Hrun.
  split; [|split; [|repeat split; vm_compute; reflexivity]].
  - intros Hnone. unfold update_schedule_time in Hrun.
    destruct (get_config_value_spec (py "Scheduler") (py "TIME_UTC")
                                    (Some DEFAULT_SCHEDULE_TIME_UTC) st)
      as (cur & new & Hget & _).
    rewrite (bind_ok _ Hget), (bind_ok _ (print_eq _ _)), with_events_app in Hrun.
    match type of Hrun with
    | bind (input ?pr) _ ?s = _ =>
        rewrite (bind_ok _ (@input_eq pr line rest s Hstdin)) in Hrun
    end.
    cbv zeta in Hrun. rewrite Hnone in Hrun.
    rewrite (bind_ok _ (try_except_raise _ eq_refl eq_refl)) in Hrun.
    match type of Hrun with
    | press_enter ?s = _ => destruct (press_enter_spec s) as (r' & rest' & Hpress & _)
    end.
    rewrite Hpress in Hrun. injection Hrun as _ <-. split; [reflexivity|].
    cbn [trace with_events]. rewrite <- !app_assoc. eexists. split; [reflexivity|].
    apply in_or_app. right. cbn. auto 10.
  - intros hm p Hsome Hread Hw fb. unfold update_schedule_time in Hrun.
    destruct (get_config_value_spec (py "Scheduler") (py "TIME_UTC")
                                    (Some DEFAULT_SCHEDULE_TIME_UTC) st)
      as (cur & new & Hget & _).
    rewrite (bind_ok _ Hget), (bind_ok _ (print_eq _ _)), with_events_app in Hrun.
    match type of Hrun with
    | bind (input ?pr) _ ?s = _ =>
        rewrite (bind_ok _ (@input_eq pr line rest s Hstdin)) in Hrun
    end.
    cbv zeta in Hrun. rewrite Hsome in Hrun.
    match type of Hrun with
    | bind (try_except (bind (set_config_value _ _ _ _) ?K) ?c ?h) ?P ?s = _ =>
        set (stc := s) in *; set (tail := K) in *;
        set (catches := c) in *; set (handler := h) in *; set (pause := P) in *
    end.
    assert (Hreadc : read_config stc = inr p)
      by (rewrite <- Hread; apply read_config_ini; reflexivity).
    destruct (@set_config_value_ok env (py "Scheduler") (py "TIME_UTC") (strip line)
                                   stc p Hreadc eq_refl)
      as (stb & Hset); [vm_compute; discriminate|exact Hw|].
    assert (Hv : plain_value (strip line) = true).
    { unfold plain_value, line_ok.
      now rewrite (strptime_one_line _ Hsome), tight_strip. }
    destruct (@set_config_value_stored env (py "Scheduler") (py "TIME_UTC")
                                       (strip line) stc stb eq_refl eq_refl Hv Hset)
      as (p0 & _ & Hreadb & _).
    assert (Hstep : bind (try_except (bind (set_config_value env (py "Scheduler")
                                              (py "TIME_UTC") (strip line)) tail)
                                     catches handler) pause stc
                    = bind (try_except (tail true) catches handler) pause stb).
    { unfold bind at 1. unfold try_except at 1. rewrite (bind_ok _ Hset).
      reflexivity. }
    rewrite Hstep in Hrun.
    assert (Hkeeps : keeps_config (bind (try_except (tail true) catches handler) pause)).
    { apply keeps_config_bind.
      - apply keeps_config_try_except.
        + unfold tail. repeat (apply keeps_config_bind;
                               [apply keeps_config_print|intros _]).
          apply keeps_config_schedule_task.
        + intros x. unfold handler. apply keeps_config_print.
      - intros u. unfold pause. apply keeps_config_press_enter. }
    specialize (Hkeeps stb). rewrite Hrun in Hkeeps. cbn [snd] in Hkeeps.
    assert (Hread' : read_config st' = read_config stb)
      by (now apply read_config_ini).
    rewrite Hreadb in Hread'.
    rewrite (@get_config_value_read st' _ (py "Scheduler") (py "TIME_UTC") fb Hread').
    now rewrite get_set_same.
Qed.

Lemma C1_schedule_time_witness :
  let env := sample_env [] true 0 None in
  let st := sample_state None [py "25:70"; py ""] in
  config_ini (snd (update_schedule_time env st)) = config_ini st.
Proof.
  intros env st.
  destruct (@C1_schedule_time env st (snd (update_schedule_time env st))
                              (py "25:70") [py ""]
                              (fst (update_schedule_time env st)))
    as (H & _).
  - reflexivity.
  - vm_compute. reflexivity.
  - apply H. vm_compute. reflexivity.
Defined.

(** C1 as stated fails: the input ["9:25"] is accepted and stored. *)
Lemma C1_counterexample : ~ C1_as_stated.
Proof.
  intros H.
  specialize (H (sample_env [] true 0 None)
                (sample_state None [py "9:25"; py ""])
                (py "9:25") [py ""] eq_refl (or_introl eq_refl)).
  vm_compute in H. discriminate.
Qed.

(** * More on the config store *)

(** ** A file that cannot be parsed *)

Lemma unreadable_get (st : state) (err : ConfigParser.Error) (s k : str)
      (fb : option str) :
  read_config st = inl err ->
  get_config_value s k fb st = (Ok fb, with_events st [read_error]).
Proof.
  intros Hread. unfold get_config_value.
  destruct (config_ini st) as [text|] eqn:Hini.
  - now rewrite Hread.
  - unfold read_config in Hread. rewrite Hini in Hread. discriminate.
Qed.

Lemma unreadable_set (env : environment) (st : state) (err : ConfigParser.Error)
      (s k v : str) :
  read_config st = inl err ->
  set_config_value env s k v st = (Ok false, with_events st [write_error]).
Proof. intros Hread. unfold set_config_value. now rewrite Hread. Qed.

(** When [config.ini] cannot be parsed, [get_config_value] reports the
    error and returns the fallback, [set_config_value] reports the error
    and returns [False], and neither touches the file. *)
Theorem unparseable_config (env : environment) (st : state)
        (err : ConfigParser.Error) :
  read_config st = inl err ->
  (forall s k fb,
      exists st', get_config_value s k fb st = (Ok fb, st')
                  /\ config_ini st' = config_ini st
                  /\ trace st' = trace st ++ [read_error])
  /\ (forall s k v,
         exists st', set_config_value env s k v st = (Ok false, st')
                     /\ config_ini st' = config_ini st
                     /\ trace st' = trace st ++ [write_error]).
Proof.
  intros Hread. split.
  - intros s k fb. rewrite (@unreadable_get st err s k fb Hread).
    eexists. split; [reflexivity|]. split; reflexivity.
  - intros s k v. rewrite (@unreadable_set env st err s k v Hread).
    eexists. split; [reflexivity|]. split; reflexivity.
Qed.

Lemma unparseable_config_witness :
  let env := sample_env [] true 0 None in
  let st := sample_state (Some (py "key = value" ++ [LF])) [] in
  exists st', set_config_value env (py "API") (py "KEY") (py "abc") st
              = (Ok false, st')
              /\ config_ini st' = config_ini st
              /\ trace st' = trace st ++ [write_error].
Proof.
  intros env st.
  destruct (@unparseable_config env st ConfigParser.MissingSectionHeaderError)
    as (_ & H).
  - vm_compute. reflexivity.
  - apply H.
Defined.

(** ** The section name [DEFAULT] *)

Lemma well_formed_no_default (p : ConfigParser.parser str) :
  well_formed p -> ConfigParser.has_section p ConfigParser.default_section = false.
Proof.
  intros Hp. unfold ConfigParser.has_section.
  destruct (ConfigParser.dict_mem ConfigParser.default_section
              (ConfigParser._sections p)) eqn:Hmem; [|reflexivity].
  destruct (dict_mem_get _ _ Hmem) as (d & Hget).
  destruct (well_formed_names _ Hp Hget) as [_ Hneq]. congruence.
Qed.

(** [set_config_value] with the section name [DEFAULT] raises [ValueError]
    (from [add_section], and no handler of the function catches it)
    whenever the file can be parsed or does not exist; nothing is
    written. *)
Theorem set_default_section_raises (env : environment) (st : state)
        (p : ConfigParser.parser str) (k v : str) :
  read_config st = inr p ->
  set_config_value env ConfigParser.default_section k v st = (Raise ValueError, st).
Proof.
  intros Hread. unfold set_config_value. rewrite Hread.
  rewrite (@well_formed_no_default p (@read_config_well_formed st p Hread)).
  unfold ConfigParser.add_section. now rewrite str_eqb_refl.
Qed.

Lemma set_default_section_raises_witness :
  let env := sample_env [] true 0 None in
  set_config_value env (py "DEFAULT") (py "k") (py "v") configured_state
  = (Raise ValueError, configured_state).
Proof.
  intros env.
  apply (@set_default_section_raises env configured_state
           (match read_config configured_state with
            | inr p => p
            | inl _ => ConfigParser.empty str
            end)).
  vm_compute. reflexivity.
Defined.

(** ** The empty section name *)

Lemma read_lines_app (a b : list str) :
  forall st,
    ConfigParser.read_lines st (a ++ b)
    = match ConfigParser.read_lines st a with
      | inl err => inl err
      | inr st' => ConfigParser.read_lines st' b
      end.
Proof.
  induction a as [|line a IH]; intros st; [reflexivity|].
  cbn [app ConfigParser.read_lines].
  destruct (ConfigParser.read_line st line); [reflexivity|apply IH].
Qed.

Lemma cursect_append_e (st : ConfigParser.rstate) (o v : str) :
  ConfigParser.e (ConfigParser.cursect_append st o v) = ConfigParser.e st.
Proof.
  unfold ConfigParser.cursect_append.
  now destruct (ConfigParser.cursect_get st o).
Qed.

(** A parsing error, once noted, stays. *)
Lemma read_line_e (st st' : ConfigParser.rstate) (line : str) :
  ConfigParser.read_line st line = inr st' ->
  ConfigParser.e st = true -> ConfigParser.e st' = true.
Proof.
  intros Hread He.
  assert (Hho : forall ci v, ConfigParser.read_header_or_option st ci v = inr st' ->
                             ConfigParser.e st' = true).
  { intros ci v. unfold ConfigParser.read_header_or_option.
    destruct (re_match ConfigParser.SECTCRE v) as [[r mo]|].
    - cbn zeta. destruct (ConfigParser.dict_mem _ _).
      + destruct (existsb _ _); [discriminate|]. now intros [= <-].
      + destruct (str_eqb _ _); now intros [= <-].
    - destruct (ConfigParser.cursect st); [discriminate| |];
        (destruct (re_match ConfigParser.OPTCRE v) as [[r mo]|];
         [cbn zeta; destruct (existsb _ _); [discriminate|];
          intros [= <-]; cbn; now destruct (group "option" mo)
         |now intros [= <-]]). }
  unfold ConfigParser.read_line in Hread.
  destruct (if existsb _ _ then [] else strip line) as [|c v].
  - destruct (ConfigParser.optname_true st).
    + destruct (existsb _ _); injection Hread as <-; [exact He|].
      now rewrite cursect_append_e.
    + now injection Hread as <-.
  - destruct (ConfigParser.optname_true st).
    + destruct (_ <? _).
      * injection Hread as <-. now rewrite cursect_append_e.
      * now apply Hho in Hread.
    + now apply Hho in Hread.
Qed.

Lemma read_lines_e (lines : list str) :
  forall st st', ConfigParser.read_lines st lines = inr st' ->
                 ConfigParser.e st = true -> ConfigParser.e st' = true.
Proof.
  induction lines as [|line lines IH]; intros st st'; cbn [ConfigParser.read_lines].
  - now intros [= <-].
  - destruct (ConfigParser.read_line st line) as [err|st1] eqn:Hline; [discriminate|].
    intros Hrest He. apply (IH _ _ Hrest). now apply read_line_e with st line.
Qed.

(** The line of an empty section name is no header and no option. *)
Lemma read_line_empty_header (st : ConfigParser.rstate) :
  match ConfigParser.read_line st (py "[]" ++ [LF]) with
  | inl _ => True
  | inr st' => ConfigParser.e st' = true
  end.
Proof.
  rewrite (@read_line_value st (py "[]" ++ [LF]) "["%char ["]"%char])
    by reflexivity.
  change (search_start ConfigParser.nonspace (py "[]" ++ [LF])) with (Some 0).
  cbn zeta.
  assert (Hho : match ConfigParser.read_header_or_option st 0 (py "[]") with
                | inl _ => True
                | inr st' => ConfigParser.e st' = true
                end).
  { unfold ConfigParser.read_header_or_option.
    change (re_match ConfigParser.SECTCRE (py "[]")) with (@None (str * captures)).
    change (re_match ConfigParser.OPTCRE (py "[]")) with (@None (str * captures)).
    destruct (ConfigParser.cursect st); [exact I|reflexivity|reflexivity]. }
  destruct (ConfigParser.optname_true st); exact Hho.
Qed.

Lemma read_with_empty_header (before after : list str) :
  exists err,
    match ConfigParser.read_lines ConfigParser.initial
            (before ++ (py "[]" ++ [LF]) :: after) with
    | inl err => inl err
    | inr st =>
        if ConfigParser.e st then inl ConfigParser.ParsingError
        else inr (ConfigParser._join_multiline_values (ConfigParser.self st))
    end = inl err.
Proof.
  rewrite read_lines_app.
  destruct (ConfigParser.read_lines ConfigParser.initial before) as [err|st1];
    [now exists err|].
  cbn [ConfigParser.read_lines].
  pose proof (read_line_empty_header st1) as Hline.
  destruct (ConfigParser.read_line st1 (py "[]" ++ [LF])) as [err|st2];
    [now exists err|].
  destruct (ConfigParser.read_lines st2 after) as [err|st3] eqn:Hafter;
    [now exists err|].
  rewrite (read_lines_e _ _ Hafter Hline). now eexists.
Qed.

Lemma universal_newlines_app_aux (n : nat) :
  forall x y, List.length x <= n ->
              universal_newlines (x ++ LF :: y)
              = universal_newlines (x ++ [LF]) ++ universal_newlines y.
Proof.
  induction n as [|n IH]; intros x y Hn.
  - destruct x; [reflexivity | cbn in Hn; lia].
  - destruct x as [|c x]; [reflexivity|]. cbn in Hn.
    cbn [app universal_newlines]. destruct (Ascii.eqb c CR).
    + destruct x as [|d x]; [reflexivity|]. cbn [app].
      destruct (Ascii.eqb d LF); cbn [app]; f_equal.
      * apply IH. cbn in Hn. lia.
      * apply (IH (d :: x)). cbn in *. lia.
    + cbn [app]. f_equal. apply IH. lia.
Qed.

Lemma universal_newlines_app (x y : str) :
  universal_newlines (x ++ LF :: y)
  = universal_newlines (x ++ [LF]) ++ universal_newlines y.
Proof. now apply universal_newlines_app_aux with (List.length x). Qed.

Lemma universal_newlines_ends_aux (n : nat) :
  forall x, List.length x <= n ->
            exists z, universal_newlines (x ++ [LF]) = z ++ [LF].
Proof.
  induction n as [|n IH]; intros x Hn.
  - destruct x; [now exists [] | cbn in Hn; lia].
  - destruct x as [|c x]; [now exists []|]. cbn in Hn.
    cbn [app universal_newlines]. destruct (Ascii.eqb c CR).
    + destruct x as [|d x]; [now exists []|]. cbn [app].
      destruct (Ascii.eqb d LF).
      * destruct (IH x) as (z & ->); [cbn in Hn; lia|]. now exists (LF :: z).
      * destruct (IH (d :: x)) as (z & Hz); [cbn in *; lia|].
        cbn [app] in Hz. rewrite Hz. now exists (LF :: z).
    + destruct (IH x) as (z & ->); [lia|]. now exists (c :: z).
Qed.

Lemma readlines_app (z w : str) :
  readlines (z ++ LF :: w) = readlines (z ++ [LF]) ++ readlines w.
Proof.
  induction z as [|c z IH]; [reflexivity|].
  cbn [app readlines]. destruct (Ascii.eqb c LF).
  - cbn [app]. now rewrite IH.
  - rewrite IH. destruct (readlines (z ++ [LF])) as [|l ls] eqn:Hz; [|reflexivity].
    exfalso. clear -Hz. induction z as [|d z IHz]; [discriminate|].
    cbn [app readlines] in Hz. destruct (Ascii.eqb d LF); [discriminate|].
    destruct (readlines (z ++ [LF])); discriminate.
Qed.

(** A file with the line of an empty section name cannot be read. *)
Lemma empty_header_unreadable (x y : str) :
  (x = [] \/ exists x', x = x' ++ [LF]) ->
  exists err,
    ConfigParser._read (universal_newlines (x ++ py "[]" ++ LF :: y)) = inl err.
Proof.
  intros Hx. unfold ConfigParser._read.
  assert (Hlines : exists before after,
             readlines (universal_newlines (x ++ py "[]" ++ LF :: y))
             = before ++ (py "[]" ++ [LF]) :: after).
  { destruct Hx as [->|(x' & ->)].
    - exists [], (readlines (universal_newlines y)).
      change ([] ++ py "[]" ++ LF :: y) with (py "[]" ++ LF :: y).
      rewrite universal_newlines_app.
      change (universal_newlines (py "[]" ++ [LF])) with (py "[]" ++ [LF]).
      rewrite <- app_assoc. cbn [app].
      rewrite (readlines_line (py "[]")) by reflexivity. reflexivity.
    - rewrite <- app_assoc. cbn [app].
      rewrite universal_newlines_app.
      destruct (@universal_newlines_ends_aux (List.length x') x' (le_n _))
        as (z & ->).
      exists (readlines (z ++ [LF])), (readlines (universal_newlines y)).
      change (py "[]" ++ LF :: y) with ((py "[]" ++ []) ++ LF :: y).
      rewrite universal_newlines_app.
      change (universal_newlines ((py "[]" ++ []) ++ [LF])) with (py "[]" ++ [LF]).
      rewrite <- app_assoc. cbn [app]. rewrite readlines_app. reflexivity. }
  destruct Hlines as (before & after & ->).
  apply read_with_empty_header.
Qed.

Lemma write_section_ends (name : str) (items : ConfigParser.dict str) :
  exists b, ConfigParser._write_section name items = b ++ [LF].
Proof.
  unfold ConfigParser._write_section. eexists.
  rewrite !app_assoc. reflexivity.
Qed.

Lemma concat_ends (ts : list str) :
  Forall (fun t => exists b, t = b ++ [LF]) ts ->
  List.concat ts = [] \/ exists x, List.concat ts = x ++ [LF].
Proof.
  induction 1 as [|t ts (b & ->) _ IH]; [now left|]. right.
  cbn [List.concat]. destruct IH as [->|(x & ->)].
  - exists b. now rewrite app_nil_r.
  - exists ((b ++ [LF]) ++ x). now rewrite app_assoc.
Qed.

Lemma well_formed_no_empty_name (p : ConfigParser.parser str) :
  well_formed p -> ConfigParser.has_section p [] = false.
Proof.
  intros Hp. unfold ConfigParser.has_section.
  destruct (ConfigParser.dict_mem [] (ConfigParser._sections p)) eqn:Hmem;
    [|reflexivity].
  destruct (dict_mem_get _ _ Hmem) as (d & Hget).
  destruct (well_formed_names _ Hp Hget) as [Hname _]. discriminate.
Qed.

Lemma empty_section_unreadable (env : environment) (k v : str) (st st' : state) :
  set_config_value env [] k v st = (Ok true, st') ->
  exists err, read_config st' = inl err.
Proof.
  intros Hset.
  destruct (@set_config_value_true env [] k v st st' Hset)
    as (p & p2 & Hread & Hup & ->).
  pose proof (@read_config_well_formed st p Hread) as Hp.
  assert (Hmem : ConfigParser.dict_mem [] (ConfigParser._sections p) = false)
    by exact (well_formed_no_empty_name Hp).
  unfold updated, ConfigParser.has_section in Hup. rewrite Hmem in Hup.
  unfold ConfigParser.add_section in Hup.
  change (str_eqb [] ConfigParser.default_section) with false in Hup.
  rewrite Hmem in Hup.
  cbn [ConfigParser.set ConfigParser._sections ConfigParser._defaults] in Hup.
  injection Hup as <-.
  unfold read_config. cbn [config_ini]. unfold ConfigParser.write.
  cbn [ConfigParser._sections ConfigParser._defaults].
  rewrite map_app, concat_app. cbn [map List.concat fst snd].
  change (ConfigParser._write_section [] [] ++ [])
    with (py "[]" ++ LF :: [LF]).
  rewrite app_assoc. apply empty_header_unreadable. right.
  assert (Hd : exists b,
             match ConfigParser.dict_set (ConfigParser.optionxform k) v
                     (ConfigParser._defaults p) with
             | [] => []
             | _ :: _ =>
                 ConfigParser._write_section ConfigParser.default_section
                   (ConfigParser.dict_set (ConfigParser.optionxform k) v
                      (ConfigParser._defaults p))
             end = b ++ [LF]).
  { destruct (ConfigParser.dict_set (ConfigParser.optionxform k) v
                (ConfigParser._defaults p)) as [|kv d] eqn:Hd.
    - destruct (ConfigParser._defaults p) as [|[a b] d']; cbn in Hd;
        [discriminate|]. destruct (str_eqb a _); discriminate.
    - apply write_section_ends. }
  destruct Hd as (b & ->).
  destruct (@concat_ends
              (map (fun sd => ConfigParser._write_section (fst sd) (snd sd))
                   (ConfigParser._sections p))) as [->|(x & ->)].
  - apply Forall_forall. intros t Ht. apply in_map_iff in Ht.
    destruct Ht as (sd & <- & _). apply write_section_ends.
  - exists b. now rewrite app_nil_r.
  - exists ((b ++ [LF]) ++ x). now rewrite app_assoc.
Qed.

(** [set_config_value] with an empty section name returns [True], but the
    file it has written (the option under [DEFAULT] and a header line
    without a name) cannot be parsed any more: afterwards every
    [get_config_value] reports an error and returns its fallback, and
    every [set_config_value] returns [False] and leaves the file as it
    is. *)
Theorem empty_section_breaks_config (env : environment) (k v : str)
        (st st' : state) :
  set_config_value env [] k v st = (Ok true, st') ->
  (forall s' k' fb,
      exists st2, get_config_value s' k' fb st' = (Ok fb, st2)
                  /\ config_ini st2 = config_ini st'
                  /\ trace st2 = trace st' ++ [read_error])
  /\ (forall s' k' v',
         exists st2, set_config_value env s' k' v' st' = (Ok false, st2)
                     /\ config_ini st2 = config_ini st'
                     /\ trace st2 = trace st' ++ [write_error]).
Proof.
  intros Hset. destruct (empty_section_unreadable _ _ _ _ Hset) as (err & Hread).
  split.
  - intros s' k' fb. rewrite (@unreadable_get st' err s' k' fb Hread).
    eexists. split; [reflexivity|]. split; reflexivity.
  - intros s' k' v'. rewrite (@unreadable_set env st' err s' k' v' Hread).
    eexists. split; [reflexivity|]. split; reflexivity.
Qed.

Lemma empty_section_breaks_config_witness :
  let env := sample_env [] true 0 None in
  let st' := snd (set_config_value env [] (py "k") (py "v") (sample_state None [])) in
  exists st2, get_config_value (py "API") (py "KEY") (Some (py "fb")) st'
              = (Ok (Some (py "fb")), st2)
              /\ config_ini st2 = config_ini st'
              /\ trace st2 = trace st' ++ [read_error].
Proof.
  intros env st'.
  destruct (@empty_section_breaks_config env (py "k") (py "v")
                                         (sample_state None []) st') as [H _].
  - vm_compute. reflexivity.
  - apply H.
Defined.


(** ** Values of several lines, keys in any case *)

Lemma value_lines_inv (ls : list str) :
  value_lines ls = true ->
  Forall (fun l => line_ok l = true) ls
  /\ forallb continuation_ok (tl ls) = true /\ trimmed ls = true.
Proof.
  unfold value_lines. intros H.
  apply andb_prop in H. destruct H as [H Htr].
  apply andb_prop in H. destruct H as [Hall Hcont].
  repeat split; auto. apply Forall_forall. now apply forallb_forall.
Qed.

Lemma value_lines_ok (k : str) (ls : list str) :
  plain_key k = true -> value_lines ls = true ->
  lines_ok (lower k) ls = true.
Proof.
  intros Hk Hls. destruct (value_lines_inv _ Hls) as (Hall & Hcont & _).
  unfold lines_ok. rewrite Hcont.
  assert (Hhd : line_ok (hd [] ls) = true).
  { destruct ls as [|l ls]; [reflexivity|]. now inversion Hall. }
  rewrite Hhd. cbn [andb]. apply negb_true_iff.
  destruct k as [|c k]; [discriminate|].
  unfold plain_key in Hk. apply andb_prop in Hk. destruct Hk as [Hk _].
  apply andb_prop in Hk. destruct Hk as [Hk _].
  apply andb_prop in Hk. destruct Hk as [Hk _].
  apply andb_prop in Hk. destruct Hk as [Hk _].
  apply negb_true_iff in Hk.
  change (py " = " ++ hd [] ls)
    with (" "%char :: "="%char :: " "%char :: hd [] ls).
  rewrite header_like_split by (discriminate || reflexivity).
  change (lower (c :: k)) with (lower_char c :: lower k).
  cbv beta iota. now rewrite lower_char_open, Hk.
Qed.

Lemma set_lines_well_formed (p : ConfigParser.parser str) (s k : str)
      (ls : list str) :
  well_formed p -> name_ok s = true -> s <> ConfigParser.default_section ->
  plain_key k = true -> value_lines ls = true ->
  well_formed
    (ConfigParser.mkParser
       (ConfigParser.dict_set s
          (ConfigParser.dict_set (lower k) (join_nl ls) (section_items p s))
          (ConfigParser._sections p))
       (ConfigParser._defaults p)).
Proof.
  intros (raw & (Hnd & Hsecs & Hdef) & (Htrs & Htrd) & ->) Hs Hdflt Hk Hv.
  pose proof (plain_key_lower _ Hk) as Hkey.
  pose proof (value_lines_ok _ _ Hk Hv) as Hlines.
  destruct (value_lines_inv _ Hv) as (Hall & _ & Htrim).
  set (items := section_items raw s).
  assert (Hitems : options_ok items
                   /\ Forall (fun kv => trimmed (snd kv) = true) items).
  { unfold items, section_items.
    destruct (ConfigParser.dict_get s (ConfigParser._sections raw)) as [d|] eqn:Hget.
    - apply dict_get_In in Hget. rewrite Forall_forall in Hsecs, Htrs.
      destruct (Hsecs _ Hget) as (_ & _ & Hd). split; [exact Hd|].
      exact (Htrs _ Hget).
    - split; [split|]; constructor. }
  destruct Hitems as [Hitems Htrimmed].
  exists (ConfigParser.mkParser
            (ConfigParser.dict_set s
               (ConfigParser.dict_set (lower k) ls items)
               (ConfigParser._sections raw))
            (ConfigParser._defaults raw)).
  split; [split; [|split]|split; [split|]];
    cbn [ConfigParser._sections ConfigParser._defaults]; auto.
  - now apply NoDup_dict_set.
  - apply Forall_dict_set; auto. cbn [fst snd]. split; [|split]; auto.
    now apply options_ok_set.
  - apply Forall_dict_set; auto. cbn [snd].
    apply Forall_dict_set; auto.
  - unfold ConfigParser._join_multiline_values.
    cbn [ConfigParser._sections ConfigParser._defaults]. f_equal.
    assert (Hsi : section_items
                    (ConfigParser.mkParser
                       (map (fun sd => (fst sd, ConfigParser.join_options (snd sd)))
                            (ConfigParser._sections raw))
                       (ConfigParser.join_options (ConfigParser._defaults raw))) s
                  = ConfigParser.join_options items).
    { unfold items, section_items. cbn [ConfigParser._sections].
      rewrite (dict_get_map (@ConfigParser.join_options)).
      now destruct (ConfigParser.dict_get s (ConfigParser._sections raw)). }
    rewrite Hsi.
    rewrite <- (dict_set_map (@ConfigParser.join_options)). f_equal.
    unfold ConfigParser.join_options at 2.
    rewrite <- (dict_set_map ConfigParser.join_value).
    now rewrite join_value_trimmed.
Qed.

Lemma set_config_value_stored_lines (env : environment) (s k : str)
      (ls : list str) (st st' : state) :
  name_ok s = true -> plain_key k = true -> value_lines ls = true ->
  set_config_value env s k (join_nl ls) st = (Ok true, st') ->
  exists p,
    read_config st = inr p
    /\ read_config st'
       = inr (ConfigParser.mkParser
                (ConfigParser.dict_set s
                   (ConfigParser.dict_set (lower k) (join_nl ls) (section_items p s))
                   (ConfigParser._sections p))
                (ConfigParser._defaults p))
    /\ st' = mkState (config_ini st') (reports st) (stdin st) (trace st) (calls st).
Proof.
  intros Hs Hk Hv Hset.
  destruct (@set_config_value_true env s k (join_nl ls) st st' Hset)
    as (p & p2 & Hread & Hup & ->).
  pose proof (@read_config_well_formed st p Hread) as Hp.
  destruct (@updated_spec p p2 s k (join_nl ls) Hp Hs Hup) as [Hdef ->].
  exists p. split; [exact Hread|]. split; [|reflexivity].
  unfold read_config. cbn [config_ini].
  apply read_write. now apply set_lines_well_formed.
Qed.

(** What [set_config_value] has stored is read back under the same key
    in any case of its letters, also when the value has several lines:
    for a section name that is not empty and has no line break, a plain
    key, and a value whose lines have no white space at their ends, whose
    lines after the first do not start with [#] or [;] and whose last line
    is not empty, a successful [set_config_value section key value] makes
    [get_config_value section key' fb] return exactly the value, for every
    [key'] equal to [key] up to the case of the letters. *)
Theorem set_then_get_lines (env : environment) (section key key' : str)
        (ls : list str) (st st' : state) (fb : option str) :
  name_ok section = true -> plain_key key = true -> value_lines ls = true ->
  lower key' = lower key ->
  set_config_value env section key (join_nl ls) st = (Ok true, st') ->
  get_config_value section key' fb st' = (Ok (Some (join_nl ls)), st').
Proof.
  intros Hs Hk Hv Hcase Hset.
  destruct (@set_config_value_stored_lines env section key ls st st' Hs Hk Hv Hset)
    as (p & _ & Hread & _).
  rewrite (@get_config_value_read st' _ section key' fb Hread).
  now rewrite get_set_same.
Qed.

Lemma set_then_get_lines_witness :
  let env := sample_env [] true 0 None in
  let ls := [py "List 10 stocks for {today_date}."; []; py "Rank them: by buzz."] in
  let st' := snd (set_config_value env (py "Prompt") (py "TEMPLATE") (join_nl ls)
                                   (sample_state None [])) in
  get_config_value (py "Prompt") (py "template") None st'
  = (Ok (Some (join_nl ls)), st').
Proof.
  intros env ls st'.
  apply (@set_then_get_lines env (py "Prompt") (py "TEMPLATE") (py "template") ls
                             (sample_state None []) st' None);
    vm_compute; reflexivity.
Defined.

(** ** Setting the same value again *)

Lemma dict_set_idem {V : Type} (k : str) (v : V) (d : ConfigParser.dict V) :
  ConfigParser.dict_set k v (ConfigParser.dict_set k v d)
  = ConfigParser.dict_set k v d.
Proof.
  induction d as [|[a b] d IH]; cbn.
  - now rewrite str_eqb_refl.
  - destruct (str_eqb a k) eqn:Ha; cbn; rewrite Ha; [reflexivity|now rewrite IH].
Qed.

(** A successful [set_config_value] with plain arguments, repeated at
    once with the same arguments, succeeds again and changes nothing: the
    file has the same text as after the first call. *)
Theorem set_twice_same (env : environment) (section key v : str)
        (st st1 : state) :
  name_ok section = true -> plain_key key = true -> plain_value v = true ->
  set_config_value env section key v st = (Ok true, st1) ->
  set_config_value env section key v st1 = (Ok true, st1).
Proof.
  intros Hs Hk Hv Hset.
  destruct (@set_config_value_stored env section key v st st1 Hs Hk Hv Hset)
    as (p & Hread & Hread1 & _).
  destruct (@set_config_value_true env section key v st st1 Hset)
    as (p0 & p2 & Hread0 & Hup & Hst1).
  rewrite Hread in Hread0. injection Hread0 as <-.
  destruct (@updated_spec p p2 section key v (@read_config_well_formed st p Hread)
                          Hs Hup) as [Hdef Hp2].
  assert (Hw : config_writable env = true).
  { unfold set_config_value in Hset. rewrite Hread in Hset.
    unfold updated in Hup.
    destruct (if ConfigParser.has_section p section then ConfigParser.Added p
              else ConfigParser.add_section p section); try discriminate.
    rewrite Hup in Hset. destruct (config_writable env); [reflexivity|discriminate]. }
  rewrite <- Hp2 in Hread1.
  assert (Hup2 : updated p2 section key v = Some p2).
  { unfold updated, ConfigParser.has_section, ConfigParser.dict_mem.
    rewrite Hp2 at 1 2. cbn [ConfigParser._sections].
    rewrite dict_get_set_same.
    unfold ConfigParser.set. destruct section as [|c s]; [discriminate|].
    apply str_eqb_neq in Hdef. rewrite Hdef.
    rewrite Hp2 at 1. cbn [ConfigParser._sections]. rewrite dict_get_set_same.
    rewrite Hp2. cbn [ConfigParser._sections ConfigParser._defaults].
    now rewrite !dict_set_idem. }
  unfold set_config_value. rewrite Hread1.
  unfold updated in Hup2.
  destruct (if ConfigParser.has_section p2 section then ConfigParser.Added p2
            else ConfigParser.add_section p2 section); try discriminate.
  rewrite Hup2, Hw. rewrite Hst1. reflexivity.
Qed.

Lemma set_twice_same_witness :
  let env := sample_env [] true 0 None in
  let st1 := snd (set_config_value env (py "API") (py "MODEL") (py "gemini-2.5-flash")
                                   configured_state) in
  set_config_value env (py "API") (py "MODEL") (py "gemini-2.5-flash") st1
  = (Ok true, st1).
Proof.
  intros env st1.
  apply (@set_twice_same env (py "API") (py "MODEL") (py "gemini-2.5-flash")
                         configured_state st1);
    vm_compute; reflexivity.
Defined.


(** * The settings functions *)

Lemma press_enter_result (st : state) (r : result unit) (st' : state) :
  press_enter st = (r, st') ->
  config_ini st' = config_ini st /\ reports st' = reports st
  /\ calls st' = calls st /\ trace st' = trace st ++ [press_enter_prompt].
Proof.
  destruct (press_enter_spec st) as (r' & rest & -> & _).
  intros [= _ <-]. repeat split; reflexivity.
Qed.

(** [update_api_key]: a line that is blank once stripped changes nothing
    and is answered with the message that the key cannot be empty; any
    other line (without a line break in it) is stored, stripped, under
    [API] [KEY] whenever the config file can be read and written. *)
Theorem update_api_key_stores (env : environment) (st st' : state) (line : str) (rest : list str)
        (r : result unit) :
  stdin st = line :: rest ->
  update_api_key env st = (r, st') ->
  (strip line = [] ->
   config_ini st' = config_ini st
   /\ trace st'
      = trace st ++ [Input (py "Please enter your new Google GenAI API key: ");
                     Print (py "API key cannot be empty. No changes made.");
                     press_enter_prompt])
  /\ (forall p,
         strip line <> [] -> one_line line = true ->
         read_config st = inr p -> config_writable env = true ->
         forall fb,
           get_config_value (py "API") (py "KEY") fb st'
           = (Ok (Some (strip line)), st')).
Proof.
  intros Hstdin Hrun. unfold update_api_key in Hrun.
  rewrite (bind_ok _ (@input_eq _ line rest st Hstdin)) in Hrun.
  cbv zeta in Hrun. split.
  - intros Hblank. rewrite Hblank in Hrun.
    rewrite (bind_ok _ (print_eq _ _)) in Hrun.
    apply press_enter_result in Hrun. destruct Hrun as (Hc & _ & _ & Ht).
    split; [exact Hc|]. rewrite Ht. cbn [trace with_events].
    now rewrite <- !app_assoc.
  - intros p Hne Hol Hread Hw fb.
    destruct (strip line) as [|c t] eqn:Hs; [congruence|].
    match type of Hrun with
    | bind (bind (set_config_value _ _ _ _) ?K) ?P ?s = _ =>
        set (stc := s) in *; set (tail := K) in *; set (pause := P) in *
    end.
    assert (Hreadc : read_config stc = inr p)
      by (rewrite <- Hread; apply read_config_ini; reflexivity).
    destruct (@set_config_value_ok env (py "API") (py "KEY") (c :: t)
                                   stc p Hreadc eq_refl)
      as (stb & Hset); [vm_compute; discriminate|exact Hw|].
    assert (Hv : plain_value (c :: t) = true).
    { unfold plain_value, line_ok. rewrite <- Hs.
      now rewrite (strip_one_line _ Hol), tight_strip. }
    destruct (@set_config_value_stored env (py "API") (py "KEY") (c :: t)
                                       stc stb eq_refl eq_refl Hv Hset)
      as (p0 & _ & Hreadb & _).
    assert (Hstep : bind (bind (set_config_value env (py "API") (py "KEY") (c :: t))
                               tail) pause stc
                    = bind (tail true) pause stb).
    { unfold bind at 1. rewrite (bind_ok _ Hset). reflexivity. }
    rewrite Hstep in Hrun.
    assert (Hkeeps : keeps_config (bind (tail true) pause)).
    { apply keeps_config_bind; [apply keeps_config_print|].
      intros u. apply keeps_config_press_enter. }
    specialize (Hkeeps stb). rewrite Hrun in Hkeeps. cbn [snd] in Hkeeps.
    assert (Hread' : read_config st' = read_config stb)
      by (now apply read_config_ini).
    rewrite Hreadb in Hread'.
    rewrite (@get_config_value_read st' _ (py "API") (py "KEY") fb Hread').
    now rewrite get_set_same.
Qed.


Lemma update_api_key_stores_witness :
  let env := sample_env [] true 0 None in
  let st := sample_state None [py "  AIzaSy-example  "; py ""] in
  let st' := snd (update_api_key env st) in
  get_config_value (py "API") (py "KEY") None st'
  = (Ok (Some (py "AIzaSy-example")), st').
Proof.
  intros env st st'.
  destruct (@update_api_key_stores env st st' (py "  AIzaSy-example  ") [py ""]
                                   (fst (update_api_key env st)))
    as [_ H].
  - reflexivity.
  - vm_compute. reflexivity.
  - apply (H (ConfigParser.empty str)); try (vm_compute; reflexivity).
    vm_compute. discriminate.
Defined.

(** [update_model]: the same for the model name under [API] [MODEL]; a
    blank line keeps the model that was configured. *)
Theorem update_model_stores (env : environment) (st st' : state) (line : str) (rest : list str)
        (r : result unit) :
  stdin st = line :: rest ->
  update_model env st = (r, st') ->
  (strip line = [] ->
   config_ini st' = config_ini st
   /\ In (Print (py "Model name cannot be empty. No changes made.")) (trace st'))
  /\ (forall p,
         strip line <> [] -> one_line line = true ->
         read_config st = inr p -> config_writable env = true ->
         forall fb,
           get_config_value (py "API") (py "MODEL") fb st'
           = (Ok (Some (strip line)), st')).
Proof.
  intros Hstdin Hrun. unfold update_model in Hrun.
  destruct (get_config_value_spec (py "API") (py "MODEL") (Some DEFAULT_MODEL) st)
    as (cur & new & Hget & _).
  rewrite (bind_ok _ Hget), (bind_ok _ (print_eq _ _)), with_events_app in Hrun.
  match type of Hrun with
  | bind (input ?pr) _ ?s = _ =>
      rewrite (bind_ok _ (@input_eq pr line rest s Hstdin)) in Hrun
  end.
  cbv zeta in Hrun. split.
  - intros Hblank. rewrite Hblank in Hrun.
    rewrite (bind_ok _ (print_eq _ _)) in Hrun.
    apply press_enter_result in Hrun. destruct Hrun as (Hc & _ & _ & Ht).
    split; [exact Hc|]. rewrite Ht. cbn [trace with_events].
    apply in_or_app. left. apply in_or_app. right. now left.
  - intros p Hne Hol Hread Hw fb.
    destruct (strip line) as [|c t] eqn:Hs; [congruence|].
    match type of Hrun with
    | bind (bind (set_config_value _ _ _ _) ?K) ?P ?s = _ =>
        set (stc := s) in *; set (tail := K) in *; set (pause := P) in *
    end.
    assert (Hreadc : read_config stc = inr p)
      by (rewrite <- Hread; apply read_config_ini; reflexivity).
    destruct (@set_config_value_ok env (py "API") (py "MODEL") (c :: t)
                                   stc p Hreadc eq_refl)
      as (stb & Hset); [vm_compute; discriminate|exact Hw|].
    assert (Hv : plain_value (c :: t) = true).
    { unfold plain_value, line_ok. rewrite <- Hs.
      now rewrite (strip_one_line _ Hol), tight_strip. }
    destruct (@set_config_value_stored env (py "API") (py "MODEL") (c :: t)
                                       stc stb eq_refl eq_refl Hv Hset)
      as (p0 & _ & Hreadb & _).
    assert (Hstep : bind (bind (set_config_value env (py "API") (py "MODEL") (c :: t))
                               tail) pause stc
                    = bind (tail true) pause stb).
    { unfold bind at 1. rewrite (bind_ok _ Hset). reflexivity. }
    rewrite Hstep in Hrun.
    assert (Hkeeps : keeps_config (bind (tail true) pause)).
    { apply keeps_config_bind; [apply keeps_config_print|].
      intros u. apply keeps_config_press_enter. }
    specialize (Hkeeps stb). rewrite Hrun in Hkeeps. cbn [snd] in Hkeeps.
    assert (Hread' : read_config st' = read_config stb)
      by (now apply read_config_ini).
    rewrite Hreadb in Hread'.
    rewrite (@get_config_value_read st' _ (py "API") (py "MODEL") fb Hread').
    now rewrite get_set_same.
Qed.

Lemma update_model_stores_witness :
  let env := sample_env [] true 0 None in
  let st := sample_state (config_ini configured_state) [py "gemini-2.5-flash"; py ""] in
  let st' := snd (update_model env st) in
  get_config_value (py "API") (py "MODEL") None st'
  = (Ok (Some (py "gemini-2.5-flash")), st').
Proof.
  intros env st st'.
  destruct (@update_model_stores env st st' (py "gemini-2.5-flash") [py ""]
                                 (fst (update_model env st)))
    as [_ H].
  - reflexivity.
  - vm_compute. reflexivity.
  - apply (H (match read_config st with
              | inr p => p
              | inl _ => ConfigParser.empty str
              end)); try (vm_compute; reflexivity).
    vm_compute. discriminate.
Defined.



(** * Scheduling *)

Lemma schedule_task_spec (env : environment) (pause : bool) (st : state) :
  exists r st' new,
    schedule_task env pause st = (r, st')
    /\ config_ini st' = config_ini st /\ reports st' = reports st
    /\ calls st' = calls st
    /\ trace st' = trace st ++ new
    /\ filter is_schtasks new
       = (if str_eqb (platform env) (py "win32") then
           match fst (get_config_value (py "Scheduler") (py "TIME_UTC")
                                       (Some DEFAULT_SCHEDULE_TIME_UTC) st) with
           | Ok (Some (c :: t)) => [Schtasks (c :: t)]
           | _ => []
           end
         else [])
    /\ (pause = false -> r = Ok tt).
Proof.
  unfold schedule_task.
  assert (Hpause : forall s,
             exists r s' evs,
               (if pause then press_enter else ret tt) s = (r, s')
               /\ config_ini s' = config_ini s /\ reports s' = reports s
               /\ calls s' = calls s /\ trace s' = trace s ++ evs
               /\ filter is_schtasks evs = []
               /\ (pause = false -> r = Ok tt)).
  { intros s. destruct pause.
    - destruct (press_enter_spec s) as (r & rest & -> & _).
      eexists _, _, _. split; [reflexivity|]. cbn. repeat split. discriminate.
    - exists (Ok tt), s, []. unfold ret. cbn. now rewrite app_nil_r. }
  destruct (str_eqb (platform env) (py "win32")) eqn:Hwin; cbn [negb].
  - destruct (get_config_value_spec (py "Scheduler") (py "TIME_UTC")
                                    (Some DEFAULT_SCHEDULE_TIME_UTC) st)
      as (cur & new & Hget & Hnew).
    rewrite (bind_ok _ Hget). rewrite Hget. cbn [fst].
    assert (Hquiet : filter is_schtasks new = [])
      by (destruct Hnew as [->| ->]; reflexivity).
    assert (Hmsg : forall text,
               exists r st' evs,
                 bind (print text) (fun _ => if pause then press_enter else ret tt)
                      (with_events st new) = (r, st')
                 /\ config_ini st' = config_ini st /\ reports st' = reports st
                 /\ calls st' = calls st /\ trace st' = trace st ++ evs
                 /\ filter is_schtasks evs = []
                 /\ (pause = false -> r = Ok tt)).
    { intros text. rewrite (bind_ok _ (print_eq _ _)), with_events_app.
      destruct (Hpause (with_events st (new ++ [Print text])))
        as (r & s' & evs & -> & Hc & Hr & Hn & Ht & Hq & Hok).
      exists r, s', ((new ++ [Print text]) ++ evs).
      split; [reflexivity|]. split; [exact Hc|]. split; [exact Hr|].
      split; [exact Hn|]. split.
      - rewrite Ht. cbn [trace with_events]. now rewrite <- !app_assoc.
      - split; [|exact Hok]. rewrite !filter_app, Hquiet, Hq. reflexivity. }
    destruct cur as [[|c cur]|]; [apply Hmsg| |apply Hmsg].
    rewrite (bind_ok _ (emit_eq _ _)), with_events_app.
    destruct (Hpause (with_events st (new ++ [Schtasks (c :: cur)])))
      as (r & s' & evs & -> & Hc & Hr & Hn & Ht & Hq & Hok).
    exists r, s', ((new ++ [Schtasks (c :: cur)]) ++ evs).
    split; [reflexivity|]. split; [exact Hc|]. split; [exact Hr|].
    split; [exact Hn|]. split.
    + rewrite Ht. cbn [trace with_events]. now rewrite <- !app_assoc.
    + split; [|exact Hok]. rewrite !filter_app, Hquiet, Hq. reflexivity.
  - rewrite (bind_ok _ (print_eq _ _)).
    destruct (Hpause (with_events st [Print (py "Task scheduling is only supported on Windows.")]))
      as (r & s' & evs & -> & Hc & Hr & Hn & Ht & Hq & Hok).
    exists r, s', ([Print (py "Task scheduling is only supported on Windows.")] ++ evs).
    split; [reflexivity|]. split; [exact Hc|]. split; [exact Hr|].
    split; [exact Hn|]. split.
    + rewrite Ht. cbn [trace with_events]. now rewrite <- !app_assoc.
    + split; [|exact Hok]. rewrite filter_app, Hq. reflexivity.
Qed.


(** An accepted schedule time is applied at once: when
    [update_schedule_time] accepts the typed time and the config file can
    be read and written, then on [win32] it makes exactly one scheduling
    attempt, with exactly the typed (stripped) time, and on any other
    platform it makes none. *)
Theorem schedule_time_applied (env : environment) (st st' : state) (line : str)
        (rest : list str) (r : result unit) (hm : nat * nat)
        (p : ConfigParser.parser str) :
  stdin st = line :: rest ->
  update_schedule_time env st = (r, st') ->
  strptime_HM (strip line) = Some hm ->
  read_config st = inr p -> config_writable env = true ->
  exists new,
    trace st' = trace st ++ new
    /\ filter is_schtasks new
       = if str_eqb (platform env) (py "win32") then [Schtasks (strip line)]
         else [].
Proof.
  intros Hstdin Hrun Hsome Hread Hw. unfold update_schedule_time in Hrun.
  destruct (get_config_value_spec (py "Scheduler") (py "TIME_UTC")
                                  (Some DEFAULT_SCHEDULE_TIME_UTC) st)
    as (cur & new & Hget & Hnew).
  rewrite (bind_ok _ Hget), (bind_ok _ (print_eq _ _)), with_events_app in Hrun.
  match type of Hrun with
  | bind (input ?pr) _ ?s = _ =>
      rewrite (bind_ok _ (@input_eq pr line rest s Hstdin)) in Hrun
  end.
  cbv zeta in Hrun. rewrite Hsome in Hrun.
  match type of Hrun with
  | bind (try_except (bind (set_config_value _ _ _ _) ?K) ?c ?h) ?P ?s = _ =>
      set (stc := s) in *; set (tail := K) in *;
      set (catches := c) in *; set (handler := h) in *; set (pause := P) in *
  end.
  assert (Hreadc : read_config stc = inr p)
    by (rewrite <- Hread; apply read_config_ini; reflexivity).
  destruct (@set_config_value_ok env (py "Scheduler") (py "TIME_UTC") (strip line)
                                 stc p Hreadc eq_refl)
    as (stb & Hset); [vm_compute; discriminate|exact Hw|].
  assert (Hv : plain_value (strip line) = true).
  { unfold plain_value, line_ok.
    now rewrite (strptime_one_line _ Hsome), tight_strip. }
  destruct (@set_config_value_stored env (py "Scheduler") (py "TIME_UTC")
                                     (strip line) stc stb eq_refl eq_refl Hv Hset)
    as (p0 & _ & Hreadb & Hstb).
  assert (Hstep : bind (try_except (bind (set_config_value env (py "Scheduler")
                                            (py "TIME_UTC") (strip line)) tail)
                                   catches handler) pause stc
                  = bind (try_except (tail true) catches handler) pause stb).
  { unfold bind at 1. unfold try_except at 1. rewrite (bind_ok _ Hset).
    reflexivity. }
  rewrite Hstep in Hrun. clear Hstep.
  unfold tail in Hrun.
  set (msgs := [Print (py "SUCCESS: Schedule time updated to " ++ strip line ++ py " UTC.");
                Print (py "Applying new schedule now...")]) in *.
  destruct (schedule_task_spec env false (with_events stb msgs))
    as (r0 & s2 & evs & Hsched & _ & _ & _ & Htr & Hfilter & Hok).
  rewrite (Hok eq_refl) in Hsched.
  assert (Hbody : (print (py "SUCCESS: Schedule time updated to " ++ strip line ++ py " UTC.") ;;;
                   print (py "Applying new schedule now...") ;;;
                   schedule_task env false) stb = (Ok tt, s2)).
  { rewrite (bind_ok _ (print_eq _ _)), (bind_ok _ (print_eq _ _)), with_events_app.
    exact Hsched. }
  rewrite (bind_ok _ (try_except_ok _ _ Hbody)) in Hrun.
  unfold pause in Hrun. apply press_enter_result in Hrun.
  destruct Hrun as (_ & _ & _ & Ht).
  assert (Hquiet : filter is_schtasks new = [])
    by (destruct Hnew as [->| ->]; reflexivity).
  assert (Htrb : trace stb = trace stc) by (rewrite Hstb; reflexivity).
  eexists. split.
  - rewrite Ht, Htr. cbn [trace with_events]. rewrite Htrb. unfold stc.
    cbn [trace with_events]. rewrite <- !app_assoc. reflexivity.
  - rewrite !filter_app, Hquiet, Hfilter. cbn [filter is_schtasks app msgs].
    unfold press_enter_prompt. cbn [filter is_schtasks app].
    destruct (str_eqb (platform env) (py "win32")); [|reflexivity].
    assert (Hread2 : read_config (with_events stb msgs) = read_config stb)
      by (apply read_config_ini; reflexivity).
    rewrite Hreadb in Hread2.
    rewrite (@get_config_value_read _ _ (py "Scheduler") (py "TIME_UTC")
                                    (Some DEFAULT_SCHEDULE_TIME_UTC) Hread2).
    rewrite get_set_same by reflexivity. cbn [fst].
    destruct (strip line) as [|c t] eqn:Hs; [|reflexivity].
    vm_compute in Hsome. discriminate.
Qed.

Lemma schedule_time_applied_witness :
  let env := mkEnvironment [] (py "win32") true (py "2025-01-02")
                           (py "2025-01-02 09:25:00") true true
                           (fun _ _ _ => BackendError) (fun _ _ => inr ValueError)
                           false in
  let st := sample_state None [py "09:25"; py ""] in
  exists new,
    trace (snd (update_schedule_time env st)) = trace st ++ new
    /\ filter is_schtasks new = [Schtasks (py "09:25")].
Proof.
  intros env st.
  destruct (@schedule_time_applied env st (snd (update_schedule_time env st))
                                   (py "09:25") [py ""]
                                   (fst (update_schedule_time env st))
                                   (9, 25) (ConfigParser.empty str))
    as (new & Htrace & Hfilter); try (vm_compute; reflexivity).
  exists new. split; [exact Htrace|exact Hfilter].
Defined.

(** * The generator *)

Lemma trace_grows (st : state) (new : list event) :
  with_events st new = st -> new = [].
Proof.
  intros H. apply (f_equal trace) in H. cbn in H.
  rewrite <- (app_nil_r (trace st)) in H at 2. now apply app_inv_head in H.
Qed.

(** A [get_config_value] that leaves the state as it is has read the file
    without error. *)
Lemma get_config_value_quiet (s k : str) (fb v : option str) (st : state) :
  get_config_value s k fb st = (Ok v, st) ->
  exists p, read_config st = inr p /\ v = ConfigParser.get p s k fb.
Proof.
  destruct (read_config st) as [err|p] eqn:Hread.
  - rewrite (@unreadable_get st err s k fb Hread). intros [= _ H].
    apply trace_grows in H. discriminate.
  - rewrite (@get_config_value_read st p s k fb Hread). intros [= <-].
    now exists p.
Qed.

Lemma get_some (p : ConfigParser.parser str) (s k fb : str) :
  exists v, ConfigParser.get p s k (Some fb) = Some v.
Proof.
  unfold ConfigParser.get.
  destruct (match ConfigParser.dict_get s (ConfigParser._sections p) with
            | Some d => Some d
            | None => if str_eqb s ConfigParser.default_section then Some [] else None
            end) as [d|]; [|now eexists].
  destruct (ConfigParser.dict_get _ d); [now eexists|].
  destruct (ConfigParser.dict_get _ _); now eexists.
Qed.

Lemma generator_call (env : environment) (st : state) (gemini_model prompt : str) :
  ready env st gemini_model prompt ->
  get_meme_stocks env st
  = try_except (output_text <- _call_gemini_api env gemini_model prompt ;;
                after_call env output_text)
               is_exception (except_clauses env)
               (with_events st [generating (today env) gemini_model]).
Proof.
  intros (Hinst & key & t & Hkey & Hne & Hph & Htemplate & Hmodel & Hformat).
  unfold get_meme_stocks. rewrite Hinst. cbn [negb].
  rewrite (bind_ok _ Hkey).
  assert (Hcond : negb (truthy (Some key))
                  || str_eqb (show (Some key)) (py "YOUR_API_KEY_HERE") = false).
  { apply str_eqb_neq in Hph. cbn [show]. rewrite Hph.
    destruct key; [congruence|reflexivity]. }
  rewrite Hcond. unfold try_except at 1.
  rewrite (bind_ok _ Htemplate), (bind_ok _ Hmodel).
  cbv zeta. unfold str_format at 1. rewrite Hformat.
  change (ret prompt) with (fun s : state => (Ok prompt, s)).
  unfold bind at 1. cbv beta iota.
  rewrite (bind_ok _ (print_eq _ _)). reflexivity.
Qed.

Lemma failed_attempts_S (gemini_model prompt : str) (a j : nat) :
  failed_attempts gemini_model prompt a (S j)
  = [GenerateContent gemini_model prompt BackendError;
     Sleep (wait_exponential 1 4 10 a)]
    ++ failed_attempts gemini_model prompt (S a) j.
Proof.
  unfold failed_attempts. rewrite <- cons_seq. cbn [flat_map].
  rewrite Nat.add_0_r. f_equal.
  rewrite <- seq_shift, flat_map_concat_map, map_map, <- flat_map_concat_map.
  apply flat_map_ext. intros i. now rewrite Nat.add_succ_r.
Qed.

Section Attempts.
Variable env : environment.
Variable gemini_model prompt : str.

(** The retried call when the first [j] calls fail and the next one
    answers. *)
Lemma retrying_answers (text : option str) :
  forall j fuel a st,
    j < fuel -> a + j <= 5 ->
    (forall i, i < j ->
               backend env (calls st + i) gemini_model prompt = BackendError) ->
    backend env (calls st + j) gemini_model prompt = Response text ->
    retrying env fuel a gemini_model prompt st
    = (Ok text,
       mkState (config_ini st) (reports st) (stdin st)
               (trace st ++ failed_attempts gemini_model prompt a j
                ++ [GenerateContent gemini_model prompt (Response text)])
               (calls st + j + 1)).
Proof.
  induction j as [|j IH]; intros fuel a st Hfuel Ha Hfail Hok;
    (destruct fuel as [|fuel]; [lia|]); cbn [retrying]; cbv zeta.
  - rewrite Nat.add_0_r in Hok. rewrite Hok. cbn [failed_attempts seq flat_map app].
    do 2 f_equal. lia.
  - pose proof (Hfail 0 ltac:(lia)) as H0. rewrite Nat.add_0_r in H0. rewrite H0.
    assert (Hstop : stop_after_attempt 5 a = false).
    { unfold stop_after_attempt. apply Nat.leb_gt. lia. }
    rewrite Hstop. rewrite (bind_ok _ (emit_eq _ _)).
    rewrite IH; try lia.
    + cbn [config_ini reports stdin trace calls with_events].
      rewrite failed_attempts_S, <- !app_assoc. cbn [app].
      do 2 f_equal. lia.
    + intros i Hi. cbn [calls with_events].
      replace (S (calls st) + i) with (calls st + S i) by lia.
      apply Hfail. lia.
    + cbn [calls with_events].
      replace (S (calls st) + j) with (calls st + S j) by lia. exact Hok.
Qed.

(** The retried call when every call fails: the fifth failure is the
    last. *)
Lemma retrying_gives_up :
  forall j fuel a st,
    j < fuel -> a + j = 5 ->
    (forall i, i <= j ->
               backend env (calls st + i) gemini_model prompt = BackendError) ->
    retrying env fuel a gemini_model prompt st
    = (Raise RetryError,
       mkState (config_ini st) (reports st) (stdin st)
               (trace st ++ failed_attempts gemini_model prompt a j
                ++ [GenerateContent gemini_model prompt BackendError])
               (calls st + j + 1)).
Proof.
  induction j as [|j IH]; intros fuel a st Hfuel Ha Hfail;
    (destruct fuel as [|fuel]; [lia|]); cbn [retrying]; cbv zeta;
    pose proof (Hfail 0 ltac:(lia)) as H0; rewrite Nat.add_0_r in H0; rewrite H0.
  - assert (Hstop : stop_after_attempt 5 a = true).
    { unfold stop_after_attempt. apply Nat.leb_le. lia. }
    rewrite Hstop. cbn [failed_attempts seq flat_map app].
    do 2 f_equal. lia.
  - assert (Hstop : stop_after_attempt 5 a = false).
    { unfold stop_after_attempt. apply Nat.leb_gt. lia. }
    rewrite Hstop. rewrite (bind_ok _ (emit_eq _ _)).
    rewrite IH; try lia.
    + cbn [config_ini reports stdin trace calls with_events].
      rewrite failed_attempts_S, <- !app_assoc. cbn [app].
      do 2 f_equal. lia.
    + intros i Hi. cbn [calls with_events].
      replace (S (calls st) + i) with (calls st + S i) by lia.
      apply Hfail. lia.
Qed.

End Attempts.

Lemma show_gui_enabled_read (st : state) (p : ConfigParser.parser str) :
  read_config st = inr p ->
  exists text,
    ConfigParser.get p (py "Settings") (py "SHOW_GUI") (Some (py "true")) = Some text
    /\ show_gui_enabled st = str_eqb (lower text) (py "true").
Proof.
  intros Hread.
  destruct (get_some p (py "Settings") (py "SHOW_GUI") (py "true")) as (text & Hget).
  exists text. split; [exact Hget|]. unfold show_gui_enabled.
  rewrite (@get_config_value_read st p _ _ _ Hread), Hget. reflexivity.
Qed.

Lemma after_call_saved (env : environment) (text : str) (s : state)
      (p : ConfigParser.parser str) :
  report_writable env = true -> read_config s = inr p ->
  after_call env (Some text) s
  = (Ok tt,
     mkState (config_ini s)
             (ConfigParser.dict_set (report_name (today env)) text (reports s))
             (stdin s)
             (trace s ++ report_saved (today env)
                      :: shown (show_gui_enabled s) text (today env))
             (calls s)).
Proof.
  intros Hw Hread. unfold after_call.
  rewrite (bind_ok _ (@write_report_some env (report_name (today env)) text s Hw)).
  rewrite (bind_ok _ (print_eq _ _)).
  match goal with
  | |- bind _ _ ?s1 = _ =>
      assert (Hread1 : read_config s1 = inr p)
        by (rewrite <- Hread; apply read_config_ini; reflexivity);
      assert (Hflag : show_gui_enabled s1 = show_gui_enabled s)
        by (apply show_gui_enabled_ini; reflexivity)
  end.
  destruct (@show_gui_enabled_read _ p Hread1) as (flag & Hget & Hen).
  rewrite (bind_ok _ (@get_config_value_read _ p _ _ _ Hread1)), Hget.
  rewrite <- Hen, Hflag. unfold shown, report_saved.
  destruct (show_gui_enabled s).
  - unfold _display_report_gui. rewrite (bind_ok _ (print_eq _ _)), emit_eq.
    unfold with_events. cbn [show config_ini reports stdin trace calls].
    now rewrite <- ?app_assoc.
  - rewrite print_eq.
    unfold with_events. cbn [config_ini reports stdin trace calls].
    now rewrite <- ?app_assoc.
Qed.

Lemma after_call_none (env : environment) (s : state) :
  report_writable env = true ->
  after_call env None s
  = (Raise TypeError,
     mkState (config_ini s)
             (ConfigParser.dict_set (report_name (today env)) [] (reports s))
             (stdin s) (trace s) (calls s)).
Proof.
  intros Hw. unfold after_call, write_report at 1, bind at 1, write_report.
  now rewrite Hw.
Qed.

Lemma ready_read (env : environment) (st : state) (gemini_model prompt : str) :
  ready env st gemini_model prompt -> exists p, read_config st = inr p.
Proof.
  intros (_ & key & t & Hkey & _).
  destruct (@get_config_value_quiet _ _ _ _ _ Hkey) as (p & Hread & _). now exists p.
Qed.

(** The [except] clauses on an exception that only the last of them
    takes. *)
Lemma except_clauses_other (env : environment) (x : exn) (s : state) :
  report_failure x = print (py "An unexpected error occurred") ->
  except_clauses env x s
  = (clauses_result env, with_events s (clauses_report env)).
Proof.
  intros Hx. unfold except_clauses, clauses_result, clauses_report.
  destruct (genai_exceptions env).
  - rewrite Hx. apply print_eq.
  - now rewrite with_events_nil.
Qed.

(** When every one of the five attempts fails, [get_meme_stocks] has made
    five calls with the waits 4, 4, 4 and 8 between them, and the reports,
    the config file and the console input are as before.  The
    [RetryError] reaches the [except] clauses: when they can be evaluated
    the function prints the unexpected-error message and returns; when
    the package has no attribute [exceptions], [AttributeError] leaves the
    function and nothing more is printed. *)
Theorem all_attempts_fail (env : environment) (st : state)
        (gemini_model prompt : str) :
  ready env st gemini_model prompt ->
  (forall i, i < 5 ->
             backend env (calls st + i) gemini_model prompt = BackendError) ->
  get_meme_stocks env st
  = (clauses_result env,
     mkState (config_ini st) (reports st) (stdin st)
             (trace st
              ++ [generating (today env) gemini_model;
                  GenerateContent gemini_model prompt BackendError; Sleep 4;
                  GenerateContent gemini_model prompt BackendError; Sleep 4;
                  GenerateContent gemini_model prompt BackendError; Sleep 4;
                  GenerateContent gemini_model prompt BackendError; Sleep 8;
                  GenerateContent gemini_model prompt BackendError]
              ++ clauses_report env)
             (calls st + 5)).
Proof.
  intros Hready Hfail. rewrite (@generator_call env st gemini_model prompt Hready).
  assert (Hcall : _call_gemini_api env gemini_model prompt
                    (with_events st [generating (today env) gemini_model])
                  = (Raise RetryError,
                     mkState (config_ini st) (reports st) (stdin st)
                       ((trace st ++ [generating (today env) gemini_model])
                        ++ failed_attempts gemini_model prompt 1 4
                        ++ [GenerateContent gemini_model prompt BackendError])
                       (calls st + 4 + 1))).
  { unfold _call_gemini_api.
    rewrite (@retrying_gives_up env gemini_model prompt 4 5 1); try lia.
    - reflexivity.
    - intros i Hi. apply Hfail. lia. }
  rewrite (try_except_raise _ (bind_raise _ Hcall) eq_refl).
  rewrite except_clauses_other by reflexivity.
  unfold with_events. cbn [config_ini reports stdin trace calls].
  rewrite <- !app_assoc. do 2 f_equal. lia.
Qed.

Lemma all_attempts_fail_witness :
  let env := sample_env [py "prog"; py "run"] true 5 (Some (py "report")) in
  fst (get_meme_stocks env configured_state) = Raise AttributeError
  /\ calls (snd (get_meme_stocks env configured_state)) = 5
  /\ reports (snd (get_meme_stocks env configured_state)) = [].
Proof.
  intros env.
  rewrite (@all_attempts_fail env configured_state DEFAULT_MODEL
             (match format DEFAULT_PROMPT_TEMPLATE (today env) with
              | Formatted text => text
              | _ => []
              end)).
  - repeat split.
  - split; [reflexivity|].
    exists (py "abc"), DEFAULT_PROMPT_TEMPLATE.
    repeat split; try (vm_compute; reflexivity); vm_compute; discriminate.
  - intros i Hi. destruct i as [|[|[|[|[|i]]]]]; try reflexivity; lia.
Defined.

Section AfterTheCall.
Variable env : environment.
Variable st : state.
Variable gemini_model prompt : str.
Hypothesis Hready : ready env st gemini_model prompt.
Variable j : nat.
Hypothesis Hj : j < 5.
Hypothesis Hfail :
  forall i, i < j -> backend env (calls st + i) gemini_model prompt = BackendError.

Lemma generator_answered (text : option str) :
  backend env (calls st + j) gemini_model prompt = Response text ->
  get_meme_stocks env st
  = try_except (after_call env text) is_exception (except_clauses env)
      (mkState (config_ini st) (reports st) (stdin st)
               (trace st ++ generating (today env) gemini_model
                         :: failed_attempts gemini_model prompt 1 j
                         ++ [GenerateContent gemini_model prompt (Response text)])
               (calls st + j + 1)).
Proof.
  intros Hok. rewrite (@generator_call env st gemini_model prompt Hready).
  unfold try_except at 1. unfold _call_gemini_api.
  rewrite (bind_ok _ (@retrying_answers env gemini_model prompt text j 5 1
                        (with_events st [generating (today env) gemini_model])
                        ltac:(lia) ltac:(lia) Hfail Hok)).
  unfold with_events. cbn [config_ini reports stdin trace calls].
  rewrite <- app_assoc. reflexivity.
Qed.

(** A response without text empties the report of the day: when an
    attempt of the run is answered by a response whose text is [None]
    and the report file can be opened for writing, the file is truncated
    before the write fails, and an earlier report of the same day is
    lost.  The [TypeError] reaches the [except] clauses: when they can be
    evaluated [get_meme_stocks] prints the unexpected-error message and
    returns; when the package has no attribute [exceptions],
    [AttributeError] leaves the function and nothing more is printed. *)
Theorem response_without_text :
  backend env (calls st + j) gemini_model prompt = Response None ->
  report_writable env = true ->
  get_meme_stocks env st
  = (clauses_result env,
     mkState (config_ini st)
             (ConfigParser.dict_set (report_name (today env)) [] (reports st))
             (stdin st)
             (trace st ++ generating (today env) gemini_model
                       :: failed_attempts gemini_model prompt 1 j
                       ++ GenerateContent gemini_model prompt (Response None)
                       :: clauses_report env)
             (calls st + j + 1)).
Proof.
  intros Hok Hw. rewrite (@generator_answered _ Hok).
  rewrite (try_except_raise _ (@after_call_none env _ Hw) eq_refl).
  rewrite except_clauses_other by reflexivity.
  unfold with_events. cbn [config_ini reports stdin trace calls].
  rewrite <- ?app_assoc. cbn [app]. rewrite <- ?app_assoc. reflexivity.
Qed.

(** A response with text is saved and shown according to the flag: the
    report of the day becomes exactly the text, the success message is
    printed, and the report window is opened with the text exactly when
    the GUI flag as the program reads it is enabled; otherwise the
    message that the pop-up is disabled is printed.  The config file and
    the console input are as before. *)
Theorem report_saved_and_shown (text : str) :
  backend env (calls st + j) gemini_model prompt = Response (Some text) ->
  report_writable env = true ->
  get_meme_stocks env st
  = (Ok tt,
     mkState (config_ini st)
             (ConfigParser.dict_set (report_name (today env)) text (reports st))
             (stdin st)
             (trace st ++ generating (today env) gemini_model
                       :: failed_attempts gemini_model prompt 1 j
                       ++ GenerateContent gemini_model prompt (Response (Some text))
                       :: report_saved (today env)
                       :: shown (show_gui_enabled st) text (today env))
             (calls st + j + 1)).
Proof.
  intros Hok Hw. rewrite (@generator_answered _ Hok).
  destruct (@ready_read env st gemini_model prompt Hready) as (p & Hread).
  match goal with
  | |- try_except _ _ _ ?s = _ =>
      assert (Hread1 : read_config s = inr p)
        by (rewrite <- Hread; apply read_config_ini; reflexivity);
      assert (Hflag : show_gui_enabled s = show_gui_enabled st)
        by (apply show_gui_enabled_ini; reflexivity)
  end.
  rewrite (try_except_ok _ _ (@after_call_saved env text _ p Hw Hread1)).
  rewrite Hflag. cbn [config_ini reports stdin trace calls].
  rewrite <- ?app_assoc. cbn [app]. rewrite <- ?app_assoc. reflexivity.
Qed.

(** The report file cannot be opened: nothing is saved and nothing is
    shown, whatever the response.  The [OSError] reaches the [except]
    clauses: when they can be evaluated [get_meme_stocks] prints the
    unexpected-error message and returns; when the package has no
    attribute [exceptions], [AttributeError] leaves the function and
    nothing more is printed. *)
Theorem report_not_writable (text : option str) :
  backend env (calls st + j) gemini_model prompt = Response text ->
  report_writable env = false ->
  get_meme_stocks env st
  = (clauses_result env,
     mkState (config_ini st) (reports st) (stdin st)
             (trace st ++ generating (today env) gemini_model
                       :: failed_attempts gemini_model prompt 1 j
                       ++ GenerateContent gemini_model prompt (Response text)
                       :: clauses_report env)
             (calls st + j + 1)).
Proof.
  intros Hok Hw. rewrite (@generator_answered _ Hok).
  assert (Hafter : forall s, after_call env text s = (Raise OSError, s)).
  { intros s. unfold after_call, bind at 1, write_report. now rewrite Hw. }
  rewrite (try_except_raise _ (Hafter _) eq_refl).
  rewrite except_clauses_other by reflexivity.
  unfold with_events. cbn [config_ini reports stdin trace calls].
  rewrite <- ?app_assoc. cbn [app]. rewrite <- ?app_assoc. reflexivity.
Qed.

End AfterTheCall.

Lemma response_without_text_witness :
  let env := sample_env [py "prog"; py "run"] true 1 None in
  reports (snd (get_meme_stocks env configured_state))
  = [(report_name (py "2025-01-02"), [])].
Proof.
  intros env.
  set (prompt := match format DEFAULT_PROMPT_TEMPLATE (today env) with
                 | Formatted text => text
                 | _ => []
                 end).
  assert (Hready : ready env configured_state DEFAULT_MODEL prompt).
  { split; [reflexivity|]. exists (py "abc"), DEFAULT_PROMPT_TEMPLATE.
    repeat split; try (vm_compute; reflexivity); vm_compute; discriminate. }
  assert (Hfail : forall i, i < 1 ->
             backend env (calls configured_state + i) DEFAULT_MODEL prompt
             = BackendError).
  { intros i Hi. destruct i as [|i]; [reflexivity|lia]. }
  rewrite (@response_without_text env configured_state DEFAULT_MODEL prompt
             Hready 1 ltac:(lia) Hfail eq_refl eq_refl).
  reflexivity.
Defined.

Lemma report_saved_and_shown_witness :
  let env := sample_env [py "prog"; py "run"] true 2 (Some (py "report")) in
  let out := snd (get_meme_stocks env configured_state) in
  reports out = [(report_name (py "2025-01-02"), py "report")]
  /\ calls out = 3
  /\ filter (fun ev => match ev with ReportWindow _ _ => true | _ => false end)
            (trace out) = [].
Proof.
  intros env out. unfold out.
  set (prompt := match format DEFAULT_PROMPT_TEMPLATE (today env) with
                 | Formatted text => text
                 | _ => []
                 end).
  assert (Hready : ready env configured_state DEFAULT_MODEL prompt).
  { split; [reflexivity|]. exists (py "abc"), DEFAULT_PROMPT_TEMPLATE.
    repeat split; try (vm_compute; reflexivity); vm_compute; discriminate. }
  assert (Hfail : forall i, i < 2 ->
             backend env (calls configured_state + i) DEFAULT_MODEL prompt
             = BackendError).
  { intros i Hi. destruct i as [|[|i]]; [reflexivity|reflexivity|lia]. }
  rewrite (@report_saved_and_shown env configured_state DEFAULT_MODEL prompt
             Hready 2 ltac:(lia) Hfail (py "report") eq_refl eq_refl).
  repeat split.
Defined.

Lemma report_not_writable_witness :
  let env := mkEnvironment [py "prog"; py "run"] (py "linux") true (py "2025-01-02")
                           (py "2025-01-02 09:25:00") true false
                           (fun _ _ _ => Response (Some (py "report")))
                           (fun _ _ => inr ValueError) false in
  reports (snd (get_meme_stocks env configured_state)) = [].
Proof.
  intros env.
  set (prompt := match format DEFAULT_PROMPT_TEMPLATE (today env) with
                 | Formatted text => text
                 | _ => []
                 end).
  assert (Hready : ready env configured_state DEFAULT_MODEL prompt).
  { split; [reflexivity|]. exists (py "abc"), DEFAULT_PROMPT_TEMPLATE.
    repeat split; try (vm_compute; reflexivity); vm_compute; discriminate. }
  assert (Hfail : forall i, i < 0 ->
             backend env (calls configured_state + i) DEFAULT_MODEL prompt
             = BackendError).
  { intros i Hi. lia. }
  rewrite (@report_not_writable env configured_state DEFAULT_MODEL prompt
             Hready 0 ltac:(lia) Hfail (Some (py "report")) eq_refl eq_refl).
  reflexivity.
Defined.

(** ** Calls that end, and what they leave alone *)

Section Steps.
Variable R : state -> state -> Prop.
Hypothesis R_refl : forall st, R st st.
Hypothesis R_trans : forall a b c, R a b -> R b c -> R a c.

Lemma steps_ret {A : Type} (a : A) : steps R (ret a).
Proof. intros st. split; [discriminate|apply R_refl]. Qed.

Lemma steps_raise {A : Type} (x : exn) : steps R (@raise A x).
Proof. intros st. split; [discriminate|apply R_refl]. Qed.

Lemma steps_bind {A B : Type} (m : M A) (f : A -> M B) :
  steps R m -> (forall a, steps R (f a)) -> steps R (bind m f).
Proof.
  intros Hm Hf st. unfold bind. destruct (Hm st) as [Hr HR].
  destruct (m st) as [[a|x|] st']; cbn [fst snd] in *.
  - destruct (Hf a st') as [Hr' HR']. split; [exact Hr'|].
    exact (R_trans HR HR').
  - split; [discriminate|exact HR].
  - congruence.
Qed.

Lemma steps_try_except {A : Type} (body : M A) (catches : exn -> bool)
      (handler : exn -> M A) :
  steps R body -> (forall x, steps R (handler x)) ->
  steps R (try_except body catches handler).
Proof.
  intros Hm Hh st. unfold try_except. destruct (Hm st) as [Hr HR].
  destruct (body st) as [[a|x|] st']; cbn [fst snd] in *.
  - split; [discriminate|exact HR].
  - destruct (catches x).
    + destruct (Hh x st') as [Hr' HR']. split; [exact Hr'|].
      exact (R_trans HR HR').
    + split; [discriminate|exact HR].
  - congruence.
Qed.

End Steps.

Lemma console_shrinks_refl (st : state) : console_shrinks st st.
Proof. now exists []. Qed.

Lemma console_shrinks_trans (a b c : state) :
  console_shrinks a b -> console_shrinks b c -> console_shrinks a c.
Proof.
  intros [r1 H1] [r2 H2]. exists (r1 ++ r2). now rewrite H1, H2, app_assoc.
Qed.

Lemma console_shrinks_same (st st' : state) :
  stdin st' = stdin st -> console_shrinks st st'.
Proof. intros H. exists []. now rewrite H. Qed.

Lemma console_shrinks_length (st st' : state) :
  console_shrinks st st' -> List.length (stdin st') <= List.length (stdin st).
Proof. intros [r H]. rewrite H, length_app. lia. Qed.

Lemma shrinks_emit (ev : event) : steps console_shrinks (emit ev).
Proof. intros st. split; [discriminate|]. now apply console_shrinks_same. Qed.

Lemma shrinks_print (text : str) : steps console_shrinks (print text).
Proof. apply shrinks_emit. Qed.

Lemma shrinks_input (prompt : str) : steps console_shrinks (input prompt).
Proof.
  intros st. unfold input, console_shrinks.
  destruct (stdin st) as [|line rest] eqn:H; cbn; split; try discriminate.
  - now exists [].
  - now exists [line].
Qed.

Lemma shrinks_get_config_value (s k : str) (fb : option str) :
  steps console_shrinks (get_config_value s k fb).
Proof.
  intros st. destruct (get_config_value_spec s k fb st) as (v & new & -> & _).
  split; [discriminate|]. now apply console_shrinks_same.
Qed.

Lemma shrinks_set_config_value (env : environment) (s k v : str) :
  steps console_shrinks (set_config_value env s k v).
Proof.
  intros st.
  destruct (set_config_value_cases env s k v st) as [(st' & H & _)|[H|H]].
  - split; [rewrite H; discriminate|].
    revert H. unfold set_config_value.
    destruct (read_config st); [discriminate|].
    destruct (if ConfigParser.has_section p s then ConfigParser.Added p
              else ConfigParser.add_section p s); try discriminate.
    destruct (ConfigParser.set p0 s k v); [|discriminate].
    destruct (config_writable env); [|discriminate].
    intros H. injection H as <-. now apply console_shrinks_same.
  - rewrite H. split; [discriminate|]. now apply console_shrinks_same.
  - rewrite H. split; [discriminate|]. now apply console_shrinks_same.
Qed.

Lemma shrinks_call_gemini_api (env : environment) (gemini_model prompt : str) :
  steps console_shrinks (_call_gemini_api env gemini_model prompt).
Proof.
  intros st. destruct (call_gemini_api_spec env gemini_model prompt st)
    as (r & new & -> & Hr & _).
  split; [exact Hr|]. now apply console_shrinks_same.
Qed.

Lemma shrinks_str_format (env : environment) (template : option str)
      (today_date : str) :
  steps console_shrinks (str_format env template today_date).
Proof.
  intros st. destruct (str_format_spec env template today_date st) as (r & -> & Hr).
  split; [exact Hr|apply console_shrinks_refl].
Qed.

Lemma shrinks_write_report (env : environment) (name : str)
      (output_text : option str) :
  steps console_shrinks (write_report env name output_text).
Proof.
  intros st. unfold write_report.
  destruct (report_writable env); [destruct output_text|];
    cbn; split; try discriminate; now apply console_shrinks_same.
Qed.

Ltac shrinks_step :=
  first [ apply steps_ret; exact console_shrinks_refl
        | apply steps_raise; exact console_shrinks_refl
        | apply shrinks_print
        | apply shrinks_emit
        | apply shrinks_input
        | apply shrinks_get_config_value
        | apply shrinks_set_config_value
        | apply shrinks_call_gemini_api
        | apply shrinks_str_format
        | apply shrinks_write_report
        | apply (steps_bind console_shrinks_trans); [|intro]
        | apply (steps_try_except console_shrinks_trans); [|intro]
        | match goal with
          | |- steps _ (match ?x with _ => _ end) => destruct x
          end ].

Lemma shrinks_press_enter : steps console_shrinks press_enter.
Proof. unfold press_enter. repeat shrinks_step. Qed.

Lemma shrinks_schedule_task (env : environment) (pause : bool) :
  steps console_shrinks (schedule_task env pause).
Proof. unfold schedule_task. repeat shrinks_step. Qed.

Lemma shrinks_update_schedule_time (env : environment) :
  steps console_shrinks (update_schedule_time env).
Proof.
  unfold update_schedule_time.
  repeat first [apply shrinks_schedule_task | shrinks_step].
Qed.

Lemma shrinks_toggle_gui (env : environment) :
  steps console_shrinks (toggle_gui env).
Proof. unfold toggle_gui. repeat shrinks_step. Qed.

Lemma shrinks_update_api_key (env : environment) :
  steps console_shrinks (update_api_key env).
Proof. unfold update_api_key. repeat shrinks_step. Qed.

Lemma shrinks_update_model (env : environment) :
  steps console_shrinks (update_model env).
Proof. unfold update_model. repeat shrinks_step. Qed.

Lemma shrinks_edit_prompt (env : environment) (desk : desktop) :
  steps console_shrinks (edit_prompt env desk).
Proof. unfold edit_prompt, save_prompt. repeat shrinks_step. Qed.

Lemma shrinks_show_cookie_easter_egg (desk : desktop) :
  steps console_shrinks (show_cookie_easter_egg desk).
Proof. unfold show_cookie_easter_egg. repeat shrinks_step. Qed.

Lemma shrinks_get_meme_stocks (env : environment) :
  steps console_shrinks (get_meme_stocks env).
Proof.
  unfold get_meme_stocks, _display_report_gui, except_clauses, report_failure.
  repeat shrinks_step.
Qed.

(** ** The menus end *)

Lemma loop_ends_ext (loop loop' : nat -> M unit) (leave : str) (fuel : nat)
      (st : state) :
  (forall f s, loop f s = loop' f s) ->
  loop_ends loop leave fuel st -> loop_ends loop' leave fuel st.
Proof.
  intros Heq (H1 & H0 & H2 & H3). unfold loop_ends. rewrite <- !Heq.
  split; [exact H1|]. split; [exact H0|]. split.
  - intros fuel' Hf. rewrite <- Heq. now apply H2.
  - exact H3.
Qed.

Lemma round_continues (loop : nat -> M unit) (leave choice : str)
      (act : nat -> M unit) (fuel : nat) (st : state) :
  (forall fuel', List.length (stdin st) < fuel' -> act fuel' st = act fuel st) ->
  fst (act fuel st) <> OutOfFuel ->
  console_shrinks st (snd (act fuel st)) ->
  (forall s, List.length (stdin s) < fuel -> loop_ends loop leave fuel s) ->
  List.length (stdin st) < fuel ->
  round_ends (fun f => act f ;;; loop f) leave choice fuel st.
Proof.
  intros Hact Hr Hsh IH Hlen. unfold round_ends, bind.
  assert (Hsame : forall fuel', List.length (stdin st) < fuel' ->
                    (let (r, s) := act fuel' st in
                     match r with
                     | Ok _ => loop fuel' s
                     | Raise x => (Raise x, s)
                     | OutOfFuel => (OutOfFuel, s)
                     end)
                    = (let (r, s) := act fuel st in
                       match r with
                       | Ok _ => loop fuel' s
                       | Raise x => (Raise x, s)
                       | OutOfFuel => (OutOfFuel, s)
                       end))
    by (intros fuel' Hf; now rewrite Hact).
  destruct (act fuel st) as [[u|x|] s]; cbn [fst snd] in *.
  - pose proof (console_shrinks_length Hsh) as Hle.
    destruct (IH s ltac:(lia)) as (H1 & H0 & H2 & H3).
    split; [exact H1|]. split; [exact (console_shrinks_trans Hsh H0)|]. split.
    + intros fuel' Hf. rewrite (Hsame fuel' Hf). apply H2. lia.
    + intros st' Hrun. left. destruct (H3 st' Hrun) as (read & line & Hs & Hl).
      destruct Hsh as [r0 Hr0]. exists (r0 ++ read), line.
      split; [|exact Hl]. now rewrite Hr0, Hs, app_assoc.
  - split; [discriminate|]. split; [exact Hsh|]. split.
    + intros fuel' Hf. now rewrite (Hsame fuel' Hf).
    + discriminate.
  - congruence.
Qed.

Lemma round_leaves (act : M unit) (leave : str) (fuel : nat) (st : state) :
  (forall s, exists s', act s = (Ok tt, s') /\ stdin s' = stdin s) ->
  round_ends (fun _ => act) leave leave fuel st.
Proof.
  intros Hact. destruct (Hact st) as (s' & Hrun & Hs). unfold round_ends.
  rewrite Hrun. split; [discriminate|].
  split; [now apply console_shrinks_same|]. split; [reflexivity|].
  intros st' H. injection H as <-. right. now split.
Qed.

Lemma menu_round (banner : M unit) (prompt leave : str)
      (round : nat -> str -> M unit) (fuel : nat) (st : state) :
  (forall s, exists s', banner s = (Ok tt, s') /\ stdin s' = stdin s) ->
  (forall choice s, List.length (stdin s) < fuel ->
                    round_ends (fun f => round f choice) leave choice fuel s) ->
  List.length (stdin st) < S fuel ->
  loop_ends (menu_loop banner prompt round) leave (S fuel) st.
Proof.
  intros Hbanner Hround Hlen. unfold loop_ends.
  assert (Hstep : forall f,
            menu_loop banner prompt round (S f) st
            = (line <- input prompt ;; round f (strip line))
                (snd (banner st))).
  { intros f. cbn [menu_loop]. unfold bind at 1.
    destruct (Hbanner st) as (s1 & -> & _). reflexivity. }
  destruct (Hbanner st) as (s1 & Hb & Hs1).
  rewrite Hstep, Hb. cbn [snd].
  destruct (stdin st) as [|line rest] eqn:Hin.
  - assert (Hraise : forall f, (line <- input prompt ;; round f (strip line)) s1
                               = (Raise EOFError,
                                  mkState (config_ini s1) (reports s1) []
                                          (trace s1 ++ [Input prompt]) (calls s1))).
    { intros f. unfold bind, input. rewrite Hs1. reflexivity. }
    rewrite Hraise. split; [discriminate|].
    split; [exists []; cbn; now rewrite Hin|]. split; [|discriminate].
    intros [|f'] Hf; [cbn in Hf; lia|]. rewrite Hstep, Hb. cbn [snd].
    apply Hraise.
  - set (s2 := mkState (config_ini s1) (reports s1) rest
                       (trace s1 ++ [Input prompt]) (calls s1)).
    assert (Hread : forall f, (line <- input prompt ;; round f (strip line)) s1
                              = round f (strip line) s2).
    { intros f. unfold bind, input. rewrite Hs1. reflexivity. }
    rewrite Hread. cbn [List.length] in Hlen.
    destruct (Hround (strip line) s2 ltac:(cbn; lia)) as (H1 & H0 & H2 & H3).
    split; [exact H1|]. split.
    { destruct H0 as [r0 Hr0]. exists (line :: r0). rewrite Hin.
      cbn in Hr0. now rewrite Hr0. }
    split.
    + intros [|f'] Hf; [lia|]. rewrite Hstep, Hb. cbn [snd].
      rewrite Hread. apply H2. cbn in *. lia.
    + intros st' Hrun. destruct (H3 st' Hrun) as [(read & l & Hs & Hl)|[Hc Hs]].
      * exists (line :: read), l. cbn in Hs. rewrite Hs. now split.
      * exists [], line. cbn in Hs. rewrite Hs. now split.
Qed.

Lemma settings_banner_prints (s : state) :
  exists s', settings_banner s = (Ok tt, s') /\ stdin s' = stdin s.
Proof. eexists. split; reflexivity. Qed.

Lemma main_banner_prints (s : state) :
  exists s', main_banner s = (Ok tt, s') /\ stdin s' = stdin s.
Proof. eexists. split; reflexivity. Qed.

Lemma settings_menu_loop_ends (env : environment) (desk : desktop) :
  forall fuel st,
    List.length (stdin st) < fuel ->
    loop_ends (settings_menu env desk) (py "6") fuel st.
Proof.
  induction fuel as [|fuel IH]; intros st Hlen; [lia|].
  apply loop_ends_ext
    with (loop := menu_loop (settings_banner)
                            (py "Please enter your choice (1-6): ")
                            (settings_round env desk)).
  { intros [|f] s; reflexivity. }
  apply menu_round; [exact settings_banner_prints| |exact Hlen].
  intros choice s Hs. unfold settings_round.
  assert (Hgo : forall act : M unit,
             steps console_shrinks act ->
             round_ends (fun f => act ;;; settings_menu env desk f)
                        (py "6") choice fuel s).
  { intros act Hact.
    apply (@round_continues (settings_menu env desk) (py "6") choice
                            (fun _ => act) fuel s);
      [reflexivity|apply Hact|apply Hact|exact IH|exact Hs]. }
  destruct (str_eqb choice (py "1")); [apply Hgo, shrinks_update_schedule_time|].
  destruct (str_eqb choice (py "2")); [apply Hgo, shrinks_update_api_key|].
  destruct (str_eqb choice (py "3")); [apply Hgo, shrinks_update_model|].
  destruct (str_eqb choice (py "4")); [apply Hgo, shrinks_edit_prompt|].
  destruct (str_eqb choice (py "5")); [apply Hgo, shrinks_toggle_gui|].
  destruct (str_eqb choice (py "6")) eqn:H6; [|apply Hgo, shrinks_print].
  apply str_eqb_eq in H6. subst choice.
  apply (@round_leaves (ret tt)). intros s0. now exists s0.
Qed.

Lemma main_menu_loop_ends (env : environment) (desk : desktop) :
  forall fuel st,
    List.length (stdin st) < fuel ->
    loop_ends (main_menu env desk) (py "4") fuel st.
Proof.
  induction fuel as [|fuel IH]; intros st Hlen; [lia|].
  apply loop_ends_ext
    with (loop := menu_loop (main_banner)
                            (py "Please enter your choice (1-4): ")
                            (main_round env desk)).
  { intros [|f] s; reflexivity. }
  apply menu_round; [exact main_banner_prints| |exact Hlen].
  intros choice s Hs. unfold main_round.
  assert (Hgo : forall act : M unit,
             steps console_shrinks act ->
             round_ends (fun f => act ;;; main_menu env desk f)
                        (py "4") choice fuel s).
  { intros act Hact.
    apply (@round_continues (main_menu env desk) (py "4") choice
                            (fun _ => act) fuel s);
      [reflexivity|apply Hact|apply Hact|exact IH|exact Hs]. }
  destruct (str_eqb choice (py "1")); [apply Hgo, shrinks_schedule_task|].
  destruct (str_eqb choice (py "2")); [apply Hgo, shrinks_get_meme_stocks|].
  destruct (str_eqb choice (py "3")).
  { destruct (@settings_menu_loop_ends env desk fuel s Hs) as (H1 & H0 & H2 & _).
    apply (@round_continues (main_menu env desk) (py "4") choice
                            (settings_menu env desk) fuel s);
      [exact H2|exact H1|exact H0|exact IH|exact Hs]. }
  destruct (str_eqb choice (py "4")) eqn:H4.
  { apply str_eqb_eq in H4. subst choice.
    apply (@round_leaves (print (py "Exiting."))).
    intros s0. eexists. split; reflexivity. }
  destruct (str_eqb (lower choice) (py "cookie"));
    [apply Hgo, shrinks_show_cookie_easter_egg|apply Hgo, shrinks_print].
Qed.

(** ** What the generator leaves alone *)

Lemma generator_frame_refl (env : environment) (st : state) :
  generator_frame env st st.
Proof. repeat split. Qed.

Lemma generator_frame_trans (env : environment) (a b c : state) :
  generator_frame env a b -> generator_frame env b c -> generator_frame env a c.
Proof.
  intros (Hc1 & Hi1 & Hr1) (Hc2 & Hi2 & Hr2). split; [congruence|].
  split; [congruence|]. intros name Hn. now rewrite Hr2, Hr1.
Qed.

Lemma frame_emit (env : environment) (ev : event) :
  steps (generator_frame env) (emit ev).
Proof. intros st. split; [discriminate|]. repeat split. Qed.

Lemma frame_get_config_value (env : environment) (s k : str) (fb : option str) :
  steps (generator_frame env) (get_config_value s k fb).
Proof.
  intros st. destruct (get_config_value_spec s k fb st) as (v & new & -> & _).
  split; [discriminate|]. repeat split.
Qed.

Lemma frame_call_gemini_api (env : environment) (gemini_model prompt : str) :
  steps (generator_frame env) (_call_gemini_api env gemini_model prompt).
Proof.
  intros st. destruct (call_gemini_api_spec env gemini_model prompt st)
    as (r & new & -> & Hr & _).
  split; [exact Hr|]. repeat split.
Qed.

Lemma frame_str_format (env : environment) (template : option str)
      (today_date : str) :
  steps (generator_frame env) (str_format env template today_date).
Proof.
  intros st. destruct (str_format_spec env template today_date st) as (r & -> & Hr).
  split; [exact Hr|apply generator_frame_refl].
Qed.

Lemma frame_write_report (env : environment) (output_text : option str) :
  steps (generator_frame env)
        (write_report env (report_name (today env)) output_text).
Proof.
  intros st. unfold write_report.
  destruct (report_writable env); [destruct output_text|];
    (split; [discriminate|]); cbn [snd]; unfold generator_frame;
    cbn [config_ini stdin reports]; repeat split;
    intros name Hn; now apply dict_get_set_other.
Qed.

Ltac frame_step env :=
  first [ apply steps_ret; exact (generator_frame_refl env)
        | apply steps_raise; exact (generator_frame_refl env)
        | apply frame_emit
        | apply frame_get_config_value
        | apply frame_call_gemini_api
        | apply frame_str_format
        | apply frame_write_report
        | apply (steps_bind (@generator_frame_trans env)); [|intro]
        | apply (steps_try_except (@generator_frame_trans env)); [|intro]
        | match goal with
          | |- steps _ (match ?x with _ => _ end) => destruct x
          end ].

(** [get_meme_stocks] never writes the config file and never touches
    the report of another day.  It leaves the console input alone, except
    in a session without the [run] argument where it consumes one line
    (the wait for Enter after the missing-key message); in that case it
    has written no report and made no backend call. *)
Theorem get_meme_stocks_frame (env : environment) (st : state) :
  let st' := snd (get_meme_stocks env st) in
  config_ini st' = config_ini st
  /\ (forall name, name <> report_name (today env) ->
                   ConfigParser.dict_get name (reports st')
                   = ConfigParser.dict_get name (reports st))
  /\ (stdin st' = stdin st
      \/ (run_argument env = false /\ stdin st' = tl (stdin st)
          /\ reports st' = reports st /\ calls st' = calls st)).
Proof.
  cbv zeta. destruct (get_meme_stocks env st) as [r st'] eqn:Hrun. cbn [snd].
  unfold get_meme_stocks in Hrun.
  destruct (negb (genai_installed env)).
  { injection Hrun as _ <-. split; [reflexivity|]. split; [reflexivity|]. now left. }
  unfold bind at 1 in Hrun.
  destruct (get_config_value_spec (py "API") (py "KEY") None st)
    as (api_key & new & Hget & _).
  rewrite Hget in Hrun.
  destruct (negb (truthy api_key)
            || str_eqb (show api_key) (py "YOUR_API_KEY_HERE")).
  - rewrite (bind_ok _ (print_eq _ _)) in Hrun.
    destruct (run_argument env).
    { injection Hrun as _ <-. split; [reflexivity|]. split; [reflexivity|]. now left. }
    unfold press_enter, bind, input in Hrun. cbn [stdin with_events] in Hrun.
    destruct (stdin st) as [|line rest]; injection Hrun as _ <-;
      (split; [reflexivity|]); (split; [reflexivity|]);
      right; repeat split.
  - match type of Hrun with
    | try_except ?body ?c ?h ?s = _ =>
        assert (H : steps (generator_frame env) (try_except body c h));
        [|destruct (H s) as [_ (Hc & Hi & Hr)]]
    end.
    { unfold _display_report_gui, except_clauses, report_failure.
      repeat frame_step env. }
    rewrite Hrun in Hc, Hi, Hr. cbn [snd] in Hc, Hi, Hr.
    split; [exact Hc|]. split; [exact Hr|]. left. exact Hi.
Qed.

(** ** Editing the prompt *)

Lemma get_with_fallback (p : ConfigParser.parser str) (s k fb : str) :
  exists v, ConfigParser.get p s k (Some fb) = Some v.
Proof.
  unfold ConfigParser.get.
  destruct (ConfigParser.dict_get s (ConfigParser._sections p)) as [d|].
  - destruct (ConfigParser.dict_get (ConfigParser.optionxform k) d);
      [now eexists|].
    destruct (ConfigParser.dict_get (ConfigParser.optionxform k)
                                    (ConfigParser._defaults p)); now eexists.
  - destruct (str_eqb s ConfigParser.default_section); [|now eexists].
    cbn. destruct (ConfigParser.dict_get (ConfigParser.optionxform k)
                                         (ConfigParser._defaults p)); now eexists.
Qed.

(** With a fallback that is a string, [get_config_value] returns a
    string. *)
Lemma get_config_value_fallback (s k fb : str) (st : state) :
  exists v new,
    get_config_value s k (Some fb) st = (Ok (Some v), with_events st new).
Proof.
  unfold get_config_value.
  destruct (config_ini st) as [text|] eqn:Hini.
  - destruct (read_config st) as [err|p].
    + exists fb, [Print (py "Error reading config")]. reflexivity.
    + destruct (get_with_fallback p s k fb) as (v & ->).
      exists v, []. now rewrite with_events_nil.
  - exists fb, []. now rewrite with_events_nil.
Qed.

Lemma keeps_config_edit_prompt_end (desk : desktop) (current_prompt : option str) :
  keeps_config
    (match current_prompt, tempfile desk with
     | Some _, None =>
         match remove desk with
         | Some x => raise x
         | None => ret tt
         end
     | _, _ => ret tt
     end ;;; press_enter).
Proof.
  apply keeps_config_bind; [|intros _; apply keeps_config_press_enter].
  destruct current_prompt; [|apply keeps_config_ret].
  destruct (tempfile desk); [apply keeps_config_ret|].
  destruct (remove desk); [apply keeps_config_raise|apply keeps_config_ret].
Qed.

(** The messages before the editor is opened, and the line read when it
    is closed. *)
Lemma edit_prompt_try (current : str) (st : state) :
  exists new,
    forall k : M unit,
      (print (py " Here is the current prompt:" ++ [LF]) ;;;
       print dashes ;;;
       print current ;;;
       print dashes ;;;
       print (py "Opening prompt in your default text editor...") ;;;
       print (py "Use {today_date} in your prompt to insert today's date automatically.") ;;;
       print (py "Please save your changes and close the editor to continue.") ;;;
       input (py "Press Enter here after you have saved and closed the text editor...") ;;;
       k) st
      = match stdin st with
        | [] => (Raise EOFError,
                 mkState (config_ini st) (reports st) [] (trace st ++ new) (calls st))
        | _ :: rest =>
            k (mkState (config_ini st) (reports st) rest (trace st ++ new) (calls st))
        end.
Proof.
  eexists. intros k.
  repeat (rewrite (bind_ok _ (print_eq _ _)); rewrite ?with_events_app).
  unfold bind, input. cbn [stdin with_events config_ini reports trace calls].
  destruct (stdin st); rewrite <- ?app_assoc; reflexivity.
Qed.

Lemma keeps_config_save_prompt_same (env : environment) (current new_prompt : str) :
  new_prompt = [] \/ new_prompt = current ->
  keeps_config (save_prompt env current new_prompt).
Proof.
  intros H. unfold save_prompt. destruct new_prompt as [|c t].
  - apply keeps_config_print.
  - destruct H as [H|H]; [discriminate|]. rewrite H, str_eqb_refl.
    apply keeps_config_print.
Qed.

Lemma bind_then_keeps {A B : Type} (m : M A) (k : A -> M B) (st : state) :
  (forall a, keeps_config (k a)) ->
  config_ini (snd (bind m k st)) = config_ini (snd (m st)).
Proof.
  intros Hk. unfold bind. destruct (m st) as [[a|x|] s]; try reflexivity.
  apply Hk.
Qed.

Lemma try_then_keeps {A : Type} (body : M A) (catches : exn -> bool)
      (handler : exn -> M A) (st : state) :
  (forall x, keeps_config (handler x)) ->
  config_ini (snd (try_except body catches handler st))
  = config_ini (snd (body st)).
Proof.
  intros Hh. unfold try_except. destruct (body st) as [[a|x|] s]; try reflexivity.
  destruct (catches x); [apply Hh|reflexivity].
Qed.

(** [edit_prompt] writes the config file only for a new prompt: if the
    file is not as before, then the temporary file was written, the
    editor was opened, a line was read from the console, and the text
    read back from the temporary file, stripped, is neither empty nor the
    current prompt. *)
Theorem edit_prompt_only_new (env : environment) (desk : desktop) (st : state) :
  config_ini (snd (edit_prompt env desk st)) <> config_ini st ->
  exists current text,
    fst (get_config_value (py "Prompt") (py "TEMPLATE")
                          (Some DEFAULT_PROMPT_TEMPLATE) st) = Ok (Some current)
    /\ tempfile desk = None /\ launch desk (platform env) = None
    /\ stdin st <> []
    /\ read_back desk current = inl text
    /\ strip text <> [] /\ strip text <> current.
Proof.
  intros Hch. unfold edit_prompt in Hch. unfold bind at 1 in Hch.
  destruct (get_config_value_fallback (py "Prompt") (py "TEMPLATE")
                                      DEFAULT_PROMPT_TEMPLATE st)
    as (current & new & Hget).
  rewrite Hget in Hch. exists current.
  rewrite bind_then_keeps in Hch
    by (intros u; exact (@keeps_config_edit_prompt_end desk (Some current))).
  rewrite try_then_keeps in Hch by (intros x; apply keeps_config_print).
  destruct (tempfile desk) as [x|] eqn:Ht; [now elim Hch|].
  destruct (launch desk (platform env)) as [x|] eqn:Hl; [now elim Hch|].
  destruct (@edit_prompt_try current (with_events st new)) as (evs & Htry).
  rewrite Htry in Hch. cbn [stdin with_events] in Hch.
  destruct (stdin st) as [|line rest] eqn:Hin; [now elim Hch|].
  destruct (read_back desk current) as [text|x] eqn:Hback; [|now elim Hch].
  exists text. rewrite Hget. cbn [fst].
  repeat (split; [reflexivity|]). split; [discriminate|]. split; [reflexivity|].
  split.
  - intros Hs. apply Hch.
    now rewrite (@keeps_config_save_prompt_same env current (strip text) (or_introl Hs)).
  - intros Hs. apply Hch.
    now rewrite (@keeps_config_save_prompt_same env current (strip text) (or_intror Hs)).
Qed.

Lemma save_prompt_stores (env : environment) (current new_prompt : str)
      (ls : list str) (s : state) (p : ConfigParser.parser str) :
  read_config s = inr p -> config_writable env = true ->
  new_prompt = join_nl ls -> value_lines ls = true ->
  new_prompt <> [] -> new_prompt <> current ->
  exists s2 p2,
    save_prompt env current new_prompt s = (Ok tt, s2)
    /\ read_config s2 = inr p2
    /\ (forall fb, ConfigParser.get p2 (py "Prompt") (py "TEMPLATE") fb
                   = Some new_prompt)
    /\ In (Print (py "SUCCESS: Prompt template has been updated successfully!"))
          (trace s2).
Proof.
  intros Hread Hw Hjoin Hls Hne Hdiff. unfold save_prompt.
  destruct new_prompt as [|c t] eqn:Hnew; [congruence|].
  apply str_eqb_neq in Hdiff. rewrite Hdiff.
  destruct (@set_config_value_ok env (py "Prompt") (py "TEMPLATE") (c :: t)
                                 s p Hread eq_refl)
    as (sb & Hset); [vm_compute; discriminate|exact Hw|].
  rewrite (bind_ok _ Hset).
  rewrite Hjoin in Hset.
  destruct (@set_config_value_stored_lines env (py "Prompt") (py "TEMPLATE") ls
                                           s sb eq_refl eq_refl Hls Hset)
    as (p0 & _ & Hreadb & Hsb).
  eexists _, _. split; [reflexivity|]. split.
  - rewrite <- Hreadb. apply read_config_ini. reflexivity.
  - split.
    + intros fb. rewrite Hjoin. now apply get_set_same.
    + cbn [snd trace with_events]. rewrite Hsb. cbn [trace].
      apply in_or_app. left. apply in_or_app. left. apply in_or_app. left.
      apply in_or_app. left. apply in_or_app. right. now left.
Qed.

(** An edited prompt is stored as typed, also when it has several lines:
    when the config file can be read and written, the desktop steps work,
    and the text read back, stripped, is new and made of lines without
    white space at their ends, none after the first starting with [#] or
    [;], then afterwards [Prompt] [TEMPLATE] reads exactly that text, and
    the success message was printed. *)
Theorem edit_prompt_stores (env : environment) (desk : desktop) (st : state)
      (p : ConfigParser.parser str) (current text : str) (ls : list str) :
  read_config st = inr p -> config_writable env = true ->
  ConfigParser.get p (py "Prompt") (py "TEMPLATE") (Some DEFAULT_PROMPT_TEMPLATE)
  = Some current ->
  tempfile desk = None -> launch desk (platform env) = None -> stdin st <> [] ->
  read_back desk current = inl text ->
  strip text = join_nl ls -> value_lines ls = true ->
  strip text <> [] -> strip text <> current ->
  let st' := snd (edit_prompt env desk st) in
  (forall fb, get_config_value (py "Prompt") (py "TEMPLATE") fb st'
              = (Ok (Some (strip text)), st'))
  /\ In (Print (py "SUCCESS: Prompt template has been updated successfully!"))
        (trace st').
Proof.
  intros Hread Hw Hget Ht Hl Hin Hback Hjoin Hls Hne Hdiff. cbv zeta.
  destruct (edit_prompt env desk st) as [r st'] eqn:Hrun. cbn [snd].
  unfold edit_prompt in Hrun. unfold bind at 1 in Hrun.
  rewrite (@get_config_value_read st p _ _ _ Hread), Hget in Hrun.
  rewrite Ht, Hl, Hback in Hrun.
  destruct (@edit_prompt_try current st) as (evs & Htry).
  destruct (stdin st) as [|line rest] eqn:Hstdin; [congruence|].
  match type of Htry with
  | forall k, _ = k ?s => set (s1 := s) in *
  end.
  assert (Hread1 : read_config s1 = inr p)
    by (rewrite <- Hread; apply read_config_ini; reflexivity).
  destruct (@save_prompt_stores env current (strip text) ls s1 p
                                Hread1 Hw Hjoin Hls Hne Hdiff)
    as (s2 & p2 & Hsave & Hread2 & Hp2 & Hmsg).
  rewrite <- Htry in Hsave.
  unfold bind at 1 in Hrun. rewrite (try_except_ok _ _ Hsave) in Hrun.
  assert (Hend : config_ini st' = config_ini s2
                 /\ exists more, trace st' = trace s2 ++ more).
  { revert Hrun. unfold bind, press_enter, input, raise, ret.
    destruct (remove desk) as [x|].
    - intros H. injection H as _ <-. split; [reflexivity|].
      exists []. now rewrite app_nil_r.
    - unfold bind. destruct (stdin s2); intros H; injection H as _ <-;
        (split; [reflexivity|]); eexists; reflexivity. }
  destruct Hend as (Hc & more & Htr). split.
  - intros fb.
    assert (Hread' : read_config st' = inr p2)
      by (rewrite <- Hread2; now apply read_config_ini).
    rewrite (@get_config_value_read st' p2 _ _ fb Hread'). now rewrite Hp2.
  - rewrite Htr. apply in_or_app. now left.
Qed.

Lemma bind_returns {A B : Type} (m : M A) (f : A -> M B) (st st' : state) (b : B) :
  bind m f st = (Ok b, st') ->
  exists a s, m st = (Ok a, s) /\ f a s = (Ok b, st').
Proof.
  unfold bind. destruct (m st) as [[a|x|] s]; try discriminate.
  intros H. now exists a, s.
Qed.

Lemma main_menu_exiting (env : environment) (desk : desktop) :
  forall fuel st st',
    main_menu env desk fuel st = (Ok tt, st') ->
    exists before, trace st' = before ++ [Print (py "Exiting.")].
Proof.
  induction fuel as [|fuel IH]; intros st st' Hrun; [discriminate|].
  cbn [main_menu] in Hrun.
  apply bind_returns in Hrun. destruct Hrun as (u & s1 & _ & Hrun).
  apply bind_returns in Hrun. destruct Hrun as (line & s2 & _ & Hrun).
  cbv zeta in Hrun.
  assert (Hgo : forall act : M unit,
             (act ;;; main_menu env desk fuel) s2 = (Ok tt, st') ->
             exists before, trace st' = before ++ [Print (py "Exiting.")]).
  { intros act H. apply bind_returns in H. destruct H as (u' & s3 & _ & H).
    exact (IH _ _ H). }
  destruct (str_eqb (strip line) (py "1")); [exact (Hgo _ Hrun)|].
  destruct (str_eqb (strip line) (py "2")); [exact (Hgo _ Hrun)|].
  destruct (str_eqb (strip line) (py "3")); [exact (Hgo _ Hrun)|].
  destruct (str_eqb (strip line) (py "4")).
  { rewrite print_eq in Hrun. injection Hrun as <-. now exists (trace s2). }
  destruct (str_eqb (lower (strip line)) (py "cookie")); exact (Hgo _ Hrun).
Qed.

(** [settings_menu] ends on every console input.  With more fuel than
    lines left on the console the loop does not exhaust it, and the result
    is the same for every such fuel; the input that is left is the end of
    what there was; and the menu returns only right after reading a line
    that is [6] once stripped: in every other case it goes on until the
    console input is used up and [input] raises, or until a call raises. *)
Theorem settings_menu_ends (env : environment) (desk : desktop) (fuel : nat)
        (st : state) :
  List.length (stdin st) < fuel ->
  fst (settings_menu env desk fuel st) <> OutOfFuel
  /\ (exists read, stdin st = read ++ stdin (snd (settings_menu env desk fuel st)))
  /\ (forall fuel', List.length (stdin st) < fuel' ->
                    settings_menu env desk fuel' st = settings_menu env desk fuel st)
  /\ (forall st', settings_menu env desk fuel st = (Ok tt, st') ->
                  exists read line,
                    stdin st = read ++ line :: stdin st' /\ strip line = py "6").
Proof. intros Hlen. exact (@settings_menu_loop_ends env desk fuel st Hlen). Qed.

Lemma settings_menu_ends_witness :
  let env := sample_env [] true 0 None in
  let desk := mkDesktop None (fun _ => None) (fun text => inl text) None EggClosed in
  let st := sample_state None [py "5"; py ""; py "9"; py " 6 "; py "left"] in
  settings_menu env desk 6 st = settings_menu env desk 40 st.
Proof.
  intros env desk st.
  refine (proj1 (proj2 (proj2 (@settings_menu_ends env desk 40 st _))) 6 _);
    cbn; lia.
Defined.

(** [main_menu] ends on every console input, in the same sense, and it
    returns only right after reading a line that is [4] once stripped and
    printing [Exiting.]. *)
Theorem main_menu_ends (env : environment) (desk : desktop) (fuel : nat)
        (st : state) :
  List.length (stdin st) < fuel ->
  fst (main_menu env desk fuel st) <> OutOfFuel
  /\ (exists read, stdin st = read ++ stdin (snd (main_menu env desk fuel st)))
  /\ (forall fuel', List.length (stdin st) < fuel' ->
                    main_menu env desk fuel' st = main_menu env desk fuel st)
  /\ (forall st', main_menu env desk fuel st = (Ok tt, st') ->
                  (exists read line,
                      stdin st = read ++ line :: stdin st' /\ strip line = py "4")
                  /\ exists before, trace st' = before ++ [Print (py "Exiting.")]).
Proof.
  intros Hlen.
  destruct (@main_menu_loop_ends env desk fuel st Hlen) as (H1 & H0 & H2 & H3).
  split; [exact H1|]. split; [exact H0|]. split; [exact H2|].
  intros st' Hrun. split; [exact (H3 st' Hrun)|].
  exact (@main_menu_exiting env desk fuel st st' Hrun).
Qed.

Lemma main_menu_ends_witness :
  let env := sample_env [] true 0 None in
  let desk := mkDesktop None (fun _ => None) (fun text => inl text) None EggClosed in
  let st := sample_state None [py "3"; py "6"; py "Cookie"; py "x"; py " 4"; py "left"] in
  fst (main_menu env desk 7 st) <> OutOfFuel.
Proof.
  intros env desk st.
  refine (proj1 (@main_menu_ends env desk 7 st _)). cbn. lia.
Defined.

Lemma edit_prompt_only_new_witness :
  let env := sample_env [] true 0 None in
  let desk := mkDesktop None (fun _ => None)
                        (fun _ => inl (py "Rank the movers of {today_date}." ++ [LF]))
                        None EggClosed in
  let st := sample_state None [py ""; py ""] in
  exists current text,
    fst (get_config_value (py "Prompt") (py "TEMPLATE")
                          (Some DEFAULT_PROMPT_TEMPLATE) st) = Ok (Some current)
    /\ tempfile desk = None /\ launch desk (platform env) = None
    /\ stdin st <> []
    /\ read_back desk current = inl text
    /\ strip text <> [] /\ strip text <> current.
Proof.
  intros env desk st. apply (@edit_prompt_only_new env desk st).
  vm_compute. discriminate.
Defined.

Lemma edit_prompt_stores_witness :
  let env := sample_env [] true 0 None in
  let desk := mkDesktop None (fun _ => None)
                        (fun _ => inl (py "  Rank the movers of {today_date}." ++ [LF]
                                       ++ py "Give a table." ++ [LF]))
                        None EggClosed in
  let st := sample_state None [py ""; py ""] in
  let st' := snd (edit_prompt env desk st) in
  get_config_value (py "Prompt") (py "TEMPLATE") None st'
  = (Ok (Some (py "Rank the movers of {today_date}." ++ [LF] ++ py "Give a table.")),
     st').
Proof.
  intros env desk st st'.
  refine (proj1 (@edit_prompt_stores env desk st (ConfigParser.empty str)
                   DEFAULT_PROMPT_TEMPLATE
                   (py "  Rank the movers of {today_date}." ++ [LF]
                    ++ py "Give a table." ++ [LF])
                   [py "Rank the movers of {today_date}."; py "Give a table."]
                   _ _ _ _ _ _ _ _ _ _ _) None);
    try (vm_compute; reflexivity); vm_compute; discriminate.
Defined.
